(** * dogfood: skills profile, job ingestion and matching

    A shallow embedding of the core of the dogfood tool
    ([src/lib/skills.js], [src/lib/jobs.js], [src/lib/analyzer.js],
    [sanitizeFilename] of [src/lib/config.js]), the properties of it that
    the specification states, and further properties that the code shows.

    Modelling conventions.
    - A JS string is a [string]; every [ascii] stands for the UTF-16 code
      unit of the same number (0..255).
    - A JS number is a rational ([Q]) or, where the code only ever holds
      integers (lengths, counters, scores after [Math.round]), a [Z]. The
      percentages ([Math.round((a / b) * 100)]) are computed as the code
      computes them, each operation rounded to the nearest double
      ([JS.double]); [Binary64] evaluates the same expressions with the
      IEEE 754 operations of the standard library, and the two are
      compared on a range of inputs below. The tiers of
      [calculateProficiency] are computed on exact rationals and compared
      with [Binary64] in the same way.
    - A JS object used as a dictionary is an association list of its own
      properties in property order. The counters whose keys are the tags
      of the analyzer's own tables (languages, extensions, patterns,
      frameworks) list them in insertion order. Where the keys are taken
      from user data (dependency names, fields of a job), the model
      follows the object as it is: a name that [Object.prototype] defines
      reads as the inherited member, and the array indices come first.
    - Code that can throw lives in the [exc] monad; [try]/[catch] is
      [try_catch].
    - The file system is a parameter: a directory is the listing that
      [readdirSync] returns ([Walk.Entry]), a manifest is its content or
      its absence, [existsSync] is a function on paths. *)

From Stdlib Require Import ZArith QArith Qround Qpower Lqa List Bool Ascii String Lia
  Permutation Sorted.
From Stdlib Require DecimalString HexadecimalString DecimalPos.
From Stdlib Require Import SpecFloat.
Import ListNotations.

#[local] Open Scope list_scope.
#[local] Open Scope string_scope.
#[local] Open Scope Z_scope.

Set Implicit Arguments.
Set Warnings "-register-all".

(** ** Exceptions *)

Inductive exc (A : Type) : Type :=
| Ok (a : A)
| Throw (msg : string).

Arguments Ok {A} a.
Arguments Throw {A} msg.

Definition bind {A B : Type} (m : exc A) (k : A -> exc B) : exc B :=
  match m with
  | Ok a => k a
  | Throw e => Throw e
  end.

Definition try_catch {A : Type} (body : exc A) (handler : string -> exc A) : exc A :=
  match body with
  | Ok a => Ok a
  | Throw e => handler e
  end.

Notation "x <- m ;; k" := (bind m (fun x => k))
  (at level 61, m at next level, right associativity).

Fixpoint mapM {A B : Type} (f : A -> exc B) (l : list A) : exc (list B) :=
  match l with
  | [] => Ok []
  | a :: t => b <- f a ;; bs <- mapM f t ;; Ok (b :: bs)
  end.

(** ** JavaScript primitives *)

Module JS.

(** *** Strings *)

Definition charCode (c : ascii) : Z := Z.of_N (N_of_ascii c).

Definition fromCharCode (z : Z) : ascii := ascii_of_N (Z.to_N z).

(** [String.prototype.toLowerCase] on code units 0..255: A-Z and the
    Latin-1 capitals (all of 192..222 but the multiplication sign). *)
Definition lowerChar (c : ascii) : ascii :=
  let n := charCode c in
  if ((65 <=? n) && (n <=? 90)) || ((192 <=? n) && (n <=? 222) && negb (n =? 215))
  then fromCharCode (n + 32)
  else c.

Fixpoint toLowerCase (s : string) : string :=
  match s with
  | EmptyString => EmptyString
  | String c t => String (lowerChar c) (toLowerCase t)
  end.

(** White space and line terminators, as [trim] sees them. *)
Definition isSpace (c : ascii) : bool :=
  let n := charCode c in
  ((9 <=? n) && (n <=? 13)) || (n =? 32) || (n =? 160).

Fixpoint trimStart (s : string) : string :=
  match s with
  | EmptyString => EmptyString
  | String c t => if isSpace c then trimStart t else s
  end.

Fixpoint trimEnd (s : string) : string :=
  match s with
  | EmptyString => EmptyString
  | String c t =>
      match trimEnd t with
      | EmptyString => if isSpace c then EmptyString else String c EmptyString
      | t' => String c t'
      end
  end.

Definition trim (s : string) : string := trimEnd (trimStart s).

(** [s.includes(sub)] *)
Fixpoint includes (s sub : string) : bool :=
  prefix sub s ||
  match s with
  | EmptyString => false
  | String _ t => includes t sub
  end.

(** [s.split(sep)] for a one-character separator. *)
Fixpoint split (sep : ascii) (s : string) : list string :=
  match s with
  | EmptyString => [EmptyString]
  | String c t =>
      if Ascii.eqb c sep then EmptyString :: split sep t
      else match split sep t with
           | [] => [String c EmptyString]
           | w :: ws => String c w :: ws
           end
  end.

(** [s.slice(0, n)] *)
Definition slice0 (n : nat) (s : string) : string := substring 0 n s.

(** [list.includes(x)] on strings *)
Definition mem (x : string) (l : list string) : bool :=
  existsb (String.eqb x) l.

(** *** Numbers *)

(** [Math.round]: the nearest integer, a tie going up. *)
Definition round (x : Q) : Z := Qfloor (x + (1 # 2))%Q.

(** *** Double precision

    Every arithmetic operation yields the double nearest to its exact
    result, a tie going to the even significand. [double x] is that
    rounding for the magnitudes between [2^-1022] and [2^1024], where a
    double has a significand of 53 bits; the quotients and products of
    lengths and counts stay well inside. An integer of magnitude up to
    [2^53] is a double. *)

(** The nearest integer, a tie going to the even one. *)
Definition nearestEven (q : Q) : Z :=
  let f := Qfloor q in
  match Qcompare (q - inject_Z f) (1 # 2) with
  | Lt => f
  | Gt => f + 1
  | Eq => if Z.even f then f else f + 1
  end.

(** For [x > 0], the exponent [e] of the last place:
    [2^52 <= x / 2^e < 2^53]. *)
Definition exponent (x : Q) : Z :=
  let e := Z.log2 (Qnum x) - Z.log2 (Zpos (Qden x)) - 52 in
  if Qle_bool (Qpower 2 (e + 52)) x then e else e - 1.

Definition double (x : Q) : Q :=
  match Qcompare x 0 with
  | Eq => 0%Q
  | Gt => let e := exponent x in
          (inject_Z (nearestEven (x / Qpower 2 e)) * Qpower 2 e)%Q
  | Lt => let e := exponent (- x) in
          (- (inject_Z (nearestEven (- x / Qpower 2 e)) * Qpower 2 e))%Q
  end.

(** [Math.round((a / b) * 100)] for two integers, [b] not 0: the
    quotient is rounded, then the product. *)
Definition percent (a b : Z) : Z :=
  round (double (double (inject_Z a / inject_Z b) * 100)%Q).

(** A number that may be [NaN] (the result of [parseInt], a time value). *)
Inductive num : Type :=
| NaN
| Int (z : Z).

(** [x > k]: false on [NaN]. *)
Definition gtNum (x : num) (k : Z) : bool :=
  match x with
  | NaN => false
  | Int z => k <? z
  end.

(** [x || 0] *)
Definition orZero (x : num) : Z :=
  match x with
  | NaN => 0
  | Int z => z
  end.

Definition isDigit (c : ascii) : bool :=
  (48 <=? charCode c) && (charCode c <=? 57).

Fixpoint digitsValue (acc : Z) (s : string) : Z :=
  match s with
  | EmptyString => acc
  | String c t =>
      if isDigit c then digitsValue (10 * acc + (charCode c - 48)) t else acc
  end.

Definition startsWithDigit (s : string) : bool :=
  match s with
  | String c _ => isDigit c
  | EmptyString => false
  end.

(** [parseInt(s, 10)] *)
Definition parseInt (s : string) : num :=
  match trimStart s with
  | String "-" t => if startsWithDigit t then Int (- digitsValue 0 t) else NaN
  | String "+" t => if startsWithDigit t then Int (digitsValue 0 t) else NaN
  | t => if startsWithDigit t then Int (digitsValue 0 t) else NaN
  end.

Definition decimal (z : Z) : string :=
  DecimalString.NilZero.string_of_int (Z.to_int z).

(** [n.toString(16)] for a non-negative integer. *)
Definition hex (z : Z) : string :=
  HexadecimalString.NilZero.string_of_uint (N.to_hex_uint (Z.to_N z)).

(** [ToInt32]: what [x & x] and [x << k] leave of an integer. *)
Definition toInt32 (z : Z) : Z :=
  let m := z mod 4294967296 in
  if m <? 2147483648 then m else m - 4294967296.

Definition shl (z : Z) (k : Z) : Z := toInt32 (Z.shiftl (toInt32 z) k).

(** *** JSON values, as [JSON.parse] returns them

    Numbers are the integers (of magnitude below 10^21, which print in
    plain decimal). The fields of an object are in property order. *)
Inductive value : Type :=
| JNull
| JBool (b : bool)
| JNum (n : Z)
| JStr (s : string)
| JArr (l : list value)
| JObj (fields : list (string * value)).

(** Truthiness ([ToBoolean]). *)
Definition truthy (v : value) : bool :=
  match v with
  | JNull => false
  | JBool b => b
  | JNum n => negb (n =? 0)
  | JStr s => negb (String.eqb s EmptyString)
  | JArr _ | JObj _ => true
  end.

(** A property read yields [undefined] when the field is absent. *)
Definition truthyU (v : option value) : bool :=
  match v with
  | None => false
  | Some v => truthy v
  end.

Fixpoint assoc {A : Type} (k : string) (l : list (string * A)) : option A :=
  match l with
  | [] => None
  | (k', v) :: t => if String.eqb k k' then Some v else assoc k t
  end.

(** [v[k]] for a field name [k] that no prototype defines: [undefined]
    ([None]) on anything but an object holding [k]; a [TypeError] on
    [null]. *)
Definition field (v : value) (k : string) : option value :=
  match v with
  | JObj fields => assoc k fields
  | _ => None
  end.

Definition get (v : value) (k : string) : exc (option value) :=
  match v with
  | JNull => Throw "TypeError: Cannot read properties of null"
  | _ => Ok (field v k)
  end.

(** [Array.isArray] *)
Definition isArray (v : option value) : bool :=
  match v with
  | Some (JArr _) => true
  | _ => false
  end.

(** The equality of [Set.prototype.has] (SameValueZero). Two objects or
    arrays are the same only when they are one object; those that
    [JSON.parse] returns are all distinct. *)
Definition sameValueZero (a b : value) : bool :=
  match a, b with
  | JNull, JNull => true
  | JBool x, JBool y => Bool.eqb x y
  | JNum x, JNum y => x =? y
  | JStr x, JStr y => String.eqb x y
  | _, _ => false
  end.


Fixpoint join (sep : string) (l : list string) : string :=
  match l with
  | [] => EmptyString
  | [x] => x
  | x :: t => x ++ sep ++ join sep t
  end.

(** [ToString], as a template literal applies it. *)
Fixpoint toString (v : value) : string :=
  match v with
  | JNull => "null"
  | JBool true => "true"
  | JBool false => "false"
  | JNum n => decimal n
  | JStr s => s
  | JArr l =>
      join "," (map (fun x => match x with JNull => EmptyString | _ => toString x end) l)
  | JObj _ => "[object Object]"
  end.

Definition toStringU (v : option value) : string :=
  match v with
  | None => "undefined"
  | Some v => toString v
  end.

(** [JSON.stringify]: string escapes. *)
Definition hexDigit (n : Z) : ascii :=
  if n <? 10 then fromCharCode (48 + n) else fromCharCode (87 + n).

Definition dquote : ascii := fromCharCode 34.
Definition backslash : ascii := fromCharCode 92.

Definition escapeChar (c : ascii) : string :=
  let n := charCode c in
  if n =? 34 then String backslash (String dquote EmptyString)
  else if n =? 92 then "\\"
  else if n =? 8 then "\b"
  else if n =? 12 then "\f"
  else if n =? 10 then "\n"
  else if n =? 13 then "\r"
  else if n =? 9 then "\t"
  else if n <? 32 then
    "\u00" ++ String (hexDigit (n / 16)) (String (hexDigit (n mod 16)) EmptyString)
  else String c EmptyString.

Fixpoint escape (s : string) : string :=
  match s with
  | EmptyString => EmptyString
  | String c t => escapeChar c ++ escape t
  end.

Definition quote (s : string) : string :=
  String dquote (escape s ++ String dquote EmptyString).

(** [JSON.stringify] *)
Fixpoint stringify (v : value) : string :=
  match v with
  | JNull => "null"
  | JBool true => "true"
  | JBool false => "false"
  | JNum n => decimal n
  | JStr s => quote s
  | JArr l => "[" ++ join "," (map stringify l) ++ "]"
  | JObj fields =>
      "{" ++ join "," (map (fun kv : string * value =>
                             let (k, x) := kv in quote k ++ ":" ++ stringify x) fields) ++ "}"
  end.

(** *** Arrays *)

(** [Array.prototype.sort] with a comparator [(a, b) => key(b) - key(a)]:
    descending by key, stable. *)
Section Sort.
Variable A : Type.
Variable key : A -> Z.

Fixpoint insertDesc (x : A) (l : list A) : list A :=
  match l with
  | [] => [x]
  | y :: t => if key x <? key y then y :: insertDesc x t else x :: l
  end.

Definition sortDesc (l : list A) : list A :=
  fold_right insertDesc [] l.
End Sort.

(** *** Objects as dictionaries *)

(** [d[k] = v]: in place when [k] is there, at the end otherwise. *)
Fixpoint assign {A : Type} (k : string) (v : A) (d : list (string * A)) : list (string * A) :=
  match d with
  | [] => [(k, v)]
  | (k', v') :: t =>
      if String.eqb k k' then (k, v) :: t else (k', v') :: assign k v t
  end.

(** [d[k] || init] for values that are objects. *)
Definition valueOr {A : Type} (init : A) (o : option A) : A :=
  match o with
  | Some v => v
  | None => init
  end.

(** [if (!d[k]) d[k] = init; d[k] = f(d[k])] *)
Fixpoint upsert {A : Type} (k : string) (init : A) (f : A -> A) (d : list (string * A))
  : list (string * A) :=
  match d with
  | [] => [(k, f init)]
  | (k', v') :: t =>
      if String.eqb k k' then (k', f v') :: t else (k', v') :: upsert k init f t
  end.

(** *** Objects whose keys are user data

    An object literal inherits from [Object.prototype]: reading one of
    the names below, when it is not an own property, yields the inherited
    member (a function, or the prototype itself for [__proto__]), which
    is truthy. *)
Definition prototypeNames : list string :=
  [ "constructor"; "__defineGetter__"; "__defineSetter__"; "hasOwnProperty";
    "__lookupGetter__"; "__lookupSetter__"; "isPrototypeOf"; "propertyIsEnumerable";
    "toString"; "valueOf"; "__proto__"; "toLocaleString" ].

Definition inherited (k : string) : bool := mem k prototypeNames.

(** A canonical array index: the decimal form of an integer below
    [2^32 - 1]. *)
Definition isArrayIndex (k : string) : bool :=
  match k with
  | EmptyString => false
  | String c rest =>
      forallb isDigit (list_ascii_of_string k)
      && (negb (Ascii.eqb c "0") || String.eqb rest EmptyString)
      && (digitsValue 0 k <? 4294967295)
  end.

(** The own properties are listed with the array indices first, in
    ascending order, then the other keys in the order of their creation.
    [define k v d] creates the property [k], which [d] does not have. *)
Fixpoint insertIndex {A : Type} (k : string) (v : A) (d : list (string * A))
  : list (string * A) :=
  match d with
  | [] => [(k, v)]
  | (k', v') :: t =>
      if isArrayIndex k' && (digitsValue 0 k' <? digitsValue 0 k)
      then (k', v') :: insertIndex k v t
      else (k, v) :: d
  end.

Definition define {A : Type} (k : string) (v : A) (d : list (string * A))
  : list (string * A) :=
  if isArrayIndex k then insertIndex k v d else (d ++ [(k, v)])%list.

(** [d[k] = f(d[k])] on an own property: its place is kept. *)
Fixpoint adjust {A : Type} (k : string) (f : A -> A) (d : list (string * A))
  : list (string * A) :=
  match d with
  | [] => []
  | (k', v') :: t =>
      if String.eqb k k' then (k', f v') :: t else (k', v') :: adjust k f t
  end.

(** [d[k] = v] for a key other than [__proto__]. *)
Definition setProp {A : Type} (k : string) (v : A) (d : list (string * A))
  : list (string * A) :=
  match assoc k d with
  | Some _ => adjust k (fun _ => v) d
  | None => define k v d
  end.

(** The values that are there, in order. *)
Fixpoint somes {A : Type} (l : list (option A)) : list A :=
  match l with
  | [] => []
  | Some a :: t => a :: somes t
  | None :: t => somes t
  end.

(** [[...new Set(l)]]: the first occurrence of every element. *)
Fixpoint uniq (seen : list string) (l : list string) : list string :=
  match l with
  | [] => []
  | x :: t => if mem x seen then uniq seen t else x :: uniq (x :: seen) t
  end.

End JS.

(** ** Repository analysis: the history of a repository ([src/lib/analyzer.js]) *)

Module Analyzer.
Import JS.

(** The seven invocations of the version-control tool. *)
Inductive GitCommand : Type :=
| LastCommitDate    (* git log -1 --format=%ci *)
| FirstCommitDate   (* git log --reverse --format=%ci | head -1 *)
| CommitCount       (* git rev-list --count HEAD *)
| CurrentBranch     (* git branch --show-current *)
| Remotes           (* git remote *)
| BehindUpstream    (* git rev-list --count HEAD..@{upstream} *)
| AuthorLog.        (* git log --format="%aN" | sort | uniq -c | sort -rn | head -5 *)

Inductive Freshness : Type := fresh | aging | stale | unknown.

Record Author : Type := { authorName : string; commits : num }.

(** The object that [analyzeGitHistory] returns. Fields that the
    sentinel of the [catch] branch does not have are [None] there. *)
Record GitHistory : Type := {
  error : option string;
  lastCommit : option string;
  firstCommit : option string;
  commitCount : num;
  currentBranch : option string;
  hasRemote : option bool;
  remoteBehind : option Z;
  daysSinceCommit : option num;
  freshness : Freshness;
  authors : option (list Author)
}.

Definition sentinel : GitHistory :=
  {| error := Some "Not a git repository or git history unavailable";
     lastCommit := None;
     firstCommit := None;
     commitCount := Int 0;
     currentBranch := None;
     hasRemote := None;
     remoteBehind := None;
     daysSinceCommit := None;
     freshness := unknown;
     authors := None |}.

Definition msPerDay : Z := 1000 * 60 * 60 * 24.

(** [Math.floor((Date.now() - t) / msPerDay)] *)
Definition daysSince (now : Z) (t : num) : num :=
  match t with
  | NaN => NaN
  | Int ms => Int ((now - ms) / msPerDay)
  end.

Definition freshnessOf (days : num) : Freshness :=
  if gtNum days 90 then stale
  else if gtNum days 30 then aging
  else fresh.

(** One line of the author log against [/^(\d+)\s+(.+)$/]. *)
Fixpoint spanChars (p : ascii -> bool) (s : string) : string * string :=
  match s with
  | EmptyString => (EmptyString, EmptyString)
  | String c t =>
      if p c then let (a, b) := spanChars p t in (String c a, b)
      else (EmptyString, s)
  end.

Definition isLineTerminator (c : ascii) : bool :=
  (charCode c =? 10) || (charCode c =? 13).

Definition matchAuthorLine (line : string) : option Author :=
  let (digits, rest) := spanChars isDigit (trim line) in
  let (blank, name) := spanChars isSpace rest in
  if String.eqb digits EmptyString || String.eqb blank EmptyString
     || String.eqb name EmptyString
     || existsb isLineTerminator (list_ascii_of_string name)
  then None
  else Some {| authorName := name; commits := parseInt digits |}.

Definition nonEmpty (s : string) : bool := negb (String.eqb s EmptyString).

Definition parseAuthors (out : string) : list Author :=
  somes (map matchAuthorLine (filter nonEmpty (split (fromCharCode 10) (trim out)))).

Section History.
(** The outcome of [execSync] for each command in the repository, the
    clock, and the time value of [new Date(text).getTime()]. *)
Variable execSync : GitCommand -> exc string.
Variable now : Z.
Variable parseDate : string -> num.

(** The inner [try] blocks: a failure of [git remote] leaves both
    variables as initialised, one of the upstream count leaves
    [remoteBehind] at 0. *)
Definition remoteInfo : bool * Z :=
  match execSync Remotes with
  | Throw _ => (false, 0)
  | Ok remotes =>
      let hasRemote := negb (String.eqb (trim remotes) EmptyString) in
      if hasRemote then
        match execSync BehindUpstream with
        | Throw _ => (hasRemote, 0)
        | Ok behind => (hasRemote, orZero (parseInt (trim behind)))
        end
      else (hasRemote, 0)
  end.

(** The body of the outer [try]. *)
Definition historyBody : exc GitHistory :=
  lastCommit <- execSync LastCommitDate ;;
  firstCommit <- execSync FirstCommitDate ;;
  commitCount <- execSync CommitCount ;;
  currentBranch <- execSync CurrentBranch ;;
  let (hasRemote, remoteBehind) := remoteInfo in
  let daysSinceCommit := daysSince now (parseDate (trim lastCommit)) in
  authors <- execSync AuthorLog ;;
  Ok {| error := None;
        lastCommit := Some (trim lastCommit);
        firstCommit := Some (trim firstCommit);
        commitCount := parseInt (trim commitCount);
        currentBranch := Some (trim currentBranch);
        hasRemote := Some hasRemote;
        remoteBehind := Some remoteBehind;
        daysSinceCommit := Some daysSinceCommit;
        freshness := freshnessOf daysSinceCommit;
        authors := Some (parseAuthors authors) |}.

Definition analyzeGitHistory : exc GitHistory :=
  try_catch historyBody (fun _ => Ok sentinel).
End History.

End Analyzer.

(** ** Skills extraction and profiling ([src/lib/skills.js]) *)

(** One analysed repository, as [analyzeRepo] returns it and the review
    screen marks it. An absent [languages], [patterns] or [dependencies]
    reads as the empty list ([repo.languages || []]). *)
Module Lang.
Record t : Type := { name : string; count : Z; percentage : Z }.
End Lang.

Module Repo.
Record t : Type := {
  name : string;
  path : string;
  git : option Analyzer.GitHistory;
  languages : list Lang.t;
  dependencies : list (string * list string);
  patterns : list string;
  excluded : bool
}.
End Repo.

Inductive Proficiency : Type := familiar | intermediate | advanced | expert.

Module FrameworkInfo.
Record t : Type := { category : string; name : string; weight : Q }.
End FrameworkInfo.

Module LangInfo.
Record t : Type := {
  level : string;
  aliases : option (list string);
  parent : option string
}.
End LangInfo.

(** An entry of [profile.languages]: the counts, then the spread
    [...langInfo]. *)
Module LanguageEntry.
Record t : Type := {
  fileCount : Z;
  repoCount : Z;
  proficiency : Proficiency;
  level : string;
  aliases : option (list string);
  parent : option string
}.
End LanguageEntry.

Module FrameworkEntry.
Record t : Type := {
  key : string;
  category : string;
  repoCount : Z;
  proficiency : Proficiency
}.
End FrameworkEntry.

Module ToolEntry.
Record t : Type := { ecosystem : string; repoCount : Z }.
End ToolEntry.

Module Summary.
Record t : Type := {
  totalRepos : Z;
  totalCommits : Z;
  yearsActive : Z;
  topLanguages : list (string * LanguageEntry.t);
  topFrameworks : list (string * FrameworkEntry.t)
}.
End Summary.

Module Profile.
Record t : Type := {
  languages : list (string * LanguageEntry.t);
  frameworks : list (string * FrameworkEntry.t);
  tools : list (string * ToolEntry.t);
  patterns : list string;
  domains : list string;
  summary : Summary.t
}.
End Profile.

(** A stored job, as [normalizeJob] builds it. The fields that it copies
    from the input without looking at them are JSON values. *)
Module Job.
Record t : Type := {
  id : JS.value;
  title : string;
  company : string;
  url : JS.value;
  description : JS.value;
  skills : list string;
  location : JS.value;
  salary : JS.value;
  type : JS.value;
  remote : JS.value;
  source : JS.value;
  datePosted : JS.value;
  dateAdded : JS.value;
  status : JS.value
}.
End Job.

Module Skills.
Import JS.

Definition fw (category name : string) (weight : Q) : FrameworkInfo.t :=
  {| FrameworkInfo.category := category;
     FrameworkInfo.name := name;
     FrameworkInfo.weight := weight |}.

Definition FRAMEWORK_CATEGORIES : list (string * FrameworkInfo.t) :=
  [ ("react", fw "frontend" "React" (15 # 10));
    ("vue", fw "frontend" "Vue.js" (13 # 10));
    ("angular", fw "frontend" "Angular" (13 # 10));
    ("svelte", fw "frontend" "Svelte" (12 # 10));
    ("nextjs", fw "frontend" "Next.js" (14 # 10));
    ("nuxt", fw "frontend" "Nuxt.js" (13 # 10));
    ("gatsby", fw "frontend" "Gatsby" (12 # 10));
    ("nodejs-backend", fw "backend" "Node.js Backend" (14 # 10));
    ("nestjs", fw "backend" "NestJS" (13 # 10));
    ("express", fw "backend" "Express.js" (12 # 10));
    ("fastify", fw "backend" "Fastify" (12 # 10));
    ("mongodb", fw "database" "MongoDB" (12 # 10));
    ("orm", fw "database" "ORM (Prisma/TypeORM)" (13 # 10));
    ("docker", fw "devops" "Docker" (14 # 10));
    ("kubernetes", fw "devops" "Kubernetes" (15 # 10));
    ("ci-cd", fw "devops" "CI/CD" (13 # 10));
    ("infrastructure-as-code", fw "devops" "Infrastructure as Code" (14 # 10));
    ("testing", fw "quality" "Testing" (12 # 10));
    ("e2e-testing", fw "quality" "E2E Testing" (13 # 10));
    ("game-development", fw "specialty" "Game Development" (15 # 10));
    ("3d-graphics", fw "specialty" "3D Graphics" (14 # 10));
    ("data-visualization", fw "specialty" "Data Visualization" (13 # 10));
    ("desktop-app", fw "specialty" "Desktop Apps (Electron)" (13 # 10));
    ("mobile-app", fw "specialty" "Mobile Development" (14 # 10));
    ("graphql", fw "api" "GraphQL" (13 # 10));
    ("component-architecture", fw "architecture" "Component Architecture" (11 # 10));
    ("api-development", fw "architecture" "API Development" (13 # 10));
    ("mvc", fw "architecture" "MVC Pattern" (11 # 10));
    ("state-management", fw "architecture" "State Management" (12 # 10));
    ("react-hooks", fw "architecture" "React Hooks" (11 # 10));
    ("tailwind", fw "styling" "Tailwind CSS" (12 # 10));
    ("css-in-js", fw "styling" "CSS-in-JS" (11 # 10));
    ("typescript", fw "tooling" "TypeScript" (14 # 10));
    ("bundling", fw "tooling" "Build Tools" (11 # 10));
    ("linting", fw "tooling" "Code Quality" (10 # 10)) ].

Definition li (level : string) (aliases : option (list string)) (parent : option string)
  : LangInfo.t :=
  {| LangInfo.level := level; LangInfo.aliases := aliases; LangInfo.parent := parent |}.

Definition LANGUAGE_SKILLS : list (string * LangInfo.t) :=
  [ ("JavaScript", li "language" (Some ["js"; "node"; "nodejs"]) None);
    ("JavaScript (React)", li "language" None (Some "JavaScript"));
    ("TypeScript", li "language" (Some ["ts"]) None);
    ("TypeScript (React)", li "language" None (Some "TypeScript"));
    ("Python", li "language" (Some ["py"; "python3"]) None);
    ("Go", li "language" (Some ["golang"]) None);
    ("Rust", li "language" (Some ["rs"]) None);
    ("Java", li "language" None None);
    ("C#", li "language" (Some ["csharp"; "dotnet"]) None);
    ("C", li "language" None None);
    ("C++", li "language" (Some ["cpp"]) None);
    ("Ruby", li "language" (Some ["rb"]) None);
    ("PHP", li "language" None None);
    ("Swift", li "language" None None);
    ("Kotlin", li "language" None None);
    ("Scala", li "language" None None);
    ("Elixir", li "language" None None);
    ("Haskell", li "language" None None);
    ("Lua", li "language" None None);
    ("SQL", li "language" None None);
    ("Shell", li "language" (Some ["bash"; "sh"]) None);
    ("HTML", li "markup" None None);
    ("CSS", li "styling" None None);
    ("SCSS", li "styling" None (Some "CSS"));
    ("Sass", li "styling" None (Some "CSS"));
    ("Vue", li "framework" None None);
    ("Svelte", li "framework" None None) ].

(** *** The profile builder *)

Inductive LangCount : Type := mkLangCount (count repos : Z).
Inductive ToolCount : Type := mkToolCount (name ecosystem : string) (repos : Z).
(** [{ ...frameworkInfo, repos }] *)
Inductive FrameworkCount : Type := mkFrameworkCount (info : FrameworkInfo.t) (repos : Z).

Definition langRepos (c : LangCount) : Z := let (_, r) := c in r.
Definition toolRepos (c : ToolCount) : Z := let (_, _, r) := c in r.
Definition frameworkRepos (c : FrameworkCount) : Z := let (_, r) := c in r.

(** The variables that the loop over the repositories updates. *)
Record Aggregate : Type := {
  languageCounts : list (string * LangCount);
  frameworkCounts : list (string * FrameworkCount);
  patternCounts : list (string * Z);
  toolCounts : list (string * ToolCount);
  earliestCommit : Z;
  latestCommit : Z;
  totalCommits : Z
}.

Definition addLanguage (counts : list (string * LangCount)) (lang : Lang.t)
  : list (string * LangCount) :=
  upsert (Lang.name lang) (mkLangCount 0 0)
         (fun c => let (n, r) := c in mkLangCount (n + Lang.count lang) (r + 1))
         counts.

Definition addPattern (acc : list (string * Z) * list (string * FrameworkCount))
           (pattern : string) : list (string * Z) * list (string * FrameworkCount) :=
  let (patternCounts, frameworkCounts) := acc in
  (upsert pattern 0 (fun n => n + 1) patternCounts,
   match assoc pattern FRAMEWORK_CATEGORIES with
   | Some frameworkInfo =>
       upsert pattern (mkFrameworkCount frameworkInfo 0)
              (fun c => let (i, r) := c in mkFrameworkCount i (r + 1))
              frameworkCounts
   | None => frameworkCounts
   end).

(** [if (!toolCounts[dep]) toolCounts[dep] = { name: dep, ecosystem,
    repos: 0 }; toolCounts[dep].repos++]. The names of dependencies are
    user data. For a name that [Object.prototype] defines the test reads
    the inherited member, no counter is created, and the increment lands
    on that member ([repos] becomes a property of it, which nothing here
    reads). *)
Definition addDependency (ecosystem : string) (counts : list (string * ToolCount))
           (dep : string) : list (string * ToolCount) :=
  let increment := fun c : ToolCount => let (n, e, r) := c in mkToolCount n e (r + 1) in
  match assoc dep counts with
  | Some _ => adjust dep increment counts
  | None =>
      if inherited dep then counts
      else define dep (increment (mkToolCount dep ecosystem 0)) counts
  end.

Definition addEcosystem (counts : list (string * ToolCount))
           (entry : string * list string) : list (string * ToolCount) :=
  let (ecosystem, deps) := entry in fold_left (addDependency ecosystem) deps counts.

(** [repo.git?.firstCommit], [repo.git?.lastCommit] when truthy. *)
Definition commitText (field : Analyzer.GitHistory -> option string) (repo : Repo.t)
  : option string :=
  match Repo.git repo with
  | Some g =>
      match field g with
      | Some text => if String.eqb text EmptyString then None else Some text
      | None => None
      end
  | None => None
  end.

(** [repo.git?.commitCount || 0] *)
Definition commitsOf (repo : Repo.t) : Z :=
  match Repo.git repo with
  | Some g => orZero (Analyzer.commitCount g)
  | None => 0
  end.

Section Builder.
(** The time value of [new Date(text)] and that of [new Date()]. *)
Variable parseDate : string -> num.
Variable now : Z.

Definition earlier (current : Z) (text : option string) : Z :=
  match text with
  | Some t =>
      match parseDate t with
      | Int first => if first <? current then first else current
      | NaN => current
      end
  | None => current
  end.

Definition later (current : Z) (text : option string) : Z :=
  match text with
  | Some t =>
      match parseDate t with
      | Int last => if current <? last then last else current
      | NaN => current
      end
  | None => current
  end.

(** One turn of [for (const repo of analyzedRepos)]. *)
Definition addRepo (agg : Aggregate) (repo : Repo.t) : Aggregate :=
  if Repo.excluded repo then agg
  else
    let (patternCounts', frameworkCounts') :=
      fold_left addPattern (Repo.patterns repo)
                (patternCounts agg, frameworkCounts agg) in
    {| languageCounts := fold_left addLanguage (Repo.languages repo) (languageCounts agg);
       frameworkCounts := frameworkCounts';
       patternCounts := patternCounts';
       toolCounts := fold_left addEcosystem (Repo.dependencies repo) (toolCounts agg);
       earliestCommit := earlier (earliestCommit agg) (commitText Analyzer.firstCommit repo);
       latestCommit := later (latestCommit agg) (commitText Analyzer.lastCommit repo);
       totalCommits := totalCommits agg + commitsOf repo |}.

Definition emptyAggregate : Aggregate :=
  {| languageCounts := [];
     frameworkCounts := [];
     patternCounts := [];
     toolCounts := [];
     earliestCommit := now;
     latestCommit := 0;
     totalCommits := 0 |}.

Definition aggregate (analyzedRepos : list Repo.t) : Aggregate :=
  fold_left addRepo analyzedRepos emptyAggregate.
End Builder.

(** [calculateProficiency(repoCount, totalRepos, weight = 1)]. With no
    repository at all the quotient is an infinity or [NaN]; only a
    positive infinity passes a threshold. *)
Definition ratio (repoCount totalRepos : Z) (weight : Q) : Q :=
  ((inject_Z repoCount / inject_Z totalRepos) * weight)%Q.

Definition calculateProficiency (repoCount totalRepos : Z) (weight : Q) : Proficiency :=
  if totalRepos =? 0 then
    if Qle_bool (inject_Z repoCount * weight) 0 then familiar else expert
  else
    let ratio := ratio repoCount totalRepos weight in
    if Qle_bool (5 # 10) ratio then expert
    else if Qle_bool (3 # 10) ratio then advanced
    else if Qle_bool (15 # 100) ratio then intermediate
    else familiar.

Definition patternToDomain : list (string * string) :=
  [ ("game-development", "Game Development");
    ("3d-graphics", "3D Graphics & Visualization");
    ("data-visualization", "Data Visualization");
    ("mobile-app", "Mobile Development");
    ("desktop-app", "Desktop Applications");
    ("api-development", "API & Backend Services");
    ("kubernetes", "Cloud Infrastructure");
    ("docker", "DevOps");
    ("ci-cd", "DevOps");
    ("infrastructure-as-code", "Cloud Infrastructure");
    ("testing", "Quality Assurance");
    ("e2e-testing", "Quality Assurance") ].

Definition frameworkToDomain : list (string * string) :=
  [ ("frontend", "Frontend Development");
    ("backend", "Backend Development");
    ("database", "Database & Data");
    ("devops", "DevOps");
    ("specialty", "Specialized Development") ].

(** The domains in the order in which the set receives them. *)
Definition deriveDomains (patterns : list string)
           (frameworks : list (string * FrameworkEntry.t)) : list string :=
  uniq []
    (somes (map (fun pattern => assoc pattern patternToDomain) patterns)
     ++ somes (map (fun f : string * FrameworkEntry.t =>
                      assoc (FrameworkEntry.category (snd f)) frameworkToDomain)
                   frameworks))%list.

Definition defaultLangInfo : LangInfo.t := li "language" None None.

Definition languageEntry (totalRepos : Z) (name : string) (data : LangCount)
  : LanguageEntry.t :=
  let langInfo := match assoc name LANGUAGE_SKILLS with
                  | Some i => i
                  | None => defaultLangInfo
                  end in
  let (count, repos) := data in
  {| LanguageEntry.fileCount := count;
     LanguageEntry.repoCount := repos;
     LanguageEntry.proficiency := calculateProficiency repos totalRepos 1;
     LanguageEntry.level := LangInfo.level langInfo;
     LanguageEntry.aliases := LangInfo.aliases langInfo;
     LanguageEntry.parent := LangInfo.parent langInfo |}.

Definition frameworkEntry (totalRepos : Z) (key : string) (data : FrameworkCount)
  : FrameworkEntry.t :=
  let (info, repos) := data in
  {| FrameworkEntry.key := key;
     FrameworkEntry.category := FrameworkInfo.category info;
     FrameworkEntry.repoCount := repos;
     FrameworkEntry.proficiency :=
       calculateProficiency repos totalRepos (FrameworkInfo.weight info) |}.

Definition frameworkName (data : FrameworkCount) : string :=
  let (info, _) := data in FrameworkInfo.name info.

Definition toolEntry (data : ToolCount) : ToolEntry.t :=
  let (_, ecosystem, repos) := data in
  {| ToolEntry.ecosystem := ecosystem; ToolEntry.repoCount := repos |}.

Definition msPerYear : Z := 1000 * 60 * 60 * 24 * 365.

Definition isLanguageLevel (e : string * LanguageEntry.t) : bool :=
  String.eqb (LanguageEntry.level (snd e)) "language".

Definition buildSkillsProfile (parseDate : string -> num) (now : Z)
           (analyzedRepos : list Repo.t) : Profile.t :=
  let totalRepos := Z.of_nat (List.length analyzedRepos) in
  let agg := aggregate parseDate now analyzedRepos in
  let languages :=
    fold_left (fun acc (e : string * LangCount) =>
                 let (name, data) := e in
                 assign name (languageEntry totalRepos name data) acc)
              (languageCounts agg) [] in
  let frameworks :=
    fold_left (fun acc (e : string * FrameworkCount) =>
                 let (key, data) := e in
                 assign (frameworkName data) (frameworkEntry totalRepos key data) acc)
              (frameworkCounts agg) [] in
  let significantTools :=
    firstn 20 (sortDesc (fun e : string * ToolCount => toolRepos (snd e))
                        (filter (fun e : string * ToolCount => 2 <=? toolRepos (snd e))
                                (toolCounts agg))) in
  let tools :=
    fold_left (fun acc (e : string * ToolCount) =>
                 let (name, data) := e in setProp name (toolEntry data) acc)
              significantTools [] in
  let uniquePatterns := uniq [] (map fst (patternCounts agg)) in
  {| Profile.languages := languages;
     Profile.frameworks := frameworks;
     Profile.tools := tools;
     Profile.patterns := uniquePatterns;
     Profile.domains := deriveDomains uniquePatterns frameworks;
     Profile.summary :=
       {| Summary.totalRepos := totalRepos;
          Summary.totalCommits := totalCommits agg;
          Summary.yearsActive :=
            Z.max 1 (round ((latestCommit agg - earliestCommit agg) # Z.to_pos msPerYear));
          Summary.topLanguages :=
            firstn 5 (sortDesc (fun e : string * LanguageEntry.t =>
                                  LanguageEntry.repoCount (snd e))
                               (filter isLanguageLevel languages));
          Summary.topFrameworks :=
            firstn 5 (sortDesc (fun e : string * FrameworkEntry.t =>
                                  FrameworkEntry.repoCount (snd e))
                               frameworks) |} |}.

(** *** Matching a profile against one job *)

Record Skill : Type := {
  skillName : string;
  skillType : string;
  skillProficiency : Proficiency
}.

Record SkillMatch : Type := {
  score : Z;
  matched : list Skill;
  missing : list string;
  bonus : list Skill
}.

(** [(x || '').toLowerCase()] *)
Definition lowerText (x : value) : exc string :=
  if truthy x then
    match x with
    | JStr s => Ok (toLowerCase s)
    | _ => Throw "TypeError: toLowerCase is not a function"
    end
  else Ok EmptyString.

(** The loop over [profile.languages]: what it pushes on [matched] and
    on [bonus]. *)
Definition languageNames (name : string) : list string :=
  toLowerCase name ::
  match assoc name LANGUAGE_SKILLS with
  | Some info => match LangInfo.aliases info with Some a => a | None => [] end
  | None => []
  end.

Definition languageSkill (e : string * LanguageEntry.t) : Skill :=
  {| skillName := fst e; skillType := "language";
     skillProficiency := LanguageEntry.proficiency (snd e) |}.

Definition frameworkSkill (e : string * FrameworkEntry.t) : Skill :=
  {| skillName := fst e; skillType := "framework";
     skillProficiency := FrameworkEntry.proficiency (snd e) |}.

Definition inSkills (jobSkills : list string) (e : string * LanguageEntry.t) : bool :=
  existsb (fun n => mem n jobSkills) (languageNames (fst e)).

Definition inDesc (jobDescription : string) (e : string * LanguageEntry.t) : bool :=
  existsb (fun n => includes jobDescription n) (languageNames (fst e)).

Definition frameworkHit (jobSkills : list string) (jobDescription : string)
           (e : string * FrameworkEntry.t) : bool :=
  mem (toLowerCase (fst e)) jobSkills || includes jobDescription (toLowerCase (fst e)).

Definition matchSkillsToJob (profile : Profile.t) (job : Job.t) : exc SkillMatch :=
  let jobSkills := map toLowerCase (Job.skills job) in
  jobDescription <- lowerText (Job.description job) ;;
  let matched :=
    (map languageSkill (filter (inSkills jobSkills) (Profile.languages profile))
     ++ map frameworkSkill
          (filter (frameworkHit jobSkills jobDescription) (Profile.frameworks profile)))%list in
  let bonus :=
    map languageSkill
        (filter (fun e => negb (inSkills jobSkills e) && inDesc jobDescription e)
                (Profile.languages profile)) in
  let missing :=
    filter (fun skill =>
              negb (existsb (fun m => String.eqb (toLowerCase (skillName m)) skill) matched))
           jobSkills in
  let requiredCount :=
    if Z.of_nat (List.length jobSkills) =? 0 then 1 else Z.of_nat (List.length jobSkills) in
  let matchedCount := Z.of_nat (List.length matched) in
  Ok {| score := percent matchedCount requiredCount;
        matched := matched;
        missing := missing;
        bonus := bonus |}.

End Skills.

(** ** The quotients of the code in double precision

    [calculateProficiency] and the score of [matchSkillsToJob] evaluated
    with the operations of IEEE 754 binary64 of the standard library, for
    comparison with the exact tiers and with [JS.double] above. *)

Module Binary64.

Definition prec : Z := 53.
Definition emax : Z := 1024.

Definition ofZ (z : Z) : spec_float := binary_normalize prec emax z 0 false.
Definition div : spec_float -> spec_float -> spec_float := SFdiv prec emax.
Definition mul : spec_float -> spec_float -> spec_float := SFmul prec emax.

(** [x >= y] *)
Definition ge (x y : spec_float) : bool :=
  match SFcompare x y with
  | Some Gt | Some Eq => true
  | _ => false
  end.

(** The double that a decimal literal such as [0.3] or [1.3] denotes: the
    nearest one to the fraction. *)
Definition literal (q : Q) : spec_float := div (ofZ (Qnum q)) (ofZ (Zpos (Qden q))).

(** The value of a finite double. *)
Definition toQ (f : spec_float) : Q :=
  match f with
  | S754_finite s m e => ((if s then -1 else 1) * inject_Z (Zpos m) * Qpower 2 e)%Q
  | _ => 0%Q
  end.

Definition calculateProficiency (repoCount totalRepos : Z) (weight : Q) : Proficiency :=
  let ratio := mul (div (ofZ repoCount) (ofZ totalRepos)) (literal weight) in
  if ge ratio (literal (5 # 10)) then expert
  else if ge ratio (literal (3 # 10)) then advanced
  else if ge ratio (literal (15 # 100)) then intermediate
  else familiar.

(** [Math.round((matchedCount / requiredCount) * 100)] *)
Definition score (matchedCount requiredCount : Z) : Z :=
  JS.round (toQ (mul (div (ofZ matchedCount) (ofZ requiredCount)) (ofZ 100))).

End Binary64.

(** ** Job management ([src/lib/jobs.js]) *)

Module Jobs.
Import JS.

(** *** Identity *)

(** [simpleHash]: [hash = ((hash << 5) - hash) + char; hash = hash & hash]
    over the code units, then [Math.abs]. *)
Fixpoint hashLoop (hash : Z) (str : string) : Z :=
  match str with
  | EmptyString => hash
  | String c t => hashLoop (toInt32 ((shl hash 5 - hash) + charCode c)) t
  end.

Definition simpleHash (str : string) : Z := Z.abs (hashLoop 0 str).

Definition isSlugChar (c : ascii) : bool :=
  let n := charCode c in
  ((97 <=? n) && (n <=? 122)) || ((48 <=? n) && (n <=? 57)).

(** [.replace(/[^a-z0-9]+/g, '-')]; [inRun] tells that the run of
    other characters the scan is in has got its dash. *)
Fixpoint dashRuns (inRun : bool) (s : string) : string :=
  match s with
  | EmptyString => EmptyString
  | String c t =>
      if isSlugChar c then String c (dashRuns false t)
      else if inRun then dashRuns true t
      else String "-" (dashRuns true t)
  end.

Definition slugBase (company title : option value) : string :=
  slice0 40 (dashRuns false (toLowerCase (toStringU company ++ "-" ++ toStringU title))).

Definition shortHash (job : value) : string :=
  slice0 6 (hex (simpleHash (stringify job))).

Definition generateJobId (job : value) : exc string :=
  company <- get job "company" ;;
  title <- get job "title" ;;
  Ok (slugBase company title ++ "-" ++ shortHash job).

(** *** Validation *)

Record Validation : Type := { valid : bool; verrors : list string }.

Definition requiredFields : list string := ["title"; "company"].

(** The loop over [JOB_SCHEMA.required]. *)
Fixpoint missingRequired (job : value) (fields : list string) : exc (list string) :=
  match fields with
  | [] => Ok []
  | f :: rest =>
      v <- get job f ;;
      errs <- missingRequired job rest ;;
      Ok (if truthyU v then errs else ("Missing required field: " ++ f) :: errs)
  end.

Definition validateJob (job : value) : exc Validation :=
  errs <- missingRequired job requiredFields ;;
  skills <- get job "skills" ;;
  let errs := if truthyU skills && negb (isArray skills)
              then (errs ++ ["Skills must be an array"])%list
              else errs in
  Ok {| valid := match errs with [] => true | _ => false end; verrors := errs |}.

(** *** Normalization *)

(** [x || d] *)
Definition orElse (x : option value) (d : value) : value :=
  match x with
  | Some v => if truthy v then v else d
  | None => d
  end.

(** [x?.trim() || d]: a value that is neither nullish nor a string has
    no [trim] to call. *)
Definition trimOr (x : option value) (d : string) : exc string :=
  match x with
  | None | Some JNull => Ok d
  | Some (JStr s) => Ok (if String.eqb (trim s) EmptyString then d else trim s)
  | Some _ => Throw "TypeError: trim is not a function"
  end.

(** [s => s.toLowerCase().trim()] on an element that passed
    [filter(Boolean)]. *)
Definition lowerTrim (v : value) : exc string :=
  match v with
  | JStr s => Ok (trim (toLowerCase s))
  | _ => Throw "TypeError: s.toLowerCase is not a function"
  end.

Definition normalizeSkills (skills : value) : exc (list string) :=
  match skills with
  | JStr s =>
      mapM lowerTrim (filter truthy (map (fun t => JStr (trim t)) (split "," s)))
  | JArr l => mapM lowerTrim (filter truthy l)
  | _ => Throw "TypeError: skills.filter is not a function"
  end.

(** [job.remote ?? (job.location?.toLowerCase().includes('remote') ? true : null)] *)
Definition remoteOf (remote location : option value) : exc value :=
  match remote with
  | Some JNull | None =>
      match location with
      | None | Some JNull => Ok JNull
      | Some (JStr s) => Ok (if includes (toLowerCase s) "remote" then JBool true else JNull)
      | Some _ => Throw "TypeError: toLowerCase is not a function"
      end
  | Some r => Ok r
  end.

(** The date part of an ISO time stamp: [.split('T')[0]]. *)
Definition isoDate (now : string) : string := hd EmptyString (split "T" now).

(** [job.id || generateJobId(job)] *)
Definition idOf (job : value) : exc value :=
  jid <- get job "id" ;;
  match jid with
  | Some v => if truthy v then Ok v else g <- generateJobId job ;; Ok (JStr g)
  | None => g <- generateJobId job ;; Ok (JStr g)
  end.

(** [now] is [new Date().toISOString()] at the time of the call. *)
Definition normalizeJob (now : string) (job : value) : exc Job.t :=
  jid <- idOf job ;;
  jtitle <- get job "title" ;;
  jtitle <- trimOr jtitle "Unknown Position" ;;
  jcompany <- get job "company" ;;
  jcompany <- trimOr jcompany "Unknown Company" ;;
  jurl <- get job "url" ;;
  jdescription <- get job "description" ;;
  jskills <- get job "skills" ;;
  jskills <- normalizeSkills (orElse jskills (JArr [])) ;;
  jlocation <- get job "location" ;;
  jsalary <- get job "salary" ;;
  jtype <- get job "type" ;;
  jremote <- get job "remote" ;;
  jremote <- remoteOf jremote jlocation ;;
  jsource <- get job "source" ;;
  jdatePosted <- get job "datePosted" ;;
  jdateAdded <- get job "dateAdded" ;;
  jstatus <- get job "status" ;;
  Ok {| Job.id := jid;
        Job.title := jtitle;
        Job.company := jcompany;
        Job.url := orElse jurl JNull;
        Job.description := orElse jdescription (JStr EmptyString);
        Job.skills := jskills;
        Job.location := orElse jlocation (JStr "Not specified");
        Job.salary := orElse jsalary JNull;
        Job.type := orElse jtype (JStr "full-time");
        Job.remote := jremote;
        Job.source := orElse jsource (JStr "manual");
        Job.datePosted := orElse jdatePosted (JStr (isoDate now));
        Job.dateAdded := orElse jdateAdded (JStr now);
        Job.status := orElse jstatus (JStr "new") |}.

(** *** Ingestion *)

Record IngestResults : Type := {
  added : Z;
  skipped : Z;
  errors : list (value * list string)
}.

(** The file at [filepath]: absent, not JSON, or the value parsed. *)
Inductive FileContent : Type :=
| Missing
| Unparsable (reason : string)
| Parsed (data : value).

(** The sequence that [for (const rawJob of rawJobs)] runs over, for
    [rawJobs = Array.isArray(data) ? data : data.jobs || []]. A string
    is iterated character by character; other values are not
    iterable. *)
Definition chars (s : string) : list value :=
  map (fun c => JStr (String c EmptyString)) (list_ascii_of_string s).

Definition rawJobsOf (data : value) : exc (list value) :=
  match data with
  | JArr l => Ok l
  | _ =>
      jobs <- get data "jobs" ;;
      match orElse jobs (JArr []) with
      | JArr l => Ok l
      | JStr s => Ok (chars s)
      | _ => Throw "TypeError: rawJobs is not iterable"
      end
  end.

(** The state of the loop: [existingJobs], [existingIds], [results]. *)
Record IngestState : Type := {
  existingJobs : list Job.t;
  existingIds : list value;
  results : IngestResults
}.

Definition has (ids : list value) (x : value) : bool :=
  existsb (sameValueZero x) ids.

Definition ingestStep (now : string) (st : IngestState) (rawJob : value) : exc IngestState :=
  validation <- validateJob rawJob ;;
  let r := results st in
  if negb (valid validation) then
    Ok {| existingJobs := existingJobs st;
          existingIds := existingIds st;
          results := {| added := added r; skipped := skipped r;
                        errors := (errors r ++ [(rawJob, verrors validation)])%list |} |}
  else
    job <- normalizeJob now rawJob ;;
    if has (existingIds st) (Job.id job) then
      Ok {| existingJobs := existingJobs st;
            existingIds := existingIds st;
            results := {| added := added r; skipped := skipped r + 1;
                          errors := errors r |} |}
    else
      Ok {| existingJobs := (existingJobs st ++ [job])%list;
            existingIds := (existingIds st ++ [Job.id job])%list;
            results := {| added := added r + 1; skipped := skipped r;
                          errors := errors r |} |}.

Fixpoint ingestLoop (now : string) (st : IngestState) (rawJobs : list value) : exc IngestState :=
  match rawJobs with
  | [] => Ok st
  | rawJob :: rest => st' <- ingestStep now st rawJob ;; ingestLoop now st' rest
  end.

(** [ingestJobsFromFile]: [stored] is what [loadJobs] returns; the result
    is what the call returns or throws, and the collection on disk when
    it ends ([saveJobs] is reached only when nothing threw). *)
Definition ingestJobsFromFile (now : string) (file : FileContent) (stored : list Job.t)
  : exc IngestResults * list Job.t :=
  match file with
  | Missing => (Throw "File not found", stored)
  | Unparsable reason => (Throw ("Invalid JSON: " ++ reason), stored)
  | Parsed data =>
      let run :=
        rawJobs <- rawJobsOf data ;;
        ingestLoop now
          {| existingJobs := stored;
             existingIds := map Job.id stored;
             results := {| added := 0; skipped := 0; errors := [] |} |}
          rawJobs in
      match run with
      | Ok st => (Ok (results st), existingJobs st)
      | Throw e => (Throw e, stored)
      end
  end.

(** *** Matching and categorization *)

Record Preferences : Type := {
  wantSkills : list string;
  avoidSkills : list string;
  locations : list string
}.

Record MatchResult : Type := {
  job : Job.t;
  score : Z;
  baseScore : Z;
  matchedSkills : list Skills.Skill;
  missingSkills : list string;
  bonusSkills : list Skills.Skill;
  locationMatch : bool;
  wantMatch : bool;
  hasAvoid : bool
}.

Definition isEmpty {A : Type} (l : list A) : bool :=
  match l with [] => true | _ => false end.

Definition wantScoreOf (preferences : Preferences) (matched : list Skills.Skill) : Z :=
  if isEmpty (wantSkills preferences) then 0
  else
    let wantMatches :=
      filter (fun m => existsb (fun w => includes (toLowerCase (Skills.skillName m))
                                                  (toLowerCase w))
                               (wantSkills preferences))
             matched in
    Z.of_nat (List.length wantMatches) * 10.

Definition avoidPenaltyOf (preferences : Preferences) (job : Job.t) : Z :=
  if isEmpty (avoidSkills preferences) then 0
  else
    let avoidMatches :=
      filter (fun s => existsb (fun a => includes (toLowerCase s) (toLowerCase a))
                               (avoidSkills preferences))
             (Job.skills job) in
    Z.of_nat (List.length avoidMatches) * 15.

(** [job.location?.toLowerCase() || ''] *)
Definition jobLocOf (location : value) : exc string :=
  match location with
  | JNull => Ok EmptyString
  | JStr s => Ok (toLowerCase s)
  | _ => Throw "TypeError: toLowerCase is not a function"
  end.

Definition locationMatchOf (preferences : Preferences) (job : Job.t) : exc bool :=
  if isEmpty (locations preferences) then Ok true
  else
    jobLoc <- jobLocOf (Job.location job) ;;
    let isRemote := truthy (Job.remote job) || includes jobLoc "remote" in
    Ok (existsb (fun loc => if String.eqb (toLowerCase loc) "remote" then isRemote
                            else includes jobLoc (toLowerCase loc))
                (locations preferences)).

Definition clampScore (x : Z) : Z := Z.max 0 (Z.min 100 x).

Definition matchOne (profile : Profile.t) (preferences : Preferences) (j : Job.t)
  : exc MatchResult :=
  m <- Skills.matchSkillsToJob profile j ;;
  let wantScore := wantScoreOf preferences (Skills.matched m) in
  let avoidPenalty := avoidPenaltyOf preferences j in
  locationMatch <- locationMatchOf preferences j ;;
  let adjustedScore := clampScore (Skills.score m + wantScore - avoidPenalty) in
  Ok {| job := j;
        score := adjustedScore;
        baseScore := Skills.score m;
        matchedSkills := Skills.matched m;
        missingSkills := Skills.missing m;
        bonusSkills := Skills.bonus m;
        locationMatch := locationMatch;
        wantMatch := 0 <? wantScore;
        hasAvoid := 0 <? avoidPenalty |}.

Definition matchJobsToProfile (jobs : list Job.t) (profile : Profile.t)
           (preferences : Preferences) : exc (list MatchResult) :=
  matches <- mapM (matchOne profile preferences) jobs ;;
  Ok (sortDesc score matches).

Record Categories : Type := {
  want : list MatchResult;
  qualified : list MatchResult;
  stretch : list MatchResult;
  filtered : list MatchResult
}.

Definition isWant (m : MatchResult) : bool :=
  wantMatch m && (50 <=? score m) && locationMatch m && negb (hasAvoid m).

Definition isQualified (m : MatchResult) : bool :=
  (50 <=? score m) && locationMatch m && negb (wantMatch m) && negb (hasAvoid m).

Definition isStretch (m : MatchResult) : bool :=
  (25 <=? score m) && (score m <? 50) && locationMatch m.

Definition isFiltered (m : MatchResult) : bool :=
  negb (locationMatch m) || hasAvoid m.

Definition categorizeMatches (matches : list MatchResult) : Categories :=
  {| want := filter isWant matches;
     qualified := filter isQualified matches;
     stretch := filter isStretch matches;
     filtered := filter isFiltered matches |}.

End Jobs.

(** ** Vocabulary of the statements *)

Import JS.

(** The tiers in ascending order. *)
Definition rank (p : Proficiency) : Z :=
  match p with
  | familiar => 0
  | intermediate => 1
  | advanced => 2
  | expert => 3
  end.

Definition value_is_null (v : value) : {v = JNull} + {v <> JNull}.
Proof. destruct v; (now left) || (right; discriminate). Defined.


Definition textOrFalsy (v : value) : bool :=
  match v with
  | JStr _ => true
  | _ => negb (truthy v)
  end.


Definition remoteOk (remote location : option value) : bool :=
  match remote with
  | None | Some JNull =>
      match location with
      | None | Some JNull | Some (JStr _) => true
      | Some _ => false
      end
  | Some _ => true
  end.



(** The id that ingestion gives a raw entry: its own truthy [id], else the
    generated one. *)
Definition generatedId (job : value) : string :=
  Jobs.slugBase (field job "company") (field job "title") ++ "-" ++ Jobs.shortHash job.

Definition jobId (job : value) : value :=
  match field job "id" with
  | Some v => if truthy v then v else JStr (generatedId job)
  | None => JStr (generatedId job)
  end.

(** No string occurs twice. *)
Fixpoint distinctb (l : list string) : bool :=
  match l with
  | [] => true
  | x :: t => negb (mem x t) && distinctb t
  end.

(** What the loop of the builder keeps true of its counters: a language
    or framework is counted at least zero times, and a framework counter
    carries the table entry of its key. *)
Definition fromTable (key : string) (c : Skills.FrameworkCount) : Prop :=
  let (info, repos) := c in
  assoc key Skills.FRAMEWORK_CATEGORIES = Some info /\ 0 <= repos.

Definition languagesInv (lc : list (string * Skills.LangCount)) : Prop :=
  NoDup (map fst lc) /\ Forall (fun e => 0 <= Skills.langRepos (snd e)) lc.

Definition frameworksInv (fc : list (string * Skills.FrameworkCount)) : Prop :=
  NoDup (map fst fc) /\ Forall (fun e => fromTable (fst e) (snd e)) fc.

Definition aggregateInv (agg : Skills.Aggregate) : Prop :=
  languagesInv (Skills.languageCounts agg) /\
  frameworksInv (Skills.frameworkCounts agg) /\
  NoDup (map fst (Skills.patternCounts agg)).

(** The entries of the profile for the counters of the loop. *)
Definition languageOf (totalRepos : Z) (e : string * Skills.LangCount)
  : string * LanguageEntry.t :=
  (fst e, Skills.languageEntry totalRepos (fst e) (snd e)).

Definition frameworkOf (totalRepos : Z) (e : string * Skills.FrameworkCount)
  : string * FrameworkEntry.t :=
  (Skills.frameworkName (snd e), Skills.frameworkEntry totalRepos (fst e) (snd e)).

(** [e'] is [e] but for a tier that is not higher. *)
Definition languageNotRaised (e e' : string * LanguageEntry.t) : Prop :=
  fst e' = fst e /\
  LanguageEntry.fileCount (snd e') = LanguageEntry.fileCount (snd e) /\
  LanguageEntry.repoCount (snd e') = LanguageEntry.repoCount (snd e) /\
  rank (LanguageEntry.proficiency (snd e')) <= rank (LanguageEntry.proficiency (snd e)).

Definition frameworkNotRaised (e e' : string * FrameworkEntry.t) : Prop :=
  fst e' = fst e /\
  FrameworkEntry.key (snd e') = FrameworkEntry.key (snd e) /\
  FrameworkEntry.repoCount (snd e') = FrameworkEntry.repoCount (snd e) /\
  rank (FrameworkEntry.proficiency (snd e')) <= rank (FrameworkEntry.proficiency (snd e)).

Definition tiers (languages : list (string * LanguageEntry.t)) : list (string * Proficiency) :=
  map (fun e => (fst e, LanguageEntry.proficiency (snd e))) languages.

(** Two dictionaries that answer every lookup alike. *)
Definition sameLookups {A : Type} (d d' : list (string * A)) : Prop :=
  forall k, assoc k d = assoc k d'.

(** Sorted from the largest key down. *)
Definition descending {A : Type} (key : A -> Z) (l : list A) : Prop :=
  StronglySorted (fun x y => key y <= key x) l.

Definition samePair (p p' : list (string * Z) * list (string * Skills.FrameworkCount))
  : Prop :=
  sameLookups (fst p) (fst p') /\ sameLookups (snd p) (snd p').

(** Two states of the loop of the builder that agree on the language,
    framework and pattern counters as dictionaries, and on the commit
    total and span. *)
Definition sameCounts (a a' : Skills.Aggregate) : Prop :=
  sameLookups (Skills.languageCounts a) (Skills.languageCounts a') /\
  sameLookups (Skills.patternCounts a) (Skills.patternCounts a') /\
  sameLookups (Skills.frameworkCounts a) (Skills.frameworkCounts a') /\
  Skills.earliestCommit a = Skills.earliestCommit a' /\
  Skills.latestCommit a = Skills.latestCommit a' /\
  Skills.totalCommits a = Skills.totalCommits a'.

(** The weights that occur: the default and those of the table. *)
Definition weights : list Q :=
  [1%Q; 10 # 10; 11 # 10; 12 # 10; 13 # 10; 14 # 10; 15 # 10].

Definition isWeight (w : Q) : bool :=
  existsb (fun w' => (Qnum w =? Qnum w') && (Pos.eqb (Qden w) (Qden w'))) weights.

(** The integers from [lo] on, [n] of them. *)
Definition upFrom (lo : Z) (n : nat) : list Z := map (fun i => lo + Z.of_nat i) (seq 0 n).

Definition sameTier (a b : Proficiency) : bool := rank a =? rank b.

(** A test on every weight that occurs and every
    [0 <= repoCount <= totalRepos], [1 <= totalRepos <= bound]. *)
Definition onTierRange (P : Z -> Z -> Q -> bool) (bound : nat) : bool :=
  forallb (fun totalRepos =>
    forallb (fun repoCount => forallb (P repoCount totalRepos) weights)
            (upFrom 0 (Z.to_nat (totalRepos + 1))))
    (upFrom 1 bound).

(** A test on every [0 <= matchedCount < matches] and
    [1 <= requiredCount <= skills]. *)
Definition onScoreRange (P : Z -> Z -> bool) (skills matches : nat) : bool :=
  forallb (fun requiredCount =>
    forallb (fun matchedCount => P matchedCount requiredCount) (upFrom 0 matches))
    (upFrom 1 skills).

(** The exact and the double-precision tier agree. *)
Definition tiersAgree (repoCount totalRepos : Z) (w : Q) : bool :=
  sameTier (Binary64.calculateProficiency repoCount totalRepos w)
           (Skills.calculateProficiency repoCount totalRepos w).

Definition exactScore (matchedCount requiredCount : Z) : Z :=
  round ((inject_Z matchedCount / inject_Z requiredCount) * 100)%Q.

(** [100 * matchedCount / requiredCount] lies half-way between two
    integers. *)
Definition isTie (matchedCount requiredCount : Z) : bool :=
  (200 * matchedCount + requiredCount) mod (2 * requiredCount) =? 0.

(** The quotient, the product and the score as [double] gives them
    are those of the IEEE 754 operations. *)
Definition doublesAgree (matchedCount requiredCount : Z) : bool :=
  let q := Binary64.div (Binary64.ofZ matchedCount) (Binary64.ofZ requiredCount) in
  let x := (inject_Z matchedCount / inject_Z requiredCount)%Q in
  Qeq_bool (Binary64.toQ q) (double x)
  && Qeq_bool (Binary64.toQ (Binary64.mul q (Binary64.ofZ 100))) (double (double x * 100)%Q)
  && (Binary64.score matchedCount requiredCount =? percent matchedCount requiredCount).

(** The records that the review screen left in. *)
Definition included (repo : Repo.t) : bool := negb (Repo.excluded repo).

(** The invocations that no inner [try] guards. *)
Definition unguarded (c : Analyzer.GitCommand) : bool :=
  match c with
  | Analyzer.Remotes | Analyzer.BehindUpstream => false
  | _ => true
  end.

(** [job.skills && !Array.isArray(job.skills)] *)
Definition skillsError (job : value) : bool :=
  truthyU (field job "skills") && negb (isArray (field job "skills")).

(** The messages of [validateJob] for an entry that is not [null]. *)
Definition validationErrors (job : value) : list string :=
  ((if truthyU (field job "title") then [] else ["Missing required field: title"])
   ++ (if truthyU (field job "company") then [] else ["Missing required field: company"])
   ++ (if skillsError job then ["Skills must be an array"] else []))%list.

(** [max(1, number of job skill tokens)] *)
Definition requiredCountOf (j : Job.t) : Z :=
  Z.max 1 (Z.of_nat (List.length (Job.skills j))).



(** The state in which [ingestJobsFromFile] enters its loop. *)
Definition initialState (stored : list Job.t) : Jobs.IngestState :=
  {| Jobs.existingJobs := stored;
     Jobs.existingIds := map Job.id stored;
     Jobs.results := {| Jobs.added := 0; Jobs.skipped := 0; Jobs.errors := [] |} |}.


(** A stored job on which the matcher does not throw. *)
Definition matchable (j : Job.t) : bool :=
  textOrFalsy (Job.description j) &&
  match Job.location j with
  | JNull | JStr _ => true
  | _ => false
  end.

(** ** Concrete inputs *)

Module Examples.
Import Skills Jobs.

Definition noDate (text : string) : num := NaN.

Definition repo (name : string) (languages patterns : list string) (excluded : bool)
  : Repo.t :=
  {| Repo.name := name;
     Repo.path := "/code/" ++ name;
     Repo.git := None;
     Repo.languages :=
       map (fun l => {| Lang.name := l; Lang.count := 3; Lang.percentage := 50 |}) languages;
     Repo.dependencies := [];
     Repo.patterns := patterns;
     Repo.excluded := excluded |}.

Definition storedJob (jid : string) (skills : list string) (description : string) : Job.t :=
  {| Job.id := JStr jid;
     Job.title := "Dev";
     Job.company := "Acme";
     Job.url := JNull;
     Job.description := JStr description;
     Job.skills := skills;
     Job.location := JStr "Not specified";
     Job.salary := JNull;
     Job.type := JStr "full-time";
     Job.remote := JNull;
     Job.source := JStr "manual";
     Job.datePosted := JStr "2024-01-01";
     Job.dateAdded := JStr "2024-01-01T00:00:00.000Z";
     Job.status := JStr "new" |}.

Definition noPreferences : Preferences :=
  {| wantSkills := []; avoidSkills := []; locations := [] |}.

(** A repository written in TypeScript that also carries the
    [typescript] pattern, and a job that asks for TypeScript alone. *)
Definition tsRepo : Repo.t := repo "app" ["TypeScript"] ["typescript"] false.
Definition tsProfile : Profile.t := buildSkillsProfile noDate 0 [tsRepo].
Definition tsJob : Job.t := storedJob "acme-dev-1" ["typescript"] EmptyString.

(** A job that asks for a language the profile lacks. *)
Definition goJob : Job.t := storedJob "acme-dev-2" ["go"] EmptyString.

(** A posting whose skills are one comma-separated string. *)
Definition stringSkillsJob : value :=
  JObj [("title", JStr "Dev"); ("company", JStr "Acme"); ("skills", JStr "react, python")].

Definition clock : string := "2024-01-01T00:00:00.000Z".
Definition laterClock : string := "2024-02-01T00:00:00.000Z".

(** Two postings of one company and title that differ in their
    description. *)
Definition postingAa : value :=
  JObj [("title", JStr "Dev"); ("company", JStr "Acme"); ("description", JStr "Aa")].


(** The scenarios of the specification: a posting with an array of
    skills, and a batch of three with one entry that lacks its company. *)
Definition scenarioJob : value :=
  JObj [("title", JStr "Dev"); ("company", JStr "Acme");
        ("skills", JArr [JStr "react"; JStr "python"])].

Definition scenarioBatch : value :=
  JArr [JObj [("title", JStr "Frontend Engineer"); ("company", JStr "Acme")];
        JObj [("title", JStr "Backend Engineer")];
        JObj [("title", JStr "Data Engineer"); ("company", JStr "Initech")]].

(** A repository with a remote but no upstream for its branch: the
    upstream count fails, every other invocation answers. The clock is
    five days after the last commit. *)
Definition nl : string := String (fromCharCode 10) EmptyString.

Definition noUpstream (c : Analyzer.GitCommand) : exc string :=
  match c with
  | Analyzer.LastCommitDate => Ok ("2024-01-10 12:00:00 +0000" ++ nl)
  | Analyzer.FirstCommitDate => Ok ("2023-03-01 09:30:00 +0000" ++ nl)
  | Analyzer.CommitCount => Ok ("42" ++ nl)
  | Analyzer.CurrentBranch => Ok ("feature" ++ nl)
  | Analyzer.Remotes => Ok ("origin" ++ nl)
  | Analyzer.BehindUpstream => Throw "Command failed: git rev-list"
  | Analyzer.AuthorLog => Ok ("     40 Ann Lee" ++ nl ++ "      2 Bob" ++ nl)
  end.

(** Not a repository: every invocation fails. *)
Definition notARepository (c : Analyzer.GitCommand) : exc string :=
  Throw "Command failed".

Definition lastCommitTime : Z := 1704888000000.
Definition fiveDaysLater : Z := lastCommitTime + 5 * Analyzer.msPerDay + 1000.

Definition knownDates (text : string) : num :=
  if String.eqb text "2024-01-10 12:00:00 +0000" then Int lastCommitTime else NaN.

(** Two repositories that share no language, and one that the review
    excluded. *)
Definition jsRepo : Repo.t := repo "site" ["JavaScript"] ["react"] false.
Definition pyRepo : Repo.t := repo "tool" ["Python"] ["docker"] false.
Definition goRepo : Repo.t := repo "fork" ["Go"] ["kubernetes"] true.

(** Two repositories whose languages and frameworks are used in
    different numbers of repositories. *)
Definition webRepo : Repo.t :=
  repo "web" ["JavaScript"; "TypeScript"] ["react"; "docker"] false.
Definition apiRepo : Repo.t := repo "api" ["TypeScript"] ["docker"] false.

End Examples.

(** * Further code and vocabulary *)

(** ** Vocabulary of the further properties *)

(** A field on which [x?.trim()] does not throw: nullish or a string. *)
Definition trimmable (v : option value) : bool :=
  match v with
  | None | Some JNull | Some (JStr _) => true
  | Some _ => false
  end.

(** A value of [job.skills || []] that [normalizeSkills] takes: a string,
    or an array whose truthy elements are strings. *)
Definition skillsNormalize (v : value) : bool :=
  match v with
  | JStr _ => true
  | JArr l => forallb textOrFalsy l
  | _ => false
  end.

(** The raw entries on which [normalizeJob] returns. *)
Definition normalizes (raw : value) : bool :=
  match raw with
  | JNull => false
  | _ =>
      trimmable (field raw "title") && trimmable (field raw "company")
      && skillsNormalize (Jobs.orElse (field raw "skills") (JArr []))
      && remoteOk (field raw "remote") (field raw "location")
  end.

(** The raw entries that one round of the ingestion loop gets past: not
    [null], and either turned away by [validateJob] or normalized. *)
Definition processed (raw : value) : bool :=
  match raw with
  | JNull => false
  | _ => negb (Jobs.isEmpty (validationErrors raw)) || normalizes raw
  end.

(** Inputs of the ingestion properties. *)

Module IngestSamples.
Import Skills Jobs.

(** A posting that passes validation with a number for its title. *)
Definition numberTitle : value := JObj [("title", JNum 7); ("company", JStr "Acme")].

(** A posting with padded fields, a blank skill and an empty type. *)
Definition paddedPosting : value :=
  JObj [("title", JStr "  Staff Engineer "); ("company", JStr " Acme");
        ("skills", JArr [JStr " React"; JNull; JStr "Node.js "; JStr " "]);
        ("type", JStr EmptyString)].

End IngestSamples.

(** Every code unit of a string passes a test. *)
Fixpoint allChars (p : ascii -> bool) (s : string) : bool :=
  match s with
  | EmptyString => true
  | String c t => p c && allChars p t
  end.

(** A string that [trim] and [toLowerCase] leave as it is. *)
Definition normalized (s : string) : Prop := trim s = s /\ toLowerCase s = s.

(** The characters of a job id: those of a slug, and the dash. *)
Definition isIdChar (c : ascii) : bool := Jobs.isSlugChar c || Ascii.eqb c "-".

Definition isHexChar (c : ascii) : bool :=
  let n := charCode c in
  ((48 <=? n) && (n <=? 57)) || ((97 <=? n) && (n <=? 102)).

(** Empty, or starting with a character that is not white space. *)
Definition headNotSpace (s : string) : bool :=
  match s with
  | EmptyString => true
  | String c _ => negb (isSpace c)
  end.

(** Inputs of the matching properties. *)
Module MatchSamples.
Import Skills Jobs.

(** A job that asks for JavaScript by its alias. *)
Definition jsProfile : Profile.t := buildSkillsProfile Examples.noDate 0 [Examples.jsRepo].
Definition jsEntry : string * LanguageEntry.t :=
  ("JavaScript", languageEntry 1 "JavaScript" (mkLangCount 3 1)).
Definition aliasJob : Job.t := Examples.storedJob "acme-dev-3" ["JS"] EmptyString.

End MatchSamples.

(** The language rows, the pattern tags and the commits of the
    repositories that the review left in, in input order. *)
Definition languageRows (repos : list Repo.t) : list Lang.t :=
  flat_map Repo.languages (filter included repos).

Definition patternRows (repos : list Repo.t) : list string :=
  flat_map Repo.patterns (filter included repos).

Definition commitTotal (repos : list Repo.t) : Z :=
  fold_right (fun r n => Skills.commitsOf r + n) 0 (filter included repos).

(** The rows of one language, and the files that they count. *)
Definition rowsOf (name : string) (rows : list Lang.t) : list Lang.t :=
  filter (fun l => String.eqb (Lang.name l) name) rows.

Definition fileTotal (rows : list Lang.t) : Z :=
  fold_right (fun l n => Lang.count l + n) 0 rows.

(** A language counter moved on by the rows [rs] of its language. *)
Definition tally (c : option Skills.LangCount) (rs : list Lang.t) : option Skills.LangCount :=
  match rs with
  | [] => c
  | _ =>
      let (count, repos) := valueOr (Skills.mkLangCount 0 0) c in
      Some (Skills.mkLangCount (count + fileTotal rs) (repos + Z.of_nat (List.length rs)))
  end.

(** Every entry of [rest] has a key that is at most that of every entry
    of [top]. *)
Definition dominates {A : Type} (key : A -> Z) (top rest : list A) : Prop :=
  forall t r, In t top -> In r rest -> key r <= key t.

(** How often a string occurs in a list. *)
Definition occurrences (x : string) (l : list string) : Z :=
  Z.of_nat (List.length (filter (String.eqb x) l)).

(** The dependency names of the repositories that the review left in,
    over all ecosystems, in input order. *)
Definition depRows (repos : list Repo.t) : list string :=
  flat_map (fun r => flat_map snd (Repo.dependencies r)) (filter included repos).

(** The step of the builder on the framework counters alone. *)
Definition addFramework (fc : list (string * Skills.FrameworkCount)) (pattern : string)
  : list (string * Skills.FrameworkCount) :=
  match assoc pattern Skills.FRAMEWORK_CATEGORIES with
  | Some frameworkInfo =>
      upsert pattern (Skills.mkFrameworkCount frameworkInfo 0)
             (fun c => let (i, r) := c in Skills.mkFrameworkCount i (r + 1)) fc
  | None => fc
  end.

(** The occurrences that the counter of a name holds, 0 without one. *)
Definition toolReposAt (name : string) (tc : list (string * Skills.ToolCount)) : Z :=
  match assoc name tc with
  | Some c => Skills.toolRepos c
  | None => 0
  end.

Definition languageRepoCount (e : string * LanguageEntry.t) : Z :=
  LanguageEntry.repoCount (snd e).

Definition frameworkRepoCount (e : string * FrameworkEntry.t) : Z :=
  FrameworkEntry.repoCount (snd e).

Definition toolRepoCount (e : string * ToolEntry.t) : Z :=
  ToolEntry.repoCount (snd e).

(** [top] is a ranking of at most [n] elements of [l]: ordered from the
    largest key down, and no element of [l] left out has a larger key
    than one that is in. *)
Definition ranking {A : Type} (key : A -> Z) (n : nat) (l top : list A) : Prop :=
  (List.length top <= n)%nat /\
  descending key top /\
  (forall e, In e top -> In e l) /\
  (forall e t, In e l -> ~ In e top -> In t top -> key e <= key t).

(** The own keys of an object as it lists them: the array indices
    first, in ascending order, then the other keys. *)
Definition indexFirst (keys : list string) : Prop :=
  exists indices others,
    keys = (indices ++ others)%list /\
    Forall (fun k => isArrayIndex k = true) indices /\
    StronglySorted (fun a b => digitsValue 0 a <= digitsValue 0 b) indices /\
    Forall (fun k => isArrayIndex k = false) others.

(** An entry whose key is not an array index. *)
Definition isNamed {A : Type} (e : string * A) : bool := negb (isArrayIndex (fst e)).

(** What the loop of the builder keeps true of [toolCounts]: no name
    twice, and no name that [Object.prototype] defines. *)
Definition toolsInv (tc : list (string * Skills.ToolCount)) : Prop :=
  NoDup (map fst tc) /\ Forall (fun k => inherited k = false) (map fst tc).

(** A pattern tag that [FRAMEWORK_CATEGORIES] lists, and the name under
    which the profile shows it. *)
Definition isFrameworkTag (pattern : string) : bool :=
  match assoc pattern Skills.FRAMEWORK_CATEGORIES with
  | Some _ => true
  | None => false
  end.

Definition displayName (pattern : string) : string :=
  match assoc pattern Skills.FRAMEWORK_CATEGORIES with
  | Some info => FrameworkInfo.name info
  | None => pattern
  end.

(** [a] is the beginning of [b]. *)
Definition beginning {A : Type} (a b : list A) : Prop := exists rest, b = (a ++ rest)%list.

(** Inputs of the profile properties. *)
Module ProfileSamples.
Import Skills.

(** One repository that names one package in two ecosystems. *)
Definition twiceRepo : Repo.t :=
  {| Repo.name := "svc";
     Repo.path := "/code/svc";
     Repo.git := None;
     Repo.languages := [];
     Repo.dependencies := [("npm", ["redis"]); ("python", ["redis"; "flask"])];
     Repo.patterns := [];
     Repo.excluded := false |}.

(** A repository with a [requirements.txt] that lists [deps]. *)
Definition pythonRepo (deps : list string) : Repo.t :=
  {| Repo.name := "tool";
     Repo.path := "/code/tool";
     Repo.git := None;
     Repo.languages := [];
     Repo.dependencies := [("python", deps)];
     Repo.patterns := [];
     Repo.excluded := false |}.

End ProfileSamples.

(** ** Repository analysis: the walk over the files ([src/lib/analyzer.js])

    A directory listing is what [readdirSync(dir, { withFileTypes: true })]
    returns: regular files, directories with their own listing,
    directories that cannot be listed ([readdirSync] throws on them), and
    entries that are neither a file nor a directory (links, sockets). *)

Module Walk.
Import JS.

Inductive Entry : Type :=
| File (name : string)
| Dir (name : string) (entries : list Entry)
| Locked (name : string)
| Other (name : string).

(** [name.startsWith('.')] *)
Definition startsWithDot (name : string) : bool :=
  match name with
  | String c _ => Ascii.eqb c "."
  | EmptyString => false
  end.

(** The part of [s] from its last dot on. *)
Fixpoint lastDot (s : string) : option string :=
  match s with
  | EmptyString => None
  | String c t =>
      match lastDot t with
      | Some ext => Some ext
      | None => if Ascii.eqb c "." then Some s else None
      end
  end.

(** [path.extname] of a name without separators: from the last dot on,
    and empty when there is no dot, when the only dot is the first
    character, and for [..]. *)
Definition extname (name : string) : string :=
  match name with
  | EmptyString => EmptyString
  | String _ rest =>
      if String.eqb name ".." then EmptyString
      else match lastDot rest with
           | Some ext => ext
           | None => EmptyString
           end
  end.

(** The local function [walkDir] of [analyzeLanguages] and of
    [countFiles]: the two differ in [ignorePatterns] and in what they do
    with a regular file. The [try] around the listing makes a directory
    that cannot be listed count as empty. *)
Section Walker.
Variable S : Type.
Variable ignorePatterns : list string.
Variable onFile : string -> S -> S.

Definition skipped (name : string) : bool :=
  mem name ignorePatterns || startsWithDot name.

Fixpoint visit (entry : Entry) (st : S) : S :=
  match entry with
  | File name => if skipped name then st else onFile name st
  | Dir name entries =>
      if skipped name then st else fold_left (fun st e => visit e st) entries st
  | Locked _ | Other _ => st
  end.

(** [listing] is [None] when [readdirSync] throws on the directory. *)
Definition walkDir (listing : option (list Entry)) (st : S) : S :=
  match listing with
  | Some entries => fold_left (fun st e => visit e st) entries st
  | None => st
  end.
End Walker.

(** *** [analyzeLanguages] *)

Module AnalyzeLanguages.
Definition ignorePatterns : list string :=
  ["node_modules"; ".git"; "dist"; "build"; "coverage"; ".next"; "vendor";
   "__pycache__"; "target"; ".cache"].

Definition languageMap : list (string * string) :=
  [ (".js", "JavaScript"); (".mjs", "JavaScript"); (".cjs", "JavaScript");
    (".jsx", "JavaScript (React)"); (".ts", "TypeScript");
    (".tsx", "TypeScript (React)"); (".py", "Python"); (".rb", "Ruby");
    (".go", "Go"); (".rs", "Rust"); (".java", "Java"); (".kt", "Kotlin");
    (".swift", "Swift"); (".c", "C"); (".cpp", "C++"); (".cc", "C++");
    (".h", "C/C++ Header"); (".cs", "C#"); (".php", "PHP"); (".html", "HTML");
    (".htm", "HTML"); (".css", "CSS"); (".scss", "SCSS"); (".sass", "Sass");
    (".less", "Less"); (".vue", "Vue"); (".svelte", "Svelte"); (".sql", "SQL");
    (".sh", "Shell"); (".bash", "Bash"); (".zsh", "Zsh"); (".ps1", "PowerShell");
    (".md", "Markdown"); (".json", "JSON"); (".yaml", "YAML"); (".yml", "YAML");
    (".toml", "TOML"); (".xml", "XML"); (".lua", "Lua"); (".r", "R");
    (".scala", "Scala"); (".ex", "Elixir"); (".exs", "Elixir"); (".erl", "Erlang");
    (".clj", "Clojure"); (".hs", "Haskell"); (".elm", "Elm"); (".dart", "Dart");
    (".sol", "Solidity") ].
End AnalyzeLanguages.

(** [if (ext) extensions[ext] = (extensions[ext] || 0) + 1] *)
Definition addExtension (name : string) (extensions : list (string * Z))
  : list (string * Z) :=
  let ext := toLowerCase (extname name) in
  if String.eqb ext EmptyString then extensions
  else upsert ext 0 (fun n => n + 1) extensions.

(** One turn of the loop over [Object.entries(extensions)]: the state is
    [languages] and [total]. *)
Definition addLanguageCount (acc : list (string * Z) * Z) (e : string * Z)
  : list (string * Z) * Z :=
  let (languages, total) := acc in
  let (ext, count) := e in
  match assoc ext AnalyzeLanguages.languageMap with
  | Some lang => (upsert lang 0 (fun n => n + count) languages, total + count)
  | None => acc
  end.

Definition languageRow (total : Z) (e : string * Z) : Lang.t :=
  let (name, count) := e in
  {| Lang.name := name;
     Lang.count := count;
     Lang.percentage := percent count total |}.

Definition analyzeLanguages (repo : option (list Entry)) : list Lang.t :=
  let extensions := walkDir AnalyzeLanguages.ignorePatterns addExtension repo [] in
  let (languages, total) := fold_left addLanguageCount extensions ([], 0) in
  sortDesc Lang.count (map (languageRow total) languages).

(** *** [countFiles] *)

Record Counts : Type := { total : Z; code : Z; config : Z; docs : Z; assets : Z }.

Module CountFiles.
Definition codeExts : list string :=
  [".js"; ".ts"; ".jsx"; ".tsx"; ".py"; ".rb"; ".go"; ".rs"; ".java"; ".c"; ".cpp";
   ".cs"; ".php"; ".vue"; ".svelte"].
Definition configExts : list string :=
  [".json"; ".yaml"; ".yml"; ".toml"; ".xml"; ".env"; ".ini"].
Definition docExts : list string := [".md"; ".txt"; ".rst"; ".adoc"].
Definition assetExts : list string :=
  [".png"; ".jpg"; ".jpeg"; ".gif"; ".svg"; ".ico"; ".webp"; ".mp3"; ".mp4"; ".wav";
   ".ogg"].
Definition ignorePatterns : list string :=
  ["node_modules"; ".git"; "dist"; "build"; "coverage"; ".next"; "vendor";
   "__pycache__"; "target"].
End CountFiles.

(** What the walk does with a regular file: [counts.total++], and the
    first class that lists the extension. *)
Definition countFile (name : string) (counts : Counts) : Counts :=
  let ext := toLowerCase (extname name) in
  let counts := {| total := total counts + 1; code := code counts;
                   config := config counts; docs := docs counts;
                   assets := assets counts |} in
  if mem ext CountFiles.codeExts then
    {| total := total counts; code := code counts + 1; config := config counts;
       docs := docs counts; assets := assets counts |}
  else if mem ext CountFiles.configExts then
    {| total := total counts; code := code counts; config := config counts + 1;
       docs := docs counts; assets := assets counts |}
  else if mem ext CountFiles.docExts then
    {| total := total counts; code := code counts; config := config counts;
       docs := docs counts + 1; assets := assets counts |}
  else if mem ext CountFiles.assetExts then
    {| total := total counts; code := code counts; config := config counts;
       docs := docs counts; assets := assets counts + 1 |}
  else counts.

Definition countFiles (repo : option (list Entry)) : Counts :=
  walkDir CountFiles.ignorePatterns countFile repo
          {| total := 0; code := 0; config := 0; docs := 0; assets := 0 |}.

End Walk.

(** The regular files that a walk reaches, in the order of the visit. *)
Fixpoint reachedIn (ignorePatterns : list string) (entry : Walk.Entry) : list string :=
  match entry with
  | Walk.File name => if Walk.skipped ignorePatterns name then [] else [name]
  | Walk.Dir name entries =>
      if Walk.skipped ignorePatterns name then []
      else flat_map (reachedIn ignorePatterns) entries
  | Walk.Locked _ | Walk.Other _ => []
  end.

Definition reached (ignorePatterns : list string) (listing : option (list Walk.Entry))
  : list string :=
  match listing with
  | Some entries => flat_map (reachedIn ignorePatterns) entries
  | None => []
  end.

(** A listing without what the walk passes over: the entries whose name
    is ignored or starts with a dot, the directories that cannot be
    listed and the entries that are neither file nor directory, at every
    depth. *)
Fixpoint prune (ignorePatterns : list string) (entry : Walk.Entry) : list Walk.Entry :=
  match entry with
  | Walk.File name => if Walk.skipped ignorePatterns name then [] else [entry]
  | Walk.Dir name entries =>
      if Walk.skipped ignorePatterns name then []
      else [Walk.Dir name (flat_map (prune ignorePatterns) entries)]
  | Walk.Locked _ | Walk.Other _ => []
  end.

(** The lower-cased extension of a file name. *)
Definition extOf (name : string) : string := toLowerCase (Walk.extname name).

Definition hasExt (exts : list string) (name : string) : bool := mem (extOf name) exts.

(** The files that [languageMap] gives to the language [lang]. *)
Definition extIs (lang : string) (ext : string) : bool :=
  match assoc ext Walk.AnalyzeLanguages.languageMap with
  | Some l => String.eqb l lang
  | None => false
  end.

Definition isWrittenIn (lang : string) (name : string) : bool := extIs lang (extOf name).

Definition extKnown (ext : string) : bool :=
  match assoc ext Walk.AnalyzeLanguages.languageMap with
  | Some _ => true
  | None => false
  end.

(** The files whose extension [languageMap] knows. *)
Definition isSource (name : string) : bool := extKnown (extOf name).

(** The sum of the counters whose key passes [f]. *)
Definition sumWhere (f : string -> bool) (d : list (string * Z)) : Z :=
  fold_right (fun e n => (if f (fst e) then snd e else 0) + n) 0 d.

(** The counter of [k], 0 without one. *)
Definition counterAt (k : string) (d : list (string * Z)) : Z := valueOr 0 (assoc k d).

Definition b2z (b : bool) : Z := if b then 1 else 0.

Definition classified (counts : Walk.Counts) : Z :=
  Walk.code counts + Walk.config counts + Walk.docs counts + Walk.assets counts.

Definition countOf (f : string -> bool) (names : list string) : Z :=
  Z.of_nat (List.length (filter f names)).

Definition sumCounts (rows : list Lang.t) : Z :=
  fold_right (fun l n => Lang.count l + n) 0 rows.

(** Inputs of the walk properties. *)
Module WalkSamples.
Import Walk.

Definition tree : list Entry :=
  [ File "README.md"; File ".env"; File "Makefile"; File "archive.tar.GZ";
    Dir "src" [File "index.JS"; File "app.ts"; File "util.ts"; Locked "private";
               Dir ".cache" [File "x.js"]];
    Dir "node_modules" [Dir "left-pad" [File "index.js"]];
    Other "link.js";
    File "logo.png" ].

End WalkSamples.

(** ** Job statistics ([getJobStats], [src/lib/jobs.js]) *)

Module Stats.
Import JS.

(** What a counter holds: a number, or, under a name that
    [Object.prototype] defines, the text of the inherited member followed
    by as many characters [1] as the key was counted. *)
Inductive Counter : Type :=
| Count (n : Z)
| Text (member : string) (ones : nat).

Record JobStats : Type := {
  total : Z;
  bySource : list (string * Counter);
  byLocation : list (string * Counter);
  byType : list (string * Counter);
  byStatus : list (string * Counter);
  remote : Z;
  withSalary : Z
}.

(** [x + 1] on what a counter holds: a sum, or a concatenation. *)
Definition plusOne (c : Counter) : Counter :=
  match c with
  | Count n => Count (n + 1)
  | Text member ones => Text member (S ones)
  end.

(** [d[k] = (d[k] || 0) + 1]; a key that is not a string is turned into
    one. The fields of a job are user data. Under a name that
    [Object.prototype] defines, the first read yields the inherited
    member, and [member + 1] is a string; the assignment creates the
    own property, but for [__proto__], whose setter ignores a string. *)
Definition increment (k : value) (d : list (string * Counter)) : list (string * Counter) :=
  let key := toString k in
  match assoc key d with
  | Some _ => adjust key plusOne d
  | None =>
      if inherited key then
        if String.eqb key "__proto__" then d else define key (Text key 1) d
      else define key (Count 1) d
  end.

(** One turn of [for (const job of jobs)]. *)
Definition addJob (stats : JobStats) (job : Job.t) : JobStats :=
  let loc := Jobs.orElse (Some (Job.location job)) (JStr "Unknown") in
  {| total := total stats;
     bySource := increment (Job.source job) (bySource stats);
     byLocation := increment loc (byLocation stats);
     byType := increment (Job.type job) (byType stats);
     byStatus := increment (Job.status job) (byStatus stats);
     remote := if truthy (Job.remote job) then remote stats + 1 else remote stats;
     withSalary := if truthy (Job.salary job) then withSalary stats + 1
                   else withSalary stats |}.

Definition getJobStats (jobs : list Job.t) : JobStats :=
  fold_left addJob jobs
            {| total := Z.of_nat (List.length jobs);
               bySource := []; byLocation := []; byType := []; byStatus := [];
               remote := 0; withSalary := 0 |}.

End Stats.

(** ** File names of the application directory ([sanitizeFilename],
    [src/lib/config.js]) *)

Module Config.
Import JS.

(** [.replace(/^-|-$/g, '')]: a dash at the start and a dash at the end
    are removed. *)
Definition stripLeadingDash (s : string) : string :=
  match s with
  | String "-" t => t
  | _ => s
  end.

Fixpoint stripTrailingDash (s : string) : string :=
  match s with
  | EmptyString => EmptyString
  | String c EmptyString => if Ascii.eqb c "-" then EmptyString else s
  | String c t => String c (stripTrailingDash t)
  end.

Definition sanitizeText (str : string) : string :=
  slice0 50 (stripTrailingDash (stripLeadingDash (Jobs.dashRuns false (toLowerCase str)))).

(** [str] is a job id, which ingestion may have taken from the posting as
    it was: only a string has a [toLowerCase] to call. *)
Definition sanitizeFilename (str : value) : exc string :=
  match str with
  | JStr s => Ok (sanitizeText s)
  | JNull => Throw "TypeError: Cannot read properties of null"
  | _ => Throw "TypeError: str.toLowerCase is not a function"
  end.

End Config.








(** Inputs of the statistics properties. *)
Module StatsSamples.

(** A stored job that came from [source]. *)
Definition jobFrom (source : string) : Job.t :=
  {| Job.id := JStr ("job-" ++ source);
     Job.title := "Dev";
     Job.company := "Acme";
     Job.url := JNull;
     Job.description := JStr EmptyString;
     Job.skills := [];
     Job.location := JStr "Not specified";
     Job.salary := JNull;
     Job.type := JStr "full-time";
     Job.remote := JNull;
     Job.source := JStr source;
     Job.datePosted := JStr "2024-01-01";
     Job.dateAdded := JStr "2024-01-01T00:00:00.000Z";
     Job.status := JStr "new" |}.

End StatsSamples.

(** Empty, or starting with a character other than the dash. *)
Definition headNotDash (s : string) : bool :=
  match s with
  | EmptyString => true
  | String c _ => negb (Ascii.eqb c "-")
  end.

(** No two dashes in a row; [afterDash] tells that the character before
    is a dash. *)
Fixpoint noDashRun (afterDash : bool) (s : string) : bool :=
  match s with
  | EmptyString => true
  | String c t =>
      if Ascii.eqb c "-" then negb afterDash && noDashRun true t
      else noDashRun false t
  end.

(** No character of the lower-cased string is a letter or a digit. *)
Definition noSlugChar (s : string) : bool :=
  allChars (fun c => negb (Jobs.isSlugChar c)) (toLowerCase s).

(** ** Repository analysis: patterns and manifests ([src/lib/analyzer.js]) *)

Module Manifest.
Import JS.

(** *** The keys of [{...(pkg.dependencies || {}), ...(pkg.devDependencies || {})}] *)

(** The indices [0 .. n-1] as property names. *)
Definition indexKeys (n : nat) : list string :=
  map (fun i => decimal (Z.of_nat i)) (seq 0 n).

(** The own enumerable property names that a spread copies from
    [v || {}]: the keys of an object, the indices of an array or of a
    string, nothing from a number or a boolean. *)
Definition spreadKeys (v : option value) : list string :=
  match v with
  | Some (JObj fields) => map fst fields
  | Some (JArr l) => indexKeys (List.length l)
  | Some (JStr s) => indexKeys (String.length s)
  | _ => []
  end.

(** [Object.keys] of an object that received the keys [ks] in this
    order: every key once, the array indices first in ascending order,
    then the other keys in the order of their first insertion. *)
Definition ownKeys (ks : list string) : list string :=
  let ks := uniq [] ks in
  (sortDesc (fun k => - digitsValue 0 k) (filter isArrayIndex ks)
   ++ filter (fun k => negb (isArrayIndex k)) ks)%list.

Definition allDeps (pkg : value) : exc (list string) :=
  dependencies <- get pkg "dependencies" ;;
  devDependencies <- get pkg "devDependencies" ;;
  Ok (ownKeys (spreadKeys dependencies ++ spreadKeys devDependencies)).

(** *** [analyzePatterns] *)

Definition checks : list (string * string) :=
  [ ("tests", "testing"); ("__tests__", "testing"); ("test", "testing");
    ("spec", "testing"); (".github/workflows", "ci-cd"); (".gitlab-ci.yml", "ci-cd");
    ("Dockerfile", "docker"); ("docker-compose.yml", "docker");
    ("kubernetes", "kubernetes"); ("k8s", "kubernetes");
    ("terraform", "infrastructure-as-code"); (".terraform", "infrastructure-as-code");
    ("src/components", "component-architecture"); ("components", "component-architecture");
    ("src/api", "api-development"); ("api", "api-development");
    ("routes", "api-development"); ("migrations", "database-migrations");
    ("prisma", "orm"); ("models", "mvc"); ("controllers", "mvc"); ("views", "mvc");
    ("public", "static-assets"); ("static", "static-assets"); ("assets", "static-assets");
    ("docs", "documentation"); ("storybook", "design-system");
    (".storybook", "design-system"); ("cypress", "e2e-testing"); ("e2e", "e2e-testing");
    ("playwright", "e2e-testing"); ("src/hooks", "react-hooks"); ("hooks", "react-hooks");
    ("src/store", "state-management"); ("store", "state-management");
    ("redux", "state-management"); ("graphql", "graphql"); ("schema.graphql", "graphql");
    ("game", "game-development"); ("phaser", "game-development");
    ("unity", "game-development") ].

Definition depPatterns : list (string * string) :=
  [ ("react", "react"); ("vue", "vue"); ("angular", "angular"); ("svelte", "svelte");
    ("next", "nextjs"); ("nuxt", "nuxt"); ("gatsby", "gatsby");
    ("express", "nodejs-backend"); ("fastify", "nodejs-backend");
    ("koa", "nodejs-backend"); ("nest", "nestjs"); ("prisma", "orm");
    ("sequelize", "orm"); ("typeorm", "orm"); ("mongoose", "mongodb");
    ("phaser", "game-development"); ("pixi.js", "game-development");
    ("three", "3d-graphics"); ("d3", "data-visualization");
    ("chart.js", "data-visualization"); ("electron", "desktop-app");
    ("react-native", "mobile-app"); ("expo", "mobile-app"); ("jest", "testing");
    ("mocha", "testing"); ("vitest", "testing"); ("webpack", "bundling");
    ("vite", "bundling"); ("rollup", "bundling"); ("eslint", "linting");
    ("prettier", "code-formatting"); ("typescript", "typescript");
    ("tailwindcss", "tailwind"); ("styled-components", "css-in-js");
    ("emotion", "css-in-js") ].

(** An element of [patterns]: a tag, or the member of
    [Object.prototype] that [depPatterns[baseDep]] yields for a
    dependency whose base name is the name of that member. *)
Inductive Pattern : Type :=
| Tag (tag : string)
| Member (name : string).

(** The equality of [includes]: two strings with the same characters,
    or one and the same member. *)
Definition samePattern (a b : Pattern) : bool :=
  match a, b with
  | Tag x, Tag y => String.eqb x y
  | Member x, Member y => String.eqb x y
  | _, _ => false
  end.

(** [if (!patterns.includes(p)) patterns.push(p)] *)
Definition pushNew (patterns : list Pattern) (p : Pattern) : list Pattern :=
  if existsb (samePattern p) patterns then patterns else (patterns ++ [p])%list.

(** [s.replace(c, '')]: the first occurrence only. *)
Fixpoint removeFirst (c : ascii) (s : string) : string :=
  match s with
  | EmptyString => EmptyString
  | String x t => if Ascii.eqb x c then t else String x (removeFirst c t)
  end.

(** [dep.replace('@', '').split('/')[0]] *)
Definition baseDep (dep : string) : string :=
  hd EmptyString (split "/" (removeFirst "@" dep)).

Definition checkPath (existsSync : string -> bool) (patterns : list Pattern)
           (check : string * string) : list Pattern :=
  let (path, pattern) := check in
  if existsSync path then pushNew patterns (Tag pattern) else patterns.

(** [depPatterns[name]]: the tag of an own key, else the member that the
    object inherits under that name, else [undefined]. Every tag of the
    table and every inherited member is truthy. *)
Definition depPattern (name : string) : option Pattern :=
  match assoc name depPatterns with
  | Some tag => Some (Tag tag)
  | None => if inherited name then Some (Member name) else None
  end.

Definition checkDep (patterns : list Pattern) (dep : string) : list Pattern :=
  match depPattern (baseDep dep) with
  | Some pattern => pushNew patterns pattern
  | None => patterns
  end.

(** [existsSync] tells of a path under the repository whether it is
    there; [packageJson] is the manifest: absent, unreadable or not
    JSON, or the value parsed. *)
Definition analyzePatterns (existsSync : string -> bool) (packageJson : Jobs.FileContent)
  : list Pattern :=
  let patterns := fold_left (checkPath existsSync) checks [] in
  match packageJson with
  | Jobs.Parsed pkg =>
      match allDeps pkg with
      | Ok deps => fold_left checkDep deps patterns
      | Throw _ => patterns
      end
  | _ => patterns
  end.

End Manifest.

(** The pattern that a check or a dependency pushes, if any. *)
Definition pathTag (existsSync : string -> bool) (check : string * string)
  : option Manifest.Pattern :=
  if existsSync (fst check) then Some (Manifest.Tag (snd check)) else None.

Definition depTag (dep : string) : option Manifest.Pattern :=
  Manifest.depPattern (Manifest.baseDep dep).

(** The name of a built-in function, and the text that it turns into
    where a string is wanted, as Node gives it:
    [function name() { [native code] }]. *)
Definition memberFunction (name : string) : string :=
  if String.eqb name "constructor" then "Object" else name.

Definition memberText (name : string) : string :=
  if String.eqb name "__proto__" then "[object Object]"
  else "function " ++ memberFunction name ++ "() { [native code] }".

(** The property key that an element of [patterns] turns into in
    [patternCounts[pattern]] and [FRAMEWORK_CATEGORIES[pattern]]: a tag
    is its own key, a member is read as its text. *)
Definition patternKey (p : Manifest.Pattern) : string :=
  match p with
  | Manifest.Tag tag => tag
  | Manifest.Member name => memberText name
  end.

(** The tags that [analyzePatterns] knows. *)
Definition patternVocabulary : list string :=
  (map snd Manifest.checks ++ map snd Manifest.depPatterns)%list.

(** The number of repositories that the review left in and that pass a
    test. *)
Definition reposWhere (f : Repo.t -> bool) (repos : list Repo.t) : Z :=
  Z.of_nat (List.length (filter f (filter included repos))).

Definition hasPattern (pattern : string) (repo : Repo.t) : bool :=
  mem pattern (Repo.patterns repo).

Definition hasLanguage (name : string) (repo : Repo.t) : bool :=
  mem name (map Lang.name (Repo.languages repo)).

(** A record whose language rows and pattern tags are as
    [analyzeLanguages] and [analyzePatterns] return them: no language and
    no tag twice. *)
Definition analysed (repo : Repo.t) : Prop :=
  NoDup (map Lang.name (Repo.languages repo)) /\ NoDup (Repo.patterns repo).

(** Inputs of the pattern properties. *)
Module ManifestSamples.
Import Manifest.

Definition hasPaths (paths : list string) (path : string) : bool := mem path paths.

Definition webPackage : value :=
  JObj [("name", JStr "web");
        ("dependencies",
         JObj [("react", JStr "^18.0.0"); ("express", JStr "^4.0.0");
               ("@nestjs/core", JStr "^10.0.0"); ("@angular/core", JStr "^17.0.0")]);
        ("devDependencies", JObj [("jest", JStr "^29.0.0"); ("react", JStr "^18.0.0")])].

(** A record as the analysis of a repository fills it. *)
Definition analysedRepo : Repo.t :=
  {| Repo.name := "web";
     Repo.path := "/code/web";
     Repo.git := None;
     Repo.languages := Walk.analyzeLanguages (Some WalkSamples.tree);
     Repo.dependencies := [];
     Repo.patterns :=
       map patternKey
           (analyzePatterns (hasPaths ["test"; "Dockerfile"]) (Jobs.Parsed webPackage));
     Repo.excluded := false |}.

End ManifestSamples.

(** A raw entry whose description and location, when given, are
    strings, as the job schema documents them. *)
Definition plainTexts (raw : value) : bool :=
  trimmable (field raw "description") && trimmable (field raw "location").

(** Inputs of the pipeline properties. *)
Module PipelineSamples.

(** A posting with a number for its description: valid, and
    normalized as it is. *)
Definition numberDescription : value :=
  JObj [("title", JStr "Dev"); ("company", JStr "Acme"); ("description", JNum 5)].

End PipelineSamples.

(** ** Repository analysis: the dependency manifests ([analyzeDependencies]) *)

Module Dependencies.
Import JS.

(** [s.split(sep)[0]] for a separator that is not empty: [s] up to the
    first occurrence of [sep]. *)
Fixpoint beforeSep (sep : string) (s : string) : string :=
  if prefix sep s then EmptyString
  else match s with
       | EmptyString => EmptyString
       | String c t => String c (beforeSep sep t)
       end.

(** [s] without its first [n] characters. *)
Fixpoint dropChars (n : nat) (s : string) : string :=
  match n, s with
  | O, _ => s
  | S n', String _ t => dropChars n' t
  | S _, EmptyString => EmptyString
  end.

(** What follows the first occurrence of [marker] in [s], if there is
    one. *)
Fixpoint afterMarker (marker : string) (s : string) : option string :=
  if prefix marker s then Some (dropChars (String.length marker) s)
  else match s with
       | EmptyString => None
       | String _ t => afterMarker marker t
       end.

Definition newline : ascii := fromCharCode 10.

Definition startsWith (c : ascii) (s : string) : bool :=
  match s with
  | String x _ => Ascii.eqb x c
  | EmptyString => false
  end.

(** [requirements.txt]: the name of every line, cut at [==] and at
    [>=]. *)
Definition pythonName (line : string) : string :=
  trim (beforeSep ">=" (beforeSep "==" line)).

Definition pythonDeps (content : string) : list string :=
  filter Analyzer.nonEmpty (map pythonName (split newline content)).

(** [Cargo.toml]: [content.match(/\[dependencies\]([\s\S]*?)(\[|$)/)]
    captures what follows the first [[dependencies]] up to the next
    opening bracket or the end. *)
Definition rustSection (content : string) : option string :=
  match afterMarker "[dependencies]" content with
  | Some rest => Some (beforeSep "[" rest)
  | None => None
  end.

Definition rustName (line : string) : string := trim (beforeSep "=" line).

Definition rustDeps (content : string) : list string :=
  match rustSection content with
  | Some section =>
      filter (fun line => Analyzer.nonEmpty line && negb (startsWith "#" line))
             (map rustName (split newline section))
  | None => []
  end.

(** [go.mod]: [content.match(/require \(([\s\S]*?)\)/)] captures what is
    between the first [require (] and the next closing parenthesis, and
    fails without one. *)
Definition goSection (content : string) : option string :=
  match afterMarker "require (" content with
  | Some rest => if includes rest ")" then Some (beforeSep ")" rest) else None
  | None => None
  end.

Definition goName (line : string) : string := beforeSep " " (trim line).

Definition goDeps (content : string) : list string :=
  match goSection content with
  | Some section => filter Analyzer.nonEmpty (map goName (split newline section))
  | None => []
  end.

Record t : Type := {
  npm : list string;
  python : list string;
  rust : list string;
  go : list string
}.

Definition npmDeps (packageJson : Jobs.FileContent) : list string :=
  match packageJson with
  | Jobs.Parsed pkg =>
      match Manifest.allDeps pkg with
      | Ok deps => deps
      | Throw _ => []
      end
  | _ => []
  end.

Definition textDeps (parse : string -> list string) (content : option string)
  : list string :=
  match content with
  | Some text => parse text
  | None => []
  end.

(** The four manifests of the repository: [package.json] as for
    [analyzePatterns]; the text of [requirements.txt], [Cargo.toml] and
    [go.mod], or [None] for a file that is absent or cannot be read. *)
Definition analyzeDependencies (packageJson : Jobs.FileContent)
           (requirements cargoToml goMod : option string) : t :=
  {| npm := npmDeps packageJson;
     python := textDeps pythonDeps requirements;
     rust := textDeps rustDeps cargoToml;
     go := textDeps goDeps goMod |}.

(** [Object.entries(deps)], as the profile builder reads them. *)
Definition entries (deps : t) : list (string * list string) :=
  [("npm", npm deps); ("python", python deps); ("rust", rust deps); ("go", go deps)].

End Dependencies.

(** Inputs of the manifest properties. *)
Module DependencySamples.
Import Dependencies.

Definition lines (l : list string) : string := join (String newline EmptyString) l.

Definition requirements : string :=
  lines ["flask==2.0.1"; "requests >= 2.0"; EmptyString; "# pinned"; "numpy~=1.20"; "  "].

Definition cargoToml : string :=
  lines ["[package]"; "name = 'demo'"; EmptyString; "[dependencies]"; "# async";
         "tokio = '1'"; "serde = { version = '1', features = ['derive'] }";
         "rand = '0.8'"; EmptyString; "[dev-dependencies]"; "criterion = '0.5'"].

Definition goMod : string :=
  lines ["module example.com/demo"; EmptyString; "go 1.21"; EmptyString; "require (";
         String (fromCharCode 9) "github.com/pkg/errors v0.9.1";
         String (fromCharCode 9) "golang.org/x/text v0.3.0 // indirect"; ")"].

End DependencySamples.

(** An author line that the log parser took: a name that is not empty,
    starts with no white space and holds no line terminator, and a
    commit count that is a number, not negative. *)
Definition authorOk (a : Analyzer.Author) : Prop :=
  Analyzer.authorName a <> EmptyString /\
  headNotSpace (Analyzer.authorName a) = true /\
  existsb Analyzer.isLineTerminator (list_ascii_of_string (Analyzer.authorName a)) = false /\
  exists n, Analyzer.commits a = Int n /\ 0 <= n.

Definition trimmedText (s : option string) : Prop :=
  forall text, s = Some text -> trim text = text.

Definition allDigits (s : string) : bool := allChars isDigit s.

(** ** The profile on screen ([formatSkillsForDisplay], [src/lib/skills.js]) *)

Module Display.
Import JS.

Record DisplaySection : Type := { title : string; items : list string }.

(** The tier as the profile holds it, a string. *)
Definition proficiencyName (p : Proficiency) : string :=
  match p with
  | familiar => "familiar"
  | intermediate => "intermediate"
  | advanced => "advanced"
  | expert => "expert"
  end.

(** [`${name} (${data.proficiency})`] *)
Definition label (name : string) (p : Proficiency) : string :=
  name ++ " (" ++ proficiencyName p ++ ")".

Definition languageLabel (e : string * LanguageEntry.t) : string :=
  label (fst e) (LanguageEntry.proficiency (snd e)).

Definition frameworkLabel (e : string * FrameworkEntry.t) : string :=
  label (fst e) (FrameworkEntry.proficiency (snd e)).

Definition formatSkillsForDisplay (profile : Profile.t) : list DisplaySection :=
  ((if Jobs.isEmpty (Profile.languages profile) then []
    else [ {| title := "Languages";
              items :=
                map languageLabel
                    (sortDesc (fun e : string * LanguageEntry.t =>
                                 LanguageEntry.repoCount (snd e))
                              (filter Skills.isLanguageLevel (Profile.languages profile))) |} ])
   ++ (if Jobs.isEmpty (Profile.frameworks profile) then []
       else [ {| title := "Frameworks & Libraries";
                 items :=
                   map frameworkLabel
                       (sortDesc (fun e : string * FrameworkEntry.t =>
                                    FrameworkEntry.repoCount (snd e))
                                 (Profile.frameworks profile)) |} ])
   ++ (if Jobs.isEmpty (Profile.domains profile) then []
       else [ {| title := "Domain Expertise"; items := Profile.domains profile |} ]))%list.

End Display.

(** The items of the section with a given title, if it is shown. *)
Definition sectionItems (name : string) (sections : list Display.DisplaySection)
  : option (list string) :=
  option_map Display.items
             (find (fun s => String.eqb (Display.title s) name) sections).

(** Inputs of the display properties. *)
Module DisplaySamples.

(** A repository of markup alone. *)
Definition markupRepo : Repo.t := Examples.repo "pages" ["HTML"; "CSS"] [] false.

End DisplaySamples.

(** A line of [uniq -c]: padding, the count, a blank and the name. *)
Definition countLine (pad : string) (n : Z) (name : string) : string :=
  pad ++ decimal n ++ " " ++ name.

(** The final score that the matcher gives a job, when it does not
    throw on it. *)
Definition scoreIs (profile : Profile.t) (preferences : Jobs.Preferences) (k : Z)
           (j : Job.t) : bool :=
  match Jobs.matchOne profile preferences j with
  | Ok m => Jobs.score m =? k
  | Throw _ => false
  end.

(** * Properties *)

(** ** Categorization *)

Section Categorize.
Import Jobs.

Lemma want_not_qualified m : isWant m = true -> isQualified m = false.
Proof.
  unfold isWant, isQualified. intros H.
  destruct (wantMatch m); [| discriminate H].
  now rewrite andb_false_r.
Qed.

Lemma stretch_below_50 m : isStretch m = true -> (50 <=? score m) = false.
Proof.
  unfold isStretch. intros H.
  apply andb_prop in H. destruct H as [H _].
  apply andb_prop in H. destruct H as [_ H].
  apply Z.ltb_lt in H. apply Z.leb_gt. exact H.
Qed.

Lemma want_not_stretch m : isWant m = true -> isStretch m = false.
Proof.
  intros H. destruct (isStretch m) eqn:E; [| reflexivity].
  apply stretch_below_50 in E. unfold isWant in H.
  rewrite E, andb_false_r in H. discriminate H.
Qed.

Lemma qualified_not_stretch m : isQualified m = true -> isStretch m = false.
Proof.
  intros H. destruct (isStretch m) eqn:E; [| reflexivity].
  apply stretch_below_50 in E. unfold isQualified in H.
  rewrite E in H. discriminate H.
Qed.

(** C6: the buckets [want], [qualified] and [stretch] of
    [categorizeMatches] are pairwise disjoint, and a result of the list is
    in [filtered] exactly when its [locationMatch] is false or its
    [hasAvoid] is true. *)
Theorem categorizeMatches_exclusive (matches : list MatchResult) (m : MatchResult) :
  let c := categorizeMatches matches in
  ~ (In m (want c) /\ In m (qualified c)) /\
  ~ (In m (want c) /\ In m (stretch c)) /\
  ~ (In m (qualified c) /\ In m (stretch c)) /\
  (In m (filtered c) <->
   In m matches /\ (locationMatch m = false \/ hasAvoid m = true)).
Proof.
  simpl. split; [| split; [| split; [| split]]].
  - intros [H1 H2]. apply filter_In in H1, H2.
    destruct H1 as [_ H1], H2 as [_ H2].
    apply want_not_qualified in H1. congruence.
  - intros [H1 H2]. apply filter_In in H1, H2.
    destruct H1 as [_ H1], H2 as [_ H2].
    apply want_not_stretch in H1. congruence.
  - intros [H1 H2]. apply filter_In in H1, H2.
    destruct H1 as [_ H1], H2 as [_ H2].
    apply qualified_not_stretch in H1. congruence.
  - intros H. apply filter_In in H. destruct H as [Hin H].
    split; [exact Hin |].
    unfold isFiltered in H. apply orb_prop in H.
    destruct H as [H | H]; [left | right]; [| exact H].
    now destruct (locationMatch m).
  - intros [Hin H]. apply filter_In. split; [exact Hin |].
    unfold isFiltered. destruct H as [H | H]; rewrite H; [reflexivity |].
    apply orb_true_r.
Qed.
End Categorize.

(** ** Proficiency tiers *)

Section Proficiency.
Import Skills.

Lemma ratio_monotone rc rc' tr w :
  1 <= tr -> (0 <= w)%Q -> rc <= rc' -> (ratio rc tr w <= ratio rc' tr w)%Q.
Proof.
  intros Htr Hw Hrc. unfold ratio.
  apply Qmult_le_compat_r; [| exact Hw].
  unfold Qdiv. apply Qmult_le_compat_r.
  - rewrite <- Zle_Qle. exact Hrc.
  - apply Qinv_le_0_compat. change 0%Q with (inject_Z 0).
    rewrite <- Zle_Qle. lia.
Qed.

(** The tier as the thresholds decide it, for a denominator that is not
    zero. *)
Lemma calculateProficiency_nonzero rc tr w :
  tr <> 0 ->
  calculateProficiency rc tr w =
    if Qle_bool (5 # 10) (ratio rc tr w) then expert
    else if Qle_bool (3 # 10) (ratio rc tr w) then advanced
    else if Qle_bool (15 # 100) (ratio rc tr w) then intermediate
    else familiar.
Proof.
  intros H. unfold calculateProficiency.
  destruct (Z.eqb_spec tr 0) as [E | _]; [contradiction | reflexivity].
Qed.

Lemma Qle_bool_false x y : Qle_bool x y = false <-> (y < x)%Q.
Proof.
  split; intros H.
  - apply Qnot_le_lt. intros Hle. apply Qle_bool_iff in Hle. congruence.
  - destruct (Qle_bool x y) eqn:E; [| reflexivity].
    apply Qle_bool_iff in E. apply Qle_not_lt in E. contradiction.
Qed.

Lemma Qle_bool_mono a x y :
  (x <= y)%Q -> Qle_bool a x = true -> Qle_bool a y = true.
Proof.
  intros Hxy H. apply Qle_bool_iff in H. apply Qle_bool_iff.
  now apply Qle_trans with x.
Qed.

(** The tier does not decrease when the ratio grows. *)
Lemma tier_monotone_in_ratio rc tr w rc' tr' w' :
  tr <> 0 -> tr' <> 0 ->
  (ratio rc tr w <= ratio rc' tr' w')%Q ->
  rank (calculateProficiency rc tr w) <= rank (calculateProficiency rc' tr' w').
Proof.
  intros Htr Htr' Hle.
  rewrite !calculateProficiency_nonzero by assumption.
  destruct (Qle_bool (5 # 10) (ratio rc tr w)) eqn:E1.
  { rewrite (Qle_bool_mono _ Hle E1). simpl. lia. }
  destruct (Qle_bool (3 # 10) (ratio rc tr w)) eqn:E2.
  { rewrite (Qle_bool_mono _ Hle E2).
    destruct (Qle_bool (5 # 10) (ratio rc' tr' w')); simpl; lia. }
  destruct (Qle_bool (15 # 100) (ratio rc tr w)) eqn:E3.
  { rewrite (Qle_bool_mono _ Hle E3).
    destruct (Qle_bool (5 # 10) (ratio rc' tr' w'));
      destruct (Qle_bool (3 # 10) (ratio rc' tr' w')); simpl; lia. }
  destruct (Qle_bool (5 # 10) (ratio rc' tr' w'));
    destruct (Qle_bool (3 # 10) (ratio rc' tr' w'));
    destruct (Qle_bool (15 # 100) (ratio rc' tr' w')); simpl; lia.
Qed.

(** C7: for [totalRepos >= 1] the tier is the step function of
    [ratio = (repoCount / totalRepos) * weight] with inclusive lower
    bounds 0.5, 0.3 and 0.15; a ratio of exactly 0.5 is [expert]
    (5 repositories of 10 with weight 1 among them); and for a fixed
    [totalRepos] and a weight that is not negative the tier never
    decreases when [repoCount] grows. *)
Theorem calculateProficiency_step_function :
  (forall rc tr w, 1 <= tr ->
     let r := ratio rc tr w in
     ((5 # 10 <= r)%Q -> calculateProficiency rc tr w = expert) /\
     ((3 # 10 <= r)%Q -> (r < 5 # 10)%Q -> calculateProficiency rc tr w = advanced) /\
     ((15 # 100 <= r)%Q -> (r < 3 # 10)%Q ->
      calculateProficiency rc tr w = intermediate) /\
     ((r < 15 # 100)%Q -> calculateProficiency rc tr w = familiar)) /\
  (forall rc tr w, 1 <= tr -> (ratio rc tr w == 5 # 10)%Q ->
     calculateProficiency rc tr w = expert) /\
  calculateProficiency 5 10 1 = expert /\
  (forall rc rc' tr w, 1 <= tr -> (0 <= w)%Q -> rc <= rc' ->
     rank (calculateProficiency rc tr w) <= rank (calculateProficiency rc' tr w)).
Proof.
  split; [| split; [| split]].
  - intros rc tr w Htr r.
    assert (Hnz : tr <> 0) by lia.
    rewrite (calculateProficiency_nonzero rc w Hnz). fold r.
    split; [| split; [| split]].
    + intros H. apply Qle_bool_iff in H. now rewrite H.
    + intros H1 H2. apply Qle_bool_iff in H1. apply Qle_bool_false in H2.
      now rewrite H2, H1.
    + intros H1 H2. apply Qle_bool_iff in H1.
      assert (H3 : Qle_bool (5 # 10) r = false).
      { apply Qle_bool_false.
        apply Qlt_trans with (3 # 10)%Q; [exact H2 | reflexivity]. }
      apply Qle_bool_false in H2.
      now rewrite H3, H2, H1.
    + intros H.
      assert (H1 : Qle_bool (15 # 100) r = false) by now apply Qle_bool_false.
      assert (H2 : Qle_bool (3 # 10) r = false).
      { apply Qle_bool_false. apply Qlt_trans with (15 # 100)%Q; [exact H | reflexivity]. }
      assert (H3 : Qle_bool (5 # 10) r = false).
      { apply Qle_bool_false. apply Qlt_trans with (15 # 100)%Q; [exact H | reflexivity]. }
      now rewrite H3, H2, H1.
  - intros rc tr w Htr H.
    assert (Hnz : tr <> 0) by lia.
    rewrite (calculateProficiency_nonzero rc w Hnz).
    assert (E : Qle_bool (5 # 10) (ratio rc tr w) = true).
    { apply Qle_bool_iff. rewrite H. apply Qle_refl. }
    now rewrite E.
  - reflexivity.
  - intros rc rc' tr w Htr Hw Hrc.
    apply tier_monotone_in_ratio; try lia.
    now apply ratio_monotone.
Qed.

Lemma calculateProficiency_step_function_witness :
  calculateProficiency 3 10 1 = advanced /\
  calculateProficiency 1 2 (10 # 10) = expert /\
  rank (calculateProficiency 1 10 (13 # 10)) <= rank (calculateProficiency 4 10 (13 # 10)).
Proof.
  destruct calculateProficiency_step_function as [Hstep [Hhalf [_ Hmono]]].
  split; [| split].
  - apply (Hstep 3 10 1%Q); [lia | discriminate | reflexivity].
  - apply (Hhalf 1 2 (10 # 10)%Q); [lia | reflexivity].
  - apply (Hmono 1 4 10 (13 # 10)%Q); [lia | discriminate | lia].
Defined.
End Proficiency.

(** ** Rounding to the nearest double *)

Section Doubles.
Open Scope Q_scope.

Lemma floor_bounds (q : Q) : inject_Z (Qfloor q) <= q < inject_Z (Qfloor q) + 1.
Proof.
  split; [apply Qfloor_le |].
  pose proof (Qlt_floor q) as H. rewrite inject_Z_plus in H. exact H.
Qed.

Lemma nearestEven_near (q : Q) :
  q - (1 # 2) <= inject_Z (nearestEven q) <= q + (1 # 2).
Proof.
  unfold nearestEven. destruct (floor_bounds q) as [Hlo Hhi].
  destruct (Qcompare_spec (q - inject_Z (Qfloor q)) (1 # 2)) as [E | E | E].
  - destruct (Z.even (Qfloor q)); rewrite ?inject_Z_plus; change (inject_Z 1) with 1; lra.
  - lra.
  - rewrite inject_Z_plus. change (inject_Z 1) with 1. lra.
Qed.

Lemma nearestEven_le (q : Q) (k : Z) : q <= inject_Z k -> (nearestEven q <= k)%Z.
Proof.
  intros H. unfold nearestEven. destruct (floor_bounds q) as [Hlo Hhi].
  assert (Hf : (Qfloor q <= k)%Z).
  { rewrite <- (Qfloor_Z k). now apply Qfloor_resp_le. }
  destruct (Z.eq_dec (Qfloor q) k) as [E0 | Hne].
  - assert (E : (q - inject_Z (Qfloor q) ?= 1 # 2) = Lt).
    { apply (proj1 (Qlt_alt _ _)). rewrite E0. lra. }
    rewrite E. lia.
  - destruct (q - inject_Z (Qfloor q) ?= 1 # 2); [destruct (Z.even (Qfloor q)) | |]; lia.
Qed.

Lemma nearestEven_ge (q : Q) (k : Z) : inject_Z k <= q -> (k <= nearestEven q)%Z.
Proof.
  intros H. unfold nearestEven.
  assert (Hf : (k <= Qfloor q)%Z).
  { rewrite <- (Qfloor_Z k). now apply Qfloor_resp_le. }
  destruct (q - inject_Z (Qfloor q) ?= 1 # 2); [destruct (Z.even (Qfloor q)) | |]; lia.
Qed.

Lemma nearestEven_monotone (p q : Q) : p <= q -> (nearestEven p <= nearestEven q)%Z.
Proof.
  intros H.
  destruct (Z.eq_dec (Qfloor p) (Qfloor q)) as [E | Hne].
  - unfold nearestEven. rewrite E.
    destruct (Qcompare_spec (p - inject_Z (Qfloor q)) (1 # 2)) as [Ep | Ep | Ep];
      destruct (Qcompare_spec (q - inject_Z (Qfloor q)) (1 # 2)) as [Eq | Eq | Eq];
      try destruct (Z.even (Qfloor q)); try lia; exfalso; lra.
  - assert (Hf : (Qfloor p + 1 <= Qfloor q)%Z).
    { pose proof (Qfloor_resp_le _ _ H). lia. }
    apply Z.le_trans with (Qfloor p + 1)%Z.
    + apply nearestEven_le. rewrite inject_Z_plus. change (inject_Z 1) with 1.
      destruct (floor_bounds p). lra.
    + apply Z.le_trans with (Qfloor q); [exact Hf |].
      apply nearestEven_ge. apply Qfloor_le.
Qed.

Lemma two_power_pos (e : Z) : 0 < 2 ^ e.
Proof. apply Qpower_0_lt. reflexivity. Qed.

Lemma two_power_succ (e : Z) : 2 ^ (e + 1) == 2 * 2 ^ e.
Proof. rewrite Qpower_plus; [| discriminate]. rewrite Qpower_1_r. ring. Qed.

Lemma two_power_le (a b : Z) : (a <= b)%Z -> 2 ^ a <= 2 ^ b.
Proof. intros H. apply Qpower_le_compat_l; [exact H | discriminate]. Qed.

Lemma Qdiv_Z_lt (n d N D : Z) :
  (0 < d)%Z -> (0 < D)%Z -> (n * D < N * d)%Z ->
  inject_Z n / inject_Z d < inject_Z N / inject_Z D.
Proof.
  intros Hd HD H.
  assert (Hd' : 0 < inject_Z d) by (change 0 with (inject_Z 0); now rewrite <- Zlt_Qlt).
  assert (HD' : 0 < inject_Z D) by (change 0 with (inject_Z 0); now rewrite <- Zlt_Qlt).
  apply Qlt_shift_div_r; [exact Hd' |].
  assert (E : inject_Z N / inject_Z D * inject_Z d == inject_Z (N * d) / inject_Z D).
  { rewrite inject_Z_mult. field. lra. }
  rewrite E. apply Qlt_shift_div_l; [exact HD' |].
  rewrite <- inject_Z_mult. now rewrite <- Zlt_Qlt.
Qed.

Lemma two_power_Z (a : Z) : (0 <= a)%Z -> 2 ^ a == inject_Z (2 ^ a).
Proof. intros H. now rewrite Zpower_Qpower. Qed.

(** The binade of a positive number. *)
Lemma exponent_spec (x : Q) :
  0 < x -> 2 ^ (exponent x + 52) <= x < 2 ^ (exponent x + 53).
Proof.
  intros Hx. destruct x as [n d]. unfold exponent. cbn [Qnum Qden].
  assert (Hn : (0 < n)%Z).
  { unfold Qlt in Hx. cbn in Hx. lia. }
  set (a := Z.log2 n). set (b := Z.log2 (Z.pos d)).
  destruct (Z.log2_spec n Hn) as [Ha1 Ha2]. fold a in Ha1, Ha2.
  destruct (Z.log2_spec (Z.pos d) (Pos2Z.is_pos d)) as [Hb1 Hb2]. fold b in Hb1, Hb2.
  assert (Ha : (0 <= a)%Z) by apply Z.log2_nonneg.
  assert (Hb : (0 <= b)%Z) by apply Z.log2_nonneg.
  assert (Ex : n # d == inject_Z n / inject_Z (Z.pos d)) by apply Qmake_Qdiv.
  assert (Hpa : (0 < 2 ^ a)%Z) by (apply Z.pow_pos_nonneg; lia).
  assert (Hpb : (0 < 2 ^ b)%Z) by (apply Z.pow_pos_nonneg; lia).
  assert (Hlo : 2 ^ (a - b - 1) < n # d).
  { replace (a - b - 1)%Z with (a - (b + 1))%Z by lia.
    rewrite Qpower_minus by discriminate.
    rewrite (@two_power_Z a), (@two_power_Z (b + 1)), Ex by lia.
    apply Qdiv_Z_lt; [apply Z.pow_pos_nonneg; lia | lia |].
    apply Z.le_lt_trans with (n * Z.pos d)%Z; [| nia].
    apply Z.mul_le_mono_nonneg_r; lia. }
  assert (Hhi : n # d < 2 ^ (a - b + 1)).
  { replace (a - b + 1)%Z with (a + 1 - b)%Z by lia.
    rewrite Qpower_minus by discriminate.
    rewrite (@two_power_Z (a + 1)), (@two_power_Z b), Ex by lia.
    apply Qdiv_Z_lt; [lia | lia |].
    apply Z.le_lt_trans with (n * Z.pos d)%Z; [| nia].
    apply Z.mul_le_mono_nonneg_l; lia. }
  destruct (Qle_bool (2 ^ (a - b - 52 + 52)) (n # d)) eqn:E.
  - apply Qle_bool_iff in E. split; [exact E |].
    replace (a - b - 52 + 53)%Z with (a - b + 1)%Z by lia. exact Hhi.
  - assert (E' : n # d < 2 ^ (a - b - 52 + 52)).
    { apply Qnot_le_lt. intros H. apply Qle_bool_iff in H. congruence. }
    replace (a - b - 52 - 1 + 52)%Z with (a - b - 1)%Z by lia.
    replace (a - b - 52 - 1 + 53)%Z with (a - b - 52 + 52)%Z by lia.
    split; [apply Qlt_le_weak; exact Hlo | exact E'].
Qed.


Lemma double_pos (x : Q) :
  0 < x ->
  double x = inject_Z (nearestEven (x / 2 ^ exponent x)) * 2 ^ exponent x.
Proof.
  intros H. unfold double. now rewrite (proj1 (Qgt_alt _ _) H).
Qed.

Lemma double_zero (x : Q) : x == 0 -> double x = 0.
Proof. intros H. unfold double. now rewrite (proj1 (Qeq_alt _ _) H). Qed.

(** The significand before rounding lies in [2^52, 2^53). *)
Lemma significand_bounds (x : Q) :
  0 < x -> 2 ^ 52 <= x / 2 ^ exponent x < 2 ^ 53.
Proof.
  intros Hx. destruct (exponent_spec Hx) as [Hlo Hhi].
  pose proof (two_power_pos (exponent x)) as Hp.
  rewrite Qpower_plus in Hlo, Hhi by discriminate.
  split.
  - apply Qle_shift_div_l; [exact Hp |]. now rewrite Qmult_comm.
  - apply Qlt_shift_div_r; [exact Hp |]. now rewrite Qmult_comm.
Qed.

Lemma scaled_back (x : Q) (e : Z) : x / 2 ^ e * 2 ^ e == x.
Proof. field. pose proof (two_power_pos e). lra. Qed.

(** Rounding moves a positive number by at most half a unit in the last
    place, which is at most [2^-53] of the number. *)
Lemma double_error (x : Q) :
  0 < x -> x * (1 - 2 ^ (-53)) <= double x <= x * (1 + 2 ^ (-53)).
Proof.
  intros Hx. rewrite (double_pos Hx).
  destruct (significand_bounds Hx) as [Hlo _].
  pose proof (two_power_pos (exponent x)) as Hp.
  pose proof (nearestEven_near (x / 2 ^ exponent x)) as [Hn1 Hn2].
  pose proof (scaled_back x (exponent x)) as Hs.
  set (q := x / 2 ^ exponent x) in *. set (p := 2 ^ exponent x) in *.
  set (m := inject_Z (nearestEven q)) in *.
  assert (H53 : 2 ^ (-53) == 1 # 9007199254740992) by reflexivity.
  assert (H52 : 2 ^ 52 == 4503599627370496) by reflexivity.
  rewrite H53. rewrite H52 in Hlo.
  assert (Hhalf : (1 # 2) * p <= x * (1 # 9007199254740992)).
  { rewrite <- Hs. 
    assert ((1 # 2) * p == 4503599627370496 * p * (1 # 9007199254740992)) by ring.
    rewrite H. apply Qmult_le_compat_r; [| discriminate].
    rewrite (Qmult_comm q p), (Qmult_comm _ p). apply Qmult_le_l; [exact Hp | exact Hlo]. }
  assert (H1 : (q - (1 # 2)) * p <= m * p) by (apply Qmult_le_compat_r; lra).
  assert (H2 : m * p <= (q + (1 # 2)) * p) by (apply Qmult_le_compat_r; lra).
  split; lra.
Qed.

Lemma double_nonneg (x : Q) : 0 <= x -> 0 <= double x.
Proof.
  intros H. destruct (Qlt_le_dec 0 x) as [Hx | Hx].
  - rewrite (double_pos Hx). apply Qmult_le_0_compat.
    + change 0 with (inject_Z 0). rewrite <- Zle_Qle.
      apply nearestEven_ge. destruct (significand_bounds Hx) as [Hlo _].
      change (inject_Z 0) with 0. pose proof (two_power_pos 52). lra.
    + apply Qlt_le_weak, two_power_pos.
  - rewrite double_zero; [apply Qle_refl | lra].
Qed.

(** The rounded significand lies in [2^52, 2^53]. *)
Lemma rounded_significand (x : Q) :
  0 < x ->
  2 ^ 52 <= inject_Z (nearestEven (x / 2 ^ exponent x)) <= 2 ^ 53.
Proof.
  intros Hx. destruct (significand_bounds Hx) as [Hlo Hhi].
  rewrite (@two_power_Z 52), (@two_power_Z 53) in * by lia.
  split; rewrite <- Zle_Qle.
  - now apply nearestEven_ge.
  - apply nearestEven_le. now apply Qlt_le_weak.
Qed.

Lemma exponent_monotone (x y : Q) : 0 < x -> x <= y -> (exponent x <= exponent y)%Z.
Proof.
  intros Hx Hxy. assert (Hy : 0 < y) by lra.
  destruct (exponent_spec Hx) as [Hx1 _]. destruct (exponent_spec Hy) as [_ Hy2].
  assert (H : 2 ^ (exponent x + 52) < 2 ^ (exponent y + 53)) by lra.
  apply Qpower_lt_compat_l_inv in H; [lia | reflexivity].
Qed.

(** Rounding is monotone. *)
Lemma double_monotone (x y : Q) : 0 <= x -> x <= y -> double x <= double y.
Proof.
  intros Hx0 Hxy. destruct (Qlt_le_dec 0 x) as [Hx | Hx].
  2:{ rewrite (@double_zero x) by lra. apply double_nonneg. lra. }
  assert (Hy : 0 < y) by lra.
  rewrite (double_pos Hx), (double_pos Hy).
  pose proof (exponent_monotone Hx Hxy) as He.
  destruct (rounded_significand Hx) as [_ Hmx]. destruct (rounded_significand Hy) as [Hmy _].
  pose proof (two_power_pos (exponent x)) as Hpx.
  pose proof (two_power_pos (exponent y)) as Hpy.
  destruct (Z.eq_dec (exponent x) (exponent y)) as [E | Hne].
  - rewrite E in *. apply Qmult_le_compat_r; [| lra].
    rewrite <- Zle_Qle. apply nearestEven_monotone.
    apply Qmult_le_compat_r; [exact Hxy |]. apply Qlt_le_weak, Qinv_lt_0_compat, Hpy.
  - assert (Hstep : 2 ^ 53 * 2 ^ exponent x <= 2 ^ 52 * 2 ^ exponent y).
    { rewrite <- !Qpower_plus by discriminate. apply two_power_le. lia. }
    apply Qle_trans with (2 ^ 53 * 2 ^ exponent x).
    + apply Qmult_le_compat_r; [exact Hmx | lra].
    + apply Qle_trans with (2 ^ 52 * 2 ^ exponent y); [exact Hstep |].
      apply Qmult_le_compat_r; [exact Hmy | lra].
Qed.

Lemma double_one : double 1 == 1.
Proof. vm_compute. reflexivity. Qed.

Lemma double_hundred : double 100 == 100.
Proof. vm_compute. reflexivity. Qed.

Lemma Qfloor_unique (q : Q) (k : Z) :
  inject_Z k <= q -> q < inject_Z k + 1 -> Qfloor q = k.
Proof.
  intros H1 H2. destruct (floor_bounds q) as [F1 F2].
  assert (A : inject_Z k < inject_Z (Qfloor q + 1)).
  { rewrite inject_Z_plus. change (inject_Z 1) with 1. lra. }
  assert (B : inject_Z (Qfloor q) < inject_Z (k + 1)).
  { rewrite inject_Z_plus. change (inject_Z 1) with 1. lra. }
  rewrite <- Zlt_Qlt in A, B. lia.
Qed.

Lemma quotient_bounds (a b : Z) :
  (0 <= a)%Z -> (0 < b)%Z ->
  0 <= inject_Z a / inject_Z b /\
  ((a <= b)%Z -> inject_Z a / inject_Z b <= 1) /\
  ((b <= a)%Z -> 1 <= inject_Z a / inject_Z b).
Proof.
  intros Ha Hb.
  assert (HB : 0 < inject_Z b) by (change 0 with (inject_Z 0); now rewrite <- Zlt_Qlt).
  assert (HA : 0 <= inject_Z a) by (change 0 with (inject_Z 0); now rewrite <- Zle_Qle).
  split; [| split].
  - apply Qle_shift_div_l; [exact HB | lra].
  - intros H. rewrite Zle_Qle in H. apply Qle_shift_div_r; [exact HB | lra].
  - intros H. rewrite Zle_Qle in H. apply Qle_shift_div_l; [exact HB | lra].
Qed.

Lemma round_nonneg (x : Q) : 0 <= x -> (0 <= round x)%Z.
Proof.
  intros H. unfold round. change 0%Z with (Qfloor 0).
  apply Qfloor_resp_le. lra.
Qed.

Lemma round_le (x : Q) (k : Z) : x <= inject_Z k -> (round x <= k)%Z.
Proof.
  intros H. unfold round. destruct (floor_bounds (x + (1 # 2))) as [F1 F2].
  assert (A : inject_Z (Qfloor (x + (1 # 2))) < inject_Z (k + 1)).
  { rewrite inject_Z_plus. change (inject_Z 1) with 1. lra. }
  rewrite <- Zlt_Qlt in A. lia.
Qed.

Lemma round_ge (x : Q) (k : Z) : inject_Z k <= x -> (k <= round x)%Z.
Proof.
  intros H. unfold round. rewrite <- (Qfloor_Z k). apply Qfloor_resp_le. lra.
Qed.

(** [Math.round((a / b) * 100)] is never negative, is at most 100 when
    [a <= b] and at least 100 when [b <= a]. *)
Lemma percent_range (a b : Z) :
  (0 <= a)%Z -> (0 < b)%Z ->
  (0 <= percent a b)%Z /\
  ((a <= b)%Z -> (percent a b <= 100)%Z) /\
  ((b <= a)%Z -> (100 <= percent a b)%Z).
Proof.
  intros Ha Hb. destruct (quotient_bounds Ha Hb) as [Q0 [Q1 Q2]].
  pose proof (double_nonneg Q0) as D0.
  pose proof double_one as E1. pose proof double_hundred as E100.
  unfold percent. split; [| split].
  - apply round_nonneg, double_nonneg. lra.
  - intros H. apply round_le. change (inject_Z 100) with 100.
    pose proof (double_monotone Q0 (Q1 H)) as D1.
    assert (D2 : double (double (inject_Z a / inject_Z b) * 100) <= double 100)
      by (apply double_monotone; lra).
    lra.
  - intros H. apply round_ge. change (inject_Z 100) with 100.
    assert (D1 : double 1 <= double (inject_Z a / inject_Z b))
      by (apply double_monotone; [lra | exact (Q2 H)]).
    assert (D2 : double 100 <= double (double (inject_Z a / inject_Z b) * 100))
      by (apply double_monotone; lra).
    lra.
Qed.

(** Two roundings move the product by less than the distance of
    [100 * a / b] from the nearest half-integer, unless that distance is
    0. *)
Lemma percent_exact (a b : Z) :
  (0 <= a < 4294967296)%Z -> (0 < b)%Z ->
  (exactScore a b - 1 <= percent a b <= exactScore a b)%Z /\
  (isTie a b = false -> percent a b = exactScore a b) /\
  ((201 * b < 200 * a)%Z -> (100 < percent a b)%Z) /\
  ((200 * a < 201 * b)%Z -> (percent a b <= 100)%Z).
Proof.
  intros [Ha Ha'] Hb.
  destruct (quotient_bounds Ha Hb) as [Q0 _].
  assert (HB : 1 <= inject_Z b) by (change 1 with (inject_Z 1); rewrite <- Zle_Qle; lia).
  assert (HA : 0 <= inject_Z a) by (change 0 with (inject_Z 0); now rewrite <- Zle_Qle).
  assert (HA' : inject_Z a <= 4294967295)
    by (change 4294967295 with (inject_Z 4294967295); rewrite <- Zle_Qle; lia).
  assert (Ex : inject_Z a / inject_Z b * inject_Z b == inject_Z a) by (field; lra).
  unfold percent, exactScore.
  remember (inject_Z a / inject_Z b) as x eqn:Dx.
  remember (round (x * 100)) as k eqn:Dk.
  assert (Hk : inject_Z k <= x * 100 + (1 # 2) < inject_Z k + 1).
  { rewrite Dk. unfold round. apply floor_bounds. }
  remember (double x) as y1 eqn:Dy1.
  remember (double (y1 * 100)) as y2 eqn:Dy2.
  assert (H53 : 2 ^ (-53) == 1 # 9007199254740992) by reflexivity.
  assert (Y : x * 100 * (1 - (3 # 9007199254740992)) <= y2
              <= x * 100 * (1 + (3 # 9007199254740992))).
  { destruct (Qlt_le_dec 0 x) as [Hx | Hx].
    - pose proof (double_error Hx) as [E1 E2]. rewrite <- Dy1, H53 in E1, E2.
      assert (Hy1 : 0 < y1 * 100) by lra.
      pose proof (double_error Hy1) as [F1 F2]. rewrite <- Dy2, H53 in F1, F2.
      split; lra.
    - assert (E0 : y1 = 0) by (rewrite Dy1; apply double_zero; lra).
      assert (E1 : y2 = 0) by (rewrite Dy2, E0; apply double_zero; reflexivity).
      rewrite E1. split; lra. }
  clear Dx Dk Dy1 Dy2 H53. destruct Y as [Y1 Y2]. destruct Hk as [K1 K2].
  remember (inject_Z b) as B eqn:DB. remember (inject_Z a) as A eqn:DA.
  remember (inject_Z k) as K eqn:DK.
  assert (P1 : x * 100 * (1 - (3 # 9007199254740992)) * B <= y2 * B)
    by (apply Qmult_le_compat_r; lra).
  assert (P2 : y2 * B <= x * 100 * (1 + (3 # 9007199254740992)) * B)
    by (apply Qmult_le_compat_r; lra).
  assert (P3 : K * B <= (x * 100 + (1 # 2)) * B) by (apply Qmult_le_compat_r; lra).
  assert (P4 : (x * 100 + (1 # 2)) * B < (K + 1) * B) by (apply Qmult_lt_compat_r; lra).
  remember (x * B) as XB eqn:DXB. remember (y2 * B) as YB eqn:DYB.
  remember (K * B) as KB eqn:DKB.
  assert (P1' : 100 * (1 - (3 # 9007199254740992)) * XB <= YB).
  { eapply Qle_trans; [| exact P1]. rewrite DXB. apply Qle_lteq. right. ring. }
  assert (P2' : YB <= 100 * (1 + (3 # 9007199254740992)) * XB).
  { eapply Qle_trans; [exact P2 |]. rewrite DXB. apply Qle_lteq. right. ring. }
  assert (P3' : KB <= 100 * XB + (1 # 2) * B).
  { eapply Qle_trans; [exact P3 |]. rewrite DXB. apply Qle_lteq. right. ring. }
  assert (P4' : 100 * XB + (1 # 2) * B < KB + B).
  { eapply Qle_lt_trans; [| eapply Qlt_le_trans; [exact P4 |]].
    - rewrite DXB. apply Qle_lteq. right. ring.
    - rewrite DKB. apply Qle_lteq. right. ring. }
  (* the integers behind the exact rounding *)
  assert (Hz : (2 * (k * b) <= 200 * a + b <= 2 * (k * b) + 2 * b - 1)%Z).
  { assert (Z1 : inject_Z (2 * (k * b)) <= inject_Z (200 * a + b)).
    { rewrite inject_Z_plus, !inject_Z_mult, <- DK, <- DB, <- DA, <- DKB.
      change (inject_Z 2) with 2. change (inject_Z 200) with 200. lra. }
    assert (Z2 : inject_Z (200 * a + b) < inject_Z (2 * (k * b) + 2 * b)).
    { rewrite !inject_Z_plus, !inject_Z_mult, <- DK, <- DB, <- DA, <- DKB.
      change (inject_Z 2) with 2. change (inject_Z 200) with 200. lra. }
    rewrite <- Zle_Qle in Z1. rewrite <- Zlt_Qlt in Z2. lia. }
  assert (Hlow : (K - 1) * B <= (y2 + (1 # 2)) * B).
  { assert (E : (y2 + (1 # 2)) * B == YB + (1 # 2) * B) by (rewrite DYB; ring).
    assert (E' : (K - 1) * B == KB - B) by (rewrite DKB; ring).
    rewrite E, E'. lra. }
  assert (Hup : (y2 + (1 # 2)) * B < (K + 1) * B).
  { assert (E : (y2 + (1 # 2)) * B == YB + (1 # 2) * B) by (rewrite DYB; ring).
    assert (E' : (K + 1) * B == KB + B) by (rewrite DKB; ring).
    rewrite E, E'.
    assert (Z2 : inject_Z (200 * a + b) <= inject_Z (2 * (k * b) + 2 * b + -1))
      by (rewrite <- Zle_Qle; lia).
    rewrite !inject_Z_plus, !inject_Z_mult, <- DK, <- DB, <- DA, <- DKB in Z2.
    change (inject_Z 2) with 2 in Z2. change (inject_Z 200) with 200 in Z2.
    change (inject_Z (-1)) with (-1) in Z2. lra. }
  apply Qmult_le_r in Hlow; [| lra]. apply Qmult_lt_r in Hup; [| lra].
  assert (R1 : (k - 1 <= round y2)%Z).
  { unfold round. rewrite <- (Qfloor_Z (k - 1)). apply Qfloor_resp_le.
    unfold Zminus. rewrite inject_Z_plus, inject_Z_opp, <- DK. change (inject_Z 1) with 1. lra. }
  assert (R2 : (round y2 <= k)%Z).
  { unfold round. destruct (floor_bounds (y2 + (1 # 2))) as [F1 F2].
    assert (A' : inject_Z (Qfloor (y2 + (1 # 2))) < inject_Z (k + 1)).
    { rewrite inject_Z_plus, <- DK. change (inject_Z 1) with 1. lra. }
    rewrite <- Zlt_Qlt in A'. lia. }
  assert (Hfloor : (2 * (k * b) + 1 <= 200 * a + b)%Z -> round y2 = k).
  { intros Hne. unfold round. apply Qfloor_unique; [| rewrite <- DK; exact Hup].
  rewrite <- DK. apply Qmult_le_r with B; [lra |].
  assert (E : (y2 + (1 # 2)) * B == YB + (1 # 2) * B) by (rewrite DYB; ring).
  rewrite E, <- DKB.
  assert (Z3 : inject_Z (2 * (k * b) + 1) <= inject_Z (200 * a + b))
    by (rewrite <- Zle_Qle; lia).
  rewrite !inject_Z_plus, !inject_Z_mult, <- DK, <- DB, <- DA, <- DKB in Z3.
  change (inject_Z 2) with 2 in Z3. change (inject_Z 200) with 200 in Z3.
  change (inject_Z 1) with 1 in Z3. lra. }
  assert (Hexact : isTie a b = false -> round y2 = k).
  { intros Hnt. unfold isTie in Hnt. apply Z.eqb_neq in Hnt.
    assert (Hne : (2 * (k * b) + 1 <= 200 * a + b)%Z).
    { destruct (Z.eq_dec (2 * (k * b)) (200 * a + b)) as [E | Hne]; [| lia].
      exfalso. apply Hnt. rewrite <- E.
      replace (2 * (k * b))%Z with (k * (2 * b))%Z by ring. apply Z.mod_mul. lia. }
    now apply Hfloor. }
  split; [lia |]. split; [exact Hexact |].
  assert (Hcases : isTie a b = false \/ (2 * (k * b) = 200 * a + b)%Z).
  { unfold isTie. destruct (Z.eqb_spec ((200 * a + b) mod (2 * b)) 0) as [E | _];
      [right | now left].
    apply Z.mod_divide in E; [| lia]. destruct E as [c E].
    assert (c = k) by nia. subst c. lia. }
  split.
  - intros H. destruct Hcases as [Hnt | E]; [rewrite (Hexact Hnt); nia | nia].
  - intros H. nia.
Qed.

End Doubles.

(** ** Scores *)

Section Scores.
Import Skills Jobs.

Lemma mapM_In {A B : Type} (f : A -> exc B) (l : list A) (bs : list B) :
  mapM f l = Ok bs -> forall b, In b bs -> exists a, In a l /\ f a = Ok b.
Proof.
  revert bs. induction l as [| a l IH]; simpl; intros bs H b Hb.
  - injection H as <-. contradiction.
  - destruct (f a) as [b0 |] eqn:Ea; simpl in H; [| discriminate].
    destruct (mapM f l) as [bs0 |] eqn:El; simpl in H; [| discriminate].
    injection H as <-. destruct Hb as [<- | Hb].
    + exists a. auto.
    + destruct (IH bs0 eq_refl b Hb) as [a' [Hin Ha']]. exists a'. auto.
Qed.

Lemma mapM_total {A B : Type} (f : A -> exc B) (l : list A) :
  (forall a, In a l -> exists b, f a = Ok b) ->
  exists bs, mapM f l = Ok bs /\ List.length bs = List.length l.
Proof.
  induction l as [| a l IH]; simpl; intros H.
  - exists []. auto.
  - destruct (H a (or_introl eq_refl)) as [b Hb].
    destruct IH as [bs [Hbs Hlen]]; [intros a' Ha'; apply H; auto |].
    exists (b :: bs). rewrite Hb, Hbs. simpl. auto.
Qed.

Lemma insertDesc_perm {A : Type} (key : A -> Z) (x : A) (l : list A) :
  Permutation (x :: l) (insertDesc key x l).
Proof.
  induction l as [| y l IH]; simpl; [reflexivity |].
  destruct (key x <? key y); [| reflexivity].
  rewrite perm_swap. now apply perm_skip.
Qed.

Lemma sortDesc_perm {A : Type} (key : A -> Z) (l : list A) :
  Permutation l (sortDesc key l).
Proof.
  induction l as [| x l IH]; simpl; [reflexivity |].
  rewrite <- insertDesc_perm. now apply perm_skip.
Qed.

Lemma clampScore_bounds (x : Z) : 0 <= clampScore x <= 100.
Proof. unfold clampScore. lia. Qed.


(** What [matchSkillsToJob] returns for its score. *)
Lemma matchSkillsToJob_score profile j m :
  matchSkillsToJob profile j = Ok m ->
  Skills.score m = percent (Z.of_nat (List.length (matched m))) (requiredCountOf j).
Proof.
  unfold matchSkillsToJob. intros H.
  destruct (lowerText (Job.description j)) as [d |]; simpl in H; [| discriminate].
  injection H as <-. cbn [Skills.score matched]. unfold requiredCountOf.
  rewrite length_map.
  set (n := Z.of_nat (List.length (Job.skills j))).
  assert (E : (if n =? 0 then 1 else n) = Z.max 1 n).
  { destruct (Z.eqb_spec n 0); subst n; lia. }
  now rewrite E.
Qed.

(** In exact arithmetic the factor 100 may go first. *)
Lemma percent_reordered (mc req : Z) :
  1 <= req ->
  round ((inject_Z mc / inject_Z req) * 100) = round (100 * inject_Z mc / inject_Z req).
Proof.
  intros Hreq. unfold round. apply Qfloor_comp.
  assert (Hb : ~ (inject_Z req == 0)%Q).
  { intros Hz. change 0%Q with (inject_Z 0) in Hz.
    rewrite inject_Z_injective in Hz. lia. }
  field. exact Hb.
Qed.

Lemma matchOne_fields profile prefs j m :
  matchOne profile prefs j = Ok m ->
  job m = j /\
  (exists sm, matchSkillsToJob profile j = Ok sm /\
              baseScore m = Skills.score sm /\ matchedSkills m = matched sm) /\
  score m = clampScore (baseScore m + wantScoreOf prefs (matchedSkills m)
                        - avoidPenaltyOf prefs (job m)).
Proof.
  unfold matchOne. intros H.
  destruct (matchSkillsToJob profile j) as [sm |]; simpl in H; [| discriminate].
  destruct (locationMatchOf prefs j) as [lm |]; simpl in H; [| discriminate].
  injection H as <-. simpl. split; [reflexivity |]. split; [| reflexivity].
  exists sm. auto.
Qed.

Lemma matchable_matchOne profile prefs j :
  matchable j = true -> exists m, matchOne profile prefs j = Ok m.
Proof.
  unfold matchable, matchOne, matchSkillsToJob, locationMatchOf, lowerText, jobLocOf,
    textOrFalsy.
  intros H. apply andb_prop in H. destruct H as [Hd Hl].
  destruct (Job.description j) as [| b | n | d | l | fs]; cbn -[percent] in *;
    try discriminate Hd;
    try (destruct b; try discriminate Hd);
    try (destruct (n =? 0); try discriminate Hd);
    try (destruct (String.eqb d EmptyString));
    destruct (isEmpty (locations prefs));
    destruct (Job.location j); try discriminate Hl; cbn -[percent]; eexists; reflexivity.
Qed.

(** C1 as the specification has it fails: the base score is not clamped.
    One repository in TypeScript with the [typescript] pattern yields a
    language and a framework both named TypeScript; a job that lists
    that one skill is matched twice. *)
Lemma baseScore_exceeds_100 :
  exists m, matchJobsToProfile [Examples.tsJob] Examples.tsProfile Examples.noPreferences
            = Ok [m]
            /\ List.length (matchedSkills m) = 2%nat
            /\ baseScore m = 200
            /\ ~ (0 <= baseScore m <= 100).
Proof.
  eexists. split; [vm_compute; reflexivity |].
  cbn [baseScore matchedSkills]. split; [reflexivity |]. split; [reflexivity | lia].
Qed.

(** C1, amended: every result of [matchJobsToProfile] has a final score
    in [0, 100], equal to [clamp(baseScore + wantScore - avoidPenalty, 0,
    100)]. Its base score is [Math.round((matchedCount / max(1, number
    of job skill tokens)) * 100)] as the doubles give it: never negative,
    at most 100 when no more entries matched than the job has tokens, at
    least 100 when no fewer did. For fewer than [2^32] matches it is the
    exact [round(100 * matchedCount / max(1, tokens))], except that it
    may be one less when the exact quotient lies half-way between two
    integers; so it exceeds 100 whenever [200 * matchedCount > 201 *
    tokens] and is at most 100 whenever [200 * matchedCount < 201 *
    tokens]. The matcher returns one result per job when every
    description is text or falsy and every location is text or null. *)
Theorem match_score_bounds :
  (forall jobs profile prefs ms,
      matchJobsToProfile jobs profile prefs = Ok ms ->
      forall m, In m ms ->
        let matchedCount := Z.of_nat (List.length (matchedSkills m)) in
        let requiredCount := requiredCountOf (job m) in
        0 <= score m <= 100 /\
        score m = clampScore (baseScore m + wantScoreOf prefs (matchedSkills m)
                              - avoidPenaltyOf prefs (job m)) /\
        baseScore m = percent matchedCount requiredCount /\
        0 <= baseScore m /\
        (matchedCount <= requiredCount -> baseScore m <= 100) /\
        (requiredCount <= matchedCount -> 100 <= baseScore m) /\
        exactScore matchedCount requiredCount
        = round (100 * inject_Z matchedCount / inject_Z requiredCount) /\
        (matchedCount < 4294967296 ->
         exactScore matchedCount requiredCount - 1 <= baseScore m
         <= exactScore matchedCount requiredCount /\
         (isTie matchedCount requiredCount = false ->
          baseScore m = exactScore matchedCount requiredCount) /\
         (201 * requiredCount < 200 * matchedCount -> 100 < baseScore m) /\
         (200 * matchedCount < 201 * requiredCount -> baseScore m <= 100))) /\
  (forall jobs profile prefs,
      forallb matchable jobs = true ->
      exists ms, matchJobsToProfile jobs profile prefs = Ok ms /\
                 List.length ms = List.length jobs).
Proof.
  split.
  - intros jobs profile prefs ms H m Hm matchedCount requiredCount.
    unfold matchJobsToProfile in H.
    destruct (mapM (matchOne profile prefs) jobs) as [raw |] eqn:Eraw;
      simpl in H; [| discriminate].
    injection H as <-.
    apply (Permutation_in _ (Permutation_sym (sortDesc_perm score raw))) in Hm.
    destruct (mapM_In _ _ Eraw _ Hm) as [j [_ Hj]].
    apply matchOne_fields in Hj.
    destruct Hj as [Hjob [[sm [Hsm [Hbase Hmatched]]] Hscore]].
    apply matchSkillsToJob_score in Hsm.
    assert (Hreq : 1 <= requiredCount) by (unfold requiredCount, requiredCountOf; lia).
    assert (Hcode : baseScore m = percent matchedCount requiredCount).
    { unfold matchedCount, requiredCount. now rewrite Hbase, Hsm, Hjob, Hmatched. }
    assert (Hmc : 0 <= matchedCount) by (unfold matchedCount; lia).
    destruct (@percent_range matchedCount requiredCount Hmc ltac:(lia)) as [Hlo [Hhi Hge]].
    split; [rewrite Hscore; apply clampScore_bounds |].
    split; [exact Hscore |].
    split; [exact Hcode |].
    rewrite Hcode.
    split; [exact Hlo |]. split; [exact Hhi |]. split; [exact Hge |].
    split; [unfold exactScore; now apply percent_reordered |].
    intros Hlen.
    exact (@percent_exact matchedCount requiredCount (conj Hmc Hlen) ltac:(lia)).
  - intros jobs profile prefs Hall. unfold matchJobsToProfile.
    destruct (mapM_total (matchOne profile prefs) jobs) as [raw [Hraw Hlen]].
    { intros j Hj. apply matchable_matchOne.
      rewrite forallb_forall in Hall. now apply Hall. }
    rewrite Hraw. simpl. eexists. split; [reflexivity |].
    rewrite <- Hlen. symmetry. apply Permutation_length. apply sortDesc_perm.
Qed.

Lemma match_score_bounds_witness :
  exists m,
    In m [m] /\
    0 <= score m <= 100 /\ baseScore m = 200 /\
    exists ms, matchJobsToProfile [Examples.tsJob] Examples.tsProfile Examples.noPreferences
               = Ok ms /\ List.length ms = 1%nat.
Proof.
  destruct match_score_bounds as [Hbounds Htotal].
  destruct (Htotal [Examples.tsJob] Examples.tsProfile Examples.noPreferences eq_refl)
    as [ms [Hms Hlen]].
  destruct ms as [| m [| m' ms]]; try discriminate Hlen.
  exists m. split; [left; reflexivity |].
  destruct (Hbounds _ _ _ _ Hms m (or_introl eq_refl)) as [Hs _].
  split; [exact Hs |]. split.
  - revert Hms. vm_compute. intros Hms. injection Hms as <-. reflexivity.
  - exists [m]. split; [exact Hms | reflexivity].
Defined.
End Scores.

(** ** Validation of raw entries *)

Section Validation.
Import Jobs.

Lemma get_field (job : value) (k : string) :
  job <> JNull -> get job k = Ok (field job k).
Proof. destruct job; simpl; congruence. Qed.

Lemma validateJob_eq (job : value) :
  job <> JNull ->
  validateJob job =
    Ok {| valid := match validationErrors job with [] => true | _ => false end;
          verrors := validationErrors job |}.
Proof.
  intros Hnn.
  unfold validateJob, requiredFields, missingRequired, validationErrors, skillsError.
  rewrite !(get_field _ Hnn). simpl.
  destruct (truthyU (field job "title")), (truthyU (field job "company")),
    (truthyU (field job "skills")), (isArray (field job "skills")); reflexivity.
Qed.

Lemma lowerTrim_texts (l : list value) :
  forallb textOrFalsy l = true ->
  exists tokens, mapM lowerTrim (filter truthy l) = Ok tokens.
Proof.
  induction l as [| v l IH]; simpl; intros H.
  - eexists. reflexivity.
  - apply andb_prop in H. destruct H as [Hv Hl].
    destruct (IH Hl) as [tokens Ht].
    destruct (truthy v) eqn:Etr; [| exists tokens; exact Ht].
    destruct v as [| b | n | s | l' | fs]; simpl in Hv, Etr;
      try discriminate; try (rewrite Etr in Hv; discriminate Hv).
    exists (trim (toLowerCase s) :: tokens).
    cbn [mapM lowerTrim bind]. rewrite Ht. reflexivity.
Qed.

Lemma forallb_texts (l : list string) : forallb textOrFalsy (map (fun t => JStr (trim t)) l) = true.
Proof. induction l; simpl; auto. Qed.

(** C3 as the specification has it fails: [validateJob] turns a
    comma-separated string away before [normalizeSkills] can split it. *)
Lemma string_skills_rejected :
  validateJob Examples.stringSkillsJob
  = Ok {| valid := false; verrors := ["Skills must be an array"] |} /\
  ingestJobsFromFile Examples.clock (Parsed (JArr [Examples.stringSkillsJob])) []
  = (Ok {| added := 0; skipped := 0;
           errors := [(Examples.stringSkillsJob, ["Skills must be an array"])] |}, []).
Proof. split; reflexivity. Qed.

End Validation.

(** ** Identity of a posting *)

Section Identity.
Import Jobs.


Lemma generateJobId_eq (job : value) :
  job <> JNull -> generateJobId job = Ok (generatedId job).
Proof.
  intros Hnn. unfold generateJobId, generatedId.
  now rewrite !(get_field _ Hnn).
Qed.



End Identity.

(** ** History of a repository *)

Section History.
Import Analyzer.

Variable execSync : GitCommand -> exc string.
Variable now : Z.
Variable parseDate : string -> num.

Lemma historyBody_throws (c : GitCommand) (e : string) :
  unguarded c = true -> execSync c = Throw e ->
  exists e', historyBody execSync now parseDate = Throw e'.
Proof.
  intros Hc He. unfold historyBody.
  destruct (execSync LastCommitDate) as [o1 |] eqn:E1; [| eexists; reflexivity].
  destruct (execSync FirstCommitDate) as [o2 |] eqn:E2; [| eexists; reflexivity].
  destruct (execSync CommitCount) as [o3 |] eqn:E3; [| eexists; reflexivity].
  destruct (execSync CurrentBranch) as [o4 |] eqn:E4; [| eexists; reflexivity].
  cbn [bind]. destruct (remoteInfo execSync) as [hr rb].
  destruct (execSync AuthorLog) as [o5 |] eqn:E5; [| eexists; reflexivity].
  destruct c; simpl in Hc; congruence.
Qed.

Lemma historyBody_returns :
  (forall c, unguarded c = true -> exists out, execSync c = Ok out) ->
  exists h, historyBody execSync now parseDate = Ok h /\
            error h = None /\
            hasRemote h = Some (fst (remoteInfo execSync)) /\
            remoteBehind h = Some (snd (remoteInfo execSync)) /\
            exists days, daysSinceCommit h = Some days /\
                         freshness h = freshnessOf days.
Proof.
  intros H. unfold historyBody.
  destruct (H LastCommitDate eq_refl) as [o1 ->].
  destruct (H FirstCommitDate eq_refl) as [o2 ->].
  destruct (H CommitCount eq_refl) as [o3 ->].
  destruct (H CurrentBranch eq_refl) as [o4 ->].
  destruct (H AuthorLog eq_refl) as [o5 ->].
  cbn [bind]. destruct (remoteInfo execSync) as [hr rb].
  eexists. split; [reflexivity |]. cbn.
  repeat (split; [reflexivity |]). eexists. split; reflexivity.
Qed.

Lemma freshnessOf_cases (days : num) :
  match days with
  | NaN => freshnessOf days = fresh
  | Int d =>
      (90 < d -> freshnessOf days = stale) /\
      (30 < d <= 90 -> freshnessOf days = aging) /\
      (d <= 30 -> freshnessOf days = fresh)
  end.
Proof.
  destruct days as [| d]; [reflexivity |].
  unfold freshnessOf, gtNum.
  destruct (Z.ltb_spec 90 d), (Z.ltb_spec 30 d); repeat split; intros; try reflexivity; lia.
Qed.

(** C9, amended: [analyzeGitHistory] never throws. When one of the
    invocations for the last commit, the first commit, the commit count,
    the branch or the authors fails, it returns the sentinel, with
    freshness [unknown] and [commitCount] 0. When these five answer, it
    returns a record without [error] whose freshness is [stale] for more
    than 90 days since the last commit, [aging] for more than 30 and
    [fresh] otherwise (also when the date does not parse); a failure
    of [git remote] or of the upstream count is absorbed there, leaving
    [hasRemote] false or [remoteBehind] 0. *)
Theorem analyzeGitHistory_never_throws :
  exists h,
    analyzeGitHistory execSync now parseDate = Ok h /\
    ((exists c e, unguarded c = true /\ execSync c = Throw e) ->
     h = sentinel /\ freshness h = unknown /\ commitCount h = Int 0) /\
    ((forall c, unguarded c = true -> exists out, execSync c = Ok out) ->
     error h = None /\
     (exists days,
         daysSinceCommit h = Some days /\
         match days with
         | NaN => freshness h = fresh
         | Int d =>
             (90 < d -> freshness h = stale) /\
             (30 < d <= 90 -> freshness h = aging) /\
             (d <= 30 -> freshness h = fresh)
         end) /\
     ((exists e, execSync Remotes = Throw e) ->
      hasRemote h = Some false /\ remoteBehind h = Some 0) /\
     ((exists e, execSync BehindUpstream = Throw e) -> remoteBehind h = Some 0)).
Proof.
  unfold analyzeGitHistory.
  destruct (historyBody execSync now parseDate) as [h |] eqn:Eb; cbn [try_catch].
  - exists h. split; [reflexivity |]. split.
    + intros [c [e [Hc He]]].
      destruct (historyBody_throws Hc He) as [e' He']. congruence.
    + intros Hall.
      destruct (historyBody_returns Hall) as [h' [Hh' [Herr [Hhr [Hrb [days [Hd Hf]]]]]]].
      assert (h' = h) by congruence. subst h'.
      split; [exact Herr |]. split.
      * exists days. split; [exact Hd |]. rewrite Hf. apply freshnessOf_cases.
      * split.
        -- intros [e He]. rewrite Hhr, Hrb. unfold remoteInfo. now rewrite He.
        -- intros [e He]. rewrite Hrb. unfold remoteInfo. rewrite He.
           destruct (execSync Remotes) as [r |]; [| reflexivity].
           now destruct (negb (String.eqb (JS.trim r) EmptyString)).
  - exists sentinel. split; [reflexivity |]. split.
    + intros _. repeat split.
    + intros Hall. destruct (historyBody_returns Hall) as [h' [Hh' _]]. congruence.
Qed.
End History.

(** C9 as the specification has it fails: the upstream count fails in a
    repository whose branch tracks nothing, and the record returned is not
    the sentinel. *)
Lemma upstream_failure_is_absorbed :
  Examples.noUpstream Analyzer.BehindUpstream = Throw "Command failed: git rev-list" /\
  exists h,
    Analyzer.analyzeGitHistory Examples.noUpstream Examples.fiveDaysLater Examples.knownDates
    = Ok h /\
    Analyzer.freshness h = Analyzer.fresh /\
    Analyzer.commitCount h = Int 42 /\
    Analyzer.daysSinceCommit h = Some (Int 5) /\
    Analyzer.hasRemote h = Some true /\
    Analyzer.remoteBehind h = Some 0 /\
    h <> Analyzer.sentinel.
Proof.
  split; [reflexivity |]. eexists. split; [vm_compute; reflexivity |].
  repeat (split; [reflexivity |]). discriminate.
Qed.

Lemma analyzeGitHistory_never_throws_witness :
  (exists h,
      Analyzer.analyzeGitHistory Examples.notARepository 0 Examples.knownDates = Ok h /\
      Analyzer.freshness h = Analyzer.unknown /\ Analyzer.commitCount h = Int 0) /\
  (exists h,
      Analyzer.analyzeGitHistory Examples.noUpstream Examples.fiveDaysLater Examples.knownDates
      = Ok h /\
      Analyzer.error h = None /\ Analyzer.remoteBehind h = Some 0).
Proof.
  split.
  - destruct (analyzeGitHistory_never_throws Examples.notARepository 0 Examples.knownDates)
      as [h [Hh [Hfail _]]].
    exists h. split; [exact Hh |].
    destruct Hfail as [_ [Hf Hc]]; [| now split].
    exists Analyzer.CommitCount, "Command failed". split; reflexivity.
  - destruct (analyzeGitHistory_never_throws
                Examples.noUpstream Examples.fiveDaysLater Examples.knownDates)
      as [h [Hh [_ Hok]]].
    exists h. split; [exact Hh |].
    destruct Hok as [Herr [_ [_ Hup]]].
    + intros c Hc. destruct c; try discriminate Hc; eexists; reflexivity.
    + split; [exact Herr |]. apply Hup. eexists. reflexivity.
Defined.

(** ** Dictionaries *)

Section Dictionaries.
Variable A : Type.
Implicit Types (d : list (string * A)) (k : string) (v : A).

Lemma assoc_In d k v : assoc k d = Some v -> In (k, v) d.
Proof.
  induction d as [| [k' v'] d IH]; simpl; [discriminate |].
  destruct (String.eqb_spec k k') as [-> | _].
  - intros H. injection H as ->. now left.
  - intros H. right. now apply IH.
Qed.

Lemma assoc_None d k : assoc k d = None <-> ~ In k (map fst d).
Proof.
  induction d as [| [k' v'] d IH]; simpl; [tauto |].
  destruct (String.eqb_spec k k') as [-> | Hne].
  - split; [discriminate | intros H; exfalso; apply H; now left].
  - rewrite IH. split; intros H; [intros [E | Hin]; [congruence | contradiction] | tauto].
Qed.

Lemma In_assoc d k v : NoDup (map fst d) -> In (k, v) d -> assoc k d = Some v.
Proof.
  induction d as [| [k' v'] d IH]; simpl; intros Hnd Hin; [contradiction |].
  inversion Hnd as [| ? ? Hnotin Hnd']; subst.
  destruct Hin as [E | Hin].
  - injection E as -> ->. now rewrite String.eqb_refl.
  - destruct (String.eqb_spec k k') as [-> | _]; [| now apply IH].
    exfalso. apply Hnotin. apply (in_map fst) in Hin. exact Hin.
Qed.

Lemma assoc_upsert d k init f k' :
  assoc k' (upsert k init f d)
  = if String.eqb k' k then Some (f (valueOr init (assoc k d))) else assoc k' d.
Proof.
  induction d as [| [k0 v0] d IH]; simpl.
  - destruct (String.eqb k' k); reflexivity.
  - destruct (String.eqb_spec k k0) as [-> | Hne]; simpl.
    + destruct (String.eqb k' k0); reflexivity.
    + rewrite IH. destruct (String.eqb_spec k' k0) as [-> | Hne'].
      * destruct (String.eqb_spec k0 k) as [E | _]; [congruence | reflexivity].
      * reflexivity.
Qed.

Lemma upsert_keys d k init f :
  map fst (upsert k init f d)
  = match assoc k d with
    | Some _ => map fst d
    | None => (map fst d ++ [k])%list
    end.
Proof.
  induction d as [| [k0 v0] d IH]; simpl; [reflexivity |].
  destruct (String.eqb_spec k k0) as [-> | Hne]; simpl; [reflexivity |].
  rewrite IH. now destruct (assoc k d).
Qed.

Lemma NoDup_snoc (B : Type) (l : list B) (x : B) :
  NoDup l -> ~ In x l -> NoDup (l ++ [x]).
Proof.
  intros Hnd Hx. apply NoDup_app; [exact Hnd | |].
  - constructor; [simpl; tauto | constructor].
  - intros y Hy [<- | []]. contradiction.
Qed.

Lemma upsert_NoDup d k init f :
  NoDup (map fst d) -> NoDup (map fst (upsert k init f d)).
Proof.
  intros Hnd. rewrite upsert_keys.
  destruct (assoc k d) eqn:E; [exact Hnd |].
  apply NoDup_snoc; [exact Hnd | now apply assoc_None].
Qed.

Lemma upsert_Forall (P : string -> A -> Prop) d k init f :
  P k (f init) -> (forall v, P k v -> P k (f v)) ->
  Forall (fun e => P (fst e) (snd e)) d ->
  Forall (fun e => P (fst e) (snd e)) (upsert k init f d).
Proof.
  intros Hinit Hstep. induction d as [| [k0 v0] d IH]; simpl; intros Hall.
  - constructor; [exact Hinit | constructor].
  - inversion Hall as [| ? ? Hhd Htl]; subst. simpl in Hhd.
    destruct (String.eqb_spec k k0) as [-> | Hne].
    + constructor; [simpl; now apply Hstep | exact Htl].
    + constructor; [exact Hhd | now apply IH].
Qed.

Lemma assign_fresh d k v : ~ In k (map fst d) -> assign k v d = (d ++ [(k, v)])%list.
Proof.
  induction d as [| [k0 v0] d IH]; simpl; intros Hk; [reflexivity |].
  destruct (String.eqb_spec k k0) as [-> | Hne]; [exfalso; apply Hk; now left |].
  rewrite IH; [reflexivity | tauto].
Qed.

(** Two dictionaries with the same lookups hold the same entries. *)
Lemma same_lookups_Permutation d d' :
  NoDup (map fst d) -> NoDup (map fst d') ->
  (forall k, assoc k d = assoc k d') -> Permutation d d'.
Proof.
  intros Hnd Hnd' Heq.
  assert (Hpairs : forall e : list (string * A), NoDup (map fst e) -> NoDup e).
  { intros e. apply NoDup_map_inv. }
  apply NoDup_Permutation; [now apply Hpairs | now apply Hpairs |].
  intros [k v]. split; intros Hin.
  - apply assoc_In. rewrite <- Heq. now apply In_assoc.
  - apply assoc_In. rewrite Heq. now apply In_assoc.
Qed.

Lemma Permutation_same_lookups d d' :
  NoDup (map fst d) -> Permutation d d' -> forall k, assoc k d = assoc k d'.
Proof.
  intros Hnd Hperm k.
  assert (Hnd' : NoDup (map fst d')).
  { eapply Permutation_NoDup; [apply Permutation_map; exact Hperm | exact Hnd]. }
  destruct (assoc k d) as [v |] eqn:E.
  - symmetry. apply In_assoc; [exact Hnd' |].
    eapply Permutation_in; [exact Hperm | now apply assoc_In].
  - symmetry. apply assoc_None. apply assoc_None in E. intros Hin. apply E.
    eapply Permutation_in; [apply Permutation_map, Permutation_sym; exact Hperm | exact Hin].
Qed.
End Dictionaries.

(** Assigning the entries of a list with distinct keys one by one builds
    the list. *)
Lemma fold_assign_map (A B : Type) (g : A -> string * B)
      (step : list (string * B) -> A -> list (string * B)) (l : list A) :
  (forall acc a, step acc a = assign (fst (g a)) (snd (g a)) acc) ->
  NoDup (map (fun a => fst (g a)) l) ->
  fold_left step l [] = map g l.
Proof.
  intros Hstep Hnd.
  assert (Hgen : forall acc,
             NoDup (map fst acc ++ map (fun a => fst (g a)) l) ->
             fold_left step l acc = (acc ++ map g l)%list).
  { clear Hnd. induction l as [| a l IH]; simpl; intros acc Hnd.
    - now rewrite app_nil_r.
    - rewrite Hstep, assign_fresh.
      + rewrite IH.
        * rewrite <- app_assoc. simpl. now destruct (g a).
        * rewrite map_app. simpl. rewrite <- app_assoc. exact Hnd.
      + apply NoDup_remove_2 in Hnd. intros Hin. apply Hnd.
        apply in_or_app. now left. }
  apply Hgen. exact Hnd.
Qed.

(** ** The profile builder *)

Section Builder.
Import Skills.

Variable parseDate : string -> num.
Variable now : Z.

Lemma addRepo_excluded (agg : Aggregate) (repo : Repo.t) :
  Repo.excluded repo = true -> addRepo parseDate agg repo = agg.
Proof. intros H. unfold addRepo. now rewrite H. Qed.

Lemma fold_addRepo_included (repos : list Repo.t) (agg : Aggregate) :
  fold_left (addRepo parseDate) repos agg
  = fold_left (addRepo parseDate) (filter included repos) agg.
Proof.
  revert agg. induction repos as [| r repos IH]; intros agg; simpl; [reflexivity |].
  unfold included at 1. destruct (Repo.excluded r) eqn:E; simpl.
  - rewrite (addRepo_excluded _ _ E). apply IH.
  - apply IH.
Qed.

Lemma aggregate_skips_excluded (before after : list Repo.t) (x : Repo.t) :
  Repo.excluded x = true ->
  aggregate parseDate now (before ++ x :: after) = aggregate parseDate now (before ++ after).
Proof.
  intros H. unfold aggregate. rewrite !fold_left_app. simpl.
  now rewrite (addRepo_excluded _ _ H).
Qed.

(** C8: [summary.totalRepos] is the length of the whole input, excluded
    records counted, while the loop variables (language, framework,
    pattern and tool counts, the commit total and the commit-date span)
    are those of the input without its excluded records; the same holds
    of what the profile derives from them alone: [totalCommits],
    [yearsActive], [patterns] and [tools]. *)
Theorem totalRepos_counts_excluded (repos : list Repo.t) :
  let p := buildSkillsProfile parseDate now repos in
  let q := buildSkillsProfile parseDate now (filter included repos) in
  Summary.totalRepos (Profile.summary p) = Z.of_nat (List.length repos) /\
  aggregate parseDate now repos = aggregate parseDate now (filter included repos) /\
  Summary.totalCommits (Profile.summary p) = Summary.totalCommits (Profile.summary q) /\
  Summary.yearsActive (Profile.summary p) = Summary.yearsActive (Profile.summary q) /\
  Profile.patterns p = Profile.patterns q /\
  Profile.tools p = Profile.tools q.
Proof.
  assert (E : aggregate parseDate now repos
              = aggregate parseDate now (filter included repos)).
  { unfold aggregate. apply fold_addRepo_included. }
  unfold buildSkillsProfile. cbn [Profile.summary Summary.totalRepos Summary.totalCommits
    Summary.yearsActive Profile.patterns Profile.tools].
  rewrite <- E. repeat split.
Qed.
End Builder.

(** The excluded record of the example is counted by [totalRepos] and by
    nothing else. *)
Example excluded_record_is_counted :
  let p := Skills.buildSkillsProfile Examples.noDate 0
             [Examples.jsRepo; Examples.goRepo; Examples.pyRepo] in
  Summary.totalRepos (Profile.summary p) = 3 /\
  map fst (Profile.languages p) = ["JavaScript"; "Python"] /\
  Profile.patterns p = ["react"; "docker"].
Proof. vm_compute. repeat split. Qed.

(** ** Invariants of the counters *)

Section Counters.
Import Skills.

Lemma mem_In (x : string) (l : list string) : mem x l = true <-> In x l.
Proof.
  unfold mem. rewrite existsb_exists. split.
  - intros [y [Hy E]]. apply String.eqb_eq in E. now subst.
  - intros H. exists x. split; [exact H | apply String.eqb_refl].
Qed.

Lemma distinctb_NoDup (l : list string) : distinctb l = true -> NoDup l.
Proof.
  induction l as [| x l IH]; simpl; intros H; [constructor |].
  apply andb_prop in H. destruct H as [Hx Hl].
  constructor; [| now apply IH].
  intros Hin. apply mem_In in Hin. rewrite Hin in Hx. discriminate Hx.
Qed.

Lemma NoDup_map_inj (A B : Type) (g : A -> B) (l : list A) (a b : A) :
  NoDup (map g l) -> In a l -> In b l -> g a = g b -> a = b.
Proof.
  induction l as [| x l IH]; simpl; intros Hnd Ha Hb E; [contradiction |].
  inversion Hnd as [| ? ? Hx Hnd']; subst.
  destruct Ha as [-> | Ha], Hb as [-> | Hb]; try reflexivity.
  - exfalso. apply Hx. rewrite E. now apply in_map.
  - exfalso. apply Hx. rewrite <- E. now apply in_map.
  - now apply IH.
Qed.

Lemma table_names_distinct :
  NoDup (map (fun e => FrameworkInfo.name (snd e)) FRAMEWORK_CATEGORIES).
Proof. apply distinctb_NoDup. vm_compute. reflexivity. Qed.

Lemma table_name_injective (k1 k2 : string) (i1 i2 : FrameworkInfo.t) :
  assoc k1 FRAMEWORK_CATEGORIES = Some i1 ->
  assoc k2 FRAMEWORK_CATEGORIES = Some i2 ->
  FrameworkInfo.name i1 = FrameworkInfo.name i2 -> k1 = k2.
Proof.
  intros H1 H2 E. apply assoc_In in H1, H2.
  assert (Hp : (k1, i1) = (k2, i2)).
  { apply (NoDup_map_inj (fun e : string * FrameworkInfo.t => FrameworkInfo.name (snd e))
                         FRAMEWORK_CATEGORIES);
      [apply table_names_distinct | assumption | assumption | exact E]. }
  congruence.
Qed.

Lemma table_weight_nonneg (k : string) (i : FrameworkInfo.t) :
  assoc k FRAMEWORK_CATEGORIES = Some i -> (0 <= FrameworkInfo.weight i)%Q.
Proof.
  intros H. apply assoc_In in H.
  assert (Hall : forallb (fun e : string * FrameworkInfo.t =>
                            Qle_bool 0 (FrameworkInfo.weight (snd e)))
                         FRAMEWORK_CATEGORIES = true) by (vm_compute; reflexivity).
  rewrite forallb_forall in Hall. apply Hall in H. now apply Qle_bool_iff in H.
Qed.

Lemma fold_left_invariant (S A : Type) (I : S -> Prop) (step : S -> A -> S) (l : list A) :
  (forall s a, I s -> I (step s a)) -> forall s, I s -> I (fold_left step l s).
Proof.
  intros Hstep. induction l as [| a l IH]; simpl; intros s Hs; [exact Hs |].
  apply IH. now apply Hstep.
Qed.

Lemma addLanguage_inv (lc : list (string * LangCount)) (lang : Lang.t) :
  languagesInv lc -> languagesInv (addLanguage lc lang).
Proof.
  intros [Hnd Hall]. unfold addLanguage. split; [now apply upsert_NoDup |].
  apply (upsert_Forall (fun _ c => 0 <= langRepos c)); [simpl; lia | | exact Hall].
  intros [n r]; simpl; lia.
Qed.

Lemma fst_addPattern acc pattern :
  fst (addPattern acc pattern) = upsert pattern 0 (fun n => n + 1) (fst acc).
Proof. now destruct acc. Qed.

Lemma snd_addPattern acc pattern :
  snd (addPattern acc pattern)
  = match assoc pattern FRAMEWORK_CATEGORIES with
    | Some frameworkInfo =>
        upsert pattern (mkFrameworkCount frameworkInfo 0)
               (fun c => let (i, r) := c in mkFrameworkCount i (r + 1)) (snd acc)
    | None => snd acc
    end.
Proof. now destruct acc. Qed.

Lemma addPattern_inv acc pattern :
  NoDup (map fst (fst acc)) /\ frameworksInv (snd acc) ->
  NoDup (map fst (fst (addPattern acc pattern))) /\
  frameworksInv (snd (addPattern acc pattern)).
Proof.
  intros [Hp [Hnd Hall]]. rewrite fst_addPattern, snd_addPattern.
  split; [now apply upsert_NoDup |].
  destruct (assoc pattern FRAMEWORK_CATEGORIES) as [info |] eqn:E; [| now split].
  split; [now apply upsert_NoDup |].
  apply (upsert_Forall fromTable); [simpl; split; [exact E | lia] | | exact Hall].
  intros [i r] [Hi Hr]. simpl. split; [exact Hi | lia].
Qed.

Lemma addRepo_included parseDate (agg : Aggregate) (repo : Repo.t) :
  Repo.excluded repo = false ->
  let patterns := fold_left addPattern (Repo.patterns repo)
                            (patternCounts agg, frameworkCounts agg) in
  addRepo parseDate agg repo =
    {| languageCounts := fold_left addLanguage (Repo.languages repo) (languageCounts agg);
       frameworkCounts := snd patterns;
       patternCounts := fst patterns;
       toolCounts := fold_left addEcosystem (Repo.dependencies repo) (toolCounts agg);
       earliestCommit :=
         earlier parseDate (earliestCommit agg) (commitText Analyzer.firstCommit repo);
       latestCommit :=
         later parseDate (latestCommit agg) (commitText Analyzer.lastCommit repo);
       totalCommits := totalCommits agg + commitsOf repo |}.
Proof.
  intros H. unfold addRepo. rewrite H. cbv zeta.
  now destruct (fold_left addPattern (Repo.patterns repo)
                          (patternCounts agg, frameworkCounts agg)).
Qed.

Lemma addRepo_inv parseDate (agg : Aggregate) (repo : Repo.t) :
  aggregateInv agg -> aggregateInv (addRepo parseDate agg repo).
Proof.
  intros Hinv. destruct (Repo.excluded repo) eqn:E.
  - now rewrite addRepo_excluded.
  - rewrite (addRepo_included _ _ _ E). destruct Hinv as [Hl [Hf Hp]].
    unfold aggregateInv. cbn [languageCounts frameworkCounts patternCounts].
    split.
    + apply fold_left_invariant; [apply addLanguage_inv | exact Hl].
    + assert (H : NoDup (map fst (fst (fold_left addPattern (Repo.patterns repo)
                                         (patternCounts agg, frameworkCounts agg)))) /\
                  frameworksInv (snd (fold_left addPattern (Repo.patterns repo)
                                        (patternCounts agg, frameworkCounts agg)))).
      { apply (fold_left_invariant
                 (fun acc => NoDup (map fst (fst acc)) /\ frameworksInv (snd acc)));
          [apply addPattern_inv | split; assumption]. }
      tauto.
Qed.

Lemma aggregate_inv parseDate now (repos : list Repo.t) :
  aggregateInv (aggregate parseDate now repos).
Proof.
  unfold aggregate. apply fold_left_invariant; [intros; now apply addRepo_inv |].
  unfold aggregateInv, languagesInv, frameworksInv. simpl.
  repeat split; constructor.
Qed.

Lemma frameworksInv_names (fc : list (string * FrameworkCount)) :
  frameworksInv fc -> NoDup (map (fun e => frameworkName (snd e)) fc).
Proof.
  intros [Hnd Hall]. induction fc as [| [k [i r]] fc IH]; simpl; [constructor |].
  inversion Hnd as [| ? ? Hk Hnd']; subst.
  inversion Hall as [| ? ? Hhd Htl]; subst.
  constructor; [| now apply IH].
  intros Hin. apply in_map_iff in Hin. destruct Hin as [[k' [i' r']] [E Hin']].
  simpl in E. rewrite Forall_forall in Htl. pose proof (Htl _ Hin') as [Hi' _].
  simpl in Hhd, Hi'. destruct Hhd as [Hi _].
  assert (k' = k) by (eapply table_name_injective; eassumption). subst k'.
  apply Hk. apply (in_map fst) in Hin'. exact Hin'.
Qed.

Lemma languages_of_counts parseDate now (repos : list Repo.t) :
  Profile.languages (buildSkillsProfile parseDate now repos)
  = map (languageOf (Z.of_nat (List.length repos)))
        (languageCounts (aggregate parseDate now repos)).
Proof.
  unfold buildSkillsProfile. cbn [Profile.languages].
  apply fold_assign_map.
  - intros acc [name data]. reflexivity.
  - destruct (aggregate_inv parseDate now repos) as [[Hnd _] _]. exact Hnd.
Qed.

Lemma frameworks_of_counts parseDate now (repos : list Repo.t) :
  Profile.frameworks (buildSkillsProfile parseDate now repos)
  = map (frameworkOf (Z.of_nat (List.length repos)))
        (frameworkCounts (aggregate parseDate now repos)).
Proof.
  unfold buildSkillsProfile. cbn [Profile.frameworks].
  apply fold_assign_map.
  - intros acc [key data]. reflexivity.
  - destruct (aggregate_inv parseDate now repos) as [_ [Hf _]].
    now apply frameworksInv_names.
Qed.
End Counters.

(** ** The denominator of the tiers *)

Section Denominator.
Import Skills.

Lemma quotient_antitone (r n m : Z) :
  0 <= r -> 1 <= n -> n <= m -> (inject_Z r / inject_Z m <= inject_Z r / inject_Z n)%Q.
Proof.
  intros Hr Hn Hm.
  assert (Hn' : (0 < inject_Z n)%Q)
    by (change 0%Q with (inject_Z 0); rewrite <- Zlt_Qlt; lia).
  assert (Hm' : (0 < inject_Z m)%Q)
    by (change 0%Q with (inject_Z 0); rewrite <- Zlt_Qlt; lia).
  assert (Hq : (0 <= inject_Z r / inject_Z n)%Q).
  { apply Qle_shift_div_l; [exact Hn' |]. rewrite Qmult_0_l.
    change 0%Q with (inject_Z 0). rewrite <- Zle_Qle. exact Hr. }
  apply Qle_shift_div_r; [exact Hm' |].
  apply Qle_trans with (inject_Z r / inject_Z n * inject_Z n)%Q.
  - apply Qle_lteq. right. field. intros E. rewrite E in Hn'. discriminate.
  - apply Qmult_le_compat_nonneg.
    + split; [exact Hq | apply Qle_refl].
    + split; [apply Qlt_le_weak; exact Hn' | rewrite <- Zle_Qle; exact Hm].
Qed.

Lemma rank_bounds (p : Proficiency) : 0 <= rank p <= 3.
Proof. destruct p; simpl; lia. Qed.

(** One repository more in the denominator does not raise a tier. *)
Lemma tier_antitone_in_total (r n : Z) (w : Q) :
  0 <= r -> 0 <= n -> (0 <= w)%Q ->
  rank (calculateProficiency r (n + 1) w) <= rank (calculateProficiency r n w).
Proof.
  intros Hr Hn Hw. destruct (Z.eq_dec n 0) as [-> | Hnz].
  - unfold calculateProficiency at 2. simpl (0 =? 0).
    destruct (Qle_bool (inject_Z r * w) 0) eqn:E;
      [| change (rank expert) with 3; apply rank_bounds].
    apply Qle_bool_iff in E.
    assert (Hratio : (ratio r (0 + 1) w <= 0)%Q).
    { unfold ratio. simpl (0 + 1).
      apply Qle_trans with (inject_Z r * w)%Q; [| exact E].
      apply Qle_lteq. right. field. }
    rewrite calculateProficiency_nonzero by lia.
    assert (H1 : Qle_bool (5 # 10) (ratio r (0 + 1) w) = false).
    { apply Qle_bool_false. eapply Qle_lt_trans; [exact Hratio | reflexivity]. }
    assert (H2 : Qle_bool (3 # 10) (ratio r (0 + 1) w) = false).
    { apply Qle_bool_false. eapply Qle_lt_trans; [exact Hratio | reflexivity]. }
    assert (H3 : Qle_bool (15 # 100) (ratio r (0 + 1) w) = false).
    { apply Qle_bool_false. eapply Qle_lt_trans; [exact Hratio | reflexivity]. }
    rewrite H1, H2, H3. simpl. lia.
  - apply tier_monotone_in_ratio; try lia.
    unfold ratio. apply Qmult_le_compat_r; [| exact Hw].
    apply quotient_antitone; lia.
Qed.

Lemma Forall2_map_same (A B : Type) (R : B -> B -> Prop) (f g : A -> B) (l : list A) :
  (forall a, In a l -> R (f a) (g a)) -> Forall2 R (map f l) (map g l).
Proof.
  induction l as [| a l IH]; simpl; intros H; constructor.
  - apply H. now left.
  - apply IH. intros a' Ha'. apply H. now right.
Qed.

(** C10: every language and framework entry of the profile has the tier
    that [calculateProficiency] gives for its [repoCount] over the length
    of the whole input, excluded records counted (with weight 1 for a
    language and the weight of the table for a framework); so an excluded
    record added anywhere to the input leaves keys and counts of all
    entries as they are and raises no tier, and it can lower tiers: with
    one language in one of two repositories, a third, excluded record
    turns [expert] into [advanced]. *)
Theorem proficiency_over_full_length :
  (forall parseDate now repos name e,
      In (name, e) (Profile.languages (buildSkillsProfile parseDate now repos)) ->
      LanguageEntry.proficiency e
      = calculateProficiency (LanguageEntry.repoCount e) (Z.of_nat (List.length repos)) 1) /\
  (forall parseDate now repos name e,
      In (name, e) (Profile.frameworks (buildSkillsProfile parseDate now repos)) ->
      exists info,
        assoc (FrameworkEntry.key e) FRAMEWORK_CATEGORIES = Some info /\
        name = FrameworkInfo.name info /\
        FrameworkEntry.proficiency e
        = calculateProficiency (FrameworkEntry.repoCount e) (Z.of_nat (List.length repos))
                               (FrameworkInfo.weight info)) /\
  (forall parseDate now before after x,
      Repo.excluded x = true ->
      let p := buildSkillsProfile parseDate now (before ++ after) in
      let p' := buildSkillsProfile parseDate now (before ++ x :: after) in
      Forall2 languageNotRaised (Profile.languages p) (Profile.languages p') /\
      Forall2 frameworkNotRaised (Profile.frameworks p) (Profile.frameworks p')) /\
  (tiers (Profile.languages
            (buildSkillsProfile Examples.noDate 0 [Examples.jsRepo; Examples.pyRepo]))
   = [("JavaScript", expert); ("Python", expert)] /\
   tiers (Profile.languages
            (buildSkillsProfile Examples.noDate 0
                                [Examples.jsRepo; Examples.pyRepo; Examples.goRepo]))
   = [("JavaScript", advanced); ("Python", advanced)]).
Proof.
  split; [| split; [| split]].
  - intros parseDate now repos name e Hin.
    rewrite languages_of_counts in Hin. apply in_map_iff in Hin.
    destruct Hin as [[k [c r]] [E _]]. unfold languageOf in E. simpl in E.
    injection E as <- <-. reflexivity.
  - intros parseDate now repos name e Hin.
    rewrite frameworks_of_counts in Hin. apply in_map_iff in Hin.
    destruct Hin as [[k [i r]] [E Hin]]. unfold frameworkOf in E. simpl in E.
    injection E as <- <-.
    destruct (aggregate_inv parseDate now repos) as [_ [[_ Hall] _]].
    rewrite Forall_forall in Hall. destruct (Hall _ Hin) as [Hi _].
    exists i. simpl. auto.
  - intros parseDate now before after x Hx p p'. subst p p'.
    rewrite !languages_of_counts, !frameworks_of_counts.
    rewrite (aggregate_skips_excluded parseDate now before after x Hx).
    assert (Hlen : Z.of_nat (List.length (before ++ x :: after))
                   = Z.of_nat (List.length (before ++ after)) + 1).
    { rewrite !length_app. simpl. lia. }
    rewrite Hlen.
    destruct (aggregate_inv parseDate now (before ++ after)) as [[_ Hl] [[_ Hf] _]].
    rewrite Forall_forall in Hl, Hf.
    split; apply Forall2_map_same.
    + intros [k [c r]] Hin. apply Hl in Hin. simpl in Hin.
      unfold languageNotRaised, languageOf. simpl.
      repeat (split; [reflexivity |]).
      apply tier_antitone_in_total; [exact Hin | lia | discriminate].
    + intros [k [i r]] Hin. apply Hf in Hin. destruct Hin as [Hi Hr].
      unfold frameworkNotRaised, frameworkOf. simpl.
      repeat (split; [reflexivity |]).
      apply tier_antitone_in_total; [exact Hr | lia |].
      eapply table_weight_nonneg. exact Hi.
  - split; vm_compute; reflexivity.
Qed.

Lemma proficiency_over_full_length_witness :
  Forall2 languageNotRaised
          (Profile.languages
             (buildSkillsProfile Examples.noDate 0 ([Examples.jsRepo; Examples.pyRepo] ++ [])))
          (Profile.languages
             (buildSkillsProfile Examples.noDate 0
                ([Examples.jsRepo; Examples.pyRepo] ++ Examples.goRepo :: []))) /\
  (forall e,
      In ("JavaScript", e)
         (Profile.languages
            (buildSkillsProfile Examples.noDate 0 [Examples.jsRepo; Examples.pyRepo])) ->
      LanguageEntry.proficiency e = calculateProficiency (LanguageEntry.repoCount e) 2 1).
Proof.
  destruct proficiency_over_full_length as [Hlang [_ [Hadd _]]].
  split.
  - apply (Hadd Examples.noDate 0 [Examples.jsRepo; Examples.pyRepo] [] Examples.goRepo).
    reflexivity.
  - intros e He.
    apply (Hlang Examples.noDate 0 [Examples.jsRepo; Examples.pyRepo] "JavaScript" e He).
Defined.
End Denominator.

(** ** Folds whose steps commute *)

Section FoldPermutation.
Variables (S A : Type) (eqv : S -> S -> Prop) (step : S -> A -> S).
Hypothesis eqv_refl : forall s, eqv s s.
Hypothesis eqv_trans : forall s1 s2 s3, eqv s1 s2 -> eqv s2 s3 -> eqv s1 s3.
Hypothesis step_congr : forall s s' a, eqv s s' -> eqv (step s a) (step s' a).
Hypothesis step_comm : forall s a b, eqv (step (step s a) b) (step (step s b) a).

Lemma fold_left_congr (l : list A) (s s' : S) :
  eqv s s' -> eqv (fold_left step l s) (fold_left step l s').
Proof.
  revert s s'. induction l as [| a l IH]; simpl; intros s s' H; [exact H |].
  apply IH. now apply step_congr.
Qed.

Lemma fold_left_permutation (l l' : list A) :
  Permutation l l' -> forall s, eqv (fold_left step l s) (fold_left step l' s).
Proof.
  induction 1 as [| x l l' _ IH | x y l | l1 l2 l3 _ IH1 _ IH2]; intros s; simpl.
  - apply eqv_refl.
  - apply IH.
  - apply fold_left_congr. apply step_comm.
  - eapply eqv_trans; [apply IH1 | apply IH2].
Qed.

Lemma fold_left_swap (l1 l2 : list A) (s : S) :
  eqv (fold_left step l2 (fold_left step l1 s)) (fold_left step l1 (fold_left step l2 s)).
Proof.
  rewrite <- !fold_left_app. apply fold_left_permutation. apply Permutation_app_comm.
Qed.
End FoldPermutation.

Section Lookups.
Variable A : Type.
Implicit Types (d : list (string * A)) (k : string).

Lemma sameLookups_refl d : sameLookups d d.
Proof. intros k. reflexivity. Qed.

Lemma sameLookups_trans d1 d2 d3 :
  sameLookups d1 d2 -> sameLookups d2 d3 -> sameLookups d1 d3.
Proof. intros H1 H2 k. now rewrite H1. Qed.

Lemma upsert_congr d d' k init f :
  sameLookups d d' -> sameLookups (upsert k init f d) (upsert k init f d').
Proof. intros H k'. now rewrite !assoc_upsert, !H. Qed.

(** Two updates commute when they commute on the value of a common key. *)
Lemma upsert_comm d k1 init1 f1 k2 init2 f2 :
  (k1 = k2 -> forall o, f2 (f1 (valueOr init1 o)) = f1 (f2 (valueOr init2 o))) ->
  sameLookups (upsert k2 init2 f2 (upsert k1 init1 f1 d))
              (upsert k1 init1 f1 (upsert k2 init2 f2 d)).
Proof.
  intros Hcomm k. rewrite !assoc_upsert.
  destruct (String.eqb_spec k1 k2) as [E | Hne].
  - subst k2. rewrite String.eqb_refl.
    destruct (String.eqb k k1); [| reflexivity].
    simpl. f_equal. now apply Hcomm.
  - assert (E21 : String.eqb k2 k1 = false).
    { apply String.eqb_neq. congruence. }
    rewrite E21.
    destruct (String.eqb_spec k k2) as [-> | Hk2].
    + apply String.eqb_neq in E21. now rewrite (proj2 (String.eqb_neq k2 k1) E21).
    + reflexivity.
Qed.
End Lookups.

(** ** The order of the repositories *)

Section Order.
Import Skills.

Variable parseDate : string -> num.

Lemma addLanguage_congr d d' lang :
  sameLookups d d' -> sameLookups (addLanguage d lang) (addLanguage d' lang).
Proof. apply upsert_congr. Qed.

Lemma addLanguage_comm d x y :
  sameLookups (addLanguage (addLanguage d x) y) (addLanguage (addLanguage d y) x).
Proof.
  apply upsert_comm. intros _ o.
  destruct (valueOr (mkLangCount 0 0) o) as [n r]. f_equal; lia.
Qed.

Lemma addPattern_congr p p' pattern :
  samePair p p' -> samePair (addPattern p pattern) (addPattern p' pattern).
Proof.
  intros [H1 H2]. unfold samePair. rewrite !fst_addPattern, !snd_addPattern.
  split; [now apply upsert_congr |].
  destruct (assoc pattern FRAMEWORK_CATEGORIES); [now apply upsert_congr | exact H2].
Qed.

Lemma addPattern_comm p x y :
  samePair (addPattern (addPattern p x) y) (addPattern (addPattern p y) x).
Proof.
  unfold samePair. rewrite !fst_addPattern, !snd_addPattern. split.
  - apply upsert_comm. intros _ o. lia.
  - destruct (assoc x FRAMEWORK_CATEGORIES) as [ix |] eqn:Ex,
             (assoc y FRAMEWORK_CATEGORIES) as [iy |] eqn:Ey;
      try apply sameLookups_refl.
    apply upsert_comm. intros E o. subst y.
    assert (ix = iy) by congruence. subst iy.
    destruct (valueOr (mkFrameworkCount ix 0) o) as [i r]. f_equal; lia.
Qed.

Lemma samePair_refl p : samePair p p.
Proof. split; apply sameLookups_refl. Qed.

Lemma samePair_trans p1 p2 p3 : samePair p1 p2 -> samePair p2 p3 -> samePair p1 p3.
Proof. intros [A1 B1] [A2 B2]. split; eapply sameLookups_trans; eassumption. Qed.

Lemma sameCounts_refl a : sameCounts a a.
Proof. unfold sameCounts. repeat split; apply sameLookups_refl. Qed.

Lemma sameCounts_trans a1 a2 a3 : sameCounts a1 a2 -> sameCounts a2 a3 -> sameCounts a1 a3.
Proof.
  intros [L1 [P1 [F1 [E1 [T1 C1]]]]] [L2 [P2 [F2 [E2 [T2 C2]]]]].
  unfold sameCounts.
  repeat split; try (eapply sameLookups_trans; eassumption); congruence.
Qed.

Lemma addRepo_congr a a' repo :
  sameCounts a a' -> sameCounts (addRepo parseDate a repo) (addRepo parseDate a' repo).
Proof.
  intros H. destruct (Repo.excluded repo) eqn:E.
  - now rewrite !addRepo_excluded.
  - rewrite !(addRepo_included _ _ _ E).
    destruct H as [L [P [F [Ee [El Ec]]]]].
    assert (Hp : samePair
                   (fold_left addPattern (Repo.patterns repo)
                              (patternCounts a, frameworkCounts a))
                   (fold_left addPattern (Repo.patterns repo)
                              (patternCounts a', frameworkCounts a'))).
    { apply (fold_left_congr samePair addPattern addPattern_congr). now split. }
    destruct Hp as [Hp1 Hp2].
    unfold sameCounts. cbn [languageCounts patternCounts frameworkCounts earliestCommit
      latestCommit totalCommits].
    rewrite Ee, El, Ec.
    split; [| repeat split; assumption].
    now apply (fold_left_congr sameLookups addLanguage addLanguage_congr).
Qed.

Lemma earlier_comm c t1 t2 :
  earlier parseDate (earlier parseDate c t1) t2 = earlier parseDate (earlier parseDate c t2) t1.
Proof.
  unfold earlier. destruct t1 as [t1 |], t2 as [t2 |]; try reflexivity.
  destruct (parseDate t1) as [| a], (parseDate t2) as [| b]; try reflexivity.
  destruct (Z.ltb_spec a c), (Z.ltb_spec b c);
    repeat match goal with |- context [?x <? ?y] => destruct (Z.ltb_spec x y) end; lia.
Qed.

Lemma later_comm c t1 t2 :
  later parseDate (later parseDate c t1) t2 = later parseDate (later parseDate c t2) t1.
Proof.
  unfold later. destruct t1 as [t1 |], t2 as [t2 |]; try reflexivity.
  destruct (parseDate t1) as [| a], (parseDate t2) as [| b]; try reflexivity.
  destruct (Z.ltb_spec c a), (Z.ltb_spec c b);
    repeat match goal with |- context [?x <? ?y] => destruct (Z.ltb_spec x y) end; lia.
Qed.

Lemma addRepo_comm a r1 r2 :
  sameCounts (addRepo parseDate (addRepo parseDate a r1) r2)
             (addRepo parseDate (addRepo parseDate a r2) r1).
Proof.
  destruct (Repo.excluded r1) eqn:E1.
  { rewrite (addRepo_excluded parseDate a r1 E1).
    rewrite (addRepo_excluded parseDate (addRepo parseDate a r2) r1 E1).
    apply sameCounts_refl. }
  destruct (Repo.excluded r2) eqn:E2.
  { rewrite (addRepo_excluded parseDate a r2 E2).
    rewrite (addRepo_excluded parseDate (addRepo parseDate a r1) r2 E2).
    apply sameCounts_refl. }
  rewrite (addRepo_included parseDate (addRepo parseDate a r1) r2 E2).
  rewrite (addRepo_included parseDate (addRepo parseDate a r2) r1 E1).
  rewrite (addRepo_included parseDate a r1 E1), (addRepo_included parseDate a r2 E2).
  cbv zeta.
  cbn [languageCounts patternCounts frameworkCounts earliestCommit latestCommit totalCommits].
  rewrite <- !surjective_pairing.
  pose proof (fold_left_swap samePair addPattern samePair_refl samePair_trans
                addPattern_congr addPattern_comm
                (Repo.patterns r1) (Repo.patterns r2)
                (patternCounts a, frameworkCounts a)) as [Hp1 Hp2].
  unfold sameCounts.
  cbn [languageCounts patternCounts frameworkCounts earliestCommit latestCommit totalCommits].
  split; [| split; [exact Hp1 | split; [exact Hp2 |]]].
  - apply (fold_left_swap sameLookups addLanguage (@sameLookups_refl _)
             (@sameLookups_trans _) addLanguage_congr addLanguage_comm).
  - split; [apply earlier_comm | split; [apply later_comm | lia]].
Qed.

(** The counters of the loop do not depend on the order of the input,
    as dictionaries. *)
Lemma aggregate_permutation now (repos repos' : list Repo.t) :
  Permutation repos repos' ->
  sameCounts (aggregate parseDate now repos) (aggregate parseDate now repos').
Proof.
  intros H. unfold aggregate.
  apply (fold_left_permutation sameCounts (addRepo parseDate) sameCounts_refl
           sameCounts_trans addRepo_congr addRepo_comm H).
Qed.
End Order.

(** ** Sets in insertion order, and sorted lists *)

Section SetsAndSorts.

Lemma uniq_In (seen l : list string) (x : string) :
  In x (uniq seen l) <-> In x l /\ ~ In x seen.
Proof.
  revert seen. induction l as [| y l IH]; intros seen; simpl; [tauto |].
  destruct (mem y seen) eqn:E.
  - apply mem_In in E. rewrite IH. split; [tauto |].
    intros [[<- | H] Hs]; [contradiction | tauto].
  - assert (Hy : ~ In y seen).
    { intros H. apply mem_In in H. congruence. }
    simpl. rewrite IH. simpl. split.
    + intros [<- | [H Hs]]; [tauto |]. split; [tauto |]. intros Hin. apply Hs. now right.
    + intros [[<- | H] Hs]; [now left |].
      destruct (string_dec y x) as [<- | Hne]; [now left |]. right.
      split; [exact H |]. intros [E' | Hin]; [contradiction | contradiction].
Qed.

Lemma uniq_NoDup (seen l : list string) : NoDup (uniq seen l).
Proof.
  revert seen. induction l as [| y l IH]; intros seen; simpl; [constructor |].
  destruct (mem y seen); [apply IH |].
  constructor; [| apply IH].
  rewrite uniq_In. intros [_ H]. apply H. now left.
Qed.

Lemma somes_In (A B : Type) (f : A -> option B) (l : list A) (b : B) :
  In b (somes (map f l)) <-> exists a, In a l /\ f a = Some b.
Proof.
  induction l as [| a l IH]; simpl.
  - split; [contradiction | intros [a [[] _]]].
  - destruct (f a) as [b' |] eqn:E; simpl; rewrite IH; split.
    + intros [<- | [a' [H1 H2]]]; [exists a; auto | exists a'; auto].
    + intros [a' [[<- | H1] H2]]; [left; congruence | right; exists a'; auto].
    + intros [a' [H1 H2]]. exists a'. auto.
    + intros [a' [[<- | H1] H2]]; [congruence | exists a'; auto].
Qed.

Lemma Permutation_filter (A : Type) (f : A -> bool) (l l' : list A) :
  Permutation l l' -> Permutation (filter f l) (filter f l').
Proof.
  induction 1 as [| x l l' _ IH | x y l | l1 l2 l3 _ IH1 _ IH2]; simpl.
  - constructor.
  - destruct (f x); [now constructor | exact IH].
  - destruct (f x), (f y); try reflexivity. apply perm_swap.
  - now transitivity (filter f l2).
Qed.

Variable A : Type.
Variable key : A -> Z.

Lemma insertDesc_descending (x : A) (l : list A) :
  descending key l -> descending key (insertDesc key x l).
Proof.
  unfold descending. induction l as [| y l IH]; simpl; intros Hs.
  - constructor; constructor.
  - apply StronglySorted_inv in Hs. destruct Hs as [Hs Hy].
    destruct (Z.ltb_spec (key x) (key y)) as [Hlt | Hge].
    + constructor; [now apply IH |].
      apply (Permutation_Forall (insertDesc_perm key x l)).
      constructor; [lia | exact Hy].
    + constructor; [now constructor |].
      constructor; [exact Hge |].
      eapply Forall_impl; [| exact Hy]. simpl. intros z Hz. lia.
Qed.

Lemma sortDesc_descending (l : list A) : descending key (sortDesc key l).
Proof.
  induction l as [| x l IH]; simpl; [constructor |].
  now apply insertDesc_descending.
Qed.

(** With keys that are all different, a descending arrangement is the
    only one. *)
Lemma descending_unique (l l' : list A) :
  NoDup (map key l) -> descending key l -> descending key l' -> Permutation l l' -> l = l'.
Proof.
  revert l'. induction l as [| a l IH]; intros l' Hnd Hs Hs' Hp.
  - apply Permutation_nil in Hp. now subst.
  - destruct l' as [| b l'].
    { apply Permutation_sym, Permutation_nil in Hp. discriminate Hp. }
    assert (Hab : a = b).
    { assert (Ha : In a (b :: l')) by (eapply Permutation_in; [exact Hp | now left]).
      assert (Hb : In b (a :: l))
        by (eapply Permutation_in; [apply Permutation_sym; exact Hp | now left]).
      destruct Ha as [-> | Ha]; [reflexivity |].
      destruct Hb as [-> | Hb]; [reflexivity |].
      apply StronglySorted_inv in Hs, Hs'.
      destruct Hs as [_ Hs], Hs' as [_ Hs'].
      rewrite Forall_forall in Hs, Hs'.
      pose proof (Hs _ Hb) as H1. pose proof (Hs' _ Ha) as H2. simpl in H1, H2.
      inversion Hnd as [| ? ? Hnotin _]; subst.
      exfalso. apply Hnotin.
      replace (key a) with (key b) by lia. now apply in_map. }
    subst b. f_equal. apply IH.
    + now inversion Hnd.
    + now apply StronglySorted_inv in Hs.
    + now apply StronglySorted_inv in Hs'.
    + eapply Permutation_cons_inv. exact Hp.
Qed.

Lemma sortDesc_permutation (l l' : list A) :
  NoDup (map key l) -> Permutation l l' -> sortDesc key l = sortDesc key l'.
Proof.
  intros Hnd Hp. apply descending_unique.
  - eapply Permutation_NoDup; [| exact Hnd].
    apply Permutation_map. apply sortDesc_perm.
  - apply sortDesc_descending.
  - apply sortDesc_descending.
  - rewrite <- (sortDesc_perm key l), <- (sortDesc_perm key l'). exact Hp.
Qed.
End SetsAndSorts.

(** ** Determinism of the builder *)

Section Determinism.
Import Skills.

Lemma map_fst_languageOf n (lc : list (string * LangCount)) :
  map fst (map (languageOf n) lc) = map fst lc.
Proof. rewrite map_map. apply map_ext. reflexivity. Qed.

Lemma map_fst_frameworkOf n (fc : list (string * FrameworkCount)) :
  map fst (map (frameworkOf n) fc) = map (fun e => frameworkName (snd e)) fc.
Proof. rewrite map_map. apply map_ext. reflexivity. Qed.

Lemma domains_of_profile parseDate now repos :
  let p := buildSkillsProfile parseDate now repos in
  Profile.domains p = deriveDomains (Profile.patterns p) (Profile.frameworks p).
Proof. reflexivity. Qed.

Lemma deriveDomains_In patterns frameworks x :
  In x (deriveDomains patterns frameworks) <->
  (exists pattern, In pattern patterns /\ assoc pattern patternToDomain = Some x) \/
  (exists f, In f frameworks /\
             assoc (FrameworkEntry.category (snd f)) frameworkToDomain = Some x).
Proof.
  unfold deriveDomains. rewrite uniq_In, in_app_iff, !somes_In. simpl. tauto.
Qed.

(** C4 as the specification has it fails: the two orders of two
    repositories give the keys of [languages] in two orders, and rank
    the two languages, used once each, in two ways. *)
Lemma buildSkillsProfile_depends_on_order :
  let p := buildSkillsProfile Examples.noDate 0 [Examples.jsRepo; Examples.pyRepo] in
  let p' := buildSkillsProfile Examples.noDate 0 [Examples.pyRepo; Examples.jsRepo] in
  Permutation [Examples.jsRepo; Examples.pyRepo] [Examples.pyRepo; Examples.jsRepo] /\
  map fst (Profile.languages p) = ["JavaScript"; "Python"] /\
  map fst (Profile.languages p') = ["Python"; "JavaScript"] /\
  Profile.languages p <> Profile.languages p' /\
  map fst (Profile.frameworks p) = ["React"; "Docker"] /\
  map fst (Profile.frameworks p') = ["Docker"; "React"] /\
  map fst (Summary.topLanguages (Profile.summary p)) = ["JavaScript"; "Python"] /\
  map fst (Summary.topLanguages (Profile.summary p')) = ["Python"; "JavaScript"].
Proof.
  cbv zeta. split; [apply perm_swap |].
  split; [vm_compute; reflexivity |]. split; [vm_compute; reflexivity |].
  split; [vm_compute; discriminate |].
  repeat split; vm_compute; reflexivity.
Qed.

End Determinism.

(** ** Ingestion *)

Section Ingestion.
Import Jobs.

Lemma idOf_eq (job : value) : job <> JNull -> idOf job = Ok (jobId job).
Proof.
  intros Hnn. unfold idOf, jobId. rewrite (get_field _ Hnn). cbn [bind].
  rewrite (generateJobId_eq Hnn). cbn [bind].
  destruct (field job "id") as [v |]; [destruct (truthy v) |]; reflexivity.
Qed.










Lemma remoteOk_remoteOf (remote location : option value) :
  remoteOk remote location = true -> exists r, remoteOf remote location = Ok r.
Proof.
  unfold remoteOk, remoteOf.
  destruct remote as [[] |]; destruct location as [[] |]; intros H;
    try discriminate H; eexists; reflexivity.
Qed.













End Ingestion.

Section Idempotence.
Import Jobs.




End Idempotence.


(** ** The scenarios of the specification *)

(** Scenario A: a posting is added once and skipped when it comes again. *)
Example scenario_reingest :
  exists stored,
    Jobs.ingestJobsFromFile Examples.clock (Jobs.Parsed (JArr [Examples.scenarioJob])) []
    = (Ok {| Jobs.added := 1; Jobs.skipped := 0; Jobs.errors := [] |}, stored) /\
    map Job.skills stored = [["react"; "python"]] /\
    Jobs.ingestJobsFromFile Examples.laterClock (Jobs.Parsed (JArr [Examples.scenarioJob]))
                            stored
    = (Ok {| Jobs.added := 0; Jobs.skipped := 1; Jobs.errors := [] |}, stored).
Proof. eexists. split; [vm_compute; reflexivity |]. split; vm_compute; reflexivity. Qed.

(** Scenario C: a skill that the profile lacks is missing, and the base
    score is 0. *)
Example scenario_missing_skill :
  exists m,
    Jobs.matchJobsToProfile [Examples.goJob] Examples.tsProfile Examples.noPreferences
    = Ok [m] /\
    Jobs.missingSkills m = ["go"] /\ Jobs.matchedSkills m = [] /\ Jobs.baseScore m = 0.
Proof. eexists. split; [vm_compute; reflexivity |]. repeat split. Qed.

(** Scenario E: the entry without a company is reported, the other two
    are added. *)
Example scenario_malformed_entry :
  exists report stored,
    Jobs.ingestJobsFromFile Examples.clock (Jobs.Parsed Examples.scenarioBatch) []
    = (Ok report, stored) /\
    Jobs.added report = 2 /\
    map snd (Jobs.errors report) = [["Missing required field: company"]] /\
    map Job.company stored = ["Acme"; "Initech"].
Proof. do 2 eexists. split; [vm_compute; reflexivity |]. repeat split. Qed.


(** ** The double-precision model against the IEEE 754 operations *)

Section DoublePrecision.

Lemma upFrom_In (lo : Z) (n : nat) (z : Z) :
  lo <= z < lo + Z.of_nat n -> In z (upFrom lo n).
Proof.
  intros H. unfold upFrom. apply in_map_iff.
  exists (Z.to_nat (z - lo)). split; [lia |]. apply in_seq. lia.
Qed.

Lemma table_weights_occur :
  forallb (fun e : string * FrameworkInfo.t => isWeight (FrameworkInfo.weight (snd e)))
          Skills.FRAMEWORK_CATEGORIES = true.
Proof. vm_compute. reflexivity. Qed.

Lemma onTierRange_spec (P : Z -> Z -> Q -> bool) (bound : nat) :
  onTierRange P bound = true ->
  forall repoCount totalRepos w,
    1 <= totalRepos <= Z.of_nat bound -> 0 <= repoCount <= totalRepos -> In w weights ->
    P repoCount totalRepos w = true.
Proof.
  unfold onTierRange. intros Hall repoCount totalRepos w Ht Hr Hw.
  rewrite forallb_forall in Hall.
  assert (H1 : In totalRepos (upFrom 1 bound)) by (apply upFrom_In; lia).
  apply Hall in H1. rewrite forallb_forall in H1.
  assert (H2 : In repoCount (upFrom 0 (Z.to_nat (totalRepos + 1))))
    by (apply upFrom_In; lia).
  apply H1 in H2. rewrite forallb_forall in H2. now apply H2.
Qed.

Lemma onScoreRange_spec (P : Z -> Z -> bool) (skills matches : nat) :
  onScoreRange P skills matches = true ->
  forall matchedCount requiredCount,
    1 <= requiredCount <= Z.of_nat skills -> 0 <= matchedCount < Z.of_nat matches ->
    P matchedCount requiredCount = true.
Proof.
  unfold onScoreRange. intros Hall matchedCount requiredCount Hn Hm.
  rewrite forallb_forall in Hall.
  assert (H1 : In requiredCount (upFrom 1 skills)) by (apply upFrom_In; lia).
  apply Hall in H1. rewrite forallb_forall in H1.
  apply H1. apply upFrom_In. lia.
Qed.

Lemma sameTier_eq (a b : Proficiency) : sameTier a b = true -> a = b.
Proof. destruct a, b; simpl; intros H; reflexivity || discriminate H. Qed.

Lemma tiers_checked : onTierRange tiersAgree 40 = true.
Proof. vm_compute. reflexivity. Qed.

Lemma doubles_checked : onScoreRange doublesAgree 40 45 = true.
Proof. vm_compute. reflexivity. Qed.

(** For up to 40 repositories and every weight that occurs, the tier
    computed in double precision is the tier of the exact model. *)
Lemma binary64_tiers (repoCount totalRepos : Z) (w : Q) :
  1 <= totalRepos <= 40 -> 0 <= repoCount <= totalRepos -> In w weights ->
  Binary64.calculateProficiency repoCount totalRepos w
  = Skills.calculateProficiency repoCount totalRepos w.
Proof.
  intros Ht Hr Hw. apply sameTier_eq.
  exact (@onTierRange_spec tiersAgree 40 tiers_checked repoCount totalRepos w Ht Hr Hw).
Qed.

(** For up to 40 skill tokens and up to 44 matches, the quotient and
    the product that [double] gives are those of the IEEE 754 division
    and multiplication of the standard library, and so is the score:
    23 matches of 40 give 57.49999999999999 and so 57, where exact
    arithmetic has 57.5 and so 58. *)
Lemma binary64_scores (matchedCount requiredCount : Z) :
  1 <= requiredCount <= 40 -> 0 <= matchedCount < 45 ->
  let q := Binary64.div (Binary64.ofZ matchedCount) (Binary64.ofZ requiredCount) in
  let x := (inject_Z matchedCount / inject_Z requiredCount)%Q in
  (Binary64.toQ q == double x)%Q /\
  (Binary64.toQ (Binary64.mul q (Binary64.ofZ 100)) == double (double x * 100))%Q /\
  Binary64.score matchedCount requiredCount = percent matchedCount requiredCount.
Proof.
  intros Hn Hm. cbv zeta.
  pose proof (@onScoreRange_spec doublesAgree 40 45 doubles_checked
                matchedCount requiredCount Hn Hm) as H.
  unfold doublesAgree in H.
  apply andb_prop in H. destruct H as [H H3].
  apply andb_prop in H. destruct H as [H1 H2].
  split; [now apply Qeq_bool_iff | split; [now apply Qeq_bool_iff | now apply Z.eqb_eq]].
Qed.

Example binary64_tie :
  percent 23 40 = 57 /\ Binary64.score 23 40 = 57 /\ exactScore 23 40 = 58 /\
  isTie 23 40 = true /\ percent 2 1 = 200 /\ percent 201 200 = 100 /\
  exactScore 201 200 = 101.
Proof. vm_compute. repeat split. Qed.
End DoublePrecision.

(** * Further properties *)

(** ** Ingestion: what a run accounts for, and when it aborts *)

Section IngestAccounting.
Import Jobs.

Ltac bind_ok H :=
  match type of H with
  | bind ?m _ = Ok _ =>
      let E := fresh "E" in
      destruct m eqn:E; cbn [bind] in H; [| discriminate H]
  end.

Lemma ingestStep_accounts now (st st' : IngestState) (raw : value) :
  ingestStep now st raw = Ok st' ->
  exists recs,
    existingJobs st' = (existingJobs st ++ recs)%list /\
    added (results st') = added (results st) + Z.of_nat (List.length recs) /\
    skipped (results st) <= skipped (results st') /\
    added (results st') + skipped (results st')
    + Z.of_nat (List.length (errors (results st')))
    = added (results st) + skipped (results st)
      + Z.of_nat (List.length (errors (results st))) + 1.
Proof.
  unfold ingestStep. intros H. bind_ok H.
  destruct (negb (valid a)).
  - injection H as <-. exists []. cbn. rewrite app_nil_r, length_app. cbn.
    repeat split; lia.
  - bind_ok H. destruct (has (existingIds st) (Job.id a0)); injection H as <-.
    + exists []. cbn. rewrite app_nil_r. repeat split; lia.
    + exists [a0]. cbn. repeat split; lia.
Qed.

Lemma ingestLoop_accounts now (raws : list value) :
  forall st st' : IngestState,
    ingestLoop now st raws = Ok st' ->
    exists recs,
      existingJobs st' = (existingJobs st ++ recs)%list /\
      added (results st') = added (results st) + Z.of_nat (List.length recs) /\
      skipped (results st) <= skipped (results st') /\
      added (results st') + skipped (results st')
      + Z.of_nat (List.length (errors (results st')))
      = added (results st) + skipped (results st)
        + Z.of_nat (List.length (errors (results st)))
        + Z.of_nat (List.length raws).
Proof.
  induction raws as [| raw raws IH]; intros st st' H.
  - injection H as <-. exists []. rewrite app_nil_r. cbn. repeat split; lia.
  - cbn [ingestLoop] in H. bind_ok H.
    destruct (@ingestStep_accounts _ _ _ _ E) as [r1 [J1 [A1 [S1 T1]]]].
    destruct (IH _ _ H) as [r2 [J2 [A2 [S2 T2]]]].
    exists (r1 ++ r2)%list. rewrite J2, J1, <- app_assoc, length_app.
    cbn [List.length]. repeat split; lia.
Qed.

(** X1. Whenever [ingestJobsFromFile] returns a report, the collection it
    saves is the stored one followed by the records it added (nothing
    stored is dropped, changed or reordered), [added] is the number of
    records appended, and [added + skipped + errors.length] is the number
    of raw entries of the payload. *)
Theorem ingestJobsFromFile_accounts now (file : FileContent) (stored stored' : list Job.t)
        (report : IngestResults) :
  ingestJobsFromFile now file stored = (Ok report, stored') ->
  exists data raws recs,
    file = Parsed data /\ rawJobsOf data = Ok raws /\
    stored' = (stored ++ recs)%list /\
    added report = Z.of_nat (List.length recs) /\
    0 <= skipped report /\
    added report + skipped report + Z.of_nat (List.length (errors report))
    = Z.of_nat (List.length raws).
Proof.
  unfold ingestJobsFromFile. destruct file as [| reason | data]; try discriminate.
  destruct (rawJobsOf data) as [raws |] eqn:Eraws; cbn [bind]; [| discriminate].
  destruct (ingestLoop now _ raws) as [st |] eqn:Eloop; [| discriminate].
  intros H. injection H as <- <-.
  destruct (@ingestLoop_accounts _ _ _ _ Eloop) as [recs [J [A [S T]]]]. cbn in J, A, S, T.
  exists data, raws, recs. repeat split; try assumption; lia.
Qed.

Lemma ingestJobsFromFile_accounts_witness :
  exists data raws recs,
    Parsed Examples.scenarioBatch = Parsed data /\ rawJobsOf data = Ok raws /\
    snd (ingestJobsFromFile Examples.clock (Parsed Examples.scenarioBatch)
                            [Examples.tsJob])
    = ([Examples.tsJob] ++ recs)%list /\
    2 = Z.of_nat (List.length recs) /\
    0 <= 0 /\
    2 + 0 + Z.of_nat (List.length [(JObj [("title", JStr "Backend Engineer")],
                                    ["Missing required field: company"])])
    = Z.of_nat (List.length raws).
Proof.
  apply (@ingestJobsFromFile_accounts Examples.clock (Parsed Examples.scenarioBatch)
           [Examples.tsJob] _
           {| added := 2; skipped := 0;
              errors := [(JObj [("title", JStr "Backend Engineer")],
                          ["Missing required field: company"])] |}).
  vm_compute. reflexivity.
Defined.

Lemma trimmable_trimOr (v : option value) (d : string) :
  trimmable v = true -> exists t, trimOr v d = Ok t.
Proof. destruct v as [[] |]; simpl; try discriminate; intros _; eexists; reflexivity. Qed.

Lemma trimOr_trimmable (v : option value) (d t : string) :
  trimOr v d = Ok t -> trimmable v = true.
Proof. destruct v as [[] |]; simpl; try discriminate; reflexivity. Qed.

Lemma mapM_lowerTrim_texts (l : list value) (tokens : list string) :
  mapM lowerTrim (filter truthy l) = Ok tokens -> forallb textOrFalsy l = true.
Proof.
  revert tokens. induction l as [| v l IH]; intros tokens H; [reflexivity |].
  cbn [filter] in H. cbn [forallb].
  destruct (truthy v) eqn:Etr.
  - cbn [mapM] in H. bind_ok H. bind_ok H.
    rewrite (IH _ eq_refl), andb_true_r. destruct v; try discriminate E. reflexivity.
  - rewrite (IH _ H), andb_true_r. unfold textOrFalsy. rewrite Etr. now destruct v.
Qed.

Lemma skillsNormalize_spec (v : value) :
  skillsNormalize v = true <-> exists tokens, normalizeSkills v = Ok tokens.
Proof.
  split.
  - destruct v as [| b | n | s | l | fs]; simpl; try discriminate; intros H.
    + apply lowerTrim_texts, forallb_texts.
    + now apply lowerTrim_texts.
  - intros [tokens H]. destruct v as [| b | n | s | l | fs]; try discriminate H.
    + reflexivity.
    + simpl in *. eapply mapM_lowerTrim_texts, H.
Qed.

Lemma remoteOf_remoteOk (remote location : option value) (r : value) :
  remoteOf remote location = Ok r -> remoteOk remote location = true.
Proof.
  unfold remoteOk, remoteOf.
  destruct remote as [[] |]; destruct location as [[] |]; intros H;
    try discriminate H; reflexivity.
Qed.

Lemma normalizes_spec now (raw : value) :
  normalizes raw = true <-> exists rec, normalizeJob now raw = Ok rec.
Proof.
  destruct (value_is_null raw) as [-> | Hnn].
  { split; [discriminate | intros [rec H]; discriminate H]. }
  assert (En : normalizes raw
               = trimmable (field raw "title") && trimmable (field raw "company")
                 && skillsNormalize (orElse (field raw "skills") (JArr []))
                 && remoteOk (field raw "remote") (field raw "location"))
    by (destruct raw; try reflexivity; congruence).
  rewrite En. unfold normalizeJob.
  rewrite (idOf_eq Hnn), !(get_field _ Hnn). cbn [bind].
  split.
  - intros H. repeat (apply andb_prop in H; destruct H as [H ?]).
    destruct (@trimmable_trimOr _ "Unknown Position" H) as [t ->].
    destruct (@trimmable_trimOr _ "Unknown Company" H2) as [c ->].
    apply skillsNormalize_spec in H1. destruct H1 as [tokens ->].
    destruct (@remoteOk_remoteOf _ _ H0) as [r ->].
    cbn [bind]. eexists. reflexivity.
  - intros [rec H]. bind_ok H. bind_ok H. bind_ok H. bind_ok H.
    rewrite (trimOr_trimmable _ _ E), (trimOr_trimmable _ _ E0),
      (remoteOf_remoteOk _ _ E2).
    rewrite (proj2 (skillsNormalize_spec _) (ex_intro _ _ E1)). reflexivity.
Qed.

Lemma processed_spec now (st : IngestState) (raw : value) :
  processed raw = true <-> exists st', ingestStep now st raw = Ok st'.
Proof.
  destruct (value_is_null raw) as [-> | Hnn].
  { split; [discriminate | intros [st' H]; discriminate H]. }
  assert (Ep : processed raw
               = negb (isEmpty (validationErrors raw)) || normalizes raw)
    by (destruct raw; try reflexivity; congruence).
  rewrite Ep. unfold ingestStep. rewrite (validateJob_eq Hnn). cbn [bind valid verrors].
  destruct (validationErrors raw) as [| m ms]; cbn [isEmpty negb orb].
  - rewrite (normalizes_spec now). split.
    + intros [rec ->]. cbn [bind]. destruct (has _ _); eexists; reflexivity.
    + intros [st' H]. destruct (normalizeJob now raw) as [rec |]; [| discriminate H].
      now exists rec.
  - split; [intros _; eexists; reflexivity | reflexivity].
Qed.

Lemma ingestLoop_returns now (raws : list value) :
  forall st, forallb processed raws = true -> exists st', ingestLoop now st raws = Ok st'.
Proof.
  induction raws as [| raw raws IH]; intros st H.
  - now exists st.
  - cbn [forallb] in H. apply andb_prop in H. destruct H as [Hraw Hraws].
    apply (processed_spec now st) in Hraw. destruct Hraw as [st1 E1].
    cbn [ingestLoop]. rewrite E1. cbn [bind]. now apply IH.
Qed.

Lemma ingestLoop_throws now (raws : list value) :
  forall st, forallb processed raws = false -> exists e, ingestLoop now st raws = Throw e.
Proof.
  induction raws as [| raw raws IH]; intros st H; [discriminate H |].
  cbn [forallb] in H. cbn [ingestLoop].
  destruct (ingestStep now st raw) as [st1 | e] eqn:E1; cbn [bind].
  - assert (Hp : processed raw = true) by (apply (processed_spec now st); now exists st1).
    rewrite Hp in H. now apply IH.
  - now exists e.
Qed.

(** X2. [ingestJobsFromFile] is all or nothing. It returns a report when
    every raw entry is other than [null] and either fails validation or
    is one that [normalizeJob] takes; otherwise (one [null] entry, or one
    valid entry with, say, a number for its title) it throws, and the
    stored collection is left as it was, whatever came before that entry
    in the payload. *)
Theorem ingestJobsFromFile_all_or_nothing now (data : value) (raws : list value)
        (stored : list Job.t) :
  rawJobsOf data = Ok raws ->
  (forallb processed raws = true ->
   exists report stored',
     ingestJobsFromFile now (Parsed data) stored = (Ok report, stored')) /\
  (forallb processed raws = false ->
   exists e, ingestJobsFromFile now (Parsed data) stored = (Throw e, stored)).
Proof.
  intros Eraws. unfold ingestJobsFromFile. rewrite Eraws. cbn [bind]. split; intros H.
  - destruct (ingestLoop_returns now raws (initialState stored) H) as [st' E].
    unfold initialState in E. rewrite E. eauto.
  - destruct (ingestLoop_throws now raws (initialState stored) H) as [e E].
    unfold initialState in E. rewrite E. eauto.
Qed.

Lemma ingestJobsFromFile_all_or_nothing_witness :
  (exists report stored',
      ingestJobsFromFile Examples.clock (Parsed Examples.scenarioBatch) [Examples.tsJob]
      = (Ok report, stored')) /\
  (exists e,
      ingestJobsFromFile Examples.clock
                         (Parsed (JArr [Examples.postingAa; IngestSamples.numberTitle]))
                         [Examples.tsJob]
      = (Throw e, [Examples.tsJob])).
Proof.
  split.
  - apply (proj1 (@ingestJobsFromFile_all_or_nothing
                    Examples.clock Examples.scenarioBatch _ [Examples.tsJob] eq_refl)).
    reflexivity.
  - apply (proj2 (@ingestJobsFromFile_all_or_nothing
                    Examples.clock (JArr [Examples.postingAa; IngestSamples.numberTitle]) _
                    [Examples.tsJob] eq_refl)).
    reflexivity.
Defined.
End IngestAccounting.

(** ** Strings: trimming and lower case *)

Section Strings.

Lemma lowerChar_idempotent (c : ascii) : lowerChar (lowerChar c) = lowerChar c.
Proof. destruct c as [[] [] [] [] [] [] [] []]; reflexivity. Qed.

Lemma isSpace_lowerChar (c : ascii) : isSpace (lowerChar c) = isSpace c.
Proof. destruct c as [[] [] [] [] [] [] [] []]; reflexivity. Qed.

Lemma toLowerCase_idempotent (s : string) : toLowerCase (toLowerCase s) = toLowerCase s.
Proof. induction s as [| c s IH]; cbn; [| rewrite lowerChar_idempotent, IH]; reflexivity. Qed.

Lemma toLowerCase_trimStart (s : string) :
  toLowerCase (trimStart s) = trimStart (toLowerCase s).
Proof.
  induction s as [| c s IH]; [reflexivity |].
  cbn [trimStart toLowerCase]. rewrite isSpace_lowerChar.
  destruct (isSpace c); [exact IH | reflexivity].
Qed.

Lemma toLowerCase_empty (s : string) : toLowerCase s = EmptyString -> s = EmptyString.
Proof. destruct s; [reflexivity | discriminate]. Qed.

Lemma toLowerCase_trimEnd (s : string) :
  toLowerCase (trimEnd s) = trimEnd (toLowerCase s).
Proof.
  induction s as [| c s IH]; [reflexivity |].
  cbn [trimEnd toLowerCase]. rewrite <- IH, isSpace_lowerChar.
  destruct (trimEnd s) as [| c' t']; cbn [toLowerCase].
  - destruct (isSpace c); reflexivity.
  - reflexivity.
Qed.

Lemma toLowerCase_trim (s : string) : toLowerCase (trim s) = trim (toLowerCase s).
Proof. unfold trim. now rewrite toLowerCase_trimEnd, toLowerCase_trimStart. Qed.

Lemma trimEnd_idempotent (s : string) : trimEnd (trimEnd s) = trimEnd s.
Proof.
  induction s as [| c s IH]; [reflexivity |].
  cbn [trimEnd]. destruct (trimEnd s) as [| c' t'] eqn:E.
  - destruct (isSpace c) eqn:Ec; cbn [trimEnd]; [reflexivity | now rewrite Ec].
  - cbn [trimEnd] in *. now rewrite IH.
Qed.

Lemma trimStart_head (s : string) : headNotSpace (trimStart s) = true.
Proof.
  induction s as [| c s IH]; [reflexivity |].
  cbn [trimStart]. destruct (isSpace c) eqn:Ec; [exact IH | cbn; now rewrite Ec].
Qed.

Lemma trimEnd_head (s : string) : headNotSpace s = true -> headNotSpace (trimEnd s) = true.
Proof.
  destruct s as [| c s]; [reflexivity |]. cbn [headNotSpace trimEnd]. intros Hc.
  destruct (trimEnd s); [| exact Hc].
  apply negb_true_iff in Hc. rewrite Hc. cbn. now rewrite Hc.
Qed.

Lemma trimStart_fixed (s : string) : headNotSpace s = true -> trimStart s = s.
Proof.
  destruct s as [| c s]; [reflexivity |]. cbn. intros Hc.
  apply negb_true_iff in Hc. now rewrite Hc.
Qed.

Lemma trim_idempotent (s : string) : trim (trim s) = trim s.
Proof.
  unfold trim. rewrite (trimStart_fixed (trimEnd (trimStart s))).
  - apply trimEnd_idempotent.
  - apply trimEnd_head, trimStart_head.
Qed.

Lemma normalized_lowerTrim (s : string) : normalized (trim (toLowerCase s)).
Proof.
  split; [apply trim_idempotent |].
  now rewrite toLowerCase_trim, toLowerCase_idempotent.
Qed.

End Strings.

(** ** Normalization of a posting *)

Section Normalization.
Import Jobs.

Ltac bind_ok H :=
  match type of H with
  | bind ?m _ = Ok _ =>
      let E := fresh "E" in
      destruct m eqn:E; cbn [bind] in H; [| discriminate H]
  end.

Lemma trimOr_text (v : option value) (d t : string) :
  d <> EmptyString -> trim d = d -> trimOr v d = Ok t -> t <> EmptyString /\ trim t = t.
Proof.
  intros Hd Htd H.
  destruct v as [[| b | n | s | l | fs] |]; simpl in H; try discriminate H;
    try (injection H as <-; now split).
  injection H as <-. destruct (String.eqb (trim s) EmptyString) eqn:E; [now split |].
  apply String.eqb_neq in E. split; [exact E | apply trim_idempotent].
Qed.

Lemma mapM_lowerTrim_normalized (l : list value) :
  forall tokens, mapM lowerTrim l = Ok tokens -> Forall normalized tokens.
Proof.
  induction l as [| v l IH]; intros tokens H.
  - injection H as <-. constructor.
  - cbn [mapM] in H. bind_ok H. bind_ok H. injection H as <-.
    constructor; [| now apply IH].
    destruct v; try discriminate E. injection E as <-. apply normalized_lowerTrim.
Qed.

Lemma normalizeSkills_normalized (v : value) (tokens : list string) :
  normalizeSkills v = Ok tokens -> Forall normalized tokens.
Proof.
  destruct v; try discriminate; simpl; apply mapM_lowerTrim_normalized.
Qed.

Lemma orElse_truthy (x : option value) (d : value) :
  truthy d = true -> truthy (orElse x d) = true.
Proof.
  intros Hd. unfold orElse. destruct x as [v |]; [| exact Hd].
  destruct (truthy v) eqn:E; [exact E | exact Hd].
Qed.

(** X3. Whatever the raw entry, a record that [normalizeJob] returns has
    a title and a company that are non-empty and carry no surrounding
    white space, skill tokens that are trimmed and lower-case, and a
    truthy location, type, source and status (the defaults fill what the
    entry leaves out or gives as a falsy value). *)
Theorem normalizeJob_record now (raw : value) (rec : Job.t) :
  normalizeJob now raw = Ok rec ->
  (Job.title rec <> EmptyString /\ trim (Job.title rec) = Job.title rec) /\
  (Job.company rec <> EmptyString /\ trim (Job.company rec) = Job.company rec) /\
  Forall normalized (Job.skills rec) /\
  truthy (Job.location rec) = true /\ truthy (Job.type rec) = true /\
  truthy (Job.source rec) = true /\ truthy (Job.status rec) = true.
Proof.
  intros H. destruct (value_is_null raw) as [-> | Hnn]; [discriminate H |].
  unfold normalizeJob in H. rewrite (idOf_eq Hnn), !(get_field _ Hnn) in H.
  cbn [bind] in H. bind_ok H. bind_ok H. bind_ok H. bind_ok H.
  injection H as <-. cbn.
  split; [| split; [| split]].
  - eapply trimOr_text; [| | exact E]; [discriminate | reflexivity].
  - eapply trimOr_text; [| | exact E0]; [discriminate | reflexivity].
  - eapply normalizeSkills_normalized, E1.
  - repeat split; now apply orElse_truthy.
Qed.

Lemma normalizeJob_record_witness :
  exists rec,
    normalizeJob Examples.clock IngestSamples.paddedPosting = Ok rec /\
    Job.title rec = "Staff Engineer" /\ Job.skills rec = ["react"; "node.js"; EmptyString] /\
    (Job.title rec <> EmptyString /\ trim (Job.title rec) = Job.title rec) /\
    (Job.company rec <> EmptyString /\ trim (Job.company rec) = Job.company rec) /\
    Forall normalized (Job.skills rec) /\
    truthy (Job.location rec) = true /\ truthy (Job.type rec) = true /\
    truthy (Job.source rec) = true /\ truthy (Job.status rec) = true.
Proof.
  destruct (normalizeJob Examples.clock IngestSamples.paddedPosting) as [rec |] eqn:E;
    [| discriminate E].
  exists rec. split; [reflexivity |].
  split; [now vm_compute in E; injection E as <- |].
  split; [now vm_compute in E; injection E as <- |].
  exact (@normalizeJob_record Examples.clock IngestSamples.paddedPosting rec E).
Defined.

Lemma lowerTrim_pieces (l : list string) :
  mapM lowerTrim (filter truthy (map (fun t => JStr (trim t)) l))
  = Ok (map (fun p => toLowerCase (trim p))
            (filter (fun p => negb (String.eqb (trim p) EmptyString)) l)).
Proof.
  induction l as [| p l IH]; [reflexivity |].
  cbn [map filter truthy].
  destruct (negb (String.eqb (trim p) EmptyString)); [| exact IH].
  cbn [mapM lowerTrim bind]. rewrite IH. cbn [bind].
  now rewrite <- toLowerCase_trim, trim_idempotent.
Qed.

(** X4. On a comma-separated string [normalizeSkills] never throws: it
    returns one token for every piece between commas that is not blank,
    in order, each the piece trimmed and in lower case; no token is
    empty. *)
Theorem normalizeSkills_string (s : string) :
  exists tokens,
    normalizeSkills (JStr s) = Ok tokens /\
    tokens = map (fun p => toLowerCase (trim p))
                 (filter (fun p => negb (String.eqb (trim p) EmptyString)) (split "," s)) /\
    Forall (fun t => t <> EmptyString /\ normalized t) tokens.
Proof.
  eexists. split; [apply lowerTrim_pieces | split; [reflexivity |]].
  apply Forall_forall. intros t Ht. apply in_map_iff in Ht.
  destruct Ht as [p [<- Hp]]. apply filter_In in Hp. destruct Hp as [_ Hp].
  apply negb_true_iff, String.eqb_neq in Hp. split.
  - intros E. apply Hp. now apply toLowerCase_empty.
  - rewrite toLowerCase_trim. apply normalized_lowerTrim.
Qed.

End Normalization.

(** ** Raw entries: rejection, acceptance and the [null] entry *)

Section RawEntries.
Import Jobs.

Lemma ingestStep_valid_errors now (st st' : IngestState) (job : value) (v : Validation) :
  validateJob job = Ok v -> valid v = true ->
  ingestStep now st job = Ok st' -> errors (results st') = errors (results st).
Proof.
  intros Hv Hvalid H. unfold ingestStep in H. rewrite Hv in H. cbn [bind] in H.
  rewrite Hvalid in H. cbn [negb] in H.
  destruct (normalizeJob now job) as [rec |]; cbn [bind] in H; [| discriminate H].
  destruct (has (existingIds st) (Job.id rec)); injection H as <-; reflexivity.
Qed.

(** C3, amended: a raw entry other than [null] is rejected (recorded
    under [errors], the collection untouched) exactly when its [title]
    or [company] is missing or falsy, or its [skills] is truthy and not
    an array; so an entry whose [skills] is a non-empty comma-separated
    string is rejected with "Skills must be an array", and
    [normalizeSkills] is never reached for it. An entry that passes is
    not recorded under [errors]. On a [null] entry [validateJob] throws,
    and the loop of the ingestion with it. [normalizeSkills] on its own
    does split a string at the commas into the pieces that are not
    blank, each trimmed and in lower case. *)
Theorem validateJob_rejects (job : value) :
  (job = JNull ->
   validateJob job = Throw "TypeError: Cannot read properties of null" /\
   forall now st rest,
     ingestLoop now st (job :: rest) = Throw "TypeError: Cannot read properties of null") /\
  (job <> JNull ->
   exists v,
     validateJob job = Ok v /\
     (valid v = false <->
      truthyU (field job "title") = false \/
      truthyU (field job "company") = false \/
      (truthyU (field job "skills") = true /\ isArray (field job "skills") = false)) /\
     (forall s, field job "skills" = Some (JStr s) -> s <> EmptyString ->
                valid v = false /\ In "Skills must be an array" (verrors v)) /\
     (valid v = false ->
      forall now st,
        ingestStep now st job
        = Ok {| existingJobs := existingJobs st;
                existingIds := existingIds st;
                results := {| added := added (results st);
                              skipped := skipped (results st);
                              errors := (errors (results st) ++ [(job, verrors v)])%list |} |}) /\
     (valid v = true ->
      forall now st st',
        ingestStep now st job = Ok st' -> errors (results st') = errors (results st))) /\
  (forall s,
      let tokens := map (fun p => toLowerCase (trim p))
                        (filter (fun p => negb (String.eqb (trim p) EmptyString))
                                (split "," s)) in
      normalizeSkills (JStr s) = Ok tokens /\
      Forall (fun t => t <> EmptyString /\ normalized t) tokens).
Proof.
  split; [| split].
  - intros ->. split; reflexivity.
  - intros Hnn. eexists. split; [apply (validateJob_eq Hnn) |].
    split; [| split; [| split]].
    + unfold validationErrors, skillsError. cbn [valid].
      destruct (truthyU (field job "title")), (truthyU (field job "company")),
        (truthyU (field job "skills")), (isArray (field job "skills")); simpl;
        intuition congruence.
    + intros s Hs Hne. unfold validationErrors, skillsError. rewrite Hs. cbn [valid verrors].
      assert (E : truthyU (Some (JStr s)) && negb (isArray (Some (JStr s))) = true).
      { simpl. destruct (String.eqb_spec s EmptyString); [contradiction | reflexivity]. }
      rewrite E. split.
      * destruct (truthyU (field job "title")), (truthyU (field job "company")); reflexivity.
      * apply in_or_app. right. apply in_or_app. right. left. reflexivity.
    + intros Hv now st. unfold ingestStep.
      rewrite (validateJob_eq Hnn). cbn [bind]. rewrite Hv. reflexivity.
    + intros Hv now st st'. apply (@ingestStep_valid_errors now st st' job _
                                     (validateJob_eq Hnn) Hv).
  - intros s. cbv zeta. split; [apply lowerTrim_pieces |].
    apply Forall_forall. intros t Ht. apply in_map_iff in Ht.
    destruct Ht as [p [<- Hp]]. apply filter_In in Hp. destruct Hp as [_ Hp].
    apply negb_true_iff, String.eqb_neq in Hp. split.
    + intros E. apply Hp. now apply toLowerCase_empty.
    + rewrite toLowerCase_trim. apply normalized_lowerTrim.
Qed.

Lemma validateJob_rejects_witness :
  exists v,
    validateJob Examples.stringSkillsJob = Ok v /\ valid v = false /\
    In "Skills must be an array" (verrors v).
Proof.
  assert (Hnn : Examples.stringSkillsJob <> JNull) by discriminate.
  destruct (validateJob_rejects Examples.stringSkillsJob) as [_ [Hobj _]].
  destruct (Hobj Hnn) as [v [Hv [_ [Hstr _]]]].
  exists v. split; [exact Hv |].
  apply (Hstr "react, python"); [reflexivity | discriminate].
Defined.

(** A batch with a [null] entry: nothing is reported and nothing is
    stored, not even the valid entry before it. *)
Example null_entry_aborts :
  ingestJobsFromFile Examples.clock
    (Parsed (JArr [Examples.postingAa; JNull])) []
  = (Throw "TypeError: Cannot read properties of null", []).
Proof. vm_compute. reflexivity. Qed.

End RawEntries.

(** ** The shape of a generated id *)

Section IdShape.
Import Jobs.

Lemma allChars_app (p : ascii -> bool) (a b : string) :
  allChars p (a ++ b) = allChars p a && allChars p b.
Proof. induction a as [| c a IH]; cbn; [| rewrite IH, andb_assoc]; reflexivity. Qed.

Lemma allChars_mono (p q : ascii -> bool) (s : string) :
  (forall c, p c = true -> q c = true) -> allChars p s = true -> allChars q s = true.
Proof.
  intros Hpq. induction s as [| c s IH]; cbn; [reflexivity |].
  intros H. apply andb_prop in H. destruct H as [Hc Hs].
  now rewrite (Hpq _ Hc), IH.
Qed.

Lemma allChars_substring (p : ascii -> bool) (s : string) :
  forall n m, allChars p s = true -> allChars p (substring n m s) = true.
Proof.
  induction s as [| c s IH]; intros n m H.
  - destruct n, m; reflexivity.
  - cbn in H. apply andb_prop in H. destruct H as [Hc Hs].
    destruct n as [| n]; [destruct m as [| m] |]; cbn.
    + reflexivity.
    + now rewrite Hc, IH.
    + now apply IH.
Qed.

Lemma length_slice0 (s : string) : forall n, (String.length (slice0 n s) <= n)%nat.
Proof.
  unfold slice0. induction s as [| c s IH]; intros [| n]; cbn; try lia.
  specialize (IH n). lia.
Qed.

Lemma slice0_nonempty (s : string) (n : nat) :
  s <> EmptyString -> (1 <= String.length (slice0 (S n) s))%nat.
Proof. destruct s; [congruence |]. cbn. lia. Qed.

Lemma length_append (a b : string) :
  String.length (a ++ b) = (String.length a + String.length b)%nat.
Proof. induction a as [| c a IH]; cbn; [| rewrite IH]; reflexivity. Qed.

Lemma isSlugChar_isIdChar (c : ascii) : isSlugChar c = true -> isIdChar c = true.
Proof. unfold isIdChar. now intros ->. Qed.

Lemma isHexChar_isIdChar (c : ascii) : isHexChar c = true -> isIdChar c = true.
Proof.
  unfold isHexChar, isIdChar, isSlugChar. cbv zeta. intros H.
  apply orb_true_iff. left. apply orb_true_iff.
  apply orb_true_iff in H. destruct H as [H | H]; apply andb_prop in H; destruct H as [H1 H2].
  - right. now rewrite H1, H2.
  - left. rewrite H1. cbn. apply Z.leb_le. apply Z.leb_le in H2. lia.
Qed.

Lemma dashRuns_chars (s : string) : forall inRun, allChars isIdChar (dashRuns inRun s) = true.
Proof.
  induction s as [| c s IH]; intros inRun; [reflexivity |].
  cbn [dashRuns]. destruct (isSlugChar c) eqn:Ec.
  - cbn. now rewrite (isSlugChar_isIdChar _ Ec), IH.
  - destruct inRun; [apply IH |]. cbn. now rewrite IH.
Qed.

Lemma hex_uint_chars (d : Hexadecimal.uint) :
  allChars isHexChar (HexadecimalString.NilEmpty.string_of_uint d) = true.
Proof. induction d; cbn; try reflexivity; exact IHd. Qed.

Lemma hex_nilzero_chars (d : Hexadecimal.uint) :
  allChars isHexChar (HexadecimalString.NilZero.string_of_uint d) = true /\
  HexadecimalString.NilZero.string_of_uint d <> EmptyString.
Proof.
  destruct d; (split; [| discriminate]); try reflexivity;
    cbn; apply (hex_uint_chars d).
Qed.

Lemma hex_chars (z : Z) : allChars isHexChar (hex z) = true /\ hex z <> EmptyString.
Proof. apply hex_nilzero_chars. Qed.

(** X5. Every id that [generateJobId] returns is made of lower-case
    letters, digits and dashes only, and is at most 47 characters long: a
    slug of at most 40 characters, a dash, and one to six hexadecimal
    digits. *)
Theorem generateJobId_shape (job : value) (id : string) :
  generateJobId job = Ok id ->
  allChars isIdChar id = true /\ (String.length id <= 47)%nat /\
  exists slug digits,
    id = slug ++ "-" ++ digits /\ (String.length slug <= 40)%nat /\
    (1 <= String.length digits <= 6)%nat /\ allChars isHexChar digits = true.
Proof.
  intros H. destruct (value_is_null job) as [-> | Hnn]; [discriminate H |].
  rewrite (generateJobId_eq Hnn) in H. injection H as <-. unfold generatedId.
  set (slug := slugBase _ _). set (digits := shortHash job).
  assert (Hslug : allChars isIdChar slug = true)
    by (apply allChars_substring, dashRuns_chars).
  assert (Hlen : (String.length slug <= 40)%nat) by apply length_slice0.
  destruct (hex_chars (simpleHash (stringify job))) as [Hhex Hne].
  assert (Hdigits : allChars isHexChar digits = true)
    by (apply allChars_substring, Hhex).
  assert (Hd6 : (String.length digits <= 6)%nat) by apply length_slice0.
  assert (Hd1 : (1 <= String.length digits)%nat) by (apply slice0_nonempty, Hne).
  split; [| split].
  - rewrite !allChars_app, Hslug. cbn.
    apply (@allChars_mono isHexChar isIdChar _ isHexChar_isIdChar Hdigits).
  - rewrite !length_append. cbn. lia.
  - exists slug, digits. repeat split; assumption.
Qed.

Lemma generateJobId_shape_witness :
  allChars isIdChar "acme-dev-33bb5c" = true /\
  (String.length "acme-dev-33bb5c" <= 47)%nat /\
  exists slug digits,
    "acme-dev-33bb5c" = slug ++ "-" ++ digits /\ (String.length slug <= 40)%nat /\
    (1 <= String.length digits <= 6)%nat /\ allChars isHexChar digits = true.
Proof.
  apply (@generateJobId_shape Examples.postingAa "acme-dev-33bb5c"). reflexivity.
Defined.

Lemma toInt32_range (z : Z) : - 2147483648 <= toInt32 z < 2147483648.
Proof.
  unfold toInt32. pose proof (Z.mod_pos_bound z 4294967296 ltac:(lia)) as Hm.
  destruct (z mod 4294967296 <? 2147483648) eqn:E;
    [apply Z.ltb_lt in E | apply Z.ltb_ge in E]; lia.
Qed.

Lemma hashLoop_range (str : string) :
  forall hash, - 2147483648 <= hash < 2147483648 ->
               - 2147483648 <= hashLoop hash str < 2147483648.
Proof.
  induction str as [| c str IH]; intros hash H; [exact H |].
  cbn [hashLoop]. apply IH, toInt32_range.
Qed.

(** X6. [simpleHash] of any string is a non-negative integer of at most
    2^31: the accumulator is brought back into the signed 32-bit range at
    every character, and [Math.abs] removes the sign. *)
Theorem simpleHash_range (str : string) : 0 <= simpleHash str <= 2147483648.
Proof.
  unfold simpleHash. pose proof (@hashLoop_range str 0 ltac:(lia)). lia.
Qed.

End IdShape.

(** ** Matching: aliases, ranking and the buckets *)

Section Matching.
Import Skills Jobs.

Lemma existsb_mem_In (names jobSkills : list string) (n : string) :
  In n names -> In n jobSkills -> existsb (fun n => mem n jobSkills) names = true.
Proof.
  intros Hn Hj. apply existsb_exists. exists n. split; [exact Hn |].
  unfold mem. apply existsb_exists. exists n. split; [exact Hj | apply String.eqb_refl].
Qed.

(** X7. A profile language whose alias (or lower-cased name) is among the
    lower-cased skills of the job is matched; the token itself is still
    reported missing unless some matched skill is named exactly like it,
    so a job that asks for "js" of a JavaScript profile gets JavaScript
    matched and "js" missing. *)
Theorem alias_matched_and_missing (profile : Profile.t) (job : Job.t) (m : SkillMatch)
        (e : string * LanguageEntry.t) (token : string) :
  matchSkillsToJob profile job = Ok m ->
  In e (Profile.languages profile) ->
  In token (languageNames (fst e)) ->
  In token (map toLowerCase (Job.skills job)) ->
  In (languageSkill e) (matched m) /\
  ~ In (languageSkill e) (bonus m) /\
  ((forall s, In s (matched m) -> toLowerCase (skillName s) <> token) ->
   In token (missing m)).
Proof.
  unfold matchSkillsToJob. intros H He Hn Hj.
  destruct (lowerText (Job.description job)) as [d |]; [| discriminate H].
  cbn [bind] in H. injection H as <-. cbn [matched missing bonus].
  assert (Hin : inSkills (map toLowerCase (Job.skills job)) e = true)
    by (eapply existsb_mem_In; eassumption).
  split; [| split].
  - apply in_or_app. left. apply in_map. apply filter_In. now split.
  - intros Hb. apply in_map_iff in Hb. destruct Hb as [e' [Heq Hf]].
    apply filter_In in Hf. destruct Hf as [_ Hf].
    apply andb_prop in Hf. destruct Hf as [Hf _].
    assert (Hname : fst e' = fst e) by (injection Heq; auto).
    unfold inSkills in Hf, Hin. rewrite Hname, Hin in Hf. discriminate Hf.
  - intros Hnone. apply filter_In. split; [exact Hj |].
    apply negb_true_iff. apply not_true_is_false. intros Hex.
    apply existsb_exists in Hex. destruct Hex as [s [Hs Heq]].
    apply String.eqb_eq in Heq. exact (Hnone s Hs Heq).
Qed.

Lemma alias_matched_and_missing_witness :
  exists m,
    matchSkillsToJob MatchSamples.jsProfile MatchSamples.aliasJob = Ok m /\
    Skills.score m = 100 /\
    In (languageSkill MatchSamples.jsEntry) (matched m) /\
    ~ In (languageSkill MatchSamples.jsEntry) (bonus m) /\
    In "js" (missing m).
Proof.
  destruct (matchSkillsToJob MatchSamples.jsProfile MatchSamples.aliasJob) as [m |] eqn:E;
    [| discriminate E].
  exists m. split; [reflexivity |].
  destruct (@alias_matched_and_missing
              MatchSamples.jsProfile MatchSamples.aliasJob m MatchSamples.jsEntry "js" E)
    as [Hm [Hb Hmiss]].
  - vm_compute. left. reflexivity.
  - vm_compute. right. left. reflexivity.
  - vm_compute. left. reflexivity.
  - vm_compute in E. injection E as <-.
    split; [reflexivity | split; [exact Hm | split; [exact Hb |]]].
    apply Hmiss. intros s [<- | []]. discriminate.
Defined.

Lemma mapM_matchOne_jobs profile prefs (jobs : list Job.t) :
  forall ms, mapM (matchOne profile prefs) jobs = Ok ms -> map Jobs.job ms = jobs.
Proof.
  induction jobs as [| j jobs IH]; intros ms H.
  - injection H as <-. reflexivity.
  - cbn [mapM] in H.
    destruct (matchOne profile prefs j) as [r |] eqn:Er; [| discriminate H].
    destruct (mapM (matchOne profile prefs) jobs) as [rs |]; [| discriminate H].
    cbn [bind] in H. injection H as <-. cbn [map].
    destruct (matchOne_fields _ _ _ Er) as [-> _]. now rewrite (IH rs eq_refl).
Qed.

Lemma descending_filter {A : Type} (key : A -> Z) (f : A -> bool) (l : list A) :
  descending key l -> descending key (filter f l).
Proof.
  unfold descending. induction 1 as [| x l Hl IH Hx]; cbn [filter]; [constructor |].
  destruct (f x); [| exact IH]. constructor; [exact IH |].
  apply Forall_forall. intros y Hy. apply filter_In in Hy.
  rewrite Forall_forall in Hx. now apply Hx.
Qed.

(** X8. When [matchJobsToProfile] returns, there is exactly one result
    for every job (the jobs of the results are a rearrangement of the
    input), the results are ordered by final score from the highest down,
    and each bucket that [categorizeMatches] makes of them is in that
    order too. *)
Theorem matchJobsToProfile_ranked (jobs : list Job.t) (profile : Profile.t)
        (prefs : Preferences) (ms : list MatchResult) :
  matchJobsToProfile jobs profile prefs = Ok ms ->
  Permutation jobs (map Jobs.job ms) /\
  descending Jobs.score ms /\
  descending Jobs.score (want (categorizeMatches ms)) /\
  descending Jobs.score (qualified (categorizeMatches ms)) /\
  descending Jobs.score (stretch (categorizeMatches ms)) /\
  descending Jobs.score (filtered (categorizeMatches ms)).
Proof.
  unfold matchJobsToProfile. intros H.
  destruct (mapM (matchOne profile prefs) jobs) as [rs |] eqn:E; [| discriminate H].
  cbn [bind] in H. injection H as <-.
  assert (Hs : descending Jobs.score (sortDesc Jobs.score rs))
    by apply sortDesc_descending.
  split; [| split; [exact Hs |]].
  - rewrite <- (mapM_matchOne_jobs _ _ _ E). apply Permutation_map, sortDesc_perm.
  - cbn [categorizeMatches want qualified stretch filtered].
    repeat split; now apply descending_filter.
Qed.

Lemma matchJobsToProfile_ranked_witness :
  exists ms,
    matchJobsToProfile [Examples.goJob; Examples.tsJob] Examples.tsProfile
                       Examples.noPreferences = Ok ms /\
    map Jobs.score ms = [100; 0] /\
    Permutation [Examples.goJob; Examples.tsJob] (map Jobs.job ms) /\
    descending Jobs.score ms.
Proof.
  destruct (matchJobsToProfile [Examples.goJob; Examples.tsJob] Examples.tsProfile
                               Examples.noPreferences) as [ms |] eqn:E;
    [| discriminate E].
  exists ms. split; [reflexivity |].
  destruct (@matchJobsToProfile_ranked _ _ _ _ E) as [Hp [Hd _]].
  split; [| split; assumption].
  vm_compute in E. injection E as <-. reflexivity.
Defined.

(** X9. The four buckets do not cover every match: a match lands in none
    of them exactly when its location is accepted, it has no avoided
    skill and its score is below 25. A match is in both [stretch]
    and [filtered] exactly when its location is accepted, its score is in
    [25, 50) and it has an avoided skill. *)
Theorem categorizeMatches_coverage (matches : list MatchResult) (m : MatchResult) :
  In m matches ->
  let c := categorizeMatches matches in
  ((~ In m (want c) /\ ~ In m (qualified c) /\ ~ In m (stretch c) /\ ~ In m (filtered c))
   <-> (locationMatch m = true /\ hasAvoid m = false /\ Jobs.score m < 25)) /\
  ((In m (stretch c) /\ In m (filtered c))
   <-> (locationMatch m = true /\ hasAvoid m = true /\ 25 <= Jobs.score m < 50)).
Proof.
  intros Hin c. subst c. cbn [categorizeMatches want qualified stretch filtered].
  rewrite !filter_In. unfold isWant, isQualified, isStretch, isFiltered.
  destruct (locationMatch m), (hasAvoid m), (wantMatch m);
    destruct (50 <=? Jobs.score m) eqn:E50; destruct (25 <=? Jobs.score m) eqn:E25;
    destruct (Jobs.score m <? 50) eqn:L50; cbn;
    try apply Z.leb_le in E50; try apply Z.leb_gt in E50;
    try apply Z.leb_le in E25; try apply Z.leb_gt in E25;
    try apply Z.ltb_lt in L50; try apply Z.ltb_ge in L50;
    try lia; (split; split; intros; intuition (try discriminate; try lia)).
Qed.

Lemma categorizeMatches_coverage_witness :
  exists m,
    matchOne Examples.tsProfile Examples.noPreferences Examples.goJob = Ok m /\
    Jobs.score m = 0 /\
    let c := categorizeMatches [m] in
    ~ In m (want c) /\ ~ In m (qualified c) /\ ~ In m (stretch c) /\ ~ In m (filtered c).
Proof.
  destruct (matchOne Examples.tsProfile Examples.noPreferences Examples.goJob)
    as [m |] eqn:E; [| discriminate E].
  exists m. split; [reflexivity |].
  destruct (@categorizeMatches_coverage [m] m (or_introl eq_refl)) as [[_ H] _].
  vm_compute in E. injection E as <-.
  split; [reflexivity |]. apply H. repeat split.
Defined.

End Matching.

(** ** The profile as a function of the repositories *)

Section ProfileContents.
Import Skills.
Variable parseDate : string -> num.
Variable now : Z.

Lemma fold_addRepo_languageCounts (repos : list Repo.t) :
  forall agg,
    languageCounts (fold_left (addRepo parseDate) repos agg)
    = fold_left addLanguage (languageRows repos) (languageCounts agg).
Proof.
  unfold languageRows. induction repos as [| r repos IH]; intros agg; [reflexivity |].
  cbn [fold_left filter]. rewrite IH. change (included r) with (negb (Repo.excluded r)).
  destruct (Repo.excluded r) eqn:E; cbn [negb].
  - now rewrite addRepo_excluded.
  - rewrite (@addRepo_included parseDate agg r E). cbn [languageCounts flat_map].
    now rewrite fold_left_app.
Qed.

Lemma fst_fold_addPattern (ps : list string) :
  forall acc,
    fst (fold_left addPattern ps acc)
    = fold_left (fun d p => upsert p 0 (fun n => n + 1) d) ps (fst acc).
Proof.
  induction ps as [| p ps IH]; intros acc; [reflexivity |].
  cbn [fold_left]. now rewrite IH, fst_addPattern.
Qed.

Lemma fold_addRepo_patternCounts (repos : list Repo.t) :
  forall agg,
    patternCounts (fold_left (addRepo parseDate) repos agg)
    = fold_left (fun d p => upsert p 0 (fun n => n + 1) d) (patternRows repos)
                (patternCounts agg).
Proof.
  unfold patternRows. induction repos as [| r repos IH]; intros agg; [reflexivity |].
  cbn [fold_left filter]. rewrite IH. change (included r) with (negb (Repo.excluded r)).
  destruct (Repo.excluded r) eqn:E; cbn [negb].
  - now rewrite addRepo_excluded.
  - rewrite (@addRepo_included parseDate agg r E). cbn [patternCounts flat_map].
    now rewrite fold_left_app, fst_fold_addPattern.
Qed.

Lemma fold_addRepo_totalCommits (repos : list Repo.t) :
  forall agg,
    totalCommits (fold_left (addRepo parseDate) repos agg)
    = totalCommits agg + commitTotal repos.
Proof.
  unfold commitTotal. induction repos as [| r repos IH]; intros agg; cbn [fold_left filter].
  - cbn. lia.
  - rewrite IH. change (included r) with (negb (Repo.excluded r)).
    destruct (Repo.excluded r) eqn:E; cbn [negb].
    + now rewrite addRepo_excluded.
    + rewrite (@addRepo_included parseDate agg r E). cbn [totalCommits fold_right]. lia.
Qed.

Lemma assoc_fold_addLanguage (name : string) (rows : list Lang.t) :
  forall counts,
    assoc name (fold_left addLanguage rows counts)
    = tally (assoc name counts) (rowsOf name rows).
Proof.
  induction rows as [| l rows IH]; intros counts; [reflexivity |].
  cbn [fold_left rowsOf filter]. rewrite IH. fold (rowsOf name rows).
  unfold addLanguage at 1. rewrite assoc_upsert. rewrite (String.eqb_sym name).
  destruct (String.eqb_spec (Lang.name l) name) as [-> | Hne]; [| reflexivity].
  destruct (valueOr (mkLangCount 0 0) (assoc name counts)) as [c0 r0] eqn:E0.
  unfold tally at 2. rewrite E0.
  destruct (rowsOf name rows) as [| l' rs] eqn:Er.
  - cbn. do 2 f_equal; lia.
  - unfold tally. cbn [valueOr]. f_equal.
    cbn [fileTotal fold_right List.length]. f_equal; lia.
Qed.

Lemma assoc_map_languageOf (total : Z) (name : string) (counts : list (string * LangCount)) :
  assoc name (map (languageOf total) counts)
  = option_map (languageEntry total name) (assoc name counts).
Proof.
  induction counts as [| [k c] counts IH]; [reflexivity |].
  cbn [map languageOf fst snd assoc].
  destruct (String.eqb_spec name k) as [-> | _]; [reflexivity | exact IH].
Qed.

(** X10. The entry of a language in the profile is determined by the
    rows of that language in the repositories that are not excluded: the
    language is a key exactly when there is such a row, its [repoCount]
    is the number of these rows, its [fileCount] the sum of their file
    counts, and the tier is that of [repoCount] over the number of all
    records. *)
Theorem profile_language_counts (repos : list Repo.t) (name : string) :
  assoc name (Profile.languages (buildSkillsProfile parseDate now repos))
  = match rowsOf name (languageRows repos) with
    | [] => None
    | rows =>
        Some (languageEntry (Z.of_nat (List.length repos)) name
                            (mkLangCount (fileTotal rows) (Z.of_nat (List.length rows))))
    end.
Proof.
  rewrite languages_of_counts, assoc_map_languageOf.
  unfold aggregate. rewrite fold_addRepo_languageCounts, assoc_fold_addLanguage.
  cbn [languageCounts emptyAggregate assoc].
  destruct (rowsOf name (languageRows repos)) as [| l rs]; reflexivity.
Qed.

Lemma uniq_seen (s1 s2 l : list string) :
  (forall x, In x s1 <-> In x s2) -> uniq s1 l = uniq s2 l.
Proof.
  revert s1 s2. induction l as [| y l IH]; intros s1 s2 H; [reflexivity |].
  cbn [uniq].
  assert (E : mem y s1 = mem y s2).
  { apply eq_true_iff_eq. rewrite !mem_In. apply H. }
  rewrite E. destruct (mem y s2); [now apply IH |].
  f_equal. apply IH. intros x. cbn. rewrite H. tauto.
Qed.

Lemma keys_fold_upsert (A : Type) (init : A) (f : A -> A) (ps : list string) :
  forall d : list (string * A),
    map fst (fold_left (fun d p => upsert p init f d) ps d)
    = (map fst d ++ uniq (map fst d) ps)%list.
Proof.
  induction ps as [| p ps IH]; intros d; cbn [fold_left uniq].
  - now rewrite app_nil_r.
  - rewrite IH, upsert_keys. destruct (assoc p d) as [v |] eqn:E.
    + assert (Hm : mem p (map fst d) = true).
      { apply mem_In. apply assoc_In in E. now apply (in_map fst) in E. }
      now rewrite Hm.
    + assert (Hm : mem p (map fst d) = false).
      { apply not_true_is_false. rewrite mem_In. now apply assoc_None. }
      rewrite Hm, <- app_assoc. cbn [app]. do 2 f_equal.
      apply uniq_seen. intros x. rewrite in_app_iff. cbn. tauto.
Qed.

Lemma uniq_fixed (l : list string) :
  forall seen, NoDup l -> (forall x, In x l -> ~ In x seen) -> uniq seen l = l.
Proof.
  induction l as [| y l IH]; intros seen Hnd Hs; [reflexivity |].
  cbn [uniq]. inversion Hnd as [| ? ? Hy Hl]; subst.
  assert (Hm : mem y seen = false).
  { apply not_true_is_false. rewrite mem_In. apply Hs. now left. }
  rewrite Hm. f_equal. apply IH; [exact Hl |].
  intros x Hx [<- | Hin]; [contradiction |]. apply (Hs x); [now right | exact Hin].
Qed.

Lemma patterns_of_rows (repos : list Repo.t) :
  Profile.patterns (buildSkillsProfile parseDate now repos) = uniq [] (patternRows repos).
Proof.
  unfold buildSkillsProfile. cbn [Profile.patterns].
  unfold aggregate. rewrite fold_addRepo_patternCounts, keys_fold_upsert.
  cbn [patternCounts emptyAggregate map app].
  apply uniq_fixed; [apply uniq_NoDup | intros x _ []].
Qed.

(** X11. The pattern list of the profile is the pattern tags of the
    repositories that are not excluded, each once, in the order of first
    appearance; [totalCommits] is the sum of their commit counts, a
    missing or unparsable count weighing 0. *)
Theorem profile_patterns_and_commits (repos : list Repo.t) :
  let p := buildSkillsProfile parseDate now repos in
  Profile.patterns p = uniq [] (patternRows repos) /\
  NoDup (Profile.patterns p) /\
  Summary.totalCommits (Profile.summary p) = commitTotal repos.
Proof.
  cbv zeta. split; [apply patterns_of_rows | split].
  - rewrite patterns_of_rows. apply uniq_NoDup.
  - unfold buildSkillsProfile. cbn [Profile.summary Summary.totalCommits].
    unfold aggregate. rewrite fold_addRepo_totalCommits. reflexivity.
Qed.

End ProfileContents.

(** ** Rankings and the framework and tool maps of the profile *)

Section Rankings.
Variable A : Type.
Variable key : A -> Z.

Lemma descending_app (a b : list A) :
  descending key (a ++ b)%list ->
  descending key a /\ forall t r, In t a -> In r b -> key r <= key t.
Proof.
  unfold descending. induction a as [| x a IH]; cbn [app]; intros H.
  - split; [constructor | intros t r []].
  - apply StronglySorted_inv in H. destruct H as [Hs Hx].
    destruct (IH Hs) as [Ha Hab]. split.
    + constructor; [exact Ha |]. apply Forall_app in Hx. tauto.
    + intros t r [<- | Ht] Hr; [| now apply Hab].
      rewrite Forall_forall in Hx. apply Hx, in_or_app. now right.
Qed.

Lemma firstn_sortDesc_ranking (n : nat) (l : list A) :
  ranking key n l (firstn n (sortDesc key l)).
Proof.
  pose proof (@sortDesc_descending _ key l) as Hs.
  pose proof (sortDesc_perm key l) as Hp.
  rewrite <- (firstn_skipn n (sortDesc key l)) in Hs.
  apply descending_app in Hs. destruct Hs as [Hd Hdom].
  split; [apply firstn_le_length | split; [exact Hd | split]].
  - intros e He. apply (Permutation_in e (Permutation_sym Hp)).
    rewrite <- (firstn_skipn n). apply in_or_app. now left.
  - intros e t He Hne Ht. apply Hdom; [exact Ht |].
    apply (Permutation_in e Hp) in He.
    rewrite <- (firstn_skipn n) in He. apply in_app_or in He. tauto.
Qed.

End Rankings.

Section ProfileMaps.
Import Skills.
Variable parseDate : string -> num.
Variable now : Z.

(** X12. [summary.topLanguages] is a ranking of at most five of the
    language-level entries of [languages] by [repoCount], and
    [summary.topFrameworks] one of at most five entries of [frameworks]:
    every listed entry is an entry of the map, the lists are ordered from
    the highest [repoCount] down, and no entry that is left out has a
    higher [repoCount] than a listed one. *)
Theorem summary_top_lists (repos : list Repo.t) :
  let p := buildSkillsProfile parseDate now repos in
  ranking languageRepoCount 5
          (filter isLanguageLevel (Profile.languages p))
          (Summary.topLanguages (Profile.summary p)) /\
  ranking frameworkRepoCount 5
          (Profile.frameworks p)
          (Summary.topFrameworks (Profile.summary p)).
Proof.
  cbv zeta. split; apply firstn_sortDesc_ranking.
Qed.

Lemma snd_fold_addPattern (ps : list string) :
  forall acc, snd (fold_left addPattern ps acc) = fold_left addFramework ps (snd acc).
Proof.
  induction ps as [| p ps IH]; intros acc; [reflexivity |].
  cbn [fold_left]. now rewrite IH, snd_addPattern.
Qed.

Lemma fold_addRepo_frameworkCounts (repos : list Repo.t) :
  forall agg,
    frameworkCounts (fold_left (addRepo parseDate) repos agg)
    = fold_left addFramework (patternRows repos) (frameworkCounts agg).
Proof.
  unfold patternRows. induction repos as [| r repos IH]; intros agg; [reflexivity |].
  cbn [fold_left filter]. rewrite IH. change (included r) with (negb (Repo.excluded r)).
  destruct (Repo.excluded r) eqn:E; cbn [negb].
  - now rewrite addRepo_excluded.
  - rewrite (@addRepo_included parseDate agg r E). cbn [frameworkCounts flat_map].
    now rewrite fold_left_app, snd_fold_addPattern.
Qed.

Lemma occurrences_cons (x y : string) (l : list string) :
  occurrences x (y :: l) = (if String.eqb x y then 1 else 0) + occurrences x l.
Proof.
  unfold occurrences. cbn [filter]. destruct (String.eqb x y); cbn [List.length]; lia.
Qed.

Lemma occurrences_nonneg (x : string) (l : list string) : 0 <= occurrences x l.
Proof. unfold occurrences. lia. Qed.

Lemma occurrences_In (x : string) (l : list string) : 0 < occurrences x l <-> In x l.
Proof.
  induction l as [| y l IH]; [cbn; split; [lia | tauto] |].
  rewrite occurrences_cons. pose proof (occurrences_nonneg x l).
  destruct (String.eqb_spec x y) as [-> | Hne]; cbn [In].
  - split; [now left | lia].
  - rewrite Z.add_0_l, IH. split; [tauto | intros [E | Hin]; [congruence | exact Hin]].
Qed.

Lemma assoc_addFramework (key p : string) (info : FrameworkInfo.t)
      (fc : list (string * FrameworkCount)) :
  assoc key FRAMEWORK_CATEGORIES = Some info ->
  assoc key (addFramework fc p)
  = if String.eqb key p
    then Some (let (i, r) := valueOr (mkFrameworkCount info 0) (assoc key fc) in
               mkFrameworkCount i (r + 1))
    else assoc key fc.
Proof.
  intros Hkey. unfold addFramework.
  destruct (String.eqb_spec key p) as [<- | Hne].
  - now rewrite Hkey, assoc_upsert, String.eqb_refl.
  - destruct (assoc p FRAMEWORK_CATEGORIES); [| reflexivity].
    rewrite assoc_upsert. now destruct (String.eqb_spec key p).
Qed.

(** The counter of a framework after the loop: absent when its pattern
    never occurred, else the table entry with the number of
    occurrences. *)
Lemma assoc_fold_addFramework (key : string) (info : FrameworkInfo.t) (ps : list string) :
  assoc key FRAMEWORK_CATEGORIES = Some info ->
  forall fc,
    assoc key (fold_left addFramework ps fc)
    = if occurrences key ps =? 0 then assoc key fc
      else let (i, r) := valueOr (mkFrameworkCount info 0) (assoc key fc) in
           Some (mkFrameworkCount i (r + occurrences key ps)).
Proof.
  intros Hkey. induction ps as [| p ps IH]; intros fc; [reflexivity |].
  cbn [fold_left]. rewrite IH, occurrences_cons, (@assoc_addFramework key p info _ Hkey).
  pose proof (occurrences_nonneg key ps) as Hn.
  destruct (String.eqb key p).
  - cbn [valueOr].
    destruct (valueOr (mkFrameworkCount info 0) (assoc key fc)) as [i r].
    destruct (Z.eqb_spec (1 + occurrences key ps) 0) as [E | _]; [lia |].
    destruct (Z.eqb_spec (occurrences key ps) 0) as [-> | _]; do 2 f_equal; lia.
  - now rewrite Z.add_0_l.
Qed.

Lemma assoc_map_frameworkOf (total : Z) (key : string) (info : FrameworkInfo.t)
      (fc : list (string * FrameworkCount)) :
  assoc key FRAMEWORK_CATEGORIES = Some info ->
  Forall (fun e => fromTable (fst e) (snd e)) fc ->
  assoc (FrameworkInfo.name info) (map (frameworkOf total) fc)
  = option_map (frameworkEntry total key) (assoc key fc).
Proof.
  intros Hkey. induction fc as [| [k [i r]] fc IH]; intros Hall; [reflexivity |].
  inversion Hall as [| ? ? Hhd Htl]; subst. unfold fromTable in Hhd. cbn [fst snd] in Hhd.
  destruct Hhd as [Hk _].
  cbn [map frameworkOf fst snd assoc frameworkName].
  destruct (String.eqb_spec (FrameworkInfo.name info) (FrameworkInfo.name i)) as [En | Hn].
  - pose proof (@table_name_injective _ _ _ _ Hkey Hk En) as Ek. subst k.
    now rewrite String.eqb_refl.
  - destruct (String.eqb_spec key k) as [Ek | _]; [| now apply IH].
    exfalso. apply Hn. subst k. rewrite Hkey in Hk. now injection Hk as <-.
Qed.

(** Where an entry of [frameworks] comes from: a tag of the table that
    occurs in a repository that is not excluded; the entry holds the
    number of its occurrences. *)
Lemma framework_entry_origin (repos : list Repo.t) (name : string) (e : FrameworkEntry.t) :
  In (name, e) (Profile.frameworks (buildSkillsProfile parseDate now repos)) ->
  exists info,
    assoc (FrameworkEntry.key e) FRAMEWORK_CATEGORIES = Some info /\
    name = FrameworkInfo.name info /\
    In (FrameworkEntry.key e) (patternRows repos) /\
    FrameworkEntry.repoCount e = occurrences (FrameworkEntry.key e) (patternRows repos).
Proof.
  rewrite frameworks_of_counts.
  destruct (aggregate_inv parseDate now repos) as [_ [[Hnd Hall] _]].
  intros Hin. apply in_map_iff in Hin. destruct Hin as [[k [i r]] [Heq Hin]].
  rewrite Forall_forall in Hall. pose proof (Hall _ Hin) as Hk.
  unfold fromTable in Hk. cbn [fst snd] in Hk.
  destruct Hk as [Hk _].
  unfold frameworkOf in Heq. cbn [fst snd frameworkName frameworkEntry] in Heq.
  injection Heq as <- <-. cbn [FrameworkEntry.key FrameworkEntry.repoCount].
  exists i. split; [exact Hk | split; [reflexivity |]].
  apply (@In_assoc _ _ _ _ Hnd) in Hin. unfold aggregate in Hin.
  rewrite fold_addRepo_frameworkCounts, (@assoc_fold_addFramework k i _ Hk) in Hin.
  cbn [frameworkCounts emptyAggregate assoc valueOr] in Hin.
  destruct (Z.eqb_spec (occurrences k (patternRows repos)) 0) as [E | Hne];
    [discriminate Hin |].
  injection Hin as <-. split; [| lia].
  apply occurrences_In. pose proof (occurrences_nonneg k (patternRows repos)). lia.
Qed.

(** X13. The frameworks of the profile are the pattern tags that
    [FRAMEWORK_CATEGORIES] lists: a tag of the table that occurs [n > 0]
    times in the repositories that are not excluded gives one entry,
    under the display name of the table, with that tag as [key],
    [repoCount = n] and the tier of [n] with the weight of the table; a
    tag that does not occur gives none. Every entry of [frameworks] is
    of this kind. *)
Theorem profile_frameworks (repos : list Repo.t) (key : string) (info : FrameworkInfo.t) :
  assoc key FRAMEWORK_CATEGORIES = Some info ->
  let p := buildSkillsProfile parseDate now repos in
  let n := occurrences key (patternRows repos) in
  assoc (FrameworkInfo.name info) (Profile.frameworks p)
  = (if n =? 0 then None
     else Some {| FrameworkEntry.key := key;
                  FrameworkEntry.category := FrameworkInfo.category info;
                  FrameworkEntry.repoCount := n;
                  FrameworkEntry.proficiency :=
                    calculateProficiency n (Z.of_nat (List.length repos))
                                         (FrameworkInfo.weight info) |}) /\
  forall name e,
    In (name, e) (Profile.frameworks p) ->
    exists info', assoc (FrameworkEntry.key e) FRAMEWORK_CATEGORIES = Some info' /\
                  name = FrameworkInfo.name info' /\
                  In (FrameworkEntry.key e) (Profile.patterns p).
Proof.
  intros Hkey. cbv zeta. split.
  - rewrite frameworks_of_counts.
    destruct (aggregate_inv parseDate now repos) as [_ [[Hnd Hall] _]].
    rewrite (@assoc_map_frameworkOf _ key info _ Hkey Hall).
    unfold aggregate. rewrite fold_addRepo_frameworkCounts.
    rewrite (@assoc_fold_addFramework key info _ Hkey).
    cbn [frameworkCounts emptyAggregate assoc valueOr].
    destruct (occurrences key (patternRows repos) =? 0); reflexivity.
  - intros name e Hin.
    destruct (framework_entry_origin _ _ _ Hin) as [info' [Hk [Hn [Hrows _]]]].
    exists info'. split; [exact Hk | split; [exact Hn |]].
    rewrite patterns_of_rows. apply uniq_In. split; [exact Hrows | tauto].
Qed.

End ProfileMaps.

(** ** The order of the keys, and of entries that tie *)

Section KeyOrder.
Import Skills.
Variable parseDate : string -> num.
Variable now : Z.

(** The sort is stable: the elements of one key keep their order. *)
Lemma insertDesc_stable (A : Type) (key : A -> Z) (k : Z) (x : A) (l : list A) :
  filter (fun y => key y =? k) (insertDesc key x l)
  = filter (fun y => key y =? k) (x :: l).
Proof.
  induction l as [| y l IH]; [reflexivity |].
  cbn [insertDesc]. destruct (Z.ltb_spec (key x) (key y)) as [Hlt | Hge]; [| reflexivity].
  cbn [filter] in *. rewrite IH.
  destruct (Z.eqb_spec (key x) k) as [Ex | Nx], (Z.eqb_spec (key y) k) as [Ey | Ny];
    try reflexivity. lia.
Qed.

Lemma sortDesc_stable (A : Type) (key : A -> Z) (k : Z) (l : list A) :
  filter (fun y => key y =? k) (sortDesc key l) = filter (fun y => key y =? k) l.
Proof.
  induction l as [| x l IH]; [reflexivity |].
  cbn [sortDesc fold_right]. fold (sortDesc key l).
  rewrite insertDesc_stable. cbn [filter]. now rewrite IH.
Qed.
(** The first [n] of a stable sort: the elements of one key are the
    first of that key, in their order. *)
Lemma firstn_sortDesc_stable (A : Type) (key : A -> Z) (n : nat) (k : Z) (l : list A) :
  beginning (filter (fun y => key y =? k) (firstn n (sortDesc key l)))
            (filter (fun y => key y =? k) l).
Proof.
  exists (filter (fun y => key y =? k) (skipn n (sortDesc key l))).
  now rewrite <- filter_app, firstn_skipn, sortDesc_stable.
Qed.

Lemma keys_fold_addLanguage (rows : list Lang.t) :
  forall d : list (string * LangCount),
    map fst (fold_left addLanguage rows d)
    = (map fst d ++ uniq (map fst d) (map Lang.name rows))%list.
Proof.
  induction rows as [| r rows IH]; intros d; cbn [fold_left uniq map].
  - now rewrite app_nil_r.
  - rewrite IH. unfold addLanguage. rewrite upsert_keys.
    destruct (assoc (Lang.name r) d) as [v |] eqn:E.
    + assert (Hm : mem (Lang.name r) (map fst d) = true).
      { apply mem_In. apply assoc_In in E. now apply (in_map fst) in E. }
      now rewrite Hm.
    + assert (Hm : mem (Lang.name r) (map fst d) = false).
      { apply not_true_is_false. rewrite mem_In. now apply assoc_None. }
      rewrite Hm, <- app_assoc. cbn [app]. do 2 f_equal.
      apply (@uniq_seen parseDate). intros x. split; intros H.
      * apply in_app_or in H. cbn [In] in *. tauto.
      * apply in_or_app. cbn [In] in *. tauto.
Qed.

Lemma keys_fold_addFramework (ps : list string) :
  forall fc : list (string * FrameworkCount),
    map fst (fold_left addFramework ps fc)
    = (map fst fc ++ uniq (map fst fc) (filter isFrameworkTag ps))%list.
Proof.
  induction ps as [| p ps IH]; intros fc; cbn [fold_left filter].
  - cbn [uniq]. now rewrite app_nil_r.
  - rewrite IH. unfold addFramework.
    destruct (assoc p FRAMEWORK_CATEGORIES) as [info |] eqn:Ep.
    2:{ assert (Et : isFrameworkTag p = false) by (unfold isFrameworkTag; now rewrite Ep).
        now rewrite Et. }
    assert (Et : isFrameworkTag p = true) by (unfold isFrameworkTag; now rewrite Ep).
    rewrite Et. cbn [uniq]. rewrite upsert_keys.
    destruct (assoc p fc) as [v |] eqn:E.
    + assert (Hm : mem p (map fst fc) = true).
      { apply mem_In. apply assoc_In in E. now apply (in_map fst) in E. }
      now rewrite Hm.
    + assert (Hm : mem p (map fst fc) = false).
      { apply not_true_is_false. rewrite mem_In. now apply assoc_None. }
      rewrite Hm, <- app_assoc. cbn [app]. do 2 f_equal.
      apply (@uniq_seen parseDate). intros x. split; intros H.
      * apply in_app_or in H. cbn [In] in *. tauto.
      * apply in_or_app. cbn [In] in *. tauto.
Qed.

(** The keys of [languages] and of [frameworks], in the order in which
    the object lists them. *)
Lemma language_keys (repos : list Repo.t) :
  map fst (Profile.languages (buildSkillsProfile parseDate now repos))
  = uniq [] (map Lang.name (languageRows repos)).
Proof.
  rewrite languages_of_counts, map_fst_languageOf. unfold aggregate.
  rewrite fold_addRepo_languageCounts, keys_fold_addLanguage. reflexivity.
Qed.

Lemma framework_keys (repos : list Repo.t) :
  map fst (Profile.frameworks (buildSkillsProfile parseDate now repos))
  = map displayName (uniq [] (filter isFrameworkTag (patternRows repos))).
Proof.
  rewrite frameworks_of_counts, map_fst_frameworkOf.
  destruct (aggregate_inv parseDate now repos) as [_ [[_ Hall] _]].
  assert (Hnames : map (fun e : string * FrameworkCount => frameworkName (snd e))
                       (frameworkCounts (aggregate parseDate now repos))
                   = map displayName (map fst (frameworkCounts (aggregate parseDate now repos)))).
  { rewrite map_map. apply map_ext_in. intros [k [i r]] Hin.
    rewrite Forall_forall in Hall. specialize (Hall _ Hin).
    unfold fromTable in Hall. cbn [fst snd] in Hall. destruct Hall as [Hk _].
    cbn [fst snd frameworkName]. unfold displayName. now rewrite Hk. }
  rewrite Hnames. f_equal. unfold aggregate.
  rewrite fold_addRepo_frameworkCounts, keys_fold_addFramework. reflexivity.
Qed.

End KeyOrder.

Section RecordOrder.
Import Skills.

(** C4, amended: for every collection of records and every permutation
    of it, [buildSkillsProfile] yields the same [languages] and
    [frameworks] as maps (the same keys, without repetition, with the same
    values) and the same [domains] as a set, though possibly in another
    key order: the keys of [languages] are the language names of the
    records that are not excluded, and those of [frameworks] the display
    names of their framework tags, each in the order of first
    appearance. [topLanguages] and [topFrameworks] are the same lists
    whenever no two of the ranked entries have the same [repoCount];
    entries with the same [repoCount] are ranked in the order of the
    keys, that is by the order of the input. *)
Theorem buildSkillsProfile_permutation parseDate now (repos repos' : list Repo.t) :
  Permutation repos repos' ->
  let p := buildSkillsProfile parseDate now repos in
  let p' := buildSkillsProfile parseDate now repos' in
  (Permutation (Profile.languages p) (Profile.languages p') /\
   NoDup (map fst (Profile.languages p)) /\
   forall name, assoc name (Profile.languages p) = assoc name (Profile.languages p')) /\
  (Permutation (Profile.frameworks p) (Profile.frameworks p') /\
   NoDup (map fst (Profile.frameworks p)) /\
   forall name, assoc name (Profile.frameworks p) = assoc name (Profile.frameworks p')) /\
  (Permutation (Profile.domains p) (Profile.domains p') /\ NoDup (Profile.domains p)) /\
  (NoDup (map (fun e => LanguageEntry.repoCount (snd e))
              (filter isLanguageLevel (Profile.languages p))) ->
   Summary.topLanguages (Profile.summary p) = Summary.topLanguages (Profile.summary p')) /\
  (NoDup (map (fun e => FrameworkEntry.repoCount (snd e)) (Profile.frameworks p)) ->
   Summary.topFrameworks (Profile.summary p) = Summary.topFrameworks (Profile.summary p')) /\
  (map fst (Profile.languages p) = uniq [] (map Lang.name (languageRows repos)) /\
   map fst (Profile.frameworks p)
   = map displayName (uniq [] (filter isFrameworkTag (patternRows repos)))) /\
  (forall c,
      beginning (filter (fun e => languageRepoCount e =? c)
                        (Summary.topLanguages (Profile.summary p)))
                (filter (fun e => languageRepoCount e =? c)
                        (filter isLanguageLevel (Profile.languages p)))) /\
  (forall c,
      beginning (filter (fun e => frameworkRepoCount e =? c)
                        (Summary.topFrameworks (Profile.summary p)))
                (filter (fun e => frameworkRepoCount e =? c) (Profile.frameworks p))).
Proof.
  intros Hperm p p'.
  pose proof (aggregate_permutation parseDate now Hperm) as [HL [HP [HF _]]].
  destruct (aggregate_inv parseDate now repos) as [[NL _] [IF NP]].
  destruct (aggregate_inv parseDate now repos') as [[NL' _] [IF' NP']].
  assert (Hlen : Z.of_nat (List.length repos') = Z.of_nat (List.length repos)).
  { now rewrite (Permutation_length Hperm). }
  assert (PL : Permutation (Profile.languages p) (Profile.languages p')).
  { subst p p'. rewrite !languages_of_counts, Hlen.
    apply Permutation_map. now apply same_lookups_Permutation. }
  assert (DL : NoDup (map fst (Profile.languages p))).
  { subst p. now rewrite languages_of_counts, map_fst_languageOf. }
  assert (PF : Permutation (Profile.frameworks p) (Profile.frameworks p')).
  { subst p p'. rewrite !frameworks_of_counts, Hlen.
    apply Permutation_map. apply same_lookups_Permutation; [apply IF | apply IF' | exact HF]. }
  assert (DF : NoDup (map fst (Profile.frameworks p))).
  { subst p. rewrite frameworks_of_counts, map_fst_frameworkOf.
    now apply frameworksInv_names. }
  assert (PP : Permutation (patternCounts (aggregate parseDate now repos))
                           (patternCounts (aggregate parseDate now repos'))).
  { now apply same_lookups_Permutation. }
  split; [split; [exact PL | split; [exact DL |]] |].
  { now apply Permutation_same_lookups. }
  split; [split; [exact PF | split; [exact DF |]] |].
  { now apply Permutation_same_lookups. }
  split; [| split; [| split; [| split; [| split]]]].
  - assert (ND : forall q : Profile.t,
               NoDup (deriveDomains (Profile.patterns q) (Profile.frameworks q))).
    { intros q. apply uniq_NoDup. }
    unfold p, p'. rewrite !domains_of_profile. fold p p'.
    split; [| apply ND].
    apply NoDup_Permutation; [apply ND | apply ND |].
    intros x. rewrite !deriveDomains_In.
    assert (Hpat : forall pattern,
               In pattern (Profile.patterns p) <-> In pattern (Profile.patterns p')).
    { intros pattern. unfold p, p', buildSkillsProfile. cbn [Profile.patterns].
      rewrite !uniq_In.
      split; intros [H Hs]; (split; [| exact Hs]);
        (eapply Permutation_in; [apply Permutation_map | exact H]);
        [exact PP | apply Permutation_sym; exact PP]. }
    assert (Hfw : forall f, In f (Profile.frameworks p) <-> In f (Profile.frameworks p')).
    { intros f. split; apply Permutation_in; [exact PF | apply Permutation_sym; exact PF]. }
    split; (intros [[pattern [H1 H2]] | [f [H1 H2]]];
            [left; exists pattern; split; [apply Hpat; exact H1 | exact H2]
            | right; exists f; split; [apply Hfw; exact H1 | exact H2]]).
  - intros Hnd. unfold p, p', buildSkillsProfile.
    cbn [Profile.summary Summary.topLanguages]. f_equal.
    apply sortDesc_permutation; [exact Hnd |].
    apply Permutation_filter. exact PL.
  - intros Hnd. unfold p, p', buildSkillsProfile.
    cbn [Profile.summary Summary.topFrameworks]. f_equal.
    apply sortDesc_permutation; [exact Hnd | exact PF].
  - split; [apply language_keys | apply framework_keys].
  - intros c. unfold p, buildSkillsProfile.
    cbn [Profile.summary Summary.topLanguages Profile.languages].
    apply (@firstn_sortDesc_stable _ languageRepoCount 5 c).
  - intros c. unfold p, buildSkillsProfile.
    cbn [Profile.summary Summary.topFrameworks Profile.frameworks].
    apply (@firstn_sortDesc_stable _ frameworkRepoCount 5 c).
Qed.

Lemma buildSkillsProfile_permutation_witness :
  let p := buildSkillsProfile Examples.noDate 0 [Examples.webRepo; Examples.apiRepo] in
  let p' := buildSkillsProfile Examples.noDate 0 [Examples.apiRepo; Examples.webRepo] in
  Permutation (Profile.languages p) (Profile.languages p') /\
  Permutation (Profile.frameworks p) (Profile.frameworks p') /\
  Summary.topLanguages (Profile.summary p) = Summary.topLanguages (Profile.summary p') /\
  Summary.topFrameworks (Profile.summary p) = Summary.topFrameworks (Profile.summary p').
Proof.
  cbv zeta.
  destruct (@buildSkillsProfile_permutation Examples.noDate 0
              [Examples.webRepo; Examples.apiRepo] [Examples.apiRepo; Examples.webRepo]
              (perm_swap _ _ _))
    as [[PL _] [[PF _] [_ [TL [TF _]]]]].
  split; [exact PL |]. split; [exact PF |]. split.
  - apply TL. vm_compute.
    constructor; [simpl; intros [H | []]; discriminate H |].
    constructor; [simpl; tauto | constructor].
  - apply TF. vm_compute.
    constructor; [simpl; intros [H | []]; discriminate H |].
    constructor; [simpl; tauto | constructor].
Defined.
End RecordOrder.

(** ** Objects whose keys are user data *)

Section PlainObjects.
Variable A : Type.
Implicit Types d : list (string * A).

Lemma insertIndex_perm k (v : A) d : Permutation (insertIndex k v d) ((k, v) :: d).
Proof.
  induction d as [| [k' v'] d IH]; cbn [insertIndex]; [reflexivity |].
  destruct (isArrayIndex k' && (digitsValue 0 k' <? digitsValue 0 k)); [| reflexivity].
  rewrite IH. apply perm_swap.
Qed.

Lemma define_perm k (v : A) d : Permutation (define k v d) ((k, v) :: d).
Proof.
  unfold define. destruct (isArrayIndex k); [apply insertIndex_perm |].
  rewrite Permutation_app_comm. reflexivity.
Qed.

Lemma define_In k (v : A) d (e : string * A) :
  In e (define k v d) <-> e = (k, v) \/ In e d.
Proof.
  split; intros H.
  - apply (Permutation_in _ (define_perm k v d)) in H. destruct H as [<- | H]; auto.
  - apply (Permutation_in _ (Permutation_sym (define_perm k v d))).
    destruct H as [-> | H]; [now left | now right].
Qed.

Lemma define_NoDup k (v : A) d :
  NoDup (map fst d) -> ~ In k (map fst d) -> NoDup (map fst (define k v d)).
Proof.
  intros Hnd Hk.
  apply (Permutation_NoDup (Permutation_sym (Permutation_map fst (define_perm k v d)))).
  cbn [map fst]. now constructor.
Qed.

Lemma assoc_NoDup_perm d d' k :
  NoDup (map fst d) -> Permutation d d' -> assoc k d = assoc k d'.
Proof.
  intros Hnd Hp.
  assert (Hnd' : NoDup (map fst d')) by (apply (Permutation_NoDup (Permutation_map fst Hp) Hnd)).
  destruct (assoc k d) as [v |] eqn:E.
  - symmetry. apply In_assoc; [exact Hnd' |].
    apply (Permutation_in _ Hp). now apply assoc_In.
  - symmetry. apply assoc_None. apply assoc_None in E. intros Hin. apply E.
    apply (Permutation_in _ (Permutation_sym (Permutation_map fst Hp))). exact Hin.
Qed.

Lemma assoc_define k (v : A) d k' :
  NoDup (map fst d) -> ~ In k (map fst d) ->
  assoc k' (define k v d) = if String.eqb k' k then Some v else assoc k' d.
Proof.
  intros Hnd Hk.
  rewrite (@assoc_NoDup_perm (define k v d) ((k, v) :: d) k'
             (@define_NoDup k v d Hnd Hk) (define_perm k v d)).
  reflexivity.
Qed.

Lemma adjust_keys k (f : A -> A) d : map fst (adjust k f d) = map fst d.
Proof.
  induction d as [| [k' v'] d IH]; [reflexivity |]. cbn [adjust].
  destruct (String.eqb k k'); cbn [map fst]; [reflexivity | now rewrite IH].
Qed.

Lemma assoc_adjust k (f : A -> A) d k' :
  assoc k' (adjust k f d)
  = if String.eqb k' k then option_map f (assoc k d) else assoc k' d.
Proof.
  induction d as [| [k1 v1] d IH]; cbn [adjust assoc].
  - now destruct (String.eqb k' k).
  - destruct (String.eqb k k1) eqn:E1; cbn [assoc];
      destruct (String.eqb k' k1) eqn:E2; destruct (String.eqb k' k) eqn:E3;
      try reflexivity; try (rewrite IH; reflexivity);
      exfalso;
      repeat match goal with
             | H : String.eqb _ _ = true |- _ => apply String.eqb_eq in H
             | H : String.eqb _ _ = false |- _ => apply String.eqb_neq in H
             end; congruence.
Qed.

(** Creating a property keeps the array indices first and in ascending
    order, and the other keys in the order of their creation. *)
Lemma insertIndex_indexFirst k (v : A) d :
  isArrayIndex k = true ->
  indexFirst (map fst d) -> indexFirst (map fst (insertIndex k v d)).
Proof.
  intros Hk [indices [others [E [Hi [Hs Ho]]]]].
  revert d E. induction indices as [| i indices IH]; intros d E.
  - cbn [app] in E.
    assert (Hone : Forall (fun k => isArrayIndex k = true) [k]) by now repeat constructor.
    assert (Hsorted : StronglySorted (fun a b => digitsValue 0 a <= digitsValue 0 b) [k])
      by (repeat constructor).
    exists [k], others. destruct d as [| [k' v'] d]; cbn [insertIndex map fst] in *.
    + subst others. cbn [app].
      split; [reflexivity | split; [exact Hone | split; [exact Hsorted | constructor]]].
    + assert (Hk' : isArrayIndex k' = false).
      { rewrite <- E in Ho. now apply Forall_inv in Ho. }
      rewrite Hk'. cbn [andb map fst app]. subst others.
      split; [reflexivity | split; [exact Hone | split; [exact Hsorted | exact Ho]]].
  - destruct d as [| [k' v'] d]; [discriminate E |].
    cbn [map fst app] in E. injection E as Ek E. subst i.
    pose proof (Forall_inv Hi) as Hi1. pose proof (Forall_inv_tail Hi) as Hi2. cbn beta in Hi1. apply StronglySorted_inv in Hs.
    destruct Hs as [Hs1 Hs2].
    cbn [insertIndex]. rewrite Hi1. cbn [andb].
    destruct (Z.ltb_spec (digitsValue 0 k') (digitsValue 0 k)) as [Hlt | Hge].
    + destruct (IH Hi2 Hs1 d E) as [indices' [others' [E' [Hi' [Hs' Ho']]]]].
      exists (k' :: indices'), others'. cbn [map fst app]. rewrite E'.
      split; [reflexivity |]. split; [now constructor |]. split; [| exact Ho'].
      constructor; [exact Hs' |].
      apply Forall_forall. intros x Hx.
      assert (Hin : In x (map fst (insertIndex k v d))).
      { rewrite E'. apply in_or_app. now left. }
      apply (Permutation_in _ (Permutation_map fst (insertIndex_perm k v d))) in Hin.
      cbn [map fst] in Hin. destruct Hin as [<- | Hin]; [lia |].
      rewrite E in Hin. apply in_app_or in Hin. destruct Hin as [Hin | Hin].
      * rewrite Forall_forall in Hs2. now apply Hs2.
      * exfalso. rewrite Forall_forall in Hi', Ho.
        assert (Hx1 : isArrayIndex x = true) by now apply Hi'.
        rewrite (Ho _ Hin) in Hx1. discriminate Hx1.
    + exists (k :: k' :: indices), others. cbn [map fst app].
      split; [now rewrite E |]. split; [constructor; [exact Hk | now constructor] |].
      split; [| exact Ho].
      constructor; [now constructor |].
      constructor; [exact Hge |].
      rewrite Forall_forall in Hs2 |- *. intros x Hx. specialize (Hs2 x Hx). lia.
Qed.

Lemma define_indexFirst k (v : A) d :
  indexFirst (map fst d) -> indexFirst (map fst (define k v d)).
Proof.
  intros H. unfold define. destruct (isArrayIndex k) eqn:Hk.
  - now apply insertIndex_indexFirst.
  - destruct H as [indices [others [E [Hi [Hs Ho]]]]].
    exists indices, (others ++ [k])%list. rewrite map_app, E, <- app_assoc.
    repeat split; try assumption. apply Forall_app. split; [exact Ho |].
    now repeat constructor.
Qed.

Lemma filter_insertIndex k (v : A) d :
  isArrayIndex k = true -> filter (@isNamed A) (insertIndex k v d) = filter (@isNamed A) d.
Proof.
  intros Hk. induction d as [| [k' v'] d IH]; cbn [insertIndex filter].
  - unfold isNamed. cbn [fst]. now rewrite Hk.
  - destruct (isArrayIndex k' && (digitsValue 0 k' <? digitsValue 0 k)).
    + cbn [filter]. now rewrite IH.
    + cbn [filter]. unfold isNamed at 1. cbn [fst]. now rewrite Hk.
Qed.

Lemma filter_define k (v : A) d :
  filter (@isNamed A) (define k v d)
  = (filter (@isNamed A) d ++ (if isArrayIndex k then [] else [(k, v)]))%list.
Proof.
  unfold define. destruct (isArrayIndex k) eqn:Hk.
  - rewrite filter_insertIndex by exact Hk. now rewrite app_nil_r.
  - rewrite filter_app. cbn [filter]. unfold isNamed at 2. cbn [fst]. now rewrite Hk.
Qed.

(** An object that receives entries with distinct keys. *)
Lemma fold_setProp (B : Type) (g : B -> string * A)
      (step : list (string * A) -> B -> list (string * A)) (l : list B) :
  (forall acc b, step acc b = setProp (fst (g b)) (snd (g b)) acc) ->
  NoDup (map (fun b => fst (g b)) l) ->
  let d := fold_left step l [] in
  Permutation d (map g l) /\
  indexFirst (map fst d) /\
  filter (@isNamed A) d = filter (@isNamed A) (map g l).
Proof.
  intros Hstep Hnd. cbv zeta.
  assert (Hgen : forall acc,
             NoDup (map fst acc ++ map (fun b => fst (g b)) l) ->
             indexFirst (map fst acc) ->
             let d := fold_left step l acc in
             Permutation d (acc ++ map g l) /\
             indexFirst (map fst d) /\
             filter (@isNamed A) d
             = (filter (@isNamed A) acc ++ filter (@isNamed A) (map g l))%list).
  { clear Hnd. induction l as [| b l IH]; cbn [fold_left map]; intros acc Hnd Hacc.
    - cbn [filter]. rewrite ?app_nil_r. auto.
    - rewrite Hstep. unfold setProp.
      assert (Hfresh : ~ In (fst (g b)) (map fst acc)).
      { apply NoDup_remove_2 in Hnd. intros Hin. apply Hnd. apply in_or_app. now left. }
      rewrite (proj2 (assoc_None acc (fst (g b))) Hfresh).
      assert (Hnd' : NoDup (map fst (define (fst (g b)) (snd (g b)) acc)
                            ++ map (fun b => fst (g b)) l)).
      { apply (Permutation_NoDup (l := fst (g b) :: map fst acc ++ map (fun b => fst (g b)) l)).
        - change (fst (g b) :: map fst acc ++ map (fun b0 => fst (g b0)) l)%list
            with ((fst (g b) :: map fst acc) ++ map (fun b0 => fst (g b0)) l)%list.
          apply Permutation_app_tail. symmetry.
          apply (Permutation_map fst (define_perm (fst (g b)) (snd (g b)) acc)).
        - apply (Permutation_NoDup (Permutation_sym (Permutation_middle _ _ _))). exact Hnd. }
      destruct (IH _ Hnd' (@define_indexFirst (fst (g b)) (snd (g b)) acc Hacc)) as [I1 [I2 I3]].
      split; [| split; [exact I2 |]].
      + rewrite I1, define_perm. cbn [app]. rewrite <- surjective_pairing.
        apply Permutation_middle.
      + rewrite I3, filter_define, <- app_assoc. f_equal. cbn [filter].
        rewrite <- surjective_pairing. unfold isNamed at 2.
        destruct (isArrayIndex (fst (g b))); reflexivity. }
  destruct (Hgen [] Hnd) as [I1 [I2 I3]].
  { exists [], []. repeat split; constructor. }
  auto.
Qed.

End PlainObjects.

(** ** The tools of the profile *)

Section Tools.
Import Skills.
Variable parseDate : string -> num.
Variable now : Z.

Lemma occurrences_app (x : string) (a b : list string) :
  occurrences x (a ++ b) = occurrences x a + occurrences x b.
Proof. unfold occurrences. rewrite filter_app, length_app. lia. Qed.

(** One dependency: the counter of its name moves on by one, unless
    [Object.prototype] defines the name. *)
Lemma addDependency_step (name ecosystem dep : string) (tc : list (string * ToolCount)) :
  toolsInv tc ->
  toolsInv (addDependency ecosystem tc dep) /\
  toolReposAt name (addDependency ecosystem tc dep)
  = toolReposAt name tc
    + (if inherited name then 0 else if String.eqb name dep then 1 else 0).
Proof.
  intros [Hnd Hown]. unfold addDependency, toolReposAt.
  destruct (assoc dep tc) as [c |] eqn:E.
  - split.
    + unfold toolsInv. now rewrite adjust_keys.
    + rewrite assoc_adjust.
      assert (Hdep : inherited dep = false).
      { rewrite Forall_forall in Hown. apply Hown.
        apply assoc_In in E. now apply (in_map fst) in E. }
      destruct (String.eqb_spec name dep) as [Heq | Hne].
      * rewrite Heq, E, Hdep. cbn [option_map]. destruct c as [n e r]. cbn. lia.
      * destruct (inherited name); lia.
  - assert (Hfresh : ~ In dep (map fst tc)) by now apply assoc_None.
    destruct (inherited dep) eqn:Hdep.
    + split; [now split |].
      destruct (String.eqb_spec name dep) as [Heq | Hne].
      * rewrite Heq, Hdep. lia.
      * destruct (inherited name); lia.
    + split.
      * split; [now apply define_NoDup |].
        apply Forall_forall. intros k Hk.
        apply (Permutation_in _ (Permutation_map fst (define_perm dep _ tc))) in Hk.
        cbn [map fst] in Hk. destruct Hk as [<- | Hk]; [exact Hdep |].
        rewrite Forall_forall in Hown. now apply Hown.
      * rewrite (@assoc_define _ dep _ tc name Hnd Hfresh).
        destruct (String.eqb_spec name dep) as [Heq | Hne].
        -- rewrite Heq, E, Hdep. cbn. lia.
        -- destruct (inherited name); lia.
Qed.

Lemma fold_addDependency (name ecosystem : string) (deps : list string) :
  forall tc,
    toolsInv tc ->
    toolsInv (fold_left (addDependency ecosystem) deps tc) /\
    toolReposAt name (fold_left (addDependency ecosystem) deps tc)
    = toolReposAt name tc + (if inherited name then 0 else occurrences name deps).
Proof.
  induction deps as [| d deps IH]; intros tc Hinv; cbn [fold_left].
  - split; [exact Hinv |]. cbn [flat_map]. change (occurrences name []) with 0.
    destruct (inherited name); lia.
  - destruct (@addDependency_step name ecosystem d tc Hinv) as [Hinv' Hstep].
    destruct (IH _ Hinv') as [I1 I2]. split; [exact I1 |].
    rewrite I2, Hstep, occurrences_cons. destruct (inherited name); lia.
Qed.

Lemma fold_addEcosystem (name : string) (entries : list (string * list string)) :
  forall tc,
    toolsInv tc ->
    toolsInv (fold_left addEcosystem entries tc) /\
    toolReposAt name (fold_left addEcosystem entries tc)
    = toolReposAt name tc
      + (if inherited name then 0 else occurrences name (flat_map snd entries)).
Proof.
  induction entries as [| [eco deps] entries IH]; intros tc Hinv; cbn [fold_left flat_map].
  - split; [exact Hinv |]. cbn [flat_map]. change (occurrences name []) with 0.
    destruct (inherited name); lia.
  - cbn [addEcosystem snd].
    destruct (@fold_addDependency name eco deps tc Hinv) as [Hinv' Hstep].
    destruct (IH _ Hinv') as [I1 I2]. split; [exact I1 |].
    rewrite I2, Hstep, occurrences_app. destruct (inherited name); lia.
Qed.

Lemma fold_addRepo_toolCounts (name : string) (repos : list Repo.t) :
  forall agg,
    toolsInv (toolCounts agg) ->
    toolsInv (toolCounts (fold_left (addRepo parseDate) repos agg)) /\
    toolReposAt name (toolCounts (fold_left (addRepo parseDate) repos agg))
    = toolReposAt name (toolCounts agg)
      + (if inherited name then 0 else occurrences name (depRows repos)).
Proof.
  unfold depRows. induction repos as [| r repos IH]; intros agg Hinv; cbn [fold_left filter].
  - split; [exact Hinv |]. cbn [flat_map]. change (occurrences name []) with 0.
    destruct (inherited name); lia.
  - change (included r) with (negb (Repo.excluded r)).
    destruct (Repo.excluded r) eqn:E; cbn [negb].
    + rewrite addRepo_excluded by exact E. now apply IH.
    + rewrite (@addRepo_included parseDate agg r E).
      destruct (@fold_addEcosystem name (Repo.dependencies r) (toolCounts agg) Hinv)
        as [Hinv' Hstep].
      match goal with
      | |- context [fold_left (addRepo parseDate) repos ?a] =>
          destruct (IH a) as [I1 I2]; [exact Hinv' |]
      end.
      split; [exact I1 |].
      rewrite I2. cbn [toolCounts flat_map]. rewrite Hstep, occurrences_app.
      destruct (inherited name); lia.
Qed.

Lemma NoDup_keys_filter (B : Type) (f : string * B -> bool) (l : list (string * B)) :
  NoDup (map fst l) -> NoDup (map fst (filter f l)).
Proof.
  induction l as [| x l IH]; cbn [filter map]; intros H; [constructor |].
  inversion H as [| ? ? Hx Hl]; subst.
  destruct (f x); [| now apply IH]. cbn [map]. constructor; [| now apply IH].
  intros Hin. apply Hx. apply in_map_iff in Hin. destruct Hin as [y [Ey Hy]].
  apply filter_In in Hy. apply in_map_iff. exists y. tauto.
Qed.

Lemma NoDup_firstn (B : Type) (n : nat) (l : list B) : NoDup l -> NoDup (firstn n l).
Proof.
  intros H. rewrite <- (firstn_skipn n l) in H. now apply NoDup_app_remove_r in H.
Qed.

Lemma descending_map (B C : Type) (g : B -> C) (kb : B -> Z) (kc : C -> Z) (l : list B) :
  (forall b, kc (g b) = kb b) -> descending kb l -> descending kc (map g l).
Proof.
  intros Hk. unfold descending. induction 1 as [| x l Hl IH Hx]; cbn [map]; constructor.
  - exact IH.
  - apply Forall_forall. intros c Hc. apply in_map_iff in Hc. destruct Hc as [b [<- Hb]].
    rewrite !Hk. rewrite Forall_forall in Hx. now apply Hx.
Qed.

Lemma toolReposAt_In (name : string) (c : ToolCount) (tc : list (string * ToolCount)) :
  NoDup (map fst tc) -> In (name, c) tc -> toolReposAt name tc = toolRepos c.
Proof. intros Hnd Hin. unfold toolReposAt. now rewrite (@In_assoc _ _ _ _ Hnd Hin). Qed.

(** X14. [tools] holds at most twenty entries with distinct names, none
    of them a name that [Object.prototype] defines: a dependency called
    [constructor] or [toString] is never counted. The [repoCount] of a
    tool is the number of times its name occurs in the dependency lists
    of the repositories that are not excluded, over all ecosystems (a
    name that one repository lists in two ecosystems counts twice), and
    it is at least 2. The object lists the tools whose names are array
    indices first, in ascending order, and then the others from the
    highest [repoCount] down. A name that occurs at least twice, is not
    defined by [Object.prototype] and is not a tool occurs no more often
    than any tool. *)
Theorem profile_tools (repos : list Repo.t) :
  let tools := Profile.tools (buildSkillsProfile parseDate now repos) in
  (List.length tools <= 20)%nat /\
  NoDup (map fst tools) /\
  indexFirst (map fst tools) /\
  descending toolRepoCount (filter (@isNamed ToolEntry.t) tools) /\
  (forall name t,
      In (name, t) tools ->
      inherited name = false /\
      2 <= ToolEntry.repoCount t /\
      ToolEntry.repoCount t = occurrences name (depRows repos)) /\
  (forall name t,
      inherited name = false ->
      2 <= occurrences name (depRows repos) -> ~ In name (map fst tools) ->
      In t tools -> occurrences name (depRows repos) <= toolRepoCount t).
Proof.
  cbv zeta. unfold buildSkillsProfile. cbn [Profile.tools].
  set (tc := toolCounts (aggregate parseDate now repos)).
  set (keyOf := fun e : string * ToolCount => toolRepos (snd e)).
  set (big := filter (fun e : string * ToolCount => 2 <=? toolRepos (snd e)) tc).
  set (sig := firstn 20 (sortDesc keyOf big)).
  set (g := fun e : string * ToolCount => (fst e, toolEntry (snd e))).
  assert (Hstart : toolsInv (toolCounts (emptyAggregate now))).
  { split; constructor. }
  assert (Hinv : toolsInv tc).
  { unfold tc, aggregate. apply (@fold_addRepo_toolCounts EmptyString repos _ Hstart). }
  destruct Hinv as [Hnd Hown].
  assert (Hcount : forall name,
             toolReposAt name tc
             = if inherited name then 0 else occurrences name (depRows repos)).
  { intros name. unfold tc, aggregate.
    destruct (@fold_addRepo_toolCounts name repos _ Hstart) as [_ H]. rewrite H.
    cbn. reflexivity. }
  destruct (@firstn_sortDesc_ranking _ keyOf 20 big) as [Hlen [Hdesc [Hsub Hdom]]].
  fold sig in Hlen, Hdesc, Hsub, Hdom.
  assert (Hsig : NoDup (map fst sig)).
  { unfold sig. rewrite <- firstn_map. apply NoDup_firstn.
    apply (Permutation_NoDup (Permutation_map fst (sortDesc_perm keyOf big))).
    now apply NoDup_keys_filter. }
  destruct (@fold_setProp _ _ g
              (fun acc (e : string * ToolCount) =>
                 let (name, data) := e in setProp name (toolEntry data) acc)
              sig) as [Hperm [Hfirst Hnamed]].
  { intros acc [name data]. reflexivity. }
  { now rewrite map_ext with (g := fst) by reflexivity. }
  set (tools := fold_left _ sig []) in *.
  assert (Hkey : forall e, toolRepoCount (g e) = keyOf e).
  { intros [name [n e r]]. reflexivity. }
  assert (Hkeys : map fst (map g sig) = map fst sig).
  { rewrite map_map. reflexivity. }
  assert (Hin_tools : forall x, In x tools <-> In x (map g sig)).
  { intros x. split; apply Permutation_in; [exact Hperm | now apply Permutation_sym]. }
  split; [rewrite (Permutation_length Hperm); now rewrite length_map |].
  split.
  { apply (Permutation_NoDup (Permutation_sym (Permutation_map fst Hperm))).
    now rewrite Hkeys. }
  split; [exact Hfirst |].
  split.
  { rewrite Hnamed. apply descending_filter.
    now apply (@descending_map _ _ g keyOf toolRepoCount). }
  split.
  - intros name t Hin. apply Hin_tools in Hin.
    apply in_map_iff in Hin. destruct Hin as [[k c] [Heq Hin]].
    unfold g in Heq. cbn [fst snd] in Heq. injection Heq as Hk Ht. subst k.
    apply Hsub in Hin. apply filter_In in Hin. destruct Hin as [Hin Hbig].
    cbn [snd] in Hbig. apply Z.leb_le in Hbig.
    assert (Hname : inherited name = false).
    { rewrite Forall_forall in Hown. apply Hown. now apply (in_map fst) in Hin. }
    pose proof (Hcount name) as Hc. rewrite Hname in Hc.
    rewrite (@toolReposAt_In name c tc Hnd Hin) in Hc.
    subst t. destruct c as [n e r].
    cbn [toolEntry ToolEntry.repoCount toolRepos] in *.
    split; [exact Hname | split; [exact Hbig | exact Hc]].
  - intros name t Hname Hocc Hout Hin. apply Hin_tools in Hin.
    apply in_map_iff in Hin. destruct Hin as [e [<- Hin]].
    rewrite Hkey. pose proof (Hcount name) as Hc. rewrite Hname in Hc.
    rewrite <- Hc in Hocc |- *.
    unfold toolReposAt in Hocc |- *.
    destruct (assoc name tc) as [c |] eqn:Ea; [| lia].
    apply assoc_In in Ea.
    assert (Hbig : In (name, c) big).
    { apply filter_In. split; [exact Ea |]. cbn [snd]. now apply Z.leb_le. }
    apply (Hdom (name, c) e Hbig); [| exact Hin].
    intros Hs. apply Hout.
    apply (Permutation_in _ (Permutation_sym (Permutation_map fst Hperm))).
    rewrite Hkeys. now apply (in_map fst) in Hs.
Qed.

End Tools.

(** A dependency named like a member of [Object.prototype] is never a
    tool, however often it is listed, and a tool whose name is an array
    index comes first whatever its count. *)
Example tools_of_user_named_packages :
  Profile.tools
    (Skills.buildSkillsProfile Examples.noDate 0
       [ProfileSamples.pythonRepo ["constructor"; "flask"; "7"];
        ProfileSamples.pythonRepo ["constructor"; "flask"; "7"];
        ProfileSamples.pythonRepo ["constructor"; "flask"]])
  = [("7", {| ToolEntry.ecosystem := "python"; ToolEntry.repoCount := 2 |});
     ("flask", {| ToolEntry.ecosystem := "python"; ToolEntry.repoCount := 3 |})].
Proof. vm_compute. reflexivity. Qed.



Lemma profile_frameworks_witness :
  let p := Skills.buildSkillsProfile Examples.noDate 0 [Examples.webRepo; Examples.apiRepo] in
  assoc "Docker" (Profile.frameworks p)
  = Some {| FrameworkEntry.key := "docker";
            FrameworkEntry.category := "devops";
            FrameworkEntry.repoCount := 2;
            FrameworkEntry.proficiency := expert |}.
Proof.
  cbv zeta.
  destruct (@profile_frameworks Examples.noDate 0 [Examples.webRepo; Examples.apiRepo] "docker"
              {| FrameworkInfo.category := "devops"; FrameworkInfo.name := "Docker";
                 FrameworkInfo.weight := 14 # 10 |} eq_refl) as [H _].
  exact H.
Defined.

(** One repository that lists a package under two ecosystems gives a
    tool with [repoCount] 2. *)
Example one_repository_two_ecosystems :
  Profile.tools (Skills.buildSkillsProfile Examples.noDate 0 [ProfileSamples.twiceRepo])
  = [("redis", {| ToolEntry.ecosystem := "npm"; ToolEntry.repoCount := 2 |})].
Proof. reflexivity. Qed.

(** ** The walk over the files of a repository *)

Section EntryInduction.
Import Walk.
Variable P : Entry -> Prop.
Hypothesis P_File : forall name, P (File name).
Hypothesis P_Dir : forall name entries, Forall P entries -> P (Dir name entries).
Hypothesis P_Locked : forall name, P (Locked name).
Hypothesis P_Other : forall name, P (Other name).

Lemma Entry_nested_ind : forall entry, P entry.
Proof.
  fix IH 1. intros [name | name entries | name | name].
  - apply P_File.
  - apply P_Dir. induction entries as [| e entries IHentries]; constructor.
    + apply IH.
    + exact IHentries.
  - apply P_Locked.
  - apply P_Other.
Qed.
End EntryInduction.

Section WalkFold.
Import Walk.
Variable S : Type.
Variable ignorePatterns : list string.
Variable onFile : string -> S -> S.

Lemma fold_visit (entries : list Entry) :
  Forall (fun e => forall st,
              visit ignorePatterns onFile e st
              = fold_left (fun st name => onFile name st) (reachedIn ignorePatterns e) st)
         entries ->
  forall st,
    fold_left (fun st e => visit ignorePatterns onFile e st) entries st
    = fold_left (fun st name => onFile name st)
                (flat_map (reachedIn ignorePatterns) entries) st.
Proof.
  induction 1 as [| e entries He _ IH]; intros st; [reflexivity |].
  cbn [fold_left flat_map]. now rewrite fold_left_app, He, IH.
Qed.

(** A walk is a fold of [onFile] over the files it reaches. *)
Lemma visit_reached (entry : Entry) :
  forall st,
    visit ignorePatterns onFile entry st
    = fold_left (fun st name => onFile name st) (reachedIn ignorePatterns entry) st.
Proof.
  induction entry as [name | name entries IH | name | name] using Entry_nested_ind;
    intros st; cbn [visit reachedIn]; try reflexivity.
  - destruct (skipped ignorePatterns name); reflexivity.
  - destruct (skipped ignorePatterns name); [reflexivity |]. now apply fold_visit.
Qed.

Lemma walkDir_reached (listing : option (list Entry)) (st : S) :
  walkDir ignorePatterns onFile listing st
  = fold_left (fun st name => onFile name st) (reached ignorePatterns listing) st.
Proof.
  destruct listing as [entries |]; [| reflexivity]. cbn [walkDir reached].
  apply fold_visit. apply Forall_forall. intros e _. apply visit_reached.
Qed.
End WalkFold.

Section WalkProperties.
Import Walk.

Lemma reachedIn_prune (ignorePatterns : list string) (entry : Entry) :
  flat_map (reachedIn ignorePatterns) (prune ignorePatterns entry)
  = reachedIn ignorePatterns entry.
Proof.
  induction entry as [name | name entries IH | name | name] using Entry_nested_ind;
    cbn [prune reachedIn]; try reflexivity.
  - destruct (skipped ignorePatterns name) eqn:E; [reflexivity |].
    cbn [flat_map reachedIn]. now rewrite E, app_nil_r.
  - destruct (skipped ignorePatterns name) eqn:E; [reflexivity |].
    cbn [flat_map reachedIn]. rewrite E, app_nil_r.
    induction IH as [| e entries He _ IHentries]; [reflexivity |].
    cbn [flat_map]. now rewrite flat_map_app, He, IHentries.
Qed.

Lemma reached_prune (ignorePatterns : list string) (entries : list Entry) :
  reached ignorePatterns (Some (flat_map (prune ignorePatterns) entries))
  = reached ignorePatterns (Some entries).
Proof.
  cbn [reached]. induction entries as [| e entries IH]; [reflexivity |].
  cbn [flat_map]. now rewrite flat_map_app, reachedIn_prune, IH.
Qed.

Lemma reachedIn_ext (ig1 ig2 : list string) (entry : Entry) :
  (forall name, skipped ig1 name = skipped ig2 name) ->
  reachedIn ig1 entry = reachedIn ig2 entry.
Proof.
  intros H.
  induction entry as [name | name entries IH | name | name] using Entry_nested_ind;
    cbn [reachedIn]; try reflexivity.
  - now rewrite H.
  - rewrite H. destruct (skipped ig2 name); [reflexivity |].
    induction IH as [| e entries He _ IHentries]; [reflexivity |].
    cbn [flat_map]. now rewrite He, IHentries.
Qed.

(** The two walks pass over the same names: the one pattern that only
    [analyzeLanguages] ignores starts with a dot. *)
Lemma skipped_same (name : string) :
  skipped AnalyzeLanguages.ignorePatterns name = skipped CountFiles.ignorePatterns name.
Proof.
  unfold skipped.
  change AnalyzeLanguages.ignorePatterns with (CountFiles.ignorePatterns ++ [".cache"])%list.
  unfold mem. rewrite existsb_app. cbn [existsb]. rewrite orb_false_r.
  destruct (String.eqb_spec name ".cache") as [-> | _]; [| now rewrite orb_false_r].
  cbn [startsWithDot]. now rewrite !orb_true_r.
Qed.

Lemma reached_same (listing : option (list Entry)) :
  reached AnalyzeLanguages.ignorePatterns listing
  = reached CountFiles.ignorePatterns listing.
Proof.
  destruct listing as [entries |]; [| reflexivity]. cbn [reached].
  induction entries as [| e entries IH]; [reflexivity |].
  cbn [flat_map]. now rewrite IH, (reachedIn_ext _ _ e skipped_same).
Qed.

(** X15. Both walks see a repository only through the files they reach:
    [countFiles] and [analyzeLanguages] give the same result on a listing
    and on the listing without the entries whose name is ignored or
    starts with a dot, the directories that cannot be listed and the
    entries that are neither file nor directory, at any depth; on a
    repository whose root cannot be listed they return all-zero counts
    and the empty list. *)
Theorem walks_skip (entries : list Entry) :
  countFiles (Some entries)
  = countFiles (Some (flat_map (prune CountFiles.ignorePatterns) entries)) /\
  analyzeLanguages (Some entries)
  = analyzeLanguages (Some (flat_map (prune AnalyzeLanguages.ignorePatterns) entries)) /\
  countFiles None
  = {| total := 0; code := 0; config := 0; docs := 0; assets := 0 |} /\
  analyzeLanguages None = [].
Proof.
  unfold countFiles, analyzeLanguages.
  rewrite !walkDir_reached, !reached_prune. repeat split.
Qed.

Lemma disjoint_mem (l1 l2 : list string) (x : string) :
  forallb (fun e => negb (mem e l2)) l1 = true -> mem x l1 = true -> mem x l2 = false.
Proof.
  intros H Hx. apply mem_In in Hx. rewrite forallb_forall in H.
  now apply negb_true_iff, H.
Qed.

Lemma countFile_fields (name : string) (c : Counts) :
  let c' := countFile name c in
  total c' = total c + 1 /\
  code c' = code c + b2z (hasExt CountFiles.codeExts name) /\
  config c' = config c + b2z (hasExt CountFiles.configExts name) /\
  docs c' = docs c + b2z (hasExt CountFiles.docExts name) /\
  assets c' = assets c + b2z (hasExt CountFiles.assetExts name) /\
  classified c <= classified c' <= classified c + 1.
Proof.
  cbv zeta. unfold countFile, hasExt, classified. fold (extOf name).
  destruct (mem (extOf name) CountFiles.codeExts) eqn:E1.
  { rewrite (disjoint_mem CountFiles.codeExts CountFiles.configExts _ eq_refl E1),
      (disjoint_mem CountFiles.codeExts CountFiles.docExts _ eq_refl E1),
      (disjoint_mem CountFiles.codeExts CountFiles.assetExts _ eq_refl E1).
    cbn. repeat split; lia. }
  destruct (mem (extOf name) CountFiles.configExts) eqn:E2.
  { rewrite (disjoint_mem CountFiles.configExts CountFiles.docExts _ eq_refl E2),
      (disjoint_mem CountFiles.configExts CountFiles.assetExts _ eq_refl E2).
    cbn. repeat split; lia. }
  destruct (mem (extOf name) CountFiles.docExts) eqn:E3.
  { rewrite (disjoint_mem CountFiles.docExts CountFiles.assetExts _ eq_refl E3).
    cbn. repeat split; lia. }
  destruct (mem (extOf name) CountFiles.assetExts) eqn:E4; cbn; repeat split; lia.
Qed.

Lemma countOf_cons (f : string -> bool) (x : string) (l : list string) :
  countOf f (x :: l) = b2z (f x) + countOf f l.
Proof. unfold countOf, b2z. cbn [filter]. destruct (f x); cbn [List.length]; lia. Qed.

Lemma countOf_bounds (f : string -> bool) (l : list string) :
  0 <= countOf f l <= Z.of_nat (List.length l).
Proof. unfold countOf. pose proof (filter_length_le f l). lia. Qed.

Lemma fold_countFile (names : list string) :
  forall c,
    let c' := fold_left (fun st name => countFile name st) names c in
    total c' = total c + Z.of_nat (List.length names) /\
    code c' = code c + countOf (hasExt CountFiles.codeExts) names /\
    config c' = config c + countOf (hasExt CountFiles.configExts) names /\
    docs c' = docs c + countOf (hasExt CountFiles.docExts) names /\
    assets c' = assets c + countOf (hasExt CountFiles.assetExts) names /\
    classified c <= classified c' <= classified c + Z.of_nat (List.length names).
Proof.
  induction names as [| name names IH]; intros c; cbv zeta.
  - cbn. unfold countOf. cbn. repeat split; lia.
  - cbn [fold_left]. specialize (IH (countFile name c)). cbv zeta in IH.
    destruct IH as [H1 [H2 [H3 [H4 [H5 H6]]]]].
    destruct (countFile_fields name c) as [F1 [F2 [F3 [F4 [F5 F6]]]]].
    rewrite !countOf_cons. cbn [List.length]. repeat split; lia.
Qed.

Lemma countFiles_total (repo : option (list Entry)) :
  total (countFiles repo) = Z.of_nat (List.length (reached CountFiles.ignorePatterns repo)).
Proof.
  unfold countFiles. rewrite walkDir_reached.
  destruct (fold_countFile (reached CountFiles.ignorePatterns repo)
              {| total := 0; code := 0; config := 0; docs := 0; assets := 0 |})
    as [H1 _].
  rewrite H1. reflexivity.
Qed.

(** X16. [countFiles] counts every regular file that its walk reaches
    once in [total], and in the one class that lists its lower-cased
    extension, if any: [code], [config], [docs] and [assets] are the
    numbers of reached files with an extension of the four lists, and
    together they never exceed [total]. *)
Theorem countFiles_counts (repo : option (list Entry)) :
  let counts := countFiles repo in
  let files := reached CountFiles.ignorePatterns repo in
  total counts = Z.of_nat (List.length files) /\
  code counts = countOf (hasExt CountFiles.codeExts) files /\
  config counts = countOf (hasExt CountFiles.configExts) files /\
  docs counts = countOf (hasExt CountFiles.docExts) files /\
  assets counts = countOf (hasExt CountFiles.assetExts) files /\
  0 <= classified counts <= total counts.
Proof.
  cbv zeta. unfold countFiles. rewrite walkDir_reached.
  destruct (fold_countFile (reached CountFiles.ignorePatterns repo)
              {| total := 0; code := 0; config := 0; docs := 0; assets := 0 |})
    as [H1 [H2 [H3 [H4 [H5 H6]]]]].
  cbn [total code config docs assets] in H1, H2, H3, H4, H5.
  change (classified {| total := 0; code := 0; config := 0; docs := 0; assets := 0 |})
    with 0 in H6.
  repeat split; lia.
Qed.

Lemma sumWhere_cons (f : string -> bool) (k : string) (v : Z) (d : list (string * Z)) :
  sumWhere f ((k, v) :: d) = (if f k then v else 0) + sumWhere f d.
Proof. reflexivity. Qed.

Lemma sumWhere_upsert (f : string -> bool) (k : string) (c : Z) (d : list (string * Z)) :
  sumWhere f (upsert k 0 (fun n => n + c) d) = sumWhere f d + (if f k then c else 0).
Proof.
  induction d as [| [k0 v0] d IH]; cbn [upsert].
  - rewrite sumWhere_cons. cbn. destruct (f k); lia.
  - destruct (String.eqb_spec k k0) as [-> | _]; rewrite !sumWhere_cons.
    + destruct (f k0); lia.
    + rewrite IH. lia.
Qed.

Lemma counterAt_upsert (k' k : string) (c : Z) (d : list (string * Z)) :
  counterAt k' (upsert k 0 (fun n => n + c) d)
  = counterAt k' d + (if String.eqb k' k then c else 0).
Proof.
  unfold counterAt. rewrite assoc_upsert.
  destruct (String.eqb_spec k' k) as [-> | _]; cbn [valueOr]; lia.
Qed.

Lemma sumWhere_addExtension (f : string -> bool) (name : string) (d : list (string * Z)) :
  f EmptyString = false ->
  sumWhere f (addExtension name d) = sumWhere f d + b2z (f (extOf name)).
Proof.
  intros Hf. unfold addExtension. fold (extOf name).
  destruct (String.eqb_spec (extOf name) EmptyString) as [-> | _].
  - rewrite Hf. cbn. lia.
  - rewrite sumWhere_upsert. reflexivity.
Qed.

Lemma sumWhere_extensions (f : string -> bool) (names : list string) :
  f EmptyString = false ->
  forall d,
    sumWhere f (fold_left (fun st name => addExtension name st) names d)
    = sumWhere f d + countOf (fun name => f (extOf name)) names.
Proof.
  intros Hf. induction names as [| name names IH]; intros d; cbn [fold_left].
  - unfold countOf. cbn. lia.
  - rewrite IH, (sumWhere_addExtension _ _ _ Hf), countOf_cons. lia.
Qed.

Lemma addLanguageCount_step (acc : list (string * Z) * Z) (ext : string) (count : Z) :
  let acc' := addLanguageCount acc (ext, count) in
  snd acc' = snd acc + (if extKnown ext then count else 0) /\
  (forall lang,
      counterAt lang (fst acc')
      = counterAt lang (fst acc) + (if extIs lang ext then count else 0)) /\
  sumWhere (fun _ => true) (fst acc')
  = sumWhere (fun _ => true) (fst acc) + (if extKnown ext then count else 0) /\
  (NoDup (map fst (fst acc)) -> NoDup (map fst (fst acc'))) /\
  (1 <= count ->
   Forall (fun e => 1 <= snd e) (fst acc) -> Forall (fun e => 1 <= snd e) (fst acc')).
Proof.
  destruct acc as [languages total]. cbv zeta.
  unfold addLanguageCount, extKnown, extIs.
  destruct (assoc ext AnalyzeLanguages.languageMap) as [lang |]; cbn [fst snd].
  - split; [reflexivity | split; [| split; [| split]]].
    + intros l. rewrite counterAt_upsert, (String.eqb_sym l lang). reflexivity.
    + now rewrite sumWhere_upsert.
    + apply upsert_NoDup.
    + intros Hc Hall.
      apply (@upsert_Forall _ (fun _ v => 1 <= v)); [lia | intros; lia | exact Hall].
  - repeat split; intros; try lia; assumption.
Qed.

(** What the second loop of [analyzeLanguages] keeps true of its state. *)
Lemma fold_addLanguageCount (exts : list (string * Z)) :
  Forall (fun e => 1 <= snd e) exts ->
  forall acc,
    let acc' := fold_left addLanguageCount exts acc in
    snd acc' = snd acc + sumWhere extKnown exts /\
    (forall lang,
        counterAt lang (fst acc') = counterAt lang (fst acc) + sumWhere (extIs lang) exts) /\
    sumWhere (fun _ => true) (fst acc')
    = sumWhere (fun _ => true) (fst acc) + sumWhere extKnown exts /\
    (NoDup (map fst (fst acc)) -> NoDup (map fst (fst acc'))) /\
    (Forall (fun e => 1 <= snd e) (fst acc) -> Forall (fun e => 1 <= snd e) (fst acc')).
Proof.
  induction 1 as [| [ext count] exts Hc _ IH]; intros acc; cbv zeta.
  - cbn. repeat split; intros; try lia; assumption.
  - cbn [fold_left]. specialize (IH (addLanguageCount acc (ext, count))).
    cbv zeta in IH. destruct IH as [I1 [I2 [I3 [I4 I5]]]].
    destruct (addLanguageCount_step acc ext count) as [S1 [S2 [S3 [S4 S5]]]].
    cbn [snd] in Hc. rewrite !sumWhere_cons.
    split; [lia | split; [| split; [lia | split]]].
    + intros l. rewrite I2, S2, sumWhere_cons. lia.
    + intros Hnd. now apply I4, S4.
    + intros Hall. now apply I5, S5.
Qed.

Lemma extensions_positive (names : list string) :
  forall d,
    Forall (fun e : string * Z => 1 <= snd e) d ->
    Forall (fun e : string * Z => 1 <= snd e)
           (fold_left (fun st name => addExtension name st) names d).
Proof.
  apply (@fold_left_invariant _ _ (fun d => Forall (fun e : string * Z => 1 <= snd e) d)).
  intros d name Hd. unfold addExtension.
  destruct (String.eqb (toLowerCase (extname name)) EmptyString); [exact Hd |].
  apply (@upsert_Forall _ (fun _ v => 1 <= v)); [lia | intros; lia | exact Hd].
Qed.

Lemma sumCounts_rows (total : Z) (languages : list (string * Z)) :
  sumCounts (map (languageRow total) languages) = sumWhere (fun _ => true) languages.
Proof.
  induction languages as [| [name count] languages IH]; [reflexivity |].
  cbn [map sumCounts fold_right languageRow Lang.count]. fold (sumCounts (map (languageRow total) languages)).
  rewrite IH. reflexivity.
Qed.

Lemma sumCounts_Permutation (l l' : list Lang.t) :
  Permutation l l' -> sumCounts l = sumCounts l'.
Proof.
  induction 1 as [| x l l' _ IH | x y l | l1 l2 l3 _ IH1 _ IH2]; cbn [sumCounts fold_right] in *.
  - reflexivity.
  - unfold sumCounts in IH. lia.
  - lia.
  - lia.
Qed.

Lemma countOf_le (f g : string -> bool) (l : list string) :
  (forall x, f x = true -> g x = true) -> countOf f l <= countOf g l.
Proof.
  intros H. induction l as [| x l IH]; [unfold countOf; cbn; lia |].
  rewrite !countOf_cons. unfold b2z. destruct (f x) eqn:E; [rewrite (H _ E) |]; [lia |].
  destruct (g x); lia.
Qed.

Lemma countOf_positive (f : string -> bool) (l : list string) (x : string) :
  In x l -> f x = true -> 1 <= countOf f l.
Proof.
  intros Hin Hf. unfold countOf.
  assert (H : In x (filter f l)) by (apply filter_In; now split).
  destruct (filter f l); [contradiction | cbn [List.length]; lia].
Qed.

Lemma isWrittenIn_isSource (lang name : string) :
  isWrittenIn lang name = true -> isSource name = true.
Proof.
  unfold isWrittenIn, isSource, extIs, extKnown.
  now destruct (assoc (extOf name) AnalyzeLanguages.languageMap).
Qed.

Lemma percentage_bounds (count total : Z) :
  1 <= count <= total -> 0 <= percent count total <= 100.
Proof.
  intros H.
  destruct (@percent_range count total ltac:(lia) ltac:(lia)) as [H0 [H100 _]].
  split; [exact H0 | apply H100; lia].
Qed.

(** X17. [analyzeLanguages] returns one row for every language that
    [languageMap] gives to a reached file, and no other: the rows have
    distinct names and are ordered from the highest count down; the count
    of a row is the number of reached files whose lower-cased extension
    maps to its language (at least one); its percentage is
    [Math.round((count / total) * 100)] as the doubles give it, for the
    sum of all counts as [total], and lies between 0 and 100; the counts
    add up to the number of reached files with a known extension, which
    is at most the [total] of [countFiles]. *)
Theorem analyzeLanguages_rows (repo : option (list Entry)) :
  let rows := analyzeLanguages repo in
  let files := reached AnalyzeLanguages.ignorePatterns repo in
  descending Lang.count rows /\
  NoDup (map Lang.name rows) /\
  (forall l, In l rows ->
             Lang.count l = countOf (isWrittenIn (Lang.name l)) files /\
             1 <= Lang.count l /\
             Lang.percentage l = percent (Lang.count l) (sumCounts rows) /\
             0 <= Lang.percentage l <= 100) /\
  (forall name, In name files -> isSource name = true ->
                exists l, In l rows /\ isWrittenIn (Lang.name l) name = true) /\
  sumCounts rows = countOf isSource files /\
  sumCounts rows <= total (countFiles repo).
Proof.
  cbv zeta. unfold analyzeLanguages. rewrite walkDir_reached.
  set (files := reached AnalyzeLanguages.ignorePatterns repo).
  set (exts := fold_left (fun st name => addExtension name st) files []).
  assert (Hpos : Forall (fun e : string * Z => 1 <= snd e) exts)
    by (apply extensions_positive; constructor).
  assert (Hsum : forall f, f EmptyString = false ->
                           sumWhere f exts = countOf (fun name => f (extOf name)) files).
  { intros f Hf. unfold exts. rewrite (sumWhere_extensions _ _ Hf). reflexivity. }
  destruct (fold_addLanguageCount Hpos ([], 0)) as [I1 [I2 [I3 [I4 I5]]]].
  destruct (fold_left addLanguageCount exts ([], 0)) as [languages total] eqn:Efold.
  cbn [fst snd] in I1, I2, I3, I4, I5.
  rewrite (Hsum extKnown eq_refl) in I1, I3. fold isSource in I1, I3.
  change (fun name => extKnown (extOf name)) with isSource in I1, I3.
  assert (Hnd : NoDup (map fst languages)) by (apply I4; constructor).
  assert (Hall : Forall (fun e : string * Z => 1 <= snd e) languages)
    by (apply I5; constructor).
  assert (Hcount : forall name count,
             In (name, count) languages -> count = countOf (isWrittenIn name) files).
  { intros name count Hin. pose proof (I2 name) as Hc.
    unfold counterAt in Hc. rewrite (@In_assoc _ _ _ _ Hnd Hin) in Hc.
    cbn [valueOr assoc] in Hc. rewrite Hc.
    rewrite (Hsum (extIs name)); [reflexivity |]. reflexivity. }
  set (rows := map (languageRow total) languages).
  pose proof (sortDesc_perm Lang.count rows) as Hperm.
  assert (Hnames : map Lang.name rows = map fst languages).
  { unfold rows. rewrite map_map. apply map_ext. now intros [name count]. }
  split; [apply sortDesc_descending | split; [| split; [| split; [| split]]]].
  - apply (Permutation_NoDup (Permutation_map Lang.name Hperm)). now rewrite Hnames.
  - intros l Hl. apply (Permutation_in l (Permutation_sym Hperm)) in Hl.
    apply in_map_iff in Hl. destruct Hl as [[name count] [<- Hin]].
    cbn [languageRow Lang.name Lang.count Lang.percentage].
    pose proof (Hcount _ _ Hin) as Hc.
    rewrite Forall_forall in Hall. pose proof (Hall _ Hin) as H1. cbn [snd] in H1.
    split; [exact Hc | split; [exact H1 |]].
    split.
    + f_equal. rewrite <- (sumCounts_Permutation Hperm). unfold rows.
      rewrite sumCounts_rows, I3, I1. cbn. lia.
    + apply percentage_bounds. split; [exact H1 |].
      rewrite I1, Hc. cbn. apply countOf_le. apply isWrittenIn_isSource.
  - intros name Hin Hsrc. unfold isSource, extKnown in Hsrc.
    destruct (assoc (extOf name) AnalyzeLanguages.languageMap) as [lang |] eqn:E;
      [| discriminate Hsrc].
    assert (Hw : isWrittenIn lang name = true).
    { unfold isWrittenIn, extIs. rewrite E. apply String.eqb_refl. }
    pose proof (I2 lang) as Hc. unfold counterAt in Hc. cbn [assoc valueOr] in Hc.
    rewrite (Hsum (extIs lang) eq_refl) in Hc.
    change (fun name => extIs lang (extOf name)) with (isWrittenIn lang) in Hc.
    pose proof (countOf_positive (isWrittenIn lang) files name Hin Hw) as H1.
    destruct (assoc lang languages) as [count |] eqn:Ea; cbn [valueOr] in Hc; [| lia].
    exists (languageRow total (lang, count)). split; [| exact Hw].
    apply (Permutation_in _ Hperm). apply in_map. now apply assoc_In.
  - rewrite <- (sumCounts_Permutation Hperm). unfold rows.
    rewrite sumCounts_rows, I3. cbn. lia.
  - rewrite <- (sumCounts_Permutation Hperm). unfold rows.
    rewrite sumCounts_rows, I3.
    rewrite countFiles_total, <- reached_same. fold files. cbn.
    pose proof (countOf_bounds isSource files). lia.
Qed.

End WalkProperties.

(** ** Job statistics *)

Section JobStatistics.
Import Stats.










(** A source named [constructor] gets a text for a counter, and one
    named [__proto__] none. *)
Example statistics_of_user_named_sources :
  bySource (getJobStats (map StatsSamples.jobFrom
                             ["linkedin"; "constructor"; "__proto__"; "constructor";
                              "linkedin"; "7"]))
  = [("7", Count 1); ("linkedin", Count 2); ("constructor", Text "constructor" 2)].
Proof. vm_compute. reflexivity. Qed.

End JobStatistics.

(** ** File names of the application directory *)

Section Filenames.
Import Config Jobs.

Lemma isSlugChar_not_dash (c : ascii) : isSlugChar c = true -> Ascii.eqb c "-" = false.
Proof.
  intros H. destruct (Ascii.eqb_spec c "-") as [-> | _]; [discriminate H | reflexivity].
Qed.

Lemma dashRuns_noDashRun (s : string) :
  forall inRun, noDashRun inRun (dashRuns inRun s) = true.
Proof.
  induction s as [| c s IH]; intros inRun; [reflexivity |].
  cbn [dashRuns]. destruct (isSlugChar c) eqn:Ec.
  - cbn [noDashRun]. rewrite (isSlugChar_not_dash _ Ec). apply IH.
  - destruct inRun; [apply IH |]. cbn. apply IH.
Qed.

Lemma noDashRun_weaken (s : string) : noDashRun true s = true -> noDashRun false s = true.
Proof. destruct s as [| c s]; [reflexivity |]. cbn. destruct (Ascii.eqb c "-"); [discriminate | auto]. Qed.

Lemma noDashRun_head (s : string) : noDashRun true s = true -> headNotDash s = true.
Proof. destruct s as [| c s]; [reflexivity |]. cbn. now destruct (Ascii.eqb c "-"). Qed.

Lemma stripLeadingDash_spec (s : string) :
  noDashRun false s = true ->
  headNotDash (stripLeadingDash s) = true /\ noDashRun false (stripLeadingDash s) = true.
Proof.
  destruct s as [| c s]; [now split |]. intros H.
  destruct (Ascii.eqb_spec c "-") as [-> | Hne].
  - cbn in H. cbn [stripLeadingDash].
    split; [now apply noDashRun_head | now apply noDashRun_weaken].
  - assert (E : stripLeadingDash (String c s) = String c s).
    { destruct c as [[] [] [] [] [] [] [] []]; try reflexivity. congruence. }
    rewrite E. split; [| exact H]. cbn.
    now destruct (Ascii.eqb_spec c "-").
Qed.

Lemma stripLeadingDash_chars (p : ascii -> bool) (s : string) :
  allChars p s = true -> allChars p (stripLeadingDash s) = true.
Proof.
  destruct s as [| c s]; [reflexivity |]. intros H.
  destruct (Ascii.eqb_spec c "-") as [-> | Hne].
  - cbn in *. apply andb_prop in H. tauto.
  - assert (E : stripLeadingDash (String c s) = String c s).
    { destruct c as [[] [] [] [] [] [] [] []]; try reflexivity. congruence. }
    now rewrite E.
Qed.

Lemma stripTrailingDash_cons (c : ascii) (s : string) :
  stripTrailingDash (String c s)
  = match s with
    | EmptyString => if Ascii.eqb c "-" then EmptyString else String c EmptyString
    | _ => String c (stripTrailingDash s)
    end.
Proof. destruct s; reflexivity. Qed.

Lemma stripTrailingDash_chars (p : ascii -> bool) (s : string) :
  allChars p s = true -> allChars p (stripTrailingDash s) = true.
Proof.
  induction s as [| c s IH]; [reflexivity |]. intros H.
  cbn [allChars] in H. apply andb_prop in H. destruct H as [Hc Hs].
  rewrite stripTrailingDash_cons. destruct s as [| c' s'].
  - destruct (Ascii.eqb c "-"); cbn; [reflexivity | now rewrite Hc].
  - cbn [allChars]. now rewrite Hc, IH.
Qed.

Lemma stripTrailingDash_noDashRun (s : string) :
  forall b, noDashRun b s = true -> noDashRun b (stripTrailingDash s) = true.
Proof.
  induction s as [| c s IH]; intros b H; [reflexivity |].
  rewrite stripTrailingDash_cons. destruct s as [| c' s'].
  - destruct (Ascii.eqb c "-") eqn:E; [reflexivity | cbn; now rewrite E].
  - cbn [noDashRun] in *. destruct (Ascii.eqb c "-").
    + apply andb_prop in H. destruct H as [-> H]. now apply IH.
    + now apply IH.
Qed.

Lemma stripTrailingDash_head (s : string) :
  headNotDash s = true -> headNotDash (stripTrailingDash s) = true.
Proof.
  destruct s as [| c s]; [reflexivity |]. rewrite stripTrailingDash_cons.
  cbn [headNotDash]. intros H. apply negb_true_iff in H.
  destruct s; [rewrite H; cbn; now rewrite H | cbn; now rewrite H].
Qed.

Lemma slice0_head (n : nat) (s : string) :
  headNotDash s = true -> headNotDash (slice0 n s) = true.
Proof. destruct s as [| c s], n as [| n]; cbn; auto. Qed.

Lemma slice0_noDashRun (s : string) :
  forall n b, noDashRun b s = true -> noDashRun b (slice0 n s) = true.
Proof.
  unfold slice0. induction s as [| c s IH]; intros [| n] b H; try reflexivity.
  cbn [substring noDashRun] in *. destruct (Ascii.eqb c "-").
  - apply andb_prop in H. destruct H as [-> H]. now apply IH.
  - now apply IH.
Qed.

Lemma dashRuns_true_head (s : string) :
  match dashRuns true s with
  | EmptyString => allChars (fun c => negb (isSlugChar c)) s = true
  | String c _ => isSlugChar c = true /\ allChars (fun c => negb (isSlugChar c)) s = false
  end.
Proof.
  induction s as [| c s IH]; [reflexivity |].
  cbn [dashRuns allChars]. destruct (isSlugChar c) eqn:Ec; cbn [negb andb].
  - now split.
  - exact IH.
Qed.

Lemma stripLeadingDash_dashRuns (s : string) :
  match stripLeadingDash (dashRuns false s) with
  | EmptyString => allChars (fun c => negb (isSlugChar c)) s = true
  | String c _ => isSlugChar c = true /\ allChars (fun c => negb (isSlugChar c)) s = false
  end.
Proof.
  destruct s as [| c s]; [reflexivity |].
  cbn [dashRuns allChars]. destruct (isSlugChar c) eqn:Ec; cbn [negb andb].
  - assert (E : stripLeadingDash (String c (dashRuns false s)) = String c (dashRuns false s)).
    { destruct c as [[] [] [] [] [] [] [] []]; try reflexivity. discriminate Ec. }
    rewrite E. now split.
  - cbn [stripLeadingDash]. apply dashRuns_true_head.
Qed.

Lemma sanitizeText_shape (str : string) :
  let name := sanitizeText str in
  allChars isIdChar name = true /\ (String.length name <= 50)%nat /\
  headNotDash name = true /\ noDashRun false name = true /\
  (name = EmptyString <-> noSlugChar str = true).
Proof.
  cbv zeta. unfold sanitizeText.
  set (runs := dashRuns false (toLowerCase str)).
  assert (Hc : allChars isIdChar runs = true) by apply dashRuns_chars.
  assert (Hr : noDashRun false runs = true) by apply dashRuns_noDashRun.
  destruct (stripLeadingDash_spec _ Hr) as [Hh Hr'].
  split; [| split; [| split; [| split]]].
  - apply allChars_substring, stripTrailingDash_chars, stripLeadingDash_chars, Hc.
  - apply length_slice0.
  - apply slice0_head, stripTrailingDash_head, Hh.
  - apply slice0_noDashRun, stripTrailingDash_noDashRun, Hr'.
  - unfold noSlugChar. pose proof (stripLeadingDash_dashRuns (toLowerCase str)) as H.
    fold runs in H. destruct (stripLeadingDash runs) as [| c rest].
    + split; [intros _; exact H | reflexivity].
    + destruct H as [Hslug Hfalse]. rewrite Hfalse.
      split; [| discriminate]. rewrite stripTrailingDash_cons.
      rewrite (isSlugChar_not_dash _ Hslug). destruct rest; discriminate.
Qed.

(** X19. [sanitizeFilename] returns a name for a string and throws for
    any other id (a number that a posting carried as its [id], say). The
    name is at most 50 characters of lower-case letters, digits and
    dashes, with no dash at its start and no two dashes in a row; so it
    holds no path separator and no dot. It is empty exactly when the
    input has no letter and no digit. *)
Theorem sanitizeFilename_shape (str : value) (name : string) :
  sanitizeFilename str = Ok name ->
  exists s,
    str = JStr s /\
    allChars isIdChar name = true /\ (String.length name <= 50)%nat /\
    headNotDash name = true /\ noDashRun false name = true /\
    (name = EmptyString <-> noSlugChar s = true).
Proof.
  destruct str as [| b | n | s | l | fs]; try discriminate.
  intros H. injection H as <-. exists s. split; [reflexivity |].
  apply sanitizeText_shape.
Qed.

Lemma sanitizeFilename_shape_witness :
  exists s,
    JStr "Acme, Inc. -- Senior Dev (Remote)!" = JStr s /\
    allChars isIdChar "acme-inc-senior-dev-remote" = true /\
    (String.length "acme-inc-senior-dev-remote" <= 50)%nat /\
    headNotDash "acme-inc-senior-dev-remote" = true /\
    noDashRun false "acme-inc-senior-dev-remote" = true /\
    ("acme-inc-senior-dev-remote" = EmptyString <-> noSlugChar s = true).
Proof.
  apply (@sanitizeFilename_shape (JStr "Acme, Inc. -- Senior Dev (Remote)!")
           "acme-inc-senior-dev-remote").
  reflexivity.
Defined.

End Filenames.

(** ** Patterns of a repository *)

Section Patterns.
Import Manifest.

Lemma samePattern_eq (a b : Pattern) : samePattern a b = true <-> a = b.
Proof.
  destruct a as [x | x], b as [y | y]; cbn [samePattern];
    try (split; [discriminate | discriminate]);
    rewrite String.eqb_eq; split; congruence.
Qed.

Lemma includes_In (p : Pattern) (patterns : list Pattern) :
  existsb (samePattern p) patterns = true <-> In p patterns.
Proof.
  rewrite existsb_exists. split.
  - intros [x [Hx E]]. apply samePattern_eq in E. now subst x.
  - intros H. exists p. split; [exact H | now apply samePattern_eq].
Qed.

Lemma pushNew_In (patterns : list Pattern) (p x : Pattern) :
  In x (pushNew patterns p) <-> In x patterns \/ x = p.
Proof.
  unfold pushNew. destruct (existsb (samePattern p) patterns) eqn:E.
  - apply includes_In in E. split; [tauto | intros [H | ->]; assumption].
  - rewrite in_app_iff. cbn. split; [intros [H | [H | []]]; auto | intros [H | ->]; auto].
Qed.

Lemma pushNew_NoDup (patterns : list Pattern) (p : Pattern) :
  NoDup patterns -> NoDup (pushNew patterns p).
Proof.
  intros H. unfold pushNew. destruct (existsb (samePattern p) patterns) eqn:E; [exact H |].
  apply NoDup_snoc; [exact H |]. rewrite <- includes_In. now rewrite E.
Qed.

Lemma pushNew_extends (patterns : list Pattern) (p : Pattern) :
  exists extra, pushNew patterns p = (patterns ++ extra)%list.
Proof.
  unfold pushNew. destruct (existsb (samePattern p) patterns); [exists [] | exists [p]];
    now rewrite ?app_nil_r.
Qed.

(** What a loop of guarded [push]es keeps and adds. *)
Lemma fold_pushes (A : Type) (step : list Pattern -> A -> list Pattern)
      (tag : A -> option Pattern) (l : list A) :
  (forall patterns a, step patterns a = match tag a with
                                        | Some p => pushNew patterns p
                                        | None => patterns
                                        end) ->
  forall patterns,
    (NoDup patterns -> NoDup (fold_left step l patterns)) /\
    (exists extra, fold_left step l patterns = (patterns ++ extra)%list) /\
    (forall x, In x (fold_left step l patterns)
               <-> In x patterns \/ exists a, In a l /\ tag a = Some x).
Proof.
  intros Hstep. induction l as [| a l IH]; intros patterns; cbn [fold_left].
  - split; [auto | split; [exists []; now rewrite app_nil_r |]].
    intros x. split; [auto | intros [H | [a [[] _]]]; exact H].
  - destruct (IH (step patterns a)) as [I1 [[extra I2] I3]]. rewrite Hstep in *.
    split; [| split].
    + intros Hnd. apply I1. destruct (tag a); [now apply pushNew_NoDup | exact Hnd].
    + destruct (tag a) as [p |].
      * destruct (pushNew_extends patterns p) as [e1 E1].
        exists (e1 ++ extra)%list. now rewrite I2, E1, app_assoc.
      * now exists extra.
    + intros x. rewrite I3. destruct (tag a) as [p |] eqn:Ea.
      * rewrite pushNew_In. split.
        -- intros [[H | ->] | [a' [H1 H2]]]; [now left | right; exists a; cbn; auto |].
           right. exists a'. cbn. auto.
        -- intros [H | [a' [[<- | H1] H2]]]; [auto | | right; exists a'; auto].
           left. right. congruence.
      * split.
        -- intros [H | [a' [H1 H2]]]; [now left | right; exists a'; cbn; auto].
        -- intros [H | [a' [[<- | H1] H2]]]; [auto | congruence | right; exists a'; auto].
Qed.

Lemma checkPath_tag (existsSync : string -> bool) patterns check :
  checkPath existsSync patterns check
  = match pathTag existsSync check with
    | Some p => pushNew patterns p
    | None => patterns
    end.
Proof. destruct check as [path pattern]. unfold checkPath, pathTag. cbn. now destruct (existsSync path). Qed.

Lemma checkDep_tag patterns dep :
  checkDep patterns dep
  = match depTag dep with
    | Some p => pushNew patterns p
    | None => patterns
    end.
Proof. reflexivity. Qed.

Lemma assoc_In_values (A : Type) (k : string) (v : A) (d : list (string * A)) :
  assoc k d = Some v -> In v (map snd d).
Proof. intros H. apply assoc_In in H. now apply (in_map snd) in H. Qed.

Lemma pathPatterns_In (existsSync : string -> bool) (p : Pattern) :
  In p (fold_left (checkPath existsSync) checks [])
  <-> exists path tag, In (path, tag) checks /\ existsSync path = true /\ p = Tag tag.
Proof.
  destruct (@fold_pushes _ (checkPath existsSync) (pathTag existsSync) checks
              (checkPath_tag existsSync) []) as [_ [_ P3]].
  rewrite P3. split.
  - intros [[] | [[path q] [Hin Htag]]]. unfold pathTag in Htag. cbn [fst snd] in Htag.
    destruct (existsSync path) eqn:E; [| discriminate]. injection Htag as <-. eauto.
  - intros [path [tag [Hin [E ->]]]]. right. exists (path, tag). split; [exact Hin |].
    unfold pathTag. cbn [fst snd]. now rewrite E.
Qed.

Lemma analyzePatterns_parts (existsSync : string -> bool) (packageJson : Jobs.FileContent) :
  NoDup (analyzePatterns existsSync packageJson) /\
  (exists extra, analyzePatterns existsSync packageJson
                 = (analyzePatterns existsSync Jobs.Missing ++ extra)%list) /\
  (forall p,
      In p (analyzePatterns existsSync packageJson) <->
      (exists path tag, In (path, tag) checks /\ existsSync path = true /\ p = Tag tag) \/
      (exists pkg deps dep,
          packageJson = Jobs.Parsed pkg /\ allDeps pkg = Ok deps /\
          In dep deps /\ depPattern (baseDep dep) = Some p)).
Proof.
  destruct (@fold_pushes _ (checkPath existsSync) (pathTag existsSync) checks
              (checkPath_tag existsSync) []) as [P1 _].
  unfold analyzePatterns.
  assert (Hnone : forall pj,
             (forall pkg deps, pj = Jobs.Parsed pkg -> allDeps pkg <> Ok deps) ->
             forall p,
               In p (fold_left (checkPath existsSync) checks []) <->
               (exists path tag,
                   In (path, tag) checks /\ existsSync path = true /\ p = Tag tag) \/
               (exists pkg deps dep,
                   pj = Jobs.Parsed pkg /\ allDeps pkg = Ok deps /\
                   In dep deps /\ depPattern (baseDep dep) = Some p)).
  { intros pj Hpj p. rewrite pathPatterns_In. split; [auto |].
    intros [H | [pkg [deps [dep [E1 [E2 _]]]]]]; [exact H |].
    exfalso. exact (Hpj _ _ E1 E2). }
  destruct packageJson as [| reason | pkg].
  - split; [apply P1; constructor | split; [exists []; now rewrite app_nil_r |]].
    apply Hnone. discriminate.
  - split; [apply P1; constructor | split; [exists []; now rewrite app_nil_r |]].
    apply Hnone. discriminate.
  - destruct (allDeps pkg) as [deps | e] eqn:Edeps.
    + destruct (@fold_pushes _ checkDep depTag deps checkDep_tag
                  (fold_left (checkPath existsSync) checks [])) as [D1 [D2 D3]].
      split; [apply D1, P1; constructor | split; [exact D2 |]].
      intros p. rewrite D3, pathPatterns_In. split.
      * intros [H | [dep [Hin Htag]]]; [now left |].
        right. exists pkg, deps, dep. auto.
      * intros [H | [pkg' [deps' [dep [E1 [E2 [Hin Htag]]]]]]]; [now left |].
        injection E1 as <-. rewrite Edeps in E2. injection E2 as <-.
        right. exists dep. auto.
    + split; [apply P1; constructor | split; [exists []; now rewrite app_nil_r |]].
      apply Hnone. intros pkg' deps E1 E2. injection E1 as <-. congruence.
Qed.

(** What [depPatterns[name]] yields. *)
Lemma depPattern_cases (name : string) (p : Pattern) :
  depPattern name = Some p <->
  (exists tag, assoc name depPatterns = Some tag /\ p = Tag tag) \/
  (inherited name = true /\ p = Member name).
Proof.
  unfold depPattern. split.
  - destruct (assoc name depPatterns) as [tag |] eqn:E.
    + intros H. injection H as <-. left. now exists tag.
    + destruct (inherited name) eqn:Hi; [| discriminate].
      intros H. injection H as <-. now right.
  - intros [[tag [E ->]] | [Hi ->]].
    + now rewrite E.
    + destruct (assoc name depPatterns) as [tag |] eqn:E; [| now rewrite Hi].
      exfalso. apply assoc_In in E. apply (in_map fst) in E. cbn [fst] in E.
      assert (Hall : forallb (fun k => negb (inherited k)) (map fst depPatterns) = true)
        by (vm_compute; reflexivity).
      rewrite forallb_forall in Hall. specialize (Hall _ E). rewrite Hi in Hall.
      discriminate Hall.
Qed.

(** The key of a pattern that [analyzePatterns] returns: a tag of its
    tables, or the text of a member of [Object.prototype]. *)
Lemma analyzePatterns_keys (existsSync : string -> bool)
      (packageJson : Jobs.FileContent) (p : Pattern) :
  In p (analyzePatterns existsSync packageJson) ->
  (exists tag, p = Tag tag /\ In tag patternVocabulary) \/
  (exists name, p = Member name /\ inherited name = true).
Proof.
  intros Hp. apply (proj2 (proj2 (analyzePatterns_parts existsSync packageJson))) in Hp.
  unfold patternVocabulary.
  destruct Hp as [[path [tag [Hin [_ ->]]]] | [pkg [deps [dep [_ [_ [_ Htag]]]]]]].
  - left. exists tag. split; [reflexivity |]. apply in_or_app. left.
    now apply (in_map snd) in Hin.
  - apply depPattern_cases in Htag. destruct Htag as [[tag [E ->]] | [Hi ->]].
    + left. exists tag. split; [reflexivity |]. apply in_or_app. right.
      eapply assoc_In_values, E.
    + right. now exists (baseDep dep).
Qed.

(** X20. [analyzePatterns] returns no pattern twice. A tag is returned
    exactly when a path of [checks] with that tag exists, or the manifest
    parses to a value other than [null] and one of its dependency names,
    cut down by [baseDep], is a key of [depPatterns] with that tag; every
    such tag is one that [checks] or [depPatterns] lists. Besides tags
    the list holds a member of [Object.prototype] exactly when a
    dependency name, cut down, is the name of that member: for a
    dependency called [constructor] the function [Object] is pushed. The
    tags of the paths come first and are those returned without a
    manifest; an unreadable manifest or one that is [null] adds
    nothing. *)
Theorem analyzePatterns_spec (existsSync : string -> bool) (packageJson : Jobs.FileContent) :
  let patterns := analyzePatterns existsSync packageJson in
  NoDup patterns /\
  (exists extra, patterns = (analyzePatterns existsSync Jobs.Missing ++ extra)%list) /\
  (forall tag,
      In (Tag tag) patterns <->
      (exists path, In (path, tag) checks /\ existsSync path = true) \/
      (exists pkg deps dep,
          packageJson = Jobs.Parsed pkg /\ allDeps pkg = Ok deps /\
          In dep deps /\ assoc (baseDep dep) depPatterns = Some tag)) /\
  (forall name,
      In (Member name) patterns <->
      inherited name = true /\
      exists pkg deps dep,
        packageJson = Jobs.Parsed pkg /\ allDeps pkg = Ok deps /\
        In dep deps /\ baseDep dep = name) /\
  (forall tag, In (Tag tag) patterns -> In tag patternVocabulary) /\
  (forall e, analyzePatterns existsSync (Jobs.Unparsable e)
             = analyzePatterns existsSync Jobs.Missing) /\
  analyzePatterns existsSync (Jobs.Parsed JNull) = analyzePatterns existsSync Jobs.Missing.
Proof.
  cbv zeta. destruct (analyzePatterns_parts existsSync packageJson) as [H1 [H2 H3]].
  split; [exact H1 |]. split; [exact H2 |]. split; [| split; [| split; [| split]]].
  - intros tag. rewrite H3. split.
    + intros [[path [tag' [Hin [E Ht]]]] | [pkg [deps [dep [E1 [E2 [Hin Hp]]]]]]].
      * injection Ht as ->. left. eauto.
      * right. exists pkg, deps, dep. repeat split; try assumption.
        apply depPattern_cases in Hp. destruct Hp as [[tag' [E Ht]] | [_ Ht]].
        -- injection Ht as ->. exact E.
        -- discriminate Ht.
    + intros [[path [Hin E]] | [pkg [deps [dep [E1 [E2 [Hin Hp]]]]]]].
      * left. exists path, tag. auto.
      * right. exists pkg, deps, dep. repeat split; try assumption.
        apply depPattern_cases. left. now exists tag.
  - intros name. rewrite H3. split.
    + intros [[path [tag' [_ [_ Ht]]]] | [pkg [deps [dep [E1 [E2 [Hin Hp]]]]]]].
      * discriminate Ht.
      * apply depPattern_cases in Hp. destruct Hp as [[tag' [_ Ht]] | [Hi Ht]].
        -- discriminate Ht.
        -- injection Ht as Hn. subst name. split; [exact Hi |].
           exists pkg, deps, dep. auto.
    + intros [Hi [pkg [deps [dep [E1 [E2 [Hin Hn]]]]]]].
      right. exists pkg, deps, dep. repeat split; try assumption.
      apply depPattern_cases. right. rewrite Hn. auto.
  - intros tag Hin. apply analyzePatterns_keys in Hin.
    destruct Hin as [[tag' [Ht Hv]] | [name [Ht _]]]; [| discriminate Ht].
    now injection Ht as ->.
  - intros e. unfold analyzePatterns. reflexivity.
  - unfold analyzePatterns, allDeps. cbn [get bind]. reflexivity.
Qed.

(** A manifest that depends on a package called [constructor]: the
    list of patterns ends with the function [Object]. *)
Example analyzePatterns_of_user_named_package :
  analyzePatterns (fun _ => false)
    (Jobs.Parsed (JObj [("dependencies",
                         JObj [("react", JStr "^18.0.0"); ("constructor", JStr "^1.0.0")])]))
  = [Tag "react"; Member "constructor"].
Proof. vm_compute. reflexivity. Qed.

End Patterns.

(** ** From the analysis to the profile *)

Section Pipeline.
Import Skills.
Variable parseDate : string -> num.
Variable now : Z.

Lemma patternRows_In (repos : list Repo.t) (p : string) :
  In p (patternRows repos) <->
  exists r, In r repos /\ Repo.excluded r = false /\ In p (Repo.patterns r).
Proof.
  unfold patternRows. rewrite in_flat_map. split.
  - intros [r [Hr Hp]]. apply filter_In in Hr. destruct Hr as [Hr Hi].
    exists r. unfold included in Hi. apply negb_true_iff in Hi. auto.
  - intros [r [Hr [He Hp]]]. exists r. split; [| exact Hp].
    apply filter_In. split; [exact Hr |]. unfold included. now rewrite He.
Qed.

(** The text of a member of [Object.prototype] is no key of
    [FRAMEWORK_CATEGORIES]. *)
Lemma memberText_no_framework (name : string) :
  inherited name = true -> assoc (memberText name) FRAMEWORK_CATEGORIES = None.
Proof.
  intros H. apply mem_In in H.
  assert (Hall : forallb (fun n => match assoc (memberText n) FRAMEWORK_CATEGORIES with
                                   | None => true
                                   | Some _ => false
                                   end) prototypeNames = true)
    by (vm_compute; reflexivity).
  rewrite forallb_forall in Hall. specialize (Hall _ H).
  now destruct (assoc (memberText name) FRAMEWORK_CATEGORIES).
Qed.

(** X21. Take records whose patterns are those that [analyzePatterns]
    returned, each under the property key that it turns into (a tag is
    its own key, a member of [Object.prototype] is read as its text). In
    the profile built from them the key of every framework is a tag that
    [checks] or [depPatterns] lists. The table entries [express] and
    [fastify] are not among these tags (the two packages are tagged
    [nodejs-backend]), so no such profile has a framework "Express.js" or
    "Fastify". *)
Theorem analysis_frameworks (repos : list Repo.t) :
  (forall r, In r repos -> Repo.excluded r = false ->
             exists existsSync packageJson,
               Repo.patterns r
               = map patternKey (Manifest.analyzePatterns existsSync packageJson)) ->
  let p := buildSkillsProfile parseDate now repos in
  (forall name e, In (name, e) (Profile.frameworks p) ->
                  In (FrameworkEntry.key e) patternVocabulary) /\
  assoc "Express.js" (Profile.frameworks p) = None /\
  assoc "Fastify" (Profile.frameworks p) = None.
Proof.
  intros Hrepos. cbv zeta.
  assert (Hkeys : forall name e,
             In (name, e) (Profile.frameworks (buildSkillsProfile parseDate now repos)) ->
             exists info,
               assoc (FrameworkEntry.key e) FRAMEWORK_CATEGORIES = Some info /\
               name = FrameworkInfo.name info /\
               In (FrameworkEntry.key e) patternVocabulary).
  { intros name e Hin.
    destruct (framework_entry_origin _ _ _ _ _ Hin) as [info [Hk [Hn [Hrows _]]]].
    exists info. split; [exact Hk | split; [exact Hn |]].
    apply patternRows_In in Hrows. destruct Hrows as [r [Hr [He Hp]]].
    destruct (Hrepos r Hr He) as [existsSync [packageJson E]]. rewrite E in Hp.
    apply in_map_iff in Hp. destruct Hp as [pat [Hkey Hpat]].
    apply analyzePatterns_keys in Hpat.
    destruct Hpat as [[tag [Ht Hv]] | [member [Ht Hi]]]; subst pat; cbn [patternKey] in Hkey.
    - now rewrite <- Hkey.
    - exfalso. rewrite <- Hkey, (memberText_no_framework _ Hi) in Hk. discriminate Hk. }
  assert (Hdead : forall key info,
             assoc key FRAMEWORK_CATEGORIES = Some info ->
             mem key patternVocabulary = false ->
             assoc (FrameworkInfo.name info)
                   (Profile.frameworks (buildSkillsProfile parseDate now repos)) = None).
  { intros key info Hkey Hmem. apply assoc_None. intros Hin.
    apply in_map_iff in Hin. destruct Hin as [[name e] [Hname Hin]]. cbn [fst] in Hname.
    destruct (Hkeys _ _ Hin) as [info' [Hk [Hn Hv]]]. subst name.
    pose proof (@table_name_injective _ _ _ _ Hk Hkey (eq_sym Hn)) as Ek. rewrite Ek in Hv.
    apply mem_In in Hv. congruence. }
  split; [| split].
  - intros name e Hin. destruct (Hkeys _ _ Hin) as [info [_ [_ Hv]]]. exact Hv.
  - apply (Hdead "express" (fw "backend" "Express.js" (12 # 10))); reflexivity.
  - apply (Hdead "fastify" (fw "backend" "Fastify" (12 # 10))); reflexivity.
Qed.

Lemma filter_flat_map_length (A B : Type) (f : B -> bool) (g : A -> list B)
      (h : A -> bool) (l : list A) :
  (forall a, In a l -> List.length (filter f (g a)) = if h a then 1%nat else 0%nat) ->
  List.length (filter f (flat_map g l)) = List.length (filter h l).
Proof.
  induction l as [| a l IH]; intros H; [reflexivity |].
  cbn [flat_map filter]. rewrite filter_app, length_app, (H a (or_introl eq_refl)).
  rewrite IH by (intros a' Ha'; apply H; now right).
  destruct (h a); reflexivity.
Qed.

Lemma NoDup_filter_eqb (x : string) (l : list string) :
  NoDup l -> List.length (filter (String.eqb x) l) = if mem x l then 1%nat else 0%nat.
Proof.
  induction 1 as [| y l Hy Hl IH]; [reflexivity |].
  cbn [filter mem existsb]. fold (mem x l).
  destruct (String.eqb_spec x y) as [-> | Hne]; cbn [orb List.length].
  - rewrite IH. assert (E : mem y l = false)
      by (apply not_true_is_false; now rewrite mem_In).
    now rewrite E.
  - exact IH.
Qed.

Lemma filter_name_length (name : string) (rows : list Lang.t) :
  List.length (rowsOf name rows)
  = List.length (filter (String.eqb name) (map Lang.name rows)).
Proof.
  unfold rowsOf. induction rows as [| l rows IH]; [reflexivity |].
  cbn [filter map]. rewrite (String.eqb_sym name).
  destruct (String.eqb (Lang.name l) name); cbn [List.length]; now rewrite IH.
Qed.

Lemma reposWhere_le (f : Repo.t -> bool) (repos : list Repo.t) :
  reposWhere f repos <= Z.of_nat (List.length repos).
Proof.
  unfold reposWhere.
  pose proof (filter_length_le f (filter included repos)).
  pose proof (filter_length_le included repos). lia.
Qed.

(** X22. When every record that is not excluded lists no language and
    no pattern tag twice (as [analyzeLanguages] and [analyzePatterns]
    return them), the [repoCount] of a language is the number of such
    records that have a row for it, the [repoCount] of a framework the
    number of such records that carry its tag, and neither exceeds
    [summary.totalRepos]. *)
Theorem repoCount_counts_repositories (repos : list Repo.t) :
  (forall r, In r repos -> Repo.excluded r = false -> analysed r) ->
  let p := buildSkillsProfile parseDate now repos in
  (forall name e,
      assoc name (Profile.languages p) = Some e ->
      LanguageEntry.repoCount e = reposWhere (hasLanguage name) repos /\
      LanguageEntry.repoCount e <= Summary.totalRepos (Profile.summary p)) /\
  (forall name e,
      In (name, e) (Profile.frameworks p) ->
      FrameworkEntry.repoCount e = reposWhere (hasPattern (FrameworkEntry.key e)) repos /\
      FrameworkEntry.repoCount e <= Summary.totalRepos (Profile.summary p)).
Proof.
  intros Hrepos. cbv zeta.
  assert (Hinc : forall r, In r (filter included repos) -> analysed r).
  { intros r Hr. apply filter_In in Hr. destruct Hr as [Hr Hi].
    apply Hrepos; [exact Hr |]. unfold included in Hi. now apply negb_true_iff in Hi. }
  assert (Htotal : Summary.totalRepos
                     (Profile.summary (buildSkillsProfile parseDate now repos))
                   = Z.of_nat (List.length repos)) by reflexivity.
  split.
  - intros name e He.
    assert (Hcount : LanguageEntry.repoCount e = reposWhere (hasLanguage name) repos).
    { rewrite languages_of_counts, assoc_map_languageOf in He.
      unfold aggregate in He.
      rewrite fold_addRepo_languageCounts, assoc_fold_addLanguage in He.
      cbn [languageCounts emptyAggregate assoc] in He.
      assert (Hlen : Z.of_nat (List.length (rowsOf name (languageRows repos)))
                     = reposWhere (hasLanguage name) repos).
      { unfold reposWhere, languageRows. f_equal. unfold rowsOf.
        apply filter_flat_map_length. intros r Hr.
        fold (rowsOf name (Repo.languages r)). rewrite filter_name_length.
        apply NoDup_filter_eqb. apply (Hinc r Hr). }
      destruct (rowsOf name (languageRows repos)) as [| l rs]; [discriminate He |].
      cbn [tally valueOr option_map] in He. injection He as <-.
      rewrite <- Hlen. reflexivity. }
    split; [exact Hcount |]. rewrite Hcount, Htotal. apply reposWhere_le.
  - intros name e Hin.
    destruct (framework_entry_origin _ _ _ _ _ Hin) as [info [_ [_ [_ Hocc]]]].
    assert (Hcount : FrameworkEntry.repoCount e
                     = reposWhere (hasPattern (FrameworkEntry.key e)) repos).
    { rewrite Hocc. unfold occurrences, reposWhere, patternRows. f_equal.
      apply filter_flat_map_length. intros r Hr.
      apply NoDup_filter_eqb. apply (Hinc r Hr). }
    split; [exact Hcount |]. rewrite Hcount, Htotal. apply reposWhere_le.
Qed.

End Pipeline.

Lemma analysis_frameworks_witness :
  let p := Skills.buildSkillsProfile Examples.noDate 0 [ManifestSamples.analysedRepo] in
  (forall name e, In (name, e) (Profile.frameworks p) ->
                  In (FrameworkEntry.key e) patternVocabulary) /\
  assoc "Express.js" (Profile.frameworks p) = None /\
  assoc "Fastify" (Profile.frameworks p) = None.
Proof.
  apply (@analysis_frameworks Examples.noDate 0 [ManifestSamples.analysedRepo]).
  intros r [<- | []] _.
  exists (ManifestSamples.hasPaths ["test"; "Dockerfile"]),
         (Jobs.Parsed ManifestSamples.webPackage).
  reflexivity.
Defined.

Lemma repoCount_counts_repositories_witness :
  let p := Skills.buildSkillsProfile Examples.noDate 0
             [ManifestSamples.analysedRepo; Examples.goRepo; Examples.apiRepo] in
  (forall name e,
      assoc name (Profile.languages p) = Some e ->
      LanguageEntry.repoCount e
      = reposWhere (hasLanguage name)
                   [ManifestSamples.analysedRepo; Examples.goRepo; Examples.apiRepo] /\
      LanguageEntry.repoCount e <= Summary.totalRepos (Profile.summary p)) /\
  (forall name e,
      In (name, e) (Profile.frameworks p) ->
      FrameworkEntry.repoCount e
      = reposWhere (hasPattern (FrameworkEntry.key e))
                   [ManifestSamples.analysedRepo; Examples.goRepo; Examples.apiRepo] /\
      FrameworkEntry.repoCount e <= Summary.totalRepos (Profile.summary p)).
Proof.
  apply (@repoCount_counts_repositories Examples.noDate 0
           [ManifestSamples.analysedRepo; Examples.goRepo; Examples.apiRepo]).
  intros r [<- | [<- | [<- | []]]] He; [| discriminate He |];
    (split; vm_compute; repeat constructor; cbn; intuition discriminate).
Defined.

(** ** From ingestion to matching *)

Section IngestThenMatch.
Import Jobs.

Ltac bind_ok H :=
  match type of H with
  | bind ?m _ = Ok _ =>
      let E := fresh "E" in
      destruct m eqn:E; cbn [bind] in H; [| discriminate H]
  end.

Lemma normalizeJob_matchable now (raw : value) (rec : Job.t) :
  normalizeJob now raw = Ok rec -> plainTexts raw = true -> matchable rec = true.
Proof.
  intros H Hp. destruct (value_is_null raw) as [-> | Hnn]; [discriminate H |].
  unfold normalizeJob in H. rewrite (idOf_eq Hnn), !(get_field _ Hnn) in H.
  cbn [bind] in H. bind_ok H. bind_ok H. bind_ok H. bind_ok H.
  injection H as <-. unfold matchable. cbn [Job.description Job.location].
  unfold plainTexts in Hp. apply andb_prop in Hp. destruct Hp as [Hd Hl].
  apply andb_true_intro. split.
  - destruct (field raw "description") as [[| b | n | s | l | fs] |];
      try discriminate Hd; cbn; try reflexivity.
    now destruct (negb (String.eqb s EmptyString)).
  - destruct (field raw "location") as [[| b | n | s | l | fs] |];
      try discriminate Hl; cbn; try reflexivity.
    now destruct (negb (String.eqb s EmptyString)).
Qed.

Lemma ingestStep_records now (st st' : IngestState) (raw : value) (rec : Job.t) :
  ingestStep now st raw = Ok st' ->
  In rec (existingJobs st') ->
  In rec (existingJobs st) \/ normalizeJob now raw = Ok rec.
Proof.
  unfold ingestStep. intros H Hin. bind_ok H.
  destruct (negb (valid a)); [injection H as <-; now left |].
  bind_ok H. destruct (has (existingIds st) (Job.id a0)); injection H as <-;
    cbn [existingJobs] in Hin; [now left |].
  apply in_app_or in Hin. destruct Hin as [Hin | [<- | []]]; [now left | now right].
Qed.

Lemma ingestLoop_records now (raws : list value) :
  forall (st st' : IngestState) (rec : Job.t),
    ingestLoop now st raws = Ok st' ->
    In rec (existingJobs st') ->
    In rec (existingJobs st) \/ exists raw, In raw raws /\ normalizeJob now raw = Ok rec.
Proof.
  induction raws as [| raw raws IH]; intros st st' rec H Hin.
  - injection H as <-. now left.
  - cbn [ingestLoop] in H. bind_ok H.
    destruct (IH _ _ _ H Hin) as [Hrec | [raw' [Hraw' Hn]]].
    + destruct (@ingestStep_records _ _ _ _ _ E Hrec) as [Hst | Hn]; [now left |].
      right. exists raw. cbn. auto.
    + right. exists raw'. cbn. auto.
Qed.

(** X23. Matching after ingestion does not throw on postings that follow
    the schema: when the stored jobs are ones the matcher takes, and
    every raw entry of the payload has a string (or nothing) for its
    description and its location, the collection that
    [ingestJobsFromFile] saves goes through [matchJobsToProfile] for any
    profile and any preferences, with one result for every stored job. *)
Theorem ingest_then_match now (data : value) (raws : list value)
        (stored stored' : list Job.t) (report : IngestResults)
        (profile : Profile.t) (preferences : Preferences) :
  rawJobsOf data = Ok raws ->
  forallb plainTexts raws = true ->
  forallb matchable stored = true ->
  ingestJobsFromFile now (Parsed data) stored = (Ok report, stored') ->
  exists matches,
    matchJobsToProfile stored' profile preferences = Ok matches /\
    List.length matches = List.length stored'.
Proof.
  intros Eraws Hraws Hstored H. unfold ingestJobsFromFile in H.
  rewrite Eraws in H. cbn [bind] in H.
  destruct (ingestLoop now _ raws) as [st |] eqn:Eloop; [| discriminate H].
  injection H as _ <-.
  assert (Hall : forall j, In j (existingJobs st) ->
                           exists m, matchOne profile preferences j = Ok m).
  { intros j Hj. apply matchable_matchOne.
    destruct (@ingestLoop_records _ _ _ _ _ Eloop Hj) as [Hold | [raw [Hraw Hn]]].
    - cbn [existingJobs] in Hold. rewrite forallb_forall in Hstored. now apply Hstored.
    - rewrite forallb_forall in Hraws. eapply normalizeJob_matchable; eauto. }
  destruct (mapM_total _ _ Hall) as [ms [Hms Hlen]].
  unfold matchJobsToProfile. rewrite Hms. cbn [bind].
  eexists. split; [reflexivity |].
  rewrite <- Hlen. apply Permutation_length, Permutation_sym, sortDesc_perm.
Qed.

Lemma ingest_then_match_witness :
  exists report stored' matches,
    ingestJobsFromFile Examples.clock (Parsed Examples.scenarioBatch) [Examples.tsJob]
    = (Ok report, stored') /\
    matchJobsToProfile stored' Examples.tsProfile Examples.noPreferences = Ok matches /\
    List.length matches = List.length stored'.
Proof.
  destruct (ingestJobsFromFile Examples.clock (Parsed Examples.scenarioBatch)
                               [Examples.tsJob]) as [[report | e] stored'] eqn:E.
  - destruct (@ingest_then_match Examples.clock Examples.scenarioBatch _ [Examples.tsJob]
                stored' report Examples.tsProfile Examples.noPreferences
                eq_refl eq_refl eq_refl E) as [matches [Hm Hlen]].
    exists report, stored', matches. auto.
  - vm_compute in E. discriminate E.
Defined.

(** A number for the description passes validation and normalization
    and is stored as it is; the matcher then throws on the whole
    collection. *)
Example number_description_breaks_matching :
  exists report stored',
    ingestJobsFromFile Examples.clock
                       (Parsed (JArr [Examples.postingAa; PipelineSamples.numberDescription]))
                       []
    = (Ok report, stored') /\
    added report = 2 /\
    matchJobsToProfile stored' Examples.tsProfile Examples.noPreferences
    = Throw "TypeError: toLowerCase is not a function".
Proof.
  eexists. eexists. split; [vm_compute; reflexivity |].
  split; vm_compute; reflexivity.
Qed.

End IngestThenMatch.

(** ** The dependency manifests *)

Section Substrings.

Lemma prefix_spec (a s : string) : prefix a s = true <-> exists b, s = a ++ b.
Proof.
  revert s. induction a as [| c a IH]; intros s.
  - split; [intros _; now exists s | intros _; now destruct s].
  - destruct s as [| c' s]; cbn [prefix].
    + split; [discriminate | intros [b Hb]; discriminate Hb].
    + destruct (Ascii.ascii_dec c c') as [<- | Hne].
      * rewrite IH. split; intros [b Hb]; exists b; [now rewrite Hb | now injection Hb].
      * split; [discriminate | intros [b Hb]; injection Hb; congruence].
Qed.

Lemma includes_spec (s sub : string) :
  includes s sub = true <-> exists a b, s = a ++ sub ++ b.
Proof.
  induction s as [| c s IH]; cbn [includes]; rewrite orb_true_iff, prefix_spec.
  - split.
    + intros [[b Hb] | H]; [| discriminate H]. now exists EmptyString, b.
    + intros [a [b H]]. left. destruct a; [now exists b | discriminate H].
  - rewrite IH. split.
    + intros [[b Hb] | [a [b H]]]; [now exists EmptyString, b |].
      exists (String c a), b. cbn. now rewrite H.
    + intros [a [b H]]. destruct a as [| c' a]; [left; now exists b |].
      right. cbn in H. injection H as _ H. now exists a, b.
Qed.

Lemma append_assoc (a b c : string) : (a ++ b) ++ c = a ++ b ++ c.
Proof. induction a as [| x a IH]; cbn; [| rewrite IH]; reflexivity. Qed.

Lemma append_empty_r (a : string) : a ++ EmptyString = a.
Proof. induction a as [| x a IH]; cbn; [| rewrite IH]; reflexivity. Qed.

(** What occurs in a part of [s] occurs in [s]. *)
Lemma includes_trans (s r x : string) :
  includes s r = true -> includes r x = true -> includes s x = true.
Proof.
  rewrite !includes_spec. intros [a [b ->]] [a' [b' ->]].
  exists (a ++ a'), (b' ++ b). now rewrite !append_assoc.
Qed.

Lemma includes_absent (s r x : string) :
  includes s r = true -> includes s x = false -> includes r x = false.
Proof.
  intros Hr Hx. apply not_true_is_false. intros H.
  rewrite (includes_trans _ _ _ Hr H) in Hx. discriminate Hx.
Qed.

Lemma trimStart_part (s : string) : exists a, s = a ++ trimStart s.
Proof.
  induction s as [| c s [a IH]]; [now exists EmptyString |].
  cbn [trimStart]. destruct (isSpace c); [| now exists EmptyString].
  exists (String c a). cbn. now rewrite <- IH.
Qed.

Lemma trimEnd_part (s : string) : exists b, s = trimEnd s ++ b.
Proof.
  induction s as [| c s [b IH]]; [now exists EmptyString |].
  cbn [trimEnd]. destruct (trimEnd s) as [| c' t'] eqn:E.
  - destruct (isSpace c).
    + now exists (String c s).
    + exists b. cbn. now rewrite IH.
  - exists b. cbn. now rewrite IH.
Qed.

Lemma includes_trim (s : string) : includes s (trim s) = true.
Proof.
  apply includes_spec. unfold trim.
  destruct (trimStart_part s) as [a Ha]. destruct (trimEnd_part (trimStart s)) as [b Hb].
  exists a, b. now rewrite <- Hb.
Qed.

End Substrings.

Section Manifests.
Import Dependencies.

Lemma beforeSep_part (sep s : string) : exists b, s = beforeSep sep s ++ b.
Proof.
  induction s as [| c s [b IH]]; cbn [beforeSep].
  - destruct (prefix sep EmptyString); now exists EmptyString.
  - destruct (prefix sep (String c s)); [now exists (String c s) |].
    exists b. cbn. now rewrite <- IH.
Qed.

Lemma includes_beforeSep (sep s : string) : includes s (beforeSep sep s) = true.
Proof.
  apply includes_spec. destruct (beforeSep_part sep s) as [b Hb].
  now exists EmptyString, b.
Qed.

Lemma prefix_append (a s b : string) : prefix a s = true -> prefix a (s ++ b) = true.
Proof.
  rewrite !prefix_spec. intros [x ->]. exists (x ++ b). apply append_assoc.
Qed.

Lemma prefix_empty (sep : string) : sep <> EmptyString -> prefix sep EmptyString = false.
Proof. destruct sep; [congruence | reflexivity]. Qed.

(** The part before the separator holds no separator. *)
Lemma beforeSep_clean (sep s : string) :
  sep <> EmptyString -> includes (beforeSep sep s) sep = false.
Proof.
  intros Hsep. induction s as [| c s IH]; cbn [beforeSep].
  - rewrite (prefix_empty Hsep). cbn [includes]. now rewrite (prefix_empty Hsep).
  - destruct (prefix sep (String c s)) eqn:E.
    + cbn [includes]. now rewrite (prefix_empty Hsep).
    + cbn [includes]. rewrite IH, orb_false_r.
      apply not_true_is_false. intros H.
      destruct (beforeSep_part sep s) as [b Hb].
      apply (prefix_append _ _ b) in H.
      change (String c (beforeSep sep s) ++ b) with (String c (beforeSep sep s ++ b)) in H.
      rewrite <- Hb in H. congruence.
Qed.

Lemma trim_fixed_nonEmpty (s : string) :
  Analyzer.nonEmpty (trim s) = true -> trim s <> EmptyString /\ trim (trim s) = trim s.
Proof.
  intros H. split; [| apply trim_idempotent].
  unfold Analyzer.nonEmpty in H. apply negb_true_iff in H. now apply String.eqb_neq.
Qed.

Lemma uniq_ownKeys_NoDup (ks : list string) : NoDup (Manifest.ownKeys ks).
Proof.
  unfold Manifest.ownKeys. set (u := uniq [] ks).
  assert (Hu : NoDup u) by apply uniq_NoDup.
  apply NoDup_app.
  - apply (Permutation_NoDup (sortDesc_perm _ _)). now apply NoDup_filter.
  - now apply NoDup_filter.
  - intros k Hk Hk'.
    apply (Permutation_in k (Permutation_sym (sortDesc_perm _ _))) in Hk.
    apply filter_In in Hk. apply filter_In in Hk'.
    destruct Hk as [_ H1]. destruct Hk' as [_ H2]. rewrite H1 in H2. discriminate H2.
Qed.

(** X24. The names that [analyzeDependencies] returns: an npm name comes
    once; a Python name is not empty, carries no surrounding white space
    and holds neither [==] nor [>=]; a Rust name is not empty, carries
    no surrounding white space, holds no [=] and does not start with
    [#]; a Go name is not empty and holds no blank. *)
Theorem analyzeDependencies_names (packageJson : Jobs.FileContent)
        (requirements cargoToml goMod : option string) :
  let deps := analyzeDependencies packageJson requirements cargoToml goMod in
  NoDup (npm deps) /\
  Forall (fun d => d <> EmptyString /\ trim d = d /\
                   includes d "==" = false /\ includes d ">=" = false) (python deps) /\
  Forall (fun d => d <> EmptyString /\ trim d = d /\
                   includes d "=" = false /\ startsWith "#" d = false) (rust deps) /\
  Forall (fun d => d <> EmptyString /\ includes d " " = false) (go deps).
Proof.
  cbv zeta. cbn [analyzeDependencies npm python rust go].
  split; [| split; [| split]].
  - unfold npmDeps. destruct packageJson as [| reason | pkg]; try constructor.
    unfold Manifest.allDeps.
    destruct (get pkg "dependencies") as [d |]; cbn [bind]; [| constructor].
    destruct (get pkg "devDependencies") as [d' |]; cbn [bind]; [| constructor].
    apply uniq_ownKeys_NoDup.
  - destruct requirements as [content |]; [| constructor]. cbn [textDeps].
    apply Forall_forall. intros d Hd. unfold pythonDeps in Hd.
    apply filter_In in Hd. destruct Hd as [Hd Hne].
    apply in_map_iff in Hd. destruct Hd as [line [<- _]]. unfold pythonName in *.
    destruct (trim_fixed_nonEmpty _ Hne) as [H1 H2].
    split; [exact H1 | split; [exact H2 | split]].
    + apply (includes_absent _ _ _ (includes_trim _)).
      apply (includes_absent _ _ _ (includes_beforeSep ">=" _)).
      apply beforeSep_clean. discriminate.
    + apply (includes_absent _ _ _ (includes_trim _)).
      apply beforeSep_clean. discriminate.
  - destruct cargoToml as [content |]; [| constructor]. cbn [textDeps].
    unfold rustDeps. destruct (rustSection content) as [section |]; [| constructor].
    apply Forall_forall. intros d Hd.
    apply filter_In in Hd. destruct Hd as [Hd Hf].
    apply andb_prop in Hf. destruct Hf as [Hne Hhash].
    apply in_map_iff in Hd. destruct Hd as [line [<- _]]. unfold rustName in *.
    destruct (trim_fixed_nonEmpty _ Hne) as [H1 H2].
    split; [exact H1 | split; [exact H2 | split]].
    + apply (includes_absent _ _ _ (includes_trim _)).
      apply beforeSep_clean. discriminate.
    + now apply negb_true_iff.
  - destruct goMod as [content |]; [| constructor]. cbn [textDeps].
    unfold goDeps. destruct (goSection content) as [section |]; [| constructor].
    apply Forall_forall. intros d Hd.
    apply filter_In in Hd. destruct Hd as [Hd Hne].
    apply in_map_iff in Hd. destruct Hd as [line [<- _]]. unfold goName in *.
    split.
    + unfold Analyzer.nonEmpty in Hne. apply negb_true_iff in Hne.
      now apply String.eqb_neq.
    + apply beforeSep_clean. discriminate.
Qed.

Lemma afterMarker_none (marker s : string) :
  afterMarker marker s = None <-> includes s marker = false.
Proof.
  induction s as [| c s IH]; cbn [afterMarker includes].
  - destruct (prefix marker EmptyString); cbn; split; congruence.
  - destruct (prefix marker (String c s)); cbn [orb]; [split; discriminate | exact IH].
Qed.

Lemma afterMarker_length (marker s r : string) :
  afterMarker marker s = Some r -> (String.length marker <= String.length s)%nat.
Proof.
  induction s as [| c s IH]; cbn [afterMarker].
  - destruct (prefix marker EmptyString) eqn:E; [| discriminate].
    intros _. destruct marker; [cbn; lia | discriminate E].
  - destruct (prefix marker (String c s)) eqn:E.
    + intros _. apply prefix_spec in E. destruct E as [b ->].
      rewrite length_append. lia.
    + intros H. specialize (IH H). cbn [String.length]. lia.
Qed.

Lemma prefix_append_inv (marker : string) :
  forall s x, prefix marker (s ++ x) = true ->
              (String.length marker <= String.length s)%nat -> prefix marker s = true.
Proof.
  induction marker as [| a marker IH]; intros s x H Hlen.
  - now destruct s.
  - destruct s as [| b s]; [cbn in Hlen; lia |].
    cbn [append prefix] in *. destruct (Ascii.ascii_dec a b); [| discriminate H].
    apply (IH s x H). cbn in Hlen. lia.
Qed.

Lemma dropChars_append (marker : string) :
  forall s x, prefix marker s = true ->
              dropChars (String.length marker) (s ++ x)
              = dropChars (String.length marker) s ++ x.
Proof.
  induction marker as [| a marker IH]; intros s x H; [reflexivity |].
  destruct s as [| b s]; [discriminate H |].
  cbn [prefix] in H. destruct (Ascii.ascii_dec a b); [| discriminate H].
  cbn [String.length append dropChars]. now apply IH.
Qed.

(** Text added after the marker does not move the first occurrence. *)
Lemma afterMarker_append (marker s r x : string) :
  afterMarker marker s = Some r -> afterMarker marker (s ++ x) = Some (r ++ x).
Proof.
  revert r. induction s as [| c s IH]; intros r; cbn [afterMarker].
  - destruct (prefix marker EmptyString) eqn:E; [| discriminate].
    intros H. injection H as <-. destruct marker; [| discriminate E].
    cbn. now destruct x.
  - destruct (prefix marker (String c s)) eqn:E.
    + intros H. injection H as <-. cbn [append]. fold (String c s ++ x).
      change (String c (s ++ x)) with (String c s ++ x).
      assert (E' : afterMarker marker (String c s ++ x)
                   = Some (dropChars (String.length marker) (String c s ++ x))).
      { cbn [append afterMarker].
        change (String c (s ++ x)) with (String c s ++ x).
        now rewrite (prefix_append _ _ x E). }
      rewrite E'. now rewrite (dropChars_append _ _ x E).
    + intros H. cbn [append afterMarker].
      assert (E' : prefix marker (String c (s ++ x)) = false).
      { apply not_true_is_false. intros Hp.
        change (String c (s ++ x)) with (String c s ++ x) in Hp.
        apply prefix_append_inv in Hp; [congruence |].
        apply afterMarker_length in H. cbn [String.length]. lia. }
      rewrite E'. now apply IH.
Qed.

Lemma prefix_char (c a : ascii) (t : string) :
  prefix (String c EmptyString) (String a t)
  = if Ascii.ascii_dec c a then true else false.
Proof. cbn. destruct (Ascii.ascii_dec c a); [now destruct t | reflexivity]. Qed.

(** What follows a one-character separator is not read. *)
Lemma beforeSep_cut (c : ascii) (r x : string) :
  beforeSep (String c EmptyString) (r ++ String c x) = beforeSep (String c EmptyString) r.
Proof.
  induction r as [| a r IH].
  - cbn [append beforeSep]. rewrite prefix_char.
    destruct (Ascii.ascii_dec c c); [reflexivity | congruence].
  - cbn [append beforeSep]. rewrite !prefix_char.
    destruct (Ascii.ascii_dec c a); [reflexivity | now rewrite IH].
Qed.

Lemma beforeSep_closed (c : ascii) (r x : string) :
  includes r (String c EmptyString) = true ->
  includes (r ++ x) (String c EmptyString) = true /\
  beforeSep (String c EmptyString) (r ++ x) = beforeSep (String c EmptyString) r.
Proof.
  intros H. apply includes_spec in H. destruct H as [a [b ->]].
  split.
  - apply includes_spec. exists a, (b ++ x). now rewrite !append_assoc.
  - change (String c EmptyString ++ b) with (String c b).
    rewrite append_assoc. change (String c b ++ x) with (String c (b ++ x)).
    now rewrite !beforeSep_cut.
Qed.

(** X25. What [analyzeDependencies] reads of [Cargo.toml] and [go.mod]:
    without a [[dependencies]] table, or without a [require (] block that
    is closed, the list is empty; the Rust names come from the text
    between the first [[dependencies]] and the next opening bracket, so
    anything from a further bracket on leaves them as they are; the Go
    names come from the first [require (] block, and nothing after its
    closing parenthesis is read. *)
Theorem manifest_sections (content rest : string) :
  (includes content "[dependencies]" = false -> rustDeps content = []) /\
  (includes content "[dependencies]" = true ->
   rustDeps (content ++ "[" ++ rest) = rustDeps content) /\
  (includes content "require (" = false -> goDeps content = []) /\
  (forall section, goSection content = Some section ->
                   goDeps (content ++ rest) = goDeps content).
Proof.
  split; [| split; [| split]].
  - intros H. apply afterMarker_none in H. unfold rustDeps, rustSection. now rewrite H.
  - intros H. unfold rustDeps, rustSection.
    destruct (afterMarker "[dependencies]" content) as [r |] eqn:E.
    + rewrite (afterMarker_append _ _ ("[" ++ rest) E).
      change ("[" ++ rest) with (String "[" rest). now rewrite beforeSep_cut.
    + apply afterMarker_none in E. congruence.
  - intros H. apply afterMarker_none in H. unfold goDeps, goSection. now rewrite H.
  - intros section H. unfold goDeps, goSection in *.
    destruct (afterMarker "require (" content) as [r |] eqn:E; [| discriminate H].
    rewrite (afterMarker_append _ _ rest E).
    destruct (includes r ")") eqn:Ei; [| discriminate H].
    destruct (beforeSep_closed ")" r rest Ei) as [-> ->]. reflexivity.
Qed.

Lemma manifest_sections_witness :
  rustDeps (DependencySamples.cargoToml ++ "[" ++ "workspace]") = ["tokio"; "serde"] /\
  goDeps (DependencySamples.goMod ++ "require (x v1)")
  = ["github.com/pkg/errors"; "golang.org/x/text"].
Proof.
  destruct (manifest_sections DependencySamples.cargoToml "workspace]") as [_ [Hr _]].
  destruct (manifest_sections DependencySamples.goMod "require (x v1)") as [_ [_ [_ Hg]]].
  split.
  - rewrite Hr; reflexivity.
  - destruct (goSection DependencySamples.goMod) as [section |] eqn:E;
      [| discriminate E].
    rewrite (Hg section eq_refl). reflexivity.
Defined.

End Manifests.

(** ** The record of a history *)

Section HistoryRecord.
Import Analyzer.

Lemma spanChars_spec (p : ascii -> bool) (s : string) :
  let (a, b) := spanChars p s in
  s = a ++ b /\ allChars p a = true /\
  match b with
  | EmptyString => True
  | String c _ => p c = false
  end.
Proof.
  induction s as [| c s IH]; cbn [spanChars]; [repeat split |].
  destruct (p c) eqn:Ec.
  - destruct (spanChars p s) as [a b]. destruct IH as [-> [Ha Hb]].
    cbn. rewrite Ec. repeat split; assumption.
  - cbn. repeat split. exact Ec.
Qed.

Lemma digitsValue_nonneg (s : string) : forall acc, 0 <= acc -> 0 <= digitsValue acc s.
Proof.
  induction s as [| c s IH]; intros acc Hacc; cbn [digitsValue]; [exact Hacc |].
  destruct (isDigit c) eqn:Ec; [| exact Hacc].
  apply IH. unfold isDigit in Ec. apply andb_prop in Ec. destruct Ec as [E1 _].
  apply Z.leb_le in E1. lia.
Qed.

Lemma parseInt_digits (s : string) :
  s <> EmptyString -> allDigits s = true -> parseInt s = Int (digitsValue 0 s).
Proof.
  destruct s as [| c s]; [congruence |]. intros _ H.
  unfold allDigits in H. cbn [allChars] in H. apply andb_prop in H. destruct H as [Hc _].
  unfold parseInt.
  assert (Hsp : isSpace c = false).
  { destruct c as [[] [] [] [] [] [] [] []]; try reflexivity; discriminate Hc. }
  cbn [trimStart]. rewrite Hsp.
  destruct c as [[] [] [] [] [] [] [] []]; try discriminate Hc;
    cbn [startsWithDigit]; rewrite ?Hc; reflexivity.
Qed.

Lemma matchAuthorLine_ok (line : string) (a : Author) :
  matchAuthorLine line = Some a -> authorOk a.
Proof.
  unfold matchAuthorLine.
  pose proof (spanChars_spec isDigit (trim line)) as Hd.
  destruct (spanChars isDigit (trim line)) as [digits rest].
  destruct Hd as [_ [Hdigits _]].
  pose proof (spanChars_spec isSpace rest) as Hs.
  destruct (spanChars isSpace rest) as [blank name].
  destruct Hs as [_ [_ Hname]].
  destruct (String.eqb_spec digits EmptyString) as [| Hd]; [discriminate |].
  destruct (String.eqb_spec blank EmptyString) as [| Hb]; [discriminate |].
  destruct (String.eqb_spec name EmptyString) as [| Hn]; [discriminate |].
  cbn [orb].
  destruct (existsb isLineTerminator (list_ascii_of_string name)) eqn:Et; [discriminate |].
  intros H. injection H as <-. unfold authorOk. cbn [authorName commits].
  split; [exact Hn | split; [| split; [exact Et |]]].
  - destruct name as [| c name]; [reflexivity |]. cbn. now rewrite Hname.
  - exists (digitsValue 0 digits). split.
    + now apply parseInt_digits.
    + apply digitsValue_nonneg. lia.
Qed.

Lemma parseAuthors_ok (out : string) : Forall authorOk (parseAuthors out).
Proof.
  unfold parseAuthors. apply Forall_forall. intros a Ha.
  apply somes_In in Ha. destruct Ha as [line [_ Hline]].
  now apply matchAuthorLine_ok in Hline.
Qed.

Variable execSync : GitCommand -> exc string.
Variable now : Z.
Variable parseDate : string -> num.

(** X26. In every record that [analyzeGitHistory] returns, the last and
    first commit dates and the branch are trimmed texts, and every
    author has a name that is not empty, starts with no white space and
    holds no line break, with a commit count that is a number (never
    [NaN]) and not negative; a line of the log that does not read as a
    count, white space and a name gives no author. *)
Theorem history_record (h : GitHistory) :
  analyzeGitHistory execSync now parseDate = Ok h ->
  trimmedText (lastCommit h) /\ trimmedText (firstCommit h) /\
  trimmedText (currentBranch h) /\
  forall l, authors h = Some l -> Forall authorOk l.
Proof.
  unfold analyzeGitHistory.
  destruct (historyBody execSync now parseDate) as [h' |] eqn:Eb; cbn [try_catch];
    intros H; injection H as <-.
  - unfold historyBody in Eb.
    destruct (execSync LastCommitDate) as [o1 |]; [| discriminate Eb].
    destruct (execSync FirstCommitDate) as [o2 |]; [| discriminate Eb].
    destruct (execSync CommitCount) as [o3 |]; [| discriminate Eb].
    destruct (execSync CurrentBranch) as [o4 |]; [| discriminate Eb].
    cbn [bind] in Eb. destruct (remoteInfo execSync) as [hr rb].
    destruct (execSync AuthorLog) as [o5 |]; [| discriminate Eb].
    cbn [bind] in Eb. injection Eb as <-.
    cbn [lastCommit firstCommit currentBranch authors]. unfold trimmedText.
    repeat split; try (intros text E; injection E as <-; apply trim_idempotent).
    intros l E. injection E as <-. apply parseAuthors_ok.
  - unfold trimmedText. cbn. repeat split; intros; discriminate.
Qed.

End HistoryRecord.

Lemma history_record_witness :
  exists h,
    Analyzer.analyzeGitHistory Examples.noUpstream Examples.fiveDaysLater Examples.knownDates
    = Ok h /\
    Analyzer.authors h
    = Some [ {| Analyzer.authorName := "Ann Lee"; Analyzer.commits := Int 40 |};
             {| Analyzer.authorName := "Bob"; Analyzer.commits := Int 2 |} ] /\
    forall l, Analyzer.authors h = Some l -> Forall authorOk l.
Proof.
  destruct (Analyzer.analyzeGitHistory Examples.noUpstream Examples.fiveDaysLater
                                       Examples.knownDates) as [h |] eqn:E;
    [| discriminate E].
  exists h. split; [reflexivity |].
  destruct (@history_record Examples.noUpstream Examples.fiveDaysLater Examples.knownDates
              h E) as [_ [_ [_ Ha]]].
  split; [| exact Ha]. vm_compute in E. injection E as <-. reflexivity.
Defined.

(** ** The profile on screen *)

Section Screen.
Import Display.

(** X27. [formatSkillsForDisplay] shows up to three sections, in the
    order Languages, Frameworks & Libraries, Domain Expertise, each
    exactly when the profile has a language, a framework or a domain. The
    Languages section lists the language-level entries only, once each
    and from the highest [repoCount] down (so it is shown without items
    for a profile of markup and styling languages alone); the frameworks
    section lists every framework in that order; the domains are listed
    as they are. *)
Theorem formatSkillsForDisplay_sections (profile : Profile.t) :
  let sections := formatSkillsForDisplay profile in
  map title sections
  = ((if Jobs.isEmpty (Profile.languages profile) then [] else ["Languages"])
     ++ (if Jobs.isEmpty (Profile.frameworks profile) then []
         else ["Frameworks & Libraries"])
     ++ (if Jobs.isEmpty (Profile.domains profile) then [] else ["Domain Expertise"]))%list /\
  (Jobs.isEmpty (Profile.languages profile) = false ->
   exists ranked,
     sectionItems "Languages" sections = Some (map languageLabel ranked) /\
     Permutation (filter Skills.isLanguageLevel (Profile.languages profile)) ranked /\
     descending languageRepoCount ranked) /\
  (Jobs.isEmpty (Profile.frameworks profile) = false ->
   exists ranked,
     sectionItems "Frameworks & Libraries" sections = Some (map frameworkLabel ranked) /\
     Permutation (Profile.frameworks profile) ranked /\
     descending frameworkRepoCount ranked) /\
  (Jobs.isEmpty (Profile.domains profile) = false ->
   sectionItems "Domain Expertise" sections = Some (Profile.domains profile)).
Proof.
  cbv zeta. unfold formatSkillsForDisplay.
  split; [| split; [| split]].
  - destruct (Jobs.isEmpty (Profile.languages profile)),
      (Jobs.isEmpty (Profile.frameworks profile)),
      (Jobs.isEmpty (Profile.domains profile)); reflexivity.
  - intros ->. eexists. split; [reflexivity |].
    split; [apply sortDesc_perm | apply sortDesc_descending].
  - intros ->. eexists. split.
    + destruct (Jobs.isEmpty (Profile.languages profile)); reflexivity.
    + split; [apply sortDesc_perm | apply sortDesc_descending].
  - intros ->.
    destruct (Jobs.isEmpty (Profile.languages profile)),
      (Jobs.isEmpty (Profile.frameworks profile)); reflexivity.
Qed.

Lemma formatSkillsForDisplay_sections_witness :
  sectionItems "Languages"
               (formatSkillsForDisplay
                  (Skills.buildSkillsProfile Examples.noDate 0 [DisplaySamples.markupRepo]))
  = Some [] /\
  sectionItems "Domain Expertise"
               (formatSkillsForDisplay
                  (Skills.buildSkillsProfile Examples.noDate 0
                                             [Examples.webRepo; Examples.apiRepo]))
  = Some ["DevOps"; "Frontend Development"].
Proof.
  destruct (formatSkillsForDisplay_sections
              (Skills.buildSkillsProfile Examples.noDate 0 [DisplaySamples.markupRepo]))
    as [_ [Hl _]].
  destruct (formatSkillsForDisplay_sections
              (Skills.buildSkillsProfile Examples.noDate 0
                                         [Examples.webRepo; Examples.apiRepo]))
    as [_ [_ [_ Hd]]].
  split.
  - destruct (Hl eq_refl) as [ranked [Hitems [Hperm _]]]. rewrite Hitems.
    apply Permutation_nil in Hperm. now rewrite Hperm.
  - exact (Hd eq_refl).
Defined.

End Screen.

(** ** Reading back a line of the author log *)

Section AuthorLine.
Import Analyzer.

Lemma digitsValue_digit (acc : Z) (c : ascii) (t : string) :
  isDigit c = true ->
  digitsValue acc (String c t) = digitsValue (10 * acc + (charCode c - 48)) t.
Proof. intros H. cbn [digitsValue]. now rewrite H. Qed.

Lemma digitsValue_uint_acc (d : Decimal.uint) :
  forall acc : positive,
    digitsValue (Z.pos acc) (DecimalString.NilEmpty.string_of_uint d)
    = Z.pos (Pos.of_uint_acc d acc).
Proof.
  induction d; intros acc;
    cbn [DecimalString.NilEmpty.string_of_uint Pos.of_uint_acc];
    try reflexivity;
    rewrite digitsValue_digit by reflexivity; rewrite <- IHd; f_equal;
    try lia;
    match goal with
    | |- context [charCode ?c - 48] =>
        let v := eval vm_compute in (charCode c - 48) in
        change (charCode c - 48) with v
    end; lia.
Qed.

Lemma digitsValue_uint (d : Decimal.uint) :
  digitsValue 0 (DecimalString.NilEmpty.string_of_uint d) = Z.of_N (Pos.of_uint d).
Proof.
  induction d; cbn [DecimalString.NilEmpty.string_of_uint Pos.of_uint];
    try reflexivity;
    rewrite digitsValue_digit by reflexivity;
    [exact IHd | apply (digitsValue_uint_acc d) ..].
Qed.

Lemma uint_digits (d : Decimal.uint) :
  allDigits (DecimalString.NilEmpty.string_of_uint d) = true.
Proof. induction d; cbn; try reflexivity; exact IHd. Qed.

(** The decimal form of a natural number is a non-empty run of digits
    that [parseInt] reads back. *)
Lemma decimal_digits (n : Z) :
  0 <= n ->
  decimal n <> EmptyString /\ allDigits (decimal n) = true /\ digitsValue 0 (decimal n) = n.
Proof.
  intros Hn. unfold decimal. destruct n as [| p | p]; [now repeat split | | lia].
  cbn [Z.to_int DecimalString.NilZero.string_of_int].
  pose proof (DecimalPos.Unsigned.of_to p) as Hp.
  assert (Hs : DecimalString.NilZero.string_of_uint (Pos.to_uint p)
               = DecimalString.NilEmpty.string_of_uint (Pos.to_uint p)).
  { destruct (Pos.to_uint p); [discriminate Hp | reflexivity ..]. }
  rewrite Hs. split; [| split].
  - destruct (Pos.to_uint p); [discriminate Hp | discriminate ..].
  - apply uint_digits.
  - now rewrite digitsValue_uint, Hp.
Qed.

Lemma spanChars_append (p : ascii -> bool) (a b : string) :
  allChars p a = true ->
  match b with
  | EmptyString => True
  | String c _ => p c = false
  end ->
  spanChars p (a ++ b) = (a, b).
Proof.
  intros Ha Hb. induction a as [| c a IH]; cbn [append].
  - destruct b as [| c b]; [reflexivity |]. cbn [spanChars]. now rewrite Hb.
  - cbn [allChars] in Ha. apply andb_prop in Ha. destruct Ha as [Hc Ha].
    cbn [spanChars]. now rewrite Hc, (IH Ha).
Qed.

Lemma trimStart_padding (pad s : string) :
  allChars isSpace pad = true -> trimStart (pad ++ s) = trimStart s.
Proof.
  induction pad as [| c pad IH]; [reflexivity |]. cbn [allChars append trimStart].
  intros H. apply andb_prop in H. destruct H as [-> H]. now apply IH.
Qed.

Lemma trimEnd_append (a name : string) :
  name <> EmptyString -> trimEnd name = name -> trimEnd (a ++ name) = a ++ name.
Proof.
  intros Hne Hname. induction a as [| c a IH]; [exact Hname |].
  cbn [append trimEnd]. rewrite IH.
  destruct (a ++ name) eqn:E; [| reflexivity].
  destruct a; [cbn in E; congruence | discriminate E].
Qed.

Lemma trim_fixed_parts (name : string) :
  trim name = name -> trimEnd name = name /\ headNotSpace name = true.
Proof.
  intros H. split.
  - rewrite <- H at 1. unfold trim. rewrite trimEnd_idempotent. exact H.
  - rewrite <- H. unfold trim. apply trimEnd_head, trimStart_head.
Qed.

Lemma digit_not_space (c : ascii) : isDigit c = true -> isSpace c = false.
Proof. destruct c as [[] [] [] [] [] [] [] []]; try reflexivity; discriminate. Qed.

(** X28. The author log is read back: a line made of white-space
    padding, the decimal form of a count [n >= 0], a blank and a name
    (not empty, without surrounding white space and without a line
    break) gives the author with that name and [commits = n]. *)
Theorem author_line_read_back (pad name : string) (n : Z) :
  allChars isSpace pad = true -> 0 <= n ->
  name <> EmptyString -> trim name = name ->
  existsb isLineTerminator (list_ascii_of_string name) = false ->
  matchAuthorLine (countLine pad n name)
  = Some {| authorName := name; commits := Int n |}.
Proof.
  intros Hpad Hn Hne Htrim Hterm.
  destruct (@decimal_digits n Hn) as [Hd0 [Hdigits Hvalue]].
  destruct (@trim_fixed_parts name Htrim) as [Hend Hhead].
  assert (Hname : match name with
                  | EmptyString => True
                  | String c _ => isSpace c = false
                  end).
  { destruct name as [| c name]; [exact I |]. cbn in Hhead. now apply negb_true_iff. }
  unfold matchAuthorLine, countLine.
  assert (Ebody : trim (pad ++ decimal n ++ " " ++ name) = decimal n ++ " " ++ name).
  { unfold trim. rewrite (@trimStart_padding pad _ Hpad).
    assert (Es : trimStart (decimal n ++ " " ++ name) = decimal n ++ " " ++ name).
    { destruct (decimal n) as [| c t] eqn:E; [congruence |].
      cbn [append trimStart]. unfold allDigits in Hdigits. cbn [allChars] in Hdigits.
      apply andb_prop in Hdigits. destruct Hdigits as [Hc _].
      now rewrite (@digit_not_space c Hc). }
    rewrite Es, <- !append_assoc. now apply trimEnd_append. }
  rewrite Ebody.
  rewrite (@spanChars_append isDigit (decimal n) (" " ++ name) Hdigits eq_refl).
  change (" " ++ name) with (String " " EmptyString ++ name).
  rewrite (@spanChars_append isSpace (String " " EmptyString) name eq_refl Hname).
  destruct (String.eqb_spec (decimal n) EmptyString) as [E | _]; [congruence |].
  destruct (String.eqb_spec name EmptyString) as [E | _]; [congruence |].
  cbn [String.eqb orb]. rewrite Hterm.
  rewrite (@parseInt_digits (decimal n) Hd0 Hdigits), Hvalue. reflexivity.
Qed.

Lemma author_line_read_back_witness :
  Analyzer.matchAuthorLine (countLine "     " 40 "Ann Lee")
  = Some {| Analyzer.authorName := "Ann Lee"; Analyzer.commits := Int 40 |}.
Proof.
  apply (@author_line_read_back "     " "Ann Lee" 40);
    [reflexivity | lia | discriminate | reflexivity | reflexivity].
Defined.

End AuthorLine.

(** ** Ties in the ranking *)

Section Ties.
Import Jobs.

Lemma mapM_matchOne_filter profile preferences (k : Z) (jobs : list Job.t) :
  forall rs,
    mapM (matchOne profile preferences) jobs = Ok rs ->
    map job (filter (fun m => score m =? k) rs)
    = filter (scoreIs profile preferences k) jobs.
Proof.
  induction jobs as [| j jobs IH]; intros rs H.
  - injection H as <-. reflexivity.
  - cbn [mapM] in H.
    destruct (matchOne profile preferences j) as [r |] eqn:Er; [| discriminate H].
    destruct (mapM (matchOne profile preferences) jobs) as [rs' |]; [| discriminate H].
    cbn [bind] in H. injection H as <-. cbn [filter]. unfold scoreIs at 1. rewrite Er.
    destruct (matchOne_fields _ _ _ Er) as [Hj _].
    destruct (score r =? k); cbn [map]; rewrite (IH rs' eq_refl); [now rewrite Hj | reflexivity].
Qed.

(** X29. The ranking of [matchJobsToProfile] is stable: among the
    results, the jobs of one final score come in the order that they
    have in the job collection. *)
Theorem matchJobsToProfile_ties (jobs : list Job.t) (profile : Profile.t)
        (preferences : Preferences) (ms : list MatchResult) (k : Z) :
  matchJobsToProfile jobs profile preferences = Ok ms ->
  map job (filter (fun m => score m =? k) ms) = filter (scoreIs profile preferences k) jobs.
Proof.
  unfold matchJobsToProfile. intros H.
  destruct (mapM (matchOne profile preferences) jobs) as [rs |] eqn:E; [| discriminate H].
  cbn [bind] in H. injection H as <-.
  rewrite sortDesc_stable. now apply mapM_matchOne_filter.
Qed.

Lemma matchJobsToProfile_ties_witness :
  exists ms,
    matchJobsToProfile [Examples.goJob; Examples.tsJob; MatchSamples.aliasJob]
                       Examples.tsProfile Examples.noPreferences = Ok ms /\
    map score ms = [100; 0; 0] /\
    map job (filter (fun m => score m =? 0) ms) = [Examples.goJob; MatchSamples.aliasJob].
Proof.
  destruct (matchJobsToProfile [Examples.goJob; Examples.tsJob; MatchSamples.aliasJob]
                               Examples.tsProfile Examples.noPreferences)
    as [ms |] eqn:E; [| discriminate E].
  exists ms. split; [reflexivity |].
  rewrite (@matchJobsToProfile_ties _ _ _ ms 0 E).
  split; [| reflexivity]. vm_compute in E. injection E as <-. reflexivity.
Defined.

End Ties.
